(* ===== verification/_CoqProject ===== *)
-Q . S2P
Prelude.v
Types.v
Rtp.v
Flv.v
AvPacket.v
Ffmpeg.v
AvFields.v
Tokio.v
Channels.v
FlvHub.v
Packetizer.v
Session.v
SessionSpec.v
Dispatcher.v
Control.v
Metrics.v
Nal.v
FlvMux.v
RtmpSource.v
Sanitize.v
Config.v
Settings.v
Hls.v
HlsMux.v
Sinks.v
Telemetry.v
Transcode.v
CodecIo.v
TranscodeRes.v
Pads.v
HlsPath.v
SegmentFs.v
Factory.v
Chain.v
Engine.v
RtspWire.v
Sdp.v
RtspSession.v
HttpFlv.v
HttpServer.v
FlvPath.v
RtmpSession.v
RtmpConn.v
RtpDemux.v
RtspChain.v
Grpc.v
StressTest.v
HlsVerify.v
StreamLife.v
RtmpPath.v
RtspPath.v
Main.v
