(* ===== verification/Prelude.v ===== *)
(** * livestream-rs

    livestream-rs takes live streams over RTMP and RTSP, relays them to RTMP and
    HTTP-FLV players, cuts them into HLS segments in an object store, and is driven
    over gRPC. This library models its own logic, translated from the Rust source
    under src/crates, src/src and src/tools, and proves what makes it correct. A few
    theorems state a behaviour of the code that differs from its documentation or
    from what it means to do; they say so.

    ** How the program fits together

    A gRPC call (Grpc.v) sends a control message to the RTMP or the RTSP server
    (Control.v). The server registers a session with a cancellation token and
    keeps a lifecycle handle for it (Session.v) in its map of pending handles. A
    publisher that connects (RtmpSession.v, RtspSession.v) takes the handle, marks
    the session connected and feeds a source; the pipeline (Pads.v, Factory.v,
    Chain.v, Engine.v) carries the packets through the processors to the FLV hub (FlvHub.v),
    which players subscribe to, and to the HLS segmenter and the object store
    (Hls.v, Sinks.v). When the handle ends, the token is cancelled, the events go
    to the dispatcher (Dispatcher.v) and a cleanup task removes the session.
    The process starts the servers, each of which may fail to bind, and drains them
    on a signal or an error (Main.v). The stress client in src/tools drives all of
    this from outside (StressTest.v).

    ** Files

    Each file models the Rust files it names at its top, with the names of the
    source: a struct is a Record, an enum an Inductive, a function or method a
    Definition or Fixpoint that takes and gives back the state it changes.

    - Prelude.v (this file): fallible results with the [let?] notation for the
      question mark operator, machine integers as [Z] with their ranges, byte
      strings and big-endian numbers, stores updated by location, rule induction
      for transition systems, tactics and the [lrs] hint database.
    - Types.v: codecs, parameters, packets, segments, and the MediaPacket trait as
      a class with instances (livestream-core/types.rs, livestream-codec).
    - Rtp.v, Flv.v, Nal.v: the wire formats (livestream-codec/rtp.rs;
      livestream-media/flv; the framings of H.264 units).
    - Tokio.v: what the code relies on of cancellation tokens and broadcast
      channels, as the classes TokenStore and BroadcastChan with their laws, and an
      implementation of each. Pads.v has the class of bounded queues, Channels.v
      that of a broadcast receiver and the wrapper around it (livestream-core/
      channel), RtmpConn.v those of the RTMP handshake and protocol session, and
      Ffmpeg.v that of FFmpeg's allocations and calls, CodecIo.v that of a codec
      that is sent to and received from. All clients are proved against the
      classes.
    - AvPacket.v, Ffmpeg.v, AvFields.v, Packetizer.v: livestream-media around FFmpeg:
      the fields of packets, frames, encoders and scalers and the conversions of
      convert.rs; what each wrapper allocates
      and frees, on every path, as programs over a ledger of live objects with a
      small separation logic (packet, frame, codec, decoder, encoder, scaler, bsf,
      context, rtp); stream collections, the FLV mapping and the FLV packetizer.
    - FlvHub.v, Session.v, Dispatcher.v, Control.v: the shared state of the servers
      (livestream-transport: flv, registry, lifecycle, dispatcher, protocol_server,
      controller, config). SessionSpec.v: the life cycle of a stream as a
      specification, which the registry with all its tasks refines. Metrics.v: the
      instruments of livestream-telemetry and the accept loop that records them.
    - RtmpSource.v, RtmpSession.v, RtmpConn.v: RTMP ingest and play (source/rtmp.rs,
      rtmp/), the last one with the handshake, the socket and the builders.
    - RtspWire.v, Sdp.v, RtspSession.v, RtpDemux.v: RTSP ingest (rtsp/,
      source/rtsp.rs, livestream-media/rtp.rs, processor/rtp_depack).
    - FlvMux.v, Transcode.v, Hls.v, Sinks.v, Sanitize.v: the processors and sinks of
      livestream-pipeline and src/infra/persistence.rs. HlsMux.v: the segmenter of
      Hls.v again, over the bytes FFmpeg's muxer writes through its callback into
      the shared buffer (context/hls_output.rs). CodecIo.v: the send and receive
      loops of encoder, decoder and bitstream filter. TranscodeRes.v: the transcoder
      of Transcode.v again, over the FFmpeg objects it owns. SegmentFs.v: the
      workspaces, the staging and the upload of segments over what the file system
      answers.
    - Pads.v, Factory.v, Engine.v: pads with demand, the task loops, the
      branches a stream gets and the execution of pipelines. Chain.v, RtspChain.v:
      the running pipelines, one task per processor and sink over the bounded pads
      between them, with their cancellations, panics and ends in any interleaving.
      FlvPath.v: the loop of sinks, the FLV sink, and what the hub and its players
      get of the tags. HlsPath.v: the HLS branch as one system, the segmenter and
      the MinIO sink in their own tasks over the staged files and the object store,
      whatever the file operations answer.
    - HttpFlv.v: HTTP-FLV players and the key frame recovery RTMP players share.
      HttpServer.v: the server around them, its routes, headers and permits.
    - StreamLife.v: the life of a stream from StartLivestream to the removal of its
      session, with the whole of an RTSP connection. RtmpPath.v, RtspPath.v: the
      sources as they are started and stopped, and what the frames of a connection
      become for a player, motion JPEG through the transcoder included.
    - Grpc.v: the control plane. Config.v: configuration and its validation;
      Settings.v: the layers it is read from.
      Main.v: start-up and shutdown of the process (src/src/main.rs). Telemetry.v:
      when and how telemetry is set up, and FFmpeg's log levels.
    - StressTest.v, HlsVerify.v: the stress client (src/tools), and its HLS check
      beside the branch of HlsPath.v.

    ** State and concurrency

    Shared objects are locations in stores, so aliasing is explicit: the lock of a
    descriptor is a location in [w_descs], a lifecycle handle an index of
    [w_lifecycles], a token a number of the token store, a channel of the
    dispatcher a location of [ed_store]. What tasks interleave is a step relation
    whose constructors are the operations ([session_step], [rtmp_step],
    [accept_step], the accesses of FlvHub.v) or a list of events ([Main.step],
    [connection_step], [chain_step], [rtsp_step], [branch_step]); the invariants
    hold for every interleaving. [session_step] has every operation of the registry
    with any arguments: it states what survives every use of it. Where a handler awaits in the middle and something can run in
    between, the parts are definitions of their own ([precreate_check] and
    [precreate_commit], [on_publish_requested] and [open_publisher],
    [cleanup_cancelled] and [cleanup_remove]).

    ** Outside code

    FFmpeg, rml_rtmp, rtsp-types, url, axum, tonic, the object store and the sockets are
    what their calls did: outcomes read from a list or given by a function that
    the definitions take as argument, classes with the laws their documentation
    states, or parameters of a Section (the AMF0 and base64 codecs,
    [av_rescale_q], the bitstream filter; the path that the url crate makes of the
    text of a URL, percent-encoded and normalised). No property assumes more of them than its
    statement says.

    ** What the theorems show

    Sessions: the registry agrees with its cleanup tasks under every interleaving
    and refines the life cycle of a stream, each handle announces its start and end
    at most once, a cancelled session leaves the registry, a TTL ends a session that nobody
    published, a handle has one owner, and a subscriber is told exactly about its
    stream. What precreating does on every branch, errors and replaced handles
    included: in two races an acknowledged session is cancelled by another handle's
    drop. A stream that is started, published and closed, over RTMP or RTSP, is
    announced once, relays its frames and leaves the id free for the next one.
    Connections: a connection limit is never exceeded; a publisher relays its media
    in order and leaves no session, handle or channel behind; a viewer changes
    nothing; an RTSP session records only what was announced; the stop of an RTSP
    stream does not reach its connection; the endpoints that are advertised lead to
    the session (over RTSP only for ids that a URL need not encode), as does the URL
    the stress client builds from them; the HTTP server
    routes, refuses and answers as it should; a watcher sees its states once and in order; list, info and health
    show the same sessions; what the handshake loses of a pipelining client.
    Process: what is advertised of servers that did not start, that the main task
    ends within its drain timeout, and what its final report counts.
    Media: FLV tags, RTP packets, NAL framings and RTSP messages survive their round
    trips and readers lose no byte (or exactly which); players get the cached
    headers first, also when they race with them, and recover at key frames; the
    RTMP relay keeps every unit; what a publisher sends, over RTMP or RTSP, reaches
    a player in order, and all of it unless an inner pad fills up or a task is cut
    off, motion JPEG as H.264 (without the configuration of AAC audio over
    RTSP); the transcoder sends its header first, and over FFmpeg's objects it does
    what it does over outcomes and frees what it made; a segment that is reported as
    staged is there whole and alone, and two streams share files and objects exactly when their
    sanitized ids are equal; the HLS segments partition the packets with
    increasing times, every one of them is uploaded, given up, refused or waiting,
    with its file and its object accordingly also when a playlist cannot be written
    or a file not removed, and a session that ends by its packets, its last writes
    working, leaves its final playlist in the store; the bytes of each segment with
    a frame are one complete file of its frames, unless a rollover fails; the stress
    client's check tells what was stored.
    FFmpeg: packets convert back and forth, every packet of the demultiplexer
    belongs to a stream of its context, the packetizer follows the last headers
    of the stream that were accepted, the wrappers free what they allocated, but for four paths, and codecs
    are sent to and received from as their contract asks.
    Pipeline: what a fan-out delivers when pads are full or closed, what the running
    tasks deliver, drop and drain, when the HLS branch starts, and the bound on a
    shutdown.

    ** Bounds and fuel

    Recursion is structural wherever the code consumes input. Where it is not, the
    fuel is the length of what is consumed: [run_rtsp_handshake] one turn per read
    ([run_rtsp_handshake_fuel]: any more gives the same result), [live_chunks] one
    chunk per event ([live_chunks_chunks]), [split_loop], [avcc_loop], [hex_loop] and
    [utf8_lossy_loop] the length of the data; [poll_cleanup] has one look per 10 ms
    of its 2 s timeout ([poll_cleanup_spec]), [gcd_loop] one step more than its
    divisor ([gcd_loop_gcd]); [handshake_loop] one turn per read, [recv] two turns
    ([recv_oldest]: any more give the same result). Integers that can wrap have their width written out.

    ** Not modelled

    The codecs, muxers and filters of FFmpeg itself; the OpenTelemetry and tracing
    crates behind Telemetry.v; what the config crate makes of a file or of the
    environment; the wire formats of HTTP, gRPC and RTMP chunks and how axum matches
    a path; the processes the stress client spawns; a file read while it is being
    written (each write, complete or cut off, is one step of HlsPath.v and of
    SegmentFs.v). Traits that
    only give access to a pointer, constructors that copy their arguments, and log
    lines have no definition of their own. *)
From stdpp Require Export prelude gmap strings relations.
#[export] Set Warnings "-notation-overridden".

Open Scope Z_scope.

(** [cbn] must not open the arithmetic of the guards. *)
#[global] Arguments Nat.ltb : simpl never.
#[global] Arguments Nat.leb : simpl never.
#[global] Arguments Nat.eqb : simpl never.
#[global] Arguments Nat.div : simpl never.
#[global] Arguments Nat.modulo : simpl never.
#[global] Arguments Z.ltb : simpl never.
#[global] Arguments Z.leb : simpl never.
#[global] Arguments Z.eqb : simpl never.
#[global] Arguments Z.mul : simpl never.
#[global] Arguments Z.add : simpl never.
#[global] Arguments Z.sub : simpl never.
#[global] Arguments Z.div : simpl never.
#[global] Arguments Z.modulo : simpl never.
#[global] Arguments Z.pow : simpl never.
#[global] Arguments Z.land : simpl never.
#[global] Arguments Z.lor : simpl never.
#[global] Arguments Z.shiftr : simpl never.
#[global] Arguments Z.shiftl : simpl never.
#[global] Arguments Z.of_nat : simpl never.
#[global] Arguments Z.max : simpl never.
#[global] Arguments Z.min : simpl never.

(** ** Fallible results *)

(** [anyhow::Result<A>]: the error type is an enumeration of the component. *)
Inductive result (E A : Type) : Type :=
| Ok (a : A)
| Err (e : E).
Arguments Ok {E A} a.
Arguments Err {E A} e.

Declare Scope lrs_scope.
Delimit Scope lrs_scope with lrs.
Open Scope lrs_scope.

(** The [?] operator of Rust on [Result]. *)
Definition res_bind {E A B} (r : result E A) (k : A -> result E B) : result E B :=
  match r with Ok a => k a | Err e => Err e end.
Notation "'let?' x ':=' r 'in' k" := (res_bind r (fun x => k))
  (at level 10, x name, r at level 100, k at level 200) : lrs_scope.
Notation "'let?' ' x ':=' r 'in' k" := (res_bind r (fun x => k))
  (at level 10, x pattern, r at level 100, k at level 200) : lrs_scope.

Definition is_ok {E A} (r : result E A) : bool :=
  match r with Ok _ => true | Err _ => false end.

Lemma res_bind_Ok {E A B} (r : result E A) (k : A -> result E B) b :
  res_bind r k = Ok b <-> exists a, r = Ok a /\ k a = Ok b.
Proof. destruct r; cbn; split; [eauto| |done|]; intros (?&?&?); congruence. Qed.

(** ** Machine integers, as [Z] with their width *)

Definition u8_max : Z := 255.
Definition u16_max : Z := 65535.
Definition u24_max : Z := 0xFFFFFF.
Definition u32_max : Z := 0xFFFFFFFF.
Definition u64_max : Z := 0xFFFFFFFFFFFFFFFF.
Definition i64_max : Z := 0x7FFFFFFFFFFFFFFF.
Definition i64_min : Z := - 0x8000000000000000.

(** A value of the unsigned type whose maximum is [m]. *)
Definition in_u (m z : Z) : Prop := 0 <= z <= m.
Definition in_i64 (z : Z) : Prop := i64_min <= z <= i64_max.

#[export] Instance in_u_dec m z : Decision (in_u m z).
Proof. unfold in_u. apply _. Defined.
#[export] Instance in_i64_dec z : Decision (in_i64 z).
Proof. unfold in_i64. apply _. Defined.

(** [saturating_sub] on an unsigned type. *)
Definition sat_sub (a b : Z) : Z := Z.max 0 (a - b).

(** ** Byte strings *)

Abbreviation bytes := (list Z).

(** Every element is a [u8]. *)
Definition bytes_ok (l : bytes) : Prop := Forall (in_u u8_max) l.

#[export] Instance bytes_ok_dec l : Decision (bytes_ok l).
Proof. unfold bytes_ok. apply _. Defined.

(** [data[i]]; every use in the development is guarded by a length test, as in
    the code, so the default is never observed. *)
Definition byte_at (l : bytes) (i : nat) : Z := nth i l 0.

(** [&data[a..b]]. *)
Definition slice {A} (a b : nat) (l : list A) : list A := take (b - a) (drop a l).

(** [to_be_bytes] of an [n]-byte unsigned integer and [from_be_bytes]. *)
Fixpoint be_bytes (n : nat) (z : Z) : bytes :=
  match n with
  | O => []
  | S m => (z / 256 ^ Z.of_nat m) mod 256 :: be_bytes m z
  end.

Fixpoint be_val_acc (acc : Z) (l : bytes) : Z :=
  match l with
  | [] => acc
  | b :: l' => be_val_acc (acc * 256 + b) l'
  end.
Definition be_val (l : bytes) : Z := be_val_acc 0 l.

(** ** Facts on bytes, decided by enumeration *)

(** A boolean property of every byte is checked on the 256 values: the bit
    fields of headers are reasoned about this way. *)
Lemma u8_enum (f : Z -> bool) :
  forallb f (seqZ 0 256) = true -> forall b, in_u u8_max b -> f b = true.
Proof.
  intros Hf b Hb. rewrite forallb_forall in Hf. apply Hf.
  apply list_elem_of_In, elem_of_seqZ. unfold in_u, u8_max in Hb. lia.
Qed.

Lemma bytes_ok_app l1 l2 : bytes_ok (l1 ++ l2) <-> bytes_ok l1 /\ bytes_ok l2.
Proof. apply Forall_app. Qed.

Lemma bytes_ok_cons b l : bytes_ok (b :: l) <-> in_u u8_max b /\ bytes_ok l.
Proof. apply Forall_cons. Qed.

(** Decided by evaluation on concrete bytes. *)
Lemma bytes_ok_of l : forallb (fun b => (0 <=? b) && (b <=? u8_max)) l = true -> bytes_ok l.
Proof. intros Hl. apply List.Forall_forall. intros b Hb. rewrite forallb_forall in Hl. apply Hl in Hb. unfold in_u. lia. Qed.

Lemma bytes_ok_take n l : bytes_ok l -> bytes_ok (take n l).
Proof. apply Forall_take. Qed.

Lemma bytes_ok_drop n l : bytes_ok l -> bytes_ok (drop n l).
Proof. apply Forall_drop. Qed.

Lemma byte_at_ok l i : bytes_ok l -> in_u u8_max (byte_at l i).
Proof.
  unfold byte_at. intros Hl. destruct (nth_in_or_default i l 0) as [Hin| ->].
  - rewrite (List.Forall_forall (in_u u8_max) l) in Hl. by apply Hl.
  - unfold in_u, u8_max. lia.
Qed.

Lemma byte_at_drop l n i : byte_at (drop n l) i = byte_at l (n + i).
Proof.
  unfold byte_at. revert l. induction n as [|n IH]; intros [|x l]; cbn; try done.
  by destruct i.
Qed.

Lemma byte_at_app_l l1 l2 i : (i < length l1)%nat -> byte_at (l1 ++ l2) i = byte_at l1 i.
Proof. intros. by apply app_nth1. Qed.

Lemma byte_at_app_r l1 l2 i : byte_at (l1 ++ l2) (length l1 + i) = byte_at l2 i.
Proof. by rewrite <- byte_at_drop, drop_app_length. Qed.

(** Two bytes read in place, as the bytes of the slice. *)
Lemma byte_at_pair l i : (i + 2 <= length l)%nat ->
  [byte_at l i; byte_at l (i + 1)] = slice i (i + 2) l.
Proof.
  intros Hi. unfold slice. replace (i + 2 - i)%nat with 2%nat by lia.
  rewrite <- (Nat.add_0_r i) at 1. rewrite <- !byte_at_drop.
  assert (length (drop i l) >= 2)%nat by (rewrite length_drop; lia).
  destruct (drop i l) as [|a [|b d]]; cbn in *; lia || done.
Qed.

(** ** Big-endian codecs *)

Lemma length_be_bytes n z : length (be_bytes n z) = n.
Proof. induction n; cbn; congruence. Qed.

Lemma bytes_ok_be_bytes n z : bytes_ok (be_bytes n z).
Proof.
  induction n as [|n IH]; [constructor|]. constructor; [|done].
  unfold in_u, u8_max. pose proof (Z.mod_pos_bound (z / 256 ^ Z.of_nat n) 256). lia.
Qed.

Lemma be_val_acc_app acc l1 l2 : be_val_acc acc (l1 ++ l2) = be_val_acc (be_val_acc acc l1) l2.
Proof. revert acc. induction l1; cbn; auto. Qed.

Lemma be_val_acc_be_bytes n : forall acc z,
  be_val_acc acc (be_bytes n z) = acc * 256 ^ Z.of_nat n + z mod 256 ^ Z.of_nat n.
Proof.
  induction n as [|n IH]; intros acc z; cbn [be_bytes be_val_acc].
  - rewrite Z.mod_1_r. cbn. lia.
  - rewrite IH, Nat2Z.inj_succ, Z.pow_succ_r by lia.
    rewrite (Z.mul_comm 256), (Z.rem_mul_r z (256 ^ Z.of_nat n) 256) by lia. lia.
Qed.

Lemma be_val_be_bytes n z : 0 <= z < 256 ^ Z.of_nat n -> be_val (be_bytes n z) = z.
Proof. intros Hz. unfold be_val. rewrite be_val_acc_be_bytes, Z.mod_small; lia. Qed.

Lemma be_val_acc_bound l : forall acc, bytes_ok l -> 0 <= acc ->
  0 <= be_val_acc acc l < (acc + 1) * 256 ^ Z.of_nat (length l).
Proof.
  induction l as [|b l IH]; intros acc Hl Hacc; cbn [be_val_acc length].
  - cbn. lia.
  - apply bytes_ok_cons in Hl as [Hb Hl]. unfold in_u, u8_max in Hb.
    specialize (IH (acc * 256 + b) Hl ltac:(lia)).
    rewrite Nat2Z.inj_succ, Z.pow_succ_r by lia. nia.
Qed.

Lemma be_val_bound l : bytes_ok l -> 0 <= be_val l < 256 ^ Z.of_nat (length l).
Proof. intros Hl. pose proof (be_val_acc_bound l 0 Hl ltac:(lia)). unfold be_val. lia. Qed.

Lemma be_bytes_acc l : forall acc, bytes_ok l -> 0 <= acc ->
  be_bytes (length l) (be_val_acc acc l) = l.
Proof.
  induction l as [|b l IH]; intros acc Hl Hacc; [done|].
  apply bytes_ok_cons in Hl as [Hb Hl]. unfold in_u, u8_max in Hb. cbn [length be_bytes be_val_acc].
  rewrite IH by (done || lia). f_equal.
  assert (be_val_acc (acc * 256 + b) l / 256 ^ Z.of_nat (length l) = acc * 256 + b) as ->.
  { pose proof (be_val_acc_bound l (acc * 256 + b) Hl ltac:(lia)) as Hub.
    assert ((acc * 256 + b) * 256 ^ Z.of_nat (length l) <= be_val_acc (acc * 256 + b) l).
    { clear Hub IH. generalize (acc * 256 + b) as a, Hl. clear. intros a Hl.
      revert a. induction l as [|x l IH]; intros a; cbn [be_val_acc length]; [cbn; lia|].
      apply bytes_ok_cons in Hl as [Hx Hl]. unfold in_u, u8_max in Hx.
      specialize (IH Hl (a * 256 + x)). rewrite Nat2Z.inj_succ, Z.pow_succ_r by lia. nia. }
    symmetry. apply Z.div_unique with (be_val_acc (acc * 256 + b) l
      - (acc * 256 + b) * 256 ^ Z.of_nat (length l)); lia. }
  symmetry. apply (Z.mod_unique_pos _ _ acc); lia.
Qed.

Lemma be_bytes_be_val l : bytes_ok l -> be_bytes (length l) (be_val l) = l.
Proof. intros Hl. by apply be_bytes_acc. Qed.

Lemma be_bytes_mod n z : be_bytes n (z mod 256 ^ Z.of_nat n) = be_bytes n z.
Proof.
  rewrite <- (be_bytes_be_val (be_bytes n z)) by apply bytes_ok_be_bytes.
  rewrite length_be_bytes. unfold be_val. by rewrite be_val_acc_be_bytes.
Qed.

(** ** Shifts, masks and disjoint bit fields *)

Lemma lor_shiftl_add a b n : 0 <= n -> 0 <= b < 2 ^ n -> Z.lor (Z.shiftl a n) b = a * 2 ^ n + b.
Proof.
  intros Hn Hb. assert (Z.land (Z.shiftl a n) b = 0) as H0.
  { apply Z.bits_inj_0. intros m. rewrite Z.land_spec.
    destruct (Z.ltb_spec m n); [by rewrite Z.shiftl_spec_low|].
    destruct (decide (b = 0)) as [->|]; [by rewrite Z.bits_0, andb_false_r|].
    rewrite (Z.bits_above_log2 b), andb_false_r; [done|lia|].
    apply Z.log2_lt_pow2; [lia|]. apply Z.lt_le_trans with (2 ^ n); [lia|].
    apply Z.pow_le_mono_r; lia. }
  by rewrite <- Z.add_nocarry_lor, Z.shiftl_mul_pow2 by done.
Qed.

Lemma lor_u16 a b : in_u u8_max b -> Z.lor (Z.shiftl a 8) b = be_val [a; b].
Proof.
  unfold in_u, u8_max. intros Hb. rewrite lor_shiftl_add by lia. unfold be_val, be_val_acc. lia.
Qed.

Lemma lor_u24 a b c : in_u u8_max b -> in_u u8_max c ->
  Z.lor (Z.lor (Z.shiftl a 16) (Z.shiftl b 8)) c = be_val [a; b; c].
Proof.
  unfold in_u, u8_max. intros Hb Hc.
  replace (Z.shiftl a 16) with (Z.shiftl (Z.shiftl a 8) 8) by (by rewrite Z.shiftl_shiftl by lia).
  rewrite <- Z.shiftl_lor, !lor_shiftl_add by lia. unfold be_val, be_val_acc. lia.
Qed.

Lemma land_ones_mod a n : 0 <= n -> Z.land a (2 ^ n - 1) = a mod 2 ^ n.
Proof. intros. by rewrite <- Z.land_ones, Z.ones_equiv, Z.sub_1_r by done. Qed.

Lemma land_ff a : Z.land a 0xff = a mod 256.
Proof. apply (land_ones_mod a 8). lia. Qed.

Lemma shiftr_div a n : 0 <= n -> Z.shiftr a n = a / 2 ^ n.
Proof. apply Z.shiftr_div_pow2. Qed.

(** ** Slices *)

Lemma length_slice {A} a b (l : list A) :
  (b <= length l)%nat -> length (slice a b l) = (b - a)%nat.
Proof. intros. unfold slice. rewrite length_take, length_drop. lia. Qed.

Lemma take_slice_drop {A} a b (l : list A) :
  (a <= b <= length l)%nat -> take a l ++ slice a b l ++ drop b l = l.
Proof.
  intros. unfold slice. rewrite <- (take_drop a l) at 4. f_equal.
  rewrite <- (take_drop (b - a) (drop a l)) at 2. f_equal.
  rewrite drop_drop. f_equal. lia.
Qed.

Lemma slice_app_exact {A} (l1 l2 l3 : list A) :
  slice (length l1) (length l1 + length l2) (l1 ++ l2 ++ l3) = l2.
Proof.
  unfold slice. rewrite drop_app_length.
  replace (length l1 + length l2 - length l1)%nat with (length l2) by lia.
  by rewrite take_app_length.
Qed.

Lemma bytes_ok_slice a b l : bytes_ok l -> bytes_ok (slice a b l).
Proof. intros. by apply bytes_ok_take, bytes_ok_drop. Qed.

(** ** Hints shared by the components *)

Create HintDb lrs.
#[export] Hint Resolve bytes_ok_take bytes_ok_drop bytes_ok_slice bytes_ok_be_bytes byte_at_ok : lrs.
Create Rewrite HintDb lrs.
#[export] Hint Rewrite length_be_bytes @length_app @length_take @length_drop : lrs.

Definition is_some {A} (o : option A) : bool := match o with Some _ => true | None => false end.

(** ** Counting *)

Definition countb {A} (f : A -> bool) (l : list A) : nat := length (List.filter f l).

Lemma countb_app {A} (f : A -> bool) l1 l2 : countb f (l1 ++ l2) = (countb f l1 + countb f l2)%nat.
Proof. unfold countb. by rewrite List.filter_app, length_app. Qed.

Lemma countb_cons {A} (f : A -> bool) a l : countb f (a :: l) = (Nat.b2n (f a) + countb f l)%nat.
Proof. unfold countb. cbn. by destruct (f a). Qed.

Lemma countb_alter {A} (f : A -> bool) (g : A -> A) i l a : l !! i = Some a ->
  (countb f (alter g i l) + Nat.b2n (f a) = countb f l + Nat.b2n (f (g a)))%nat.
Proof.
  revert i. induction l as [|x l IH]; intros [|i] Hi; [done..| |].
  - injection Hi as ->. change (alter g 0%nat (a :: l)) with (g a :: l). rewrite !countb_cons. lia.
  - change (alter g (S i) (x :: l)) with (x :: alter g i l). rewrite !countb_cons.
    specialize (IH i Hi). lia.
Qed.

(** ** Interleavings of two sequences of steps *)

Inductive interleave {A} : list A -> list A -> list A -> Prop :=
| il_nil : interleave [] [] []
| il_left a l1 l2 l : interleave l1 l2 l -> interleave (a :: l1) l2 (a :: l)
| il_right a l1 l2 l : interleave l1 l2 l -> interleave l1 (a :: l2) (a :: l).

(** ** Transition systems *)

Section Transition.
Context {S : Type} (step : S -> S -> Prop).

(** Rule induction in the form every component uses: an invariant of the
      steps holds in every state reachable from a state that has it. *)
Lemma rtc_invariant (I : S -> Prop) :
    (forall s s', I s -> step s s' -> I s') -> forall s s', I s -> rtc step s s' -> I s'.
Proof. intros Hstep s s' HI H. induction H; eauto. Qed.

(** A reflexive and transitive relation that contains the steps contains
      their closure. *)
Lemma rtc_related (R : S -> S -> Prop) :
    (forall s, R s s) -> (forall a b c, R a b -> R b c -> R a c) ->
    (forall s s', step s s' -> R s s') -> forall s s', rtc step s s' -> R s s'.
Proof. intros Hr Ht Hs s s' H. induction H; eauto. Qed.
End Transition.

(** ** Tactics *)

(** ** Splitting at a character *)

(** [str::split]. *)
Fixpoint split_char (sep : Ascii.ascii) (l : list Ascii.ascii) : list (list Ascii.ascii) :=
  match l with
  | [] => [[]]
  | c :: l =>
      if decide (c = sep) then [] :: split_char sep l
      else match split_char sep l with [] => [[c]] | p :: ps => (c :: p) :: ps end
  end.

Lemma split_char_segment sep l : Forall (fun c => c <> sep) l -> split_char sep l = [l].
Proof. induction 1 as [|c l Hc Hl IH]; cbn; [done|]. by rewrite decide_False, IH. Qed.

Lemma split_char_app sep a b : Forall (fun c => c <> sep) a -> split_char sep (a ++ sep :: b) = a :: split_char sep b.
Proof.
  induction 1 as [|c a Hc Ha IH]; cbn; [by rewrite decide_True|]. by rewrite decide_False, IH.
Qed.

Lemma split_char_ne sep l : split_char sep l <> [].
Proof. destruct l as [|c l]; cbn; [done|]. destruct (decide _); [done|]. by destruct (split_char sep l). Qed.

Lemma split_char_join sep a b : split_char sep (a ++ sep :: b) = split_char sep a ++ split_char sep b.
Proof.
  induction a as [|c a IH]; cbn; [by rewrite decide_True|]. rewrite IH. destruct (decide _); [done|].
  pose proof (split_char_ne sep a). by destruct (split_char sep a).
Qed.

(** ** Concatenations *)

Lemma string_app_assoc s1 s2 s3 : s1 +:+ (s2 +:+ s3) = (s1 +:+ s2) +:+ s3.
Proof.
  induction s1 as [|c s1 IH]; [done|].
  change (String c (s1 +:+ (s2 +:+ s3)) = String c ((s1 +:+ s2) +:+ s3)). by rewrite IH.
Qed.

Lemma prefix_append p s : String.prefix p (p +:+ s) = true.
Proof.
  induction p as [|c p IH]; [by destruct s|].
  change ((if Ascii.ascii_dec c c then String.prefix p (p +:+ s) else false) = true). by destruct (Ascii.ascii_dec c c).
Qed.

Lemma prefix_common a b c : String.prefix (a +:+ b) (a +:+ c) = String.prefix b c.
Proof. induction a as [|x a IH]; [done|]. simpl. destruct (Ascii.ascii_dec x x); [exact IH|done]. Qed.

(** Linear arithmetic with divisions and remainders by constants. *)
Ltac lia_div := Z.to_euclidean_division_equations; lia.

(** Split the code's control flow: destruct the scrutinee of one match of the
    goal or of a hypothesis, keeping the equation. *)
Ltac split_match :=
  match goal with
  | |- context [match ?x with _ => _ end] => destruct x eqn:?
  | H : context [match ?x with _ => _ end] |- _ => destruct x eqn:?
  end.

(** Turn boolean comparisons in hypotheses into propositions. *)
Ltac to_prop :=
  repeat match goal with
  | H : (_ =? _) = true |- _ => apply Z.eqb_eq in H
  | H : (_ =? _) = false |- _ => apply Z.eqb_neq in H
  | H : (_ <? _) = true |- _ => apply Z.ltb_lt in H
  | H : (_ <? _) = false |- _ => apply Z.ltb_ge in H
  | H : (_ <=? _) = true |- _ => apply Z.leb_le in H
  | H : (_ <=? _) = false |- _ => apply Z.leb_gt in H
  | H : (_ =? _)%nat = true |- _ => apply Nat.eqb_eq in H
  | H : (_ =? _)%nat = false |- _ => apply Nat.eqb_neq in H
  | H : (_ <? _)%nat = true |- _ => apply Nat.ltb_lt in H
  | H : (_ <? _)%nat = false |- _ => apply Nat.ltb_ge in H
  | H : (_ <=? _)%nat = true |- _ => apply Nat.leb_le in H
  | H : (_ <=? _)%nat = false |- _ => apply Nat.leb_gt in H
  | H : negb _ = true |- _ => apply negb_true_iff in H
  | H : negb _ = false |- _ => apply negb_false_iff in H
  | H : _ && _ = true |- _ => apply andb_true_iff in H as [? ?]
  | H : _ || _ = false |- _ => apply orb_false_iff in H as [? ?]
  | H : bool_decide _ = true |- _ => apply bool_decide_eq_true in H
  | H : bool_decide _ = false |- _ => apply bool_decide_eq_false in H
  end.

(** Well-formedness of an explicit list of bytes. *)
Ltac solve_bytes :=
  unfold bytes_ok;
  repeat first [ apply Forall_nil_2 | apply Forall_cons_2; [solve [assumption | auto with lrs]|]
               | apply Forall_app_2 | assumption | solve [auto with lrs] ].
