(* ===== verification/Types.v ===== *)
(** * Shared data model
    The enumerations and records of [livestream-core/src/types.rs] and
    [livestream-codec/src/{packet,nal_data}.rs] that every component exchanges:
    [Codec], [Protocol], [CodecParams], [NalData], [EncodedPacket], [TsSegment]
    and the [MediaPacket] interface, which is a type class here. *)
From S2P Require Import Prelude.

(** ** Codecs and protocols *)

Inductive Codec := H264 | H265 | Aac | Mp3 | Opus | Av1 | Mjpeg.
Inductive Protocol := Rtmp | Rtsp | Hls | HttpFlv.
Inductive MediaType := Video | Audio.

#[export] Instance Codec_eq_dec : EqDecision Codec.
Proof. solve_decision. Defined.
#[export] Instance Protocol_eq_dec : EqDecision Protocol.
Proof. solve_decision. Defined.
#[export] Instance MediaType_eq_dec : EqDecision MediaType.
Proof. solve_decision. Defined.

Definition is_supported (c : Codec) : bool :=
  match c with H264 | Aac => true | _ => false end.

(** The codec split that [EncodedPacket::is_video], the demuxer and the
    deferred HLS builder all use. *)
Definition media_type_of_codec (c : Codec) : MediaType :=
  match c with H264 | H265 | Av1 | Mjpeg => Video | Aac | Mp3 | Opus => Audio end.

Record CodecParams := mkCodecParams {
  cp_codec : Codec;
  cp_media_type : MediaType;
  cp_clock_rate : Z;
  cp_extradata : option bytes;
}.

Definition new_video (codec : Codec) (clock_rate : Z) (extradata : option bytes) : CodecParams :=
  mkCodecParams codec Video clock_rate extradata.
Definition new_audio (codec : Codec) (clock_rate : Z) (extradata : option bytes) : CodecParams :=
  mkCodecParams codec Audio clock_rate extradata.
Definition cp_is_video (p : CodecParams) : bool := bool_decide (cp_media_type p = Video).
Definition cp_is_audio (p : CodecParams) : bool := bool_decide (cp_media_type p = Audio).

(** ** Durations: [std::time::Duration] in nanoseconds *)

Definition duration_max : Z := u64_max * 1000000000 + 999999999.
Definition from_millis (ms : Z) : Z := ms * 1000000.
Definition from_secs (s : Z) : Z := s * 1000000000.
Definition checked_mul (d n : Z) : option Z :=
  if d * n <=? duration_max then Some (d * n) else None.

(** ** NAL data *)

Inductive NalData := Avcc (b : bytes) | AnnexB (b : bytes).

Definition as_bytes (d : NalData) : bytes := match d with Avcc b | AnnexB b => b end.
Definition nal_len (d : NalData) : nat := length (as_bytes d).
Definition nal_is_empty (d : NalData) : bool := match as_bytes d with [] => true | _ => false end.
Definition is_avcc (d : NalData) : bool := match d with Avcc _ => true | AnnexB _ => false end.
Definition is_annex_b (d : NalData) : bool := match d with AnnexB _ => true | Avcc _ => false end.

(** ** Encoded packets *)

Record EncodedPacket := mkPacket {
  pk_codec : Codec;
  pk_stream_index : nat;
  pk_data : NalData;
  pk_pts_ms : option Z;
  pk_dts_ms : option Z;
  pk_is_keyframe : bool;
  pk_is_sequence_header : bool;
  pk_is_script_data : bool;
  pk_extradata : option bytes;
}.

Definition new_video_keyframe (data : bytes) (pts_ms dts_ms : Z) (stream_index : nat) : EncodedPacket :=
  mkPacket H264 stream_index (AnnexB data) (Some pts_ms) (Some dts_ms) true false false None.

Definition new_audio_packet (data : bytes) (pts_ms : Z) (stream_index : nat) : EncodedPacket :=
  mkPacket Aac stream_index (AnnexB data) (Some pts_ms) None false false false None.

Definition new_avc_sequence_header (sps pps : bytes) (stream_index : nat) : EncodedPacket :=
  mkPacket H264 stream_index (AnnexB []) None None true true false (Some (sps ++ pps)).

Definition new_aac_sequence_header (asc : bytes) (stream_index : nat) : EncodedPacket :=
  mkPacket Aac stream_index (AnnexB []) None None false true false (Some asc).

Definition is_video (p : EncodedPacket) : bool :=
  match pk_codec p with H264 | H265 | Av1 | Mjpeg => true | _ => false end.
Definition is_audio (p : EncodedPacket) : bool :=
  match pk_codec p with Aac | Opus | Mp3 => true | _ => false end.

(** ** TS segments *)

Record TsSegment := mkSegment {
  ts_path : string;
  ts_filename : string;
  ts_sequence : Z;
  ts_duration : Z;
  ts_is_final : bool;
}.

(** [u32::try_from(self.sequence).unwrap_or(u32::MAX)], then [checked_mul]. *)
Definition segment_timestamp (s : TsSegment) : option Z :=
  let sequence := if ts_sequence s <=? u32_max then ts_sequence s else u32_max in
  checked_mul (ts_duration s) sequence.

(** ** The [MediaPacket] trait *)

Class MediaPacket (T : Type) := {
  mp_codec_params : T -> list CodecParams;
  mp_is_keyframe : T -> bool;
  mp_byte_size : T -> nat;
  mp_timestamp : T -> option Z;
}.

#[export] Instance EncodedPacket_media : MediaPacket EncodedPacket := {
  mp_codec_params _ := [];
  mp_is_keyframe := pk_is_keyframe;
  mp_byte_size p := nal_len (pk_data p);
  mp_timestamp p := (fun ms => from_millis (Z.max ms 0)) <$> pk_pts_ms p;
}.

#[export] Instance TsSegment_media : MediaPacket TsSegment := {
  mp_codec_params _ := [];
  mp_is_keyframe _ := true;
  mp_byte_size _ := 0%nat;
  mp_timestamp := segment_timestamp;
}.

(** ** Lemmas *)

Lemma is_video_media_type p : is_video p = bool_decide (media_type_of_codec (pk_codec p) = Video).
Proof. unfold is_video. by destruct (pk_codec p). Qed.

Lemma is_audio_media_type p : is_audio p = bool_decide (media_type_of_codec (pk_codec p) = Audio).
Proof. unfold is_audio. by destruct (pk_codec p). Qed.

(** Every packet is either video or audio, never both. *)
Lemma is_video_is_audio p : is_video p = negb (is_audio p).
Proof. unfold is_video, is_audio. by destruct (pk_codec p). Qed.

(** The start time of a segment never exceeds what the unclamped product
    would be, and is exact while the playlist has fewer than 2^32 segments. *)
Lemma segment_timestamp_exact s t :
  0 <= ts_sequence s <= u32_max -> segment_timestamp s = Some t -> t = ts_duration s * ts_sequence s.
Proof.
  unfold segment_timestamp, checked_mul. intros [_ Hs] Ht.
  apply Z.leb_le in Hs. rewrite Hs in Ht. split_match; congruence.
Qed.
