(* ===== verification/Rtp.v ===== *)
(** * RTP packets
    [RtpPacket::new] and [parse_rtp_header] of [livestream-codec/src/rtp.rs],
    with the RFC 3550 wire layout they implement as the specification. *)
From S2P Require Import Prelude Types.

Record RtpPacket := mkRtpPacket {
  rp_payload_type : Z;
  rp_channel : Z;
  rp_rtp_timestamp : Z;
  rp_marker : bool;
  rp_data : bytes;
}.

Definition RtpPacket_new (payload_type channel rtp_timestamp : Z) (marker : bool)
    (sequence_number ssrc : Z) (payload : bytes) : RtpPacket :=
  let first_byte := 0x80 in
  let marker_pt := if marker then Z.lor 0x80 (Z.land payload_type 0x7F)
                   else Z.land payload_type 0x7F in
  let data := first_byte :: marker_pt :: be_bytes 2 sequence_number
              ++ be_bytes 4 rtp_timestamp ++ be_bytes 4 ssrc ++ payload in
  mkRtpPacket payload_type channel rtp_timestamp marker data.

#[export] Instance RtpPacket_media : MediaPacket RtpPacket := {
  mp_codec_params _ := [];
  mp_is_keyframe _ := false;
  mp_byte_size p := length (rp_data p);
  mp_timestamp _ := None;
}.

Record ParsedRtpHeader := mkParsedRtpHeader {
  hd_payload_type : Z;
  hd_marker : bool;
  hd_sequence_number : Z;
  hd_rtp_timestamp : Z;
  hd_ssrc : Z;
  hd_payload : bytes;
}.

(** The header length: fixed header, CSRC list, optional extension. *)
Definition rtp_header_len (data : bytes) (csrc_count : nat) (has_extension : bool) : option nat :=
  let header_len := (12 + csrc_count * 4)%nat in
  if has_extension then
    let ext_start := header_len in
    let ext_end := (ext_start + 4)%nat in
    if (length data <? ext_end)%nat then None
    else
      let extension_len := be_val [byte_at data (ext_start + 2); byte_at data (ext_start + 3)] in
      Some (ext_end + Z.to_nat extension_len * 4)%nat
  else Some header_len.

(** Strip the padding: the last byte counts the padding bytes, itself included. *)
Definition rtp_strip_padding (has_padding : bool) (payload : bytes) : option bytes :=
  if has_padding then
    pad_len ← last payload;
    let pad_len := Z.to_nat pad_len in
    if (pad_len =? 0)%nat || (length payload <? pad_len)%nat then None
    else Some (take (length payload - pad_len) payload)
  else Some payload.

Definition parse_rtp_header (data : bytes) : option ParsedRtpHeader :=
  if (length data <? 12)%nat then None else
  let first := byte_at data 0 in
  if negb (Z.shiftr first 6 =? 2) then None else
  let has_padding := negb (Z.land first 0x20 =? 0) in
  let has_extension := negb (Z.land first 0x10 =? 0) in
  let csrc_count := Z.to_nat (Z.land first 0x0F) in
  header_len ← rtp_header_len data csrc_count has_extension;
  if (length data <? header_len)%nat then None else
  payload ← rtp_strip_padding has_padding (drop header_len data);
  Some {|
    hd_payload_type := Z.land (byte_at data 1) 0x7F;
    hd_marker := negb (Z.land (byte_at data 1) 0x80 =? 0);
    hd_sequence_number := be_val [byte_at data 2; byte_at data 3];
    hd_rtp_timestamp := be_val [byte_at data 4; byte_at data 5; byte_at data 6; byte_at data 7];
    hd_ssrc := be_val [byte_at data 8; byte_at data 9; byte_at data 10; byte_at data 11];
    hd_payload := payload
  |}.

(** ** Specification: the RFC 3550 layout *)

(** The variable parts of a packet: CSRC list, extension (profile and words),
    padding bytes. *)
Record rtp_image := mkImage {
  im_csrc : bytes;
  im_ext : option (bytes * bytes);
  im_pad : option bytes;
}.

Definition image_ok (im : rtp_image) : Prop :=
  (exists k, length (im_csrc im) = (4 * k)%nat /\ (k <= 15)%nat) /\
  match im_ext im with
  | None => True
  | Some (profile, words) =>
      length profile = 2%nat /\ exists m, length words = (4 * m)%nat /\ Z.of_nat m <= u16_max
  end /\
  match im_pad im with
  | None => True
  | Some pad => exists p, last pad = Some p /\ Z.to_nat p = length pad
  end.

Definition rtp_first_byte (im : rtp_image) : Z :=
  128 + (if bool_decide (is_Some (im_pad im)) then 32 else 0)
  + (if bool_decide (is_Some (im_ext im)) then 16 else 0)
  + Z.of_nat (length (im_csrc im)) / 4.

Definition rtp_fixed (im : rtp_image) (h : ParsedRtpHeader) : bytes :=
  rtp_first_byte im
  :: ((if hd_marker h then 128 else 0) + hd_payload_type h)
  :: be_bytes 2 (hd_sequence_number h) ++ be_bytes 4 (hd_rtp_timestamp h)
  ++ be_bytes 4 (hd_ssrc h).

Definition rtp_ext_bytes (im : rtp_image) : bytes :=
  match im_ext im with
  | None => []
  | Some (profile, words) => profile ++ be_bytes 2 (Z.of_nat (length words) / 4) ++ words
  end.

Definition rtp_encode (im : rtp_image) (h : ParsedRtpHeader) : bytes :=
  rtp_fixed im h ++ im_csrc im ++ rtp_ext_bytes im ++ hd_payload h ++ default [] (im_pad im).

Definition header_ok (h : ParsedRtpHeader) : Prop :=
  in_u 127 (hd_payload_type h) /\ in_u u16_max (hd_sequence_number h) /\
  in_u u32_max (hd_rtp_timestamp h) /\ in_u u32_max (hd_ssrc h).

(** ** Lemmas on the bit fields *)

(** The four fields of a version-2 first byte, and the byte back from them. *)
Lemma first_byte_fields b : in_u u8_max b -> Z.shiftr b 6 = 2 ->
  b = 128 + (if negb (Z.land b 0x20 =? 0) then 32 else 0)
      + (if negb (Z.land b 0x10 =? 0) then 16 else 0) + Z.land b 0x0F
  /\ 0 <= Z.land b 0x0F <= 15.
Proof.
  intros Hb Hv.
  assert ((negb (Z.shiftr b 6 =? 2) ||
    ((b =? 128 + (if negb (Z.land b 0x20 =? 0) then 32 else 0)
      + (if negb (Z.land b 0x10 =? 0) then 16 else 0) + Z.land b 0x0F)
     && (0 <=? Z.land b 0x0F) && (Z.land b 0x0F <=? 15))) = true) as H.
  { revert b Hb Hv. intros b Hb _. revert b Hb. apply u8_enum. by vm_compute. }
  rewrite Hv in H. cbn in H. to_prop. lia.
Qed.

Lemma first_byte_build (p x : bool) (k : Z) : 0 <= k <= 15 ->
  let b := 128 + (if p then 32 else 0) + (if x then 16 else 0) + k in
  Z.shiftr b 6 = 2 /\ negb (Z.land b 0x20 =? 0) = p /\ negb (Z.land b 0x10 =? 0) = x
  /\ Z.land b 0x0F = k /\ in_u u8_max b.
Proof.
  intros Hk. assert (k ∈ seqZ 0 16) as Hin by (apply elem_of_seqZ; lia).
  revert k Hin Hk. rewrite <- Forall_forall. destruct p, x; repeat constructor; vm_compute; done.
Qed.

Lemma marker_fields b : in_u u8_max b ->
  b = (if negb (Z.land b 0x80 =? 0) then 128 else 0) + Z.land b 0x7F /\ 0 <= Z.land b 0x7F <= 127.
Proof.
  intros Hb.
  assert ((b =? (if negb (Z.land b 0x80 =? 0) then 128 else 0) + Z.land b 0x7F)
    && (0 <=? Z.land b 0x7F) && (Z.land b 0x7F <=? 127) = true) as H.
  { revert b Hb. apply u8_enum. by vm_compute. }
  to_prop. lia.
Qed.

Lemma marker_build (m : bool) pt : in_u 127 pt ->
  let b := (if m then 128 else 0) + pt in
  Z.land b 0x7F = pt /\ negb (Z.land b 0x80 =? 0) = m.
Proof.
  intros Hpt.
  assert ((if negb (pt <=? 127) then true else
    (Z.land ((if m then 128 else 0) + pt) 0x7F =? pt)
    && Bool.eqb (negb (Z.land ((if m then 128 else 0) + pt) 0x80 =? 0)) m) = true) as H.
  { assert (in_u u8_max pt) as Hb by (unfold in_u, u8_max in *; lia).
    clear Hpt. revert pt Hb. apply u8_enum. destruct m; by vm_compute. }
  unfold in_u in Hpt. destruct (Z.leb_spec pt 127); [|lia]. cbn in H.
  to_prop. split; [done|]. by apply eqb_prop.
Qed.

Lemma marker_pt_or (m : bool) pt : in_u u8_max pt ->
  (if m then Z.lor 0x80 (Z.land pt 0x7F) else Z.land pt 0x7F)
  = (if m then 128 else 0) + Z.land pt 0x7F.
Proof.
  intros Hpt. apply Z.eqb_eq. revert pt Hpt. apply u8_enum. destruct m; by vm_compute.
Qed.

(** ** Completeness: the parser inverts the layout *)

Lemma byte_at_two l1 a b l2 :
  [byte_at (l1 ++ a :: b :: l2) (length l1); byte_at (l1 ++ a :: b :: l2) (length l1 + 1)] = [a; b].
Proof.
  rewrite <- (Nat.add_0_r (length l1)) at 1. by rewrite !byte_at_app_r.
Qed.

Lemma strip_padding_build payload pad :
  match pad with None => True | Some l => exists p, last l = Some p /\ Z.to_nat p = length l end ->
  rtp_strip_padding (bool_decide (is_Some pad)) (payload ++ default [] pad) = Some payload.
Proof.
  unfold rtp_strip_padding. destruct pad as [l|]; cbn.
  - intros (p & Hp & Hlen).
    rewrite last_app, Hp. cbn. rewrite Hlen, length_app.
    assert (length l <> 0)%nat by (by destruct l).
    rewrite (proj2 (Nat.eqb_neq _ _)), (proj2 (Nat.ltb_ge _ _)) by lia. cbn.
    by rewrite Nat.add_sub, take_app_length.
  - intros _. by rewrite app_nil_r.
Qed.

Lemma header_len_build im h :
  image_ok im ->
  rtp_header_len (rtp_encode im h) (length (im_csrc im) / 4) (bool_decide (is_Some (im_ext im)))
  = Some (12 + length (im_csrc im) + length (rtp_ext_bytes im))%nat.
Proof.
  intros ((k & Hk & Hk15) & Hext & _). unfold rtp_header_len.
  assert (length (im_csrc im) / 4 * 4 = length (im_csrc im))%nat as ->.
  { rewrite Hk, (Nat.mul_comm 4 k), Nat.div_mul; lia. }
  unfold rtp_encode, rtp_ext_bytes. destruct (im_ext im) as [[profile words]|].
  2:{ cbn. f_equal. lia. }
  rewrite (bool_decide_true (is_Some (Some _))) by eauto. destruct Hext as (Hp & m & Hm & Hm16).
  destruct profile as [|p0 [|p1 [|]]]; try done.
  set (tail := hd_payload h ++ default [] (im_pad im)).
  assert (length (rtp_fixed im h) = 12)%nat as H12 by reflexivity.
  rewrite (proj2 (Nat.ltb_ge _ _)) by (autorewrite with lrs; cbn; lia).
  unfold u16_max in Hm16.
  assert (0 <= Z.of_nat (length words) / 4 < 256 ^ Z.of_nat 2) as Hw.
  { rewrite Hm, Nat2Z.inj_mul, Z.mul_comm, Z.div_mul by lia. cbn. lia. }
  replace (12 + length (im_csrc im) + 2)%nat
    with (length (rtp_fixed im h ++ im_csrc im ++ [p0; p1])) by (autorewrite with lrs; cbn; lia).
  replace (12 + length (im_csrc im) + 3)%nat
    with (length (rtp_fixed im h ++ im_csrc im ++ [p0; p1]) + 1)%nat by (autorewrite with lrs; cbn; lia).
  replace (rtp_fixed im h ++ im_csrc im ++ ([p0; p1] ++ be_bytes 2 _ ++ words) ++ tail)
    with ((rtp_fixed im h ++ im_csrc im ++ [p0; p1]) ++ be_bytes 2 (Z.of_nat (length words) / 4)
          ++ words ++ tail) by (by rewrite <- !app_assoc).
  cbn [be_bytes app]. rewrite byte_at_two.
  change [?a; ?b] with (be_bytes 2 (Z.of_nat (length words) / 4)).
  rewrite be_val_be_bytes by done. f_equal.
  autorewrite with lrs. cbn [length].
  rewrite Hm, Nat2Z.inj_mul, (Z.mul_comm (Z.of_nat 4)), Z.div_mul, Nat2Z.id by lia. lia.
Qed.

Lemma rtp_encode_length im h :
  (length (rtp_encode im h) >= 12 + length (im_csrc im) + length (rtp_ext_bytes im))%nat.
Proof. unfold rtp_encode. autorewrite with lrs. cbn. lia. Qed.

Lemma rtp_encode_drop im h :
  drop (12 + length (im_csrc im) + length (rtp_ext_bytes im)) (rtp_encode im h)
  = hd_payload h ++ default [] (im_pad im).
Proof.
  unfold rtp_encode. rewrite !app_assoc, <- !(app_assoc _ (hd_payload h)).
  replace (12 + length (im_csrc im) + length (rtp_ext_bytes im))%nat
    with (length ((rtp_fixed im h ++ im_csrc im) ++ rtp_ext_bytes im))
    by (autorewrite with lrs; cbn; lia).
  apply drop_app_length.
Qed.

Lemma rtp_encode_fields im h : let d := rtp_encode im h in
  byte_at d 0 = rtp_first_byte im
  /\ byte_at d 1 = (if hd_marker h then 128 else 0) + hd_payload_type h
  /\ [byte_at d 2; byte_at d 3] = be_bytes 2 (hd_sequence_number h)
  /\ [byte_at d 4; byte_at d 5; byte_at d 6; byte_at d 7] = be_bytes 4 (hd_rtp_timestamp h)
  /\ [byte_at d 8; byte_at d 9; byte_at d 10; byte_at d 11] = be_bytes 4 (hd_ssrc h).
Proof. repeat split. Qed.

Lemma rtp_first_byte_fields im : image_ok im ->
  Z.shiftr (rtp_first_byte im) 6 = 2
  /\ negb (Z.land (rtp_first_byte im) 0x20 =? 0) = bool_decide (is_Some (im_pad im))
  /\ negb (Z.land (rtp_first_byte im) 0x10 =? 0) = bool_decide (is_Some (im_ext im))
  /\ Z.to_nat (Z.land (rtp_first_byte im) 0x0F) = (length (im_csrc im) / 4)%nat.
Proof.
  intros ((k & Hk & Hk15) & _). unfold rtp_first_byte.
  assert (Z.of_nat (length (im_csrc im)) / 4 = Z.of_nat k) as ->.
  { rewrite Hk, Nat2Z.inj_mul, Z.mul_comm, Z.div_mul; lia. }
  destruct (first_byte_build (bool_decide (is_Some (im_pad im))) (bool_decide (is_Some (im_ext im)))
    (Z.of_nat k) ltac:(lia)) as (Hv & Hp & Hx & Hc & _).
  rewrite Hv, Hp, Hx, Hc, Nat2Z.id. repeat split; auto.
  by rewrite Hk, (Nat.mul_comm 4 k), Nat.div_mul by lia.
Qed.

Lemma parse_rtp_encode im h :
  image_ok im -> header_ok h -> parse_rtp_header (rtp_encode im h) = Some h.
Proof.
  intros Him (Hpt & Hseq & Hts & Hssrc). unfold parse_rtp_header.
  pose proof (rtp_encode_length im h) as Hlen.
  rewrite (proj2 (Nat.ltb_ge _ _)) by lia.
  destruct (rtp_encode_fields im h) as (E0 & E1 & E2 & E4 & E8).
  destruct (rtp_first_byte_fields im Him) as (Hv & Hp & Hx & Hc).
  rewrite E0, E1, E2, E4, E8, Hv, Hp, Hx, Hc, header_len_build by done.
  change (negb (2 =? 2)) with false. cbn [mbind option_bind].
  rewrite (proj2 (Nat.ltb_ge _ _)), rtp_encode_drop, strip_padding_build
    by (apply Him || lia). cbn [mbind option_bind].
  destruct (marker_build (hd_marker h) _ Hpt) as [-> ->].
  unfold in_u, u16_max, u32_max in *. rewrite !be_val_be_bytes by (cbn; lia). by destruct h.
Qed.

(** ** Soundness: what is accepted has the layout *)

Lemma fixed_header_split data :
  (12 <= length data)%nat -> bytes_ok data ->
  data = byte_at data 0 :: byte_at data 1
    :: be_bytes 2 (be_val [byte_at data 2; byte_at data 3])
    ++ be_bytes 4 (be_val [byte_at data 4; byte_at data 5; byte_at data 6; byte_at data 7])
    ++ be_bytes 4 (be_val [byte_at data 8; byte_at data 9; byte_at data 10; byte_at data 11])
    ++ drop 12 data.
Proof.
  intros Hlen Hok. do 12 (destruct data as [|? data]; [cbn in Hlen; lia|]).
  unfold byte_at. cbn [nth drop].
  repeat match goal with H : bytes_ok (_ :: _) |- _ => apply bytes_ok_cons in H as [? H] end.
  do 3 match goal with |- context [be_bytes ?n (be_val ?l)] =>
    change (be_bytes n (be_val l)) with (be_bytes (length l) (be_val l));
    rewrite (be_bytes_be_val l) by solve_bytes end.
  done.
Qed.

Lemma strip_padding_sound p data payload :
  bytes_ok data -> rtp_strip_padding p data = Some payload ->
  exists pad, data = payload ++ default [] pad /\ bool_decide (is_Some pad) = p /\
    match pad with None => True | Some l => exists q, last l = Some q /\ Z.to_nat q = length l end.
Proof.
  unfold rtp_strip_padding. intros Hok H. destruct p; [|injection H as <-].
  2:{ exists None. rewrite app_nil_r. auto. }
  destruct (last data) as [q|] eqn:Hq; [|done]. cbn in H. split_match; [done|]. injection H as <-.
  apply orb_false_iff in Heqb as [Hz Hle]. to_prop.
  exists (Some (drop (length data - Z.to_nat q) data)). cbn. rewrite take_drop. repeat split; auto.
  exists q. rewrite length_drop. split; [|lia].
  rewrite <- (take_drop (length data - Z.to_nat q) data), last_app in Hq.
  destruct (last (drop _ data)) eqn:E; [done|].
  apply last_None in E. assert (length (drop (length data - Z.to_nat q) data) = 0)%nat as E0 by (by rewrite E).
  rewrite length_drop in E0. lia.
Qed.

Lemma header_len_sound data cc x hl :
  bytes_ok data -> rtp_header_len data cc x = Some hl -> (hl <= length data)%nat ->
  exists ext, bool_decide (is_Some ext) = x /\
    match ext with None => True | Some (profile, words) =>
      length profile = 2%nat /\ exists m, length words = (4 * m)%nat /\ Z.of_nat m <= u16_max end /\
    slice (12 + cc * 4) hl data
      = match ext with None => [] | Some (profile, words) =>
          profile ++ be_bytes 2 (Z.of_nat (length words) / 4) ++ words end /\
    (12 + cc * 4 <= hl)%nat.
Proof.
  unfold rtp_header_len. intros Hok H Hle. remember (12 + cc * 4)%nat as st eqn:Est. clear Est.
  destruct x; [|injection H as <-].
  2:{ exists None. unfold slice. rewrite Nat.sub_diag. auto. }
  split_match; [done|]. to_prop.
  set (n := be_val [byte_at data (st + 2); byte_at data (st + 3)]) in *.
  assert (0 <= n <= u16_max) as Hn.
  { assert (bytes_ok [byte_at data (st + 2); byte_at data (st + 3)]) as Hb
      by solve_bytes.
    apply be_val_bound in Hb. fold n in Hb. change (256 ^ _) with 65536 in Hb.
    unfold u16_max. lia. }
  assert (hl = st + 4 + Z.to_nat n * 4)%nat as -> by congruence. clear H.
  exists (Some (slice st (st + 2) data, slice (st + 4) (st + 4 + Z.to_nat n * 4) data)).
  rewrite !length_slice by lia. repeat split; [lia|exists (Z.to_nat n); lia| |lia].
  assert (Z.of_nat (st + 4 + Z.to_nat n * 4 - (st + 4)) = n * 4) as -> by lia.
  rewrite Z.div_mul by lia. unfold n at 2. replace (st + 3)%nat with (st + 2 + 1)%nat by lia.
  rewrite byte_at_pair by lia.
  replace (be_bytes 2 (be_val (slice (st + 2) (st + 2 + 2) data))) with (slice (st + 2) (st + 2 + 2) data).
  2:{ symmetry. rewrite <- (be_bytes_be_val (slice (st + 2) (st + 2 + 2) data)) at 2 by auto with lrs.
      rewrite length_slice by lia. f_equal. lia. }
  unfold slice. rewrite <- !drop_drop. set (d := drop st data).
  replace (st + 4 + Z.to_nat n * 4 - st)%nat with (2 + (2 + Z.to_nat n * 4))%nat by lia.
  rewrite <- take_take_drop, <- (take_take_drop (drop 2 d)), drop_drop.
  repeat f_equal; lia.
Qed.

Lemma parse_rtp_sound data h :
  bytes_ok data -> parse_rtp_header data = Some h ->
  exists im, image_ok im /\ header_ok h /\ data = rtp_encode im h.
Proof.
  unfold parse_rtp_header. intros Hok H. split_match; [done|]. to_prop.
  split_match; [done|]. apply negb_false_iff in Heqb0. to_prop.
  destruct (rtp_header_len _ _ _) as [hl|] eqn:Hhl; [|done]. cbn [mbind option_bind] in H.
  split_match; [done|]. to_prop.
  destruct (rtp_strip_padding _ _) as [payload|] eqn:Hst; [|done]. cbn [mbind option_bind] in H.
  destruct (first_byte_fields (byte_at data 0) (byte_at_ok _ _ Hok) ltac:(done)) as [Hfb Hcc].
  destruct (marker_fields (byte_at data 1) (byte_at_ok _ _ Hok)) as [Hmk Hpt].
  set (cc := Z.to_nat (Z.land (byte_at data 0) 0x0F)) in *.
  destruct (header_len_sound _ _ _ _ Hok Hhl Heqb1) as (ext & Hx & Hext & Hsl & Hle).
  destruct (strip_padding_sound _ _ _ (bytes_ok_drop hl _ Hok) Hst) as (pad & Hd & Hp & Hpad).
  exists (mkImage (slice 12 (12 + cc * 4) data) ext pad).
  assert (length (slice 12 (12 + cc * 4) data) = 4 * cc)%nat as Hcl by (rewrite length_slice; lia).
  injection H as <-. split; [|split].
  - split; [exists cc; cbn [im_csrc]; lia|by split].
  - unfold header_ok, in_u, u16_max, u32_max. cbn -[byte_at be_val].
    repeat split; try lia;
      match goal with |- context [be_val ?l] =>
        assert (bytes_ok l) as Hl by solve_bytes; apply be_val_bound in Hl;
        cbn [length] in Hl; change (256 ^ _) with 65536 in Hl || change (256 ^ _) with 4294967296 in Hl;
        lia end.
  - unfold rtp_encode, rtp_fixed, rtp_first_byte. cbn [im_csrc im_ext im_pad hd_payload_type
      hd_marker hd_sequence_number hd_rtp_timestamp hd_ssrc hd_payload].
    rewrite Hx, Hp, Hcl, Nat2Z.inj_mul, (Z.mul_comm (Z.of_nat 4)), Z.div_mul, <- Hmk by lia.
    unfold cc at 1. rewrite Z2Nat.id, <- Hfb by lia.
    replace (rtp_ext_bytes (mkImage _ ext pad)) with (slice (12 + cc * 4) hl data)
      by (rewrite Hsl; by destruct ext).
    rewrite <- Hd. rewrite (fixed_header_split data) at 1 by done. cbn [app].
    do 2 f_equal. rewrite <- !app_assoc. do 3 f_equal. symmetry.
    rewrite <- (take_drop (12 + cc * 4 - 12) (drop 12 data)) at 1. f_equal.
    rewrite drop_drop. replace (12 + (12 + cc * 4 - 12))%nat with (12 + cc * 4)%nat by lia.
    unfold slice. rewrite <- (take_drop (hl - (12 + cc * 4)) (drop (12 + cc * 4) data)).
    f_equal; [|by rewrite drop_drop; f_equal; lia].
    by rewrite take_drop.
Qed.

(** ** Properties *)

(** C32: [parse_rtp_header] accepts exactly the packets that have the RFC 3550
    layout — version 2, CSRC list, optional extension, padding counted by its
    last byte — and returns that packet's fields and payload; every other buffer
    is rejected. *)
Theorem parse_rtp_header_spec (data : bytes) (h : ParsedRtpHeader) (Hok : bytes_ok data) :
  parse_rtp_header data = Some h <->
  exists im, image_ok im /\ header_ok h /\ data = rtp_encode im h.
Proof.
  split; [by apply parse_rtp_sound|]. intros (im & Him & Hh & ->). by apply parse_rtp_encode.
Qed.

Definition example_padded : bytes :=
  [0xB1; 0xE0; 0; 7; 0; 0; 0; 9; 0; 0; 0; 1; 0; 0; 0; 2;
   0xBE; 0xDE; 0; 1; 1; 2; 3; 4; 10; 11; 12; 0; 0; 3].

Lemma parse_rtp_header_spec_witness :
  bytes_ok example_padded /\
  exists im, image_ok im /\ header_ok (mkParsedRtpHeader 96 true 7 9 1 [10; 11; 12])
    /\ example_padded = rtp_encode im (mkParsedRtpHeader 96 true 7 9 1 [10; 11; 12]).
Proof.
  assert (bytes_ok example_padded) as Hok by (apply (bool_decide_unpack _); vm_compute; exact I).
  split; [exact Hok|].
  apply (proj1 (parse_rtp_header_spec example_padded _ Hok)). vm_compute. reflexivity.
Defined.

(** The header [RtpPacket::new] prepends is read back by
    [parse_rtp_header]: every field and the payload survive, the payload type
    reduced to its seven bits. *)
Theorem RtpPacket_new_roundtrip pt ch ts m sq ssrc payload
  (Hpt : in_u u8_max pt) (Hts : in_u u32_max ts) (Hsq : in_u u16_max sq) (Hss : in_u u32_max ssrc) :
  parse_rtp_header (rp_data (RtpPacket_new pt ch ts m sq ssrc payload))
  = Some (mkParsedRtpHeader (Z.land pt 0x7F) m sq ts ssrc payload).
Proof.
  assert (in_u 127 (Z.land pt 0x7F)) as Hpt7.
  { unfold in_u. destruct (marker_fields pt Hpt). lia. }
  rewrite <- (parse_rtp_encode (mkImage [] None None)).
  2:{ split; [exists 0%nat; cbn; lia|done]. }
  2:{ unfold header_ok. auto. }
  f_equal. unfold rtp_encode, rtp_fixed, RtpPacket_new. cbn -[be_bytes Z.div].
  rewrite marker_pt_or by done. by rewrite app_nil_r.
Qed.
