(* ===== verification/Flv.v ===== *)
(** * FLV tags
    [FlvTag], its classification, the FLV encoder and the decoder of
    [livestream-media/src/flv/{tag,encode,mod}.rs]. The AMF0 codec and
    [StreamMetadata::apply_metadata_values] belong to the [rml_rtmp] crate and
    are parameters of the definitions that use them. *)
From Stdlib Require Import Floats.SpecFloat.
From S2P Require Import Prelude Types.

(** ** Data *)

(** The fields of [rml_rtmp]'s [StreamMetadata] the encoder reads; the frame rate
    is an [f32]. *)
Record StreamMetadata := mkMetadata {
  video_width : option Z;
  video_height : option Z;
  video_codec_id : option Z;
  video_frame_rate : option spec_float;
  video_bitrate_kbps : option Z;
  audio_codec_id : option Z;
  audio_bitrate_kbps : option Z;
  audio_sample_rate : option Z;
  audio_channels : option Z;
  audio_is_stereo : option bool;
  encoder : option string;
}.

Definition StreamMetadata_new : StreamMetadata :=
  mkMetadata None None None None None None None None None None None.

#[warnings="-register-all"]
Inductive Amf0Value :=
| Number (n : spec_float)
| Boolean (b : bool)
| Utf8String (s : string)
| Object (o : list (string * Amf0Value))
| OtherAmf.

Inductive FlvTag :=
| TAudio (timestamp : Z) (payload : bytes)
| TVideo (timestamp : Z) (payload : bytes) (is_keyframe : bool)
| TScriptData (metadata : StreamMetadata).

Definition FLV_AUDIO_CODEC_AAC : Z := 10.
Definition FLV_VIDEO_CODEC_AVC : Z := 7.
Definition FLV_VIDEO_CODEC_HEVC : Z := 12.
Definition FLV_PACKET_TYPE_SEQ_HEADER : Z := 0.

(** ** Classification ([tag.rs]) *)

Definition is_video_keyframe (payload : bytes) : bool :=
  match payload with
  | first_byte :: _ => Z.shiftr (Z.land first_byte 0x70) 4 =? 1
  | [] => false
  end.

Definition tag_audio (timestamp : Z) (payload : bytes) : FlvTag := TAudio timestamp payload.
Definition tag_video (timestamp : Z) (payload : bytes) : FlvTag :=
  TVideo timestamp payload (is_video_keyframe payload).
Definition tag_script_data (metadata : StreamMetadata) : FlvTag := TScriptData metadata.

Definition payload_size (t : FlvTag) : nat :=
  match t with
  | TAudio _ payload => length payload
  | TVideo _ payload _ => length payload
  | TScriptData _ => 0
  end.

Definition is_audio_seq_header (payload : bytes) : bool :=
  match payload with
  | [] => false
  | first :: _ =>
      let sound_format := Z.shiftr first 4 in
      (2 <=? length payload)%nat
      && (sound_format =? FLV_AUDIO_CODEC_AAC)
      && (byte_at payload 1 =? FLV_PACKET_TYPE_SEQ_HEADER)
  end.

Definition is_video_seq_header (payload : bytes) : bool :=
  match payload with
  | [] => false
  | first_byte :: _ =>
      let is_ex_header := negb (Z.land first_byte 0x80 =? 0) in
      if is_ex_header then
        (2 <=? length payload)%nat && (Z.land first_byte 0x0f =? FLV_PACKET_TYPE_SEQ_HEADER)
      else
        let codec_id := Z.land first_byte 0x0f in
        (2 <=? length payload)%nat
        && ((codec_id =? FLV_VIDEO_CODEC_AVC) || (codec_id =? FLV_VIDEO_CODEC_HEVC))
        && (byte_at payload 1 =? FLV_PACKET_TYPE_SEQ_HEADER)
  end.

Definition is_sequence_header (t : FlvTag) : bool :=
  match t with
  | TAudio _ payload => is_audio_seq_header payload
  | TVideo _ payload _ => is_video_seq_header payload
  | TScriptData _ => true
  end.

#[export] Instance FlvTag_media : MediaPacket FlvTag := {
  mp_codec_params _ := [];
  mp_is_keyframe t := match t with TVideo _ _ k => k | _ => false end;
  mp_byte_size := payload_size;
  mp_timestamp t :=
    match t with
    | TAudio timestamp _ | TVideo timestamp _ _ => Some (from_millis timestamp)
    | TScriptData _ => None
    end;
}.

(** ** Encoder ([encode.rs]) *)

Definition FLV_TAG_HEADER_LEN : Z := 11.
Definition FLV_TAG_TYPE_AUDIO : Z := 8.
Definition FLV_TAG_TYPE_VIDEO : Z := 9.
Definition FLV_TAG_TYPE_SCRIPT_DATA : Z := 18.

Definition encode_flv_header (has_audio has_video : bool) : bytes :=
  let flags := 0 in
  let flags := if has_audio then Z.lor flags 4 else flags in
  let flags := if has_video then Z.lor flags 1 else flags in
  [0x46; 0x4C; 0x56] ++ [1] ++ [flags] ++ be_bytes 4 9 ++ be_bytes 4 0.

Definition put_u24 (value : Z) : bytes :=
  [Z.land (Z.shiftr value 16) 0xff; Z.land (Z.shiftr value 8) 0xff; Z.land value 0xff].

(** [width as f64]: exact, a [u32] fits the 53-bit significand. *)
Definition f64_of_u32 (z : Z) : spec_float := binary_normalize 53 1024 z 0 false.

Definition metadata_to_amf_object (m : StreamMetadata) : list (string * Amf0Value) :=
  let num (k : string) (f : option Z) :=
    match f with Some v => [(k, Number (f64_of_u32 v))] | None => [] end in
  num "width" (video_width m)
  ++ num "height" (video_height m)
  ++ num "videocodecid" (video_codec_id m)
  ++ match video_frame_rate m with Some v => [("framerate", Number v)] | None => [] end
  ++ num "videodatarate" (video_bitrate_kbps m)
  ++ num "audiocodecid" (audio_codec_id m)
  ++ num "audiodatarate" (audio_bitrate_kbps m)
  ++ num "audiosamplerate" (audio_sample_rate m)
  ++ num "audiochannels" (audio_channels m)
  ++ match audio_is_stereo m with Some v => [("stereo", Boolean v)] | None => [] end
  ++ match encoder m with Some v => [("encoder", Utf8String v)] | None => [] end.

Inductive flv_error :=
| AmfError
| PayloadTooLarge (len : nat)
| BufferTooSmall (len : nat)
| IncompleteTag (have expect : Z)
| MissingAmfValues
| NotOnMetaData
| UnsupportedTagType (t : Z).

Section Amf.
Context (amf_serialize : list Amf0Value -> option bytes)
          (amf_deserialize : bytes -> option (list Amf0Value))
          (get_object_properties : Amf0Value -> option (list (string * Amf0Value)))
          (apply_metadata_values : StreamMetadata -> list (string * Amf0Value) -> StreamMetadata).

Definition encode_script_data (metadata : StreamMetadata) : result flv_error bytes :=
    let values := [Utf8String "onMetaData"; Object (metadata_to_amf_object metadata)] in
    match amf_serialize values with Some encoded => Ok encoded | None => Err AmfError end.

Definition tag_parts (tag : FlvTag) : result flv_error (Z * Z * bytes) :=
    match tag with
    | TAudio timestamp payload => Ok (FLV_TAG_TYPE_AUDIO, timestamp, payload)
    | TVideo timestamp payload _ => Ok (FLV_TAG_TYPE_VIDEO, timestamp, payload)
    | TScriptData metadata =>
        let? payload := encode_script_data metadata in Ok (FLV_TAG_TYPE_SCRIPT_DATA, 0, payload)
    end.

Definition encode_flv_tag (tag : FlvTag) : result flv_error bytes :=
    let? parts := tag_parts tag in
    let '(tag_type, timestamp, payload) := parts in
    let payload_len := Z.of_nat (length payload) in
    if 0x00FFFFFF <? payload_len then Err (PayloadTooLarge (length payload))
    else Ok ([tag_type] ++ put_u24 payload_len ++ put_u24 (Z.land timestamp 0x00ffffff)
             ++ [Z.land (Z.shiftr timestamp 24) 0xff] ++ put_u24 0 ++ payload
             ++ be_bytes 4 (FLV_TAG_HEADER_LEN + payload_len)).

(** ** Decoder ([mod.rs], [tag.rs]) *)

Definition parse_script_data_metadata (payload : bytes) : result flv_error StreamMetadata :=
    match amf_deserialize payload with
    | None => Err AmfError
    | Some (Utf8String name :: object :: _) =>
        if decide (name = "onMetaData") then
          Ok match get_object_properties object with
             | Some properties => apply_metadata_values StreamMetadata_new properties
             | None => StreamMetadata_new
             end
        else Err NotOnMetaData
    | Some (_ :: _ :: _) => Err NotOnMetaData
    | Some _ => Err MissingAmfValues
    end.

Definition flv_tag_try_from (data : bytes) : result flv_error FlvTag :=
    if (length data <? 15)%nat then Err (BufferTooSmall (length data)) else
    let tag_type := byte_at data 0 in
    let data_size := Z.lor (Z.lor (Z.shiftl (byte_at data 1) 16) (Z.shiftl (byte_at data 2) 8))
                           (byte_at data 3) in
    let expected_len := 11 + data_size + 4 in
    if Z.of_nat (length data) <? expected_len
    then Err (IncompleteTag (Z.of_nat (length data)) expected_len) else
    let ts_low := Z.lor (Z.lor (Z.shiftl (byte_at data 4) 16) (Z.shiftl (byte_at data 5) 8))
                        (byte_at data 6) in
    let ts_ext := byte_at data 7 in
    let timestamp := Z.lor (Z.shiftl ts_ext 24) ts_low in
    let payload := slice 11 (11 + Z.to_nat data_size) data in
    if tag_type =? 8 then Ok (tag_audio timestamp payload)
    else if tag_type =? 9 then Ok (tag_video timestamp payload)
    else if tag_type =? 18 then
      let? metadata := parse_script_data_metadata payload in Ok (tag_script_data metadata)
    else Err (UnsupportedTagType tag_type).

End Amf.

(** ** Correctness of the tag codec *)

Lemma put_u24_be z : 0 <= z -> put_u24 z = be_bytes 3 z.
Proof.
  intros Hz. unfold put_u24, be_bytes. rewrite !land_ff, !shiftr_div by lia.
  repeat f_equal. by rewrite Z.div_1_r.
Qed.

(** The layout the FLV specification prescribes for a tag and its trailing
    [PreviousTagSize]. *)
Definition tag_frame (tag_type timestamp : Z) (payload : bytes) : bytes :=
  ([tag_type] ++ be_bytes 3 (Z.of_nat (length payload)) ++ be_bytes 3 timestamp
   ++ [timestamp / 2 ^ 24] ++ [0; 0; 0])
  ++ payload ++ be_bytes 4 (11 + Z.of_nat (length payload)).

Lemma length_tag_frame ty ts p : length (tag_frame ty ts p) = (15 + length p)%nat.
Proof. unfold tag_frame. autorewrite with lrs. cbn [length]. lia. Qed.

Lemma byte_at_tag_header ty ts p rest i : (i < 11)%nat ->
  byte_at (tag_frame ty ts p ++ rest) i
  = byte_at ([ty] ++ be_bytes 3 (Z.of_nat (length p)) ++ be_bytes 3 ts ++ [ts / 2 ^ 24] ++ [0; 0; 0]) i.
Proof.
  intros Hi. unfold tag_frame. rewrite <- app_assoc. apply byte_at_app_l.
  autorewrite with lrs. cbn [length]. lia.
Qed.

Lemma slice_tag_payload ty ts p rest :
  slice 11 (11 + length p) (tag_frame ty ts p ++ rest) = p.
Proof.
  unfold tag_frame. rewrite <- !app_assoc, !(app_assoc [ty]), !(app_assoc ([ty] ++ _)),
    !(app_assoc (([ty] ++ _) ++ _)), (app_assoc ((([ty] ++ _) ++ _) ++ _)).
  match goal with |- slice _ _ (?h ++ _) = _ => set (hd := h) end.
  assert (length hd = 11%nat) as <-.
  { subst hd. autorewrite with lrs. reflexivity. }
  apply slice_app_exact.
Qed.

(** A 24-bit field, read the way the decoder reads it. *)
Lemma read_u24_be z : let b := be_bytes 3 z in
  Z.lor (Z.lor (Z.shiftl (byte_at b 0) 16) (Z.shiftl (byte_at b 1) 8)) (byte_at b 2) = z mod 2 ^ 24.
Proof.
  intros b. rewrite lor_u24 by apply byte_at_ok, bytes_ok_be_bytes.
  exact (be_val_acc_be_bytes 3 0 z).
Qed.

(** The tags the components put on the wire: a [u32] timestamp, byte payloads,
    and the key frame flag the payload determines. *)
Definition media_tag (t : FlvTag) : Prop :=
  match t with
  | TAudio ts p => in_u u32_max ts /\ bytes_ok p
  | TVideo ts p k => in_u u32_max ts /\ bytes_ok p /\ k = is_video_keyframe p
  | TScriptData _ => False
  end.

Definition tag_number (t : FlvTag) : Z :=
  match t with TAudio _ _ => 8 | TVideo _ _ _ => 9 | TScriptData _ => 18 end.
Definition tag_timestamp (t : FlvTag) : Z :=
  match t with TAudio ts _ | TVideo ts _ _ => ts | TScriptData _ => 0 end.
Definition tag_payload (t : FlvTag) : bytes :=
  match t with TAudio _ p | TVideo _ p _ => p | TScriptData _ => [] end.

Section Codec.
Context (ser : list Amf0Value -> option bytes)
          (des : bytes -> option (list Amf0Value))
          (gop : Amf0Value -> option (list (string * Amf0Value)))
          (amv : StreamMetadata -> list (string * Amf0Value) -> StreamMetadata).

Lemma encode_media_tag t : media_tag t ->
    encode_flv_tag ser t
    = if (length (tag_payload t) <=? Z.to_nat u24_max)%nat
      then Ok (tag_frame (tag_number t) (tag_timestamp t) (tag_payload t))
      else Err (PayloadTooLarge (length (tag_payload t))).
Proof.
    intros Ht. assert (forall ty ts p, in_u u32_max ts ->
      (if 0x00FFFFFF <? Z.of_nat (length p) then Err (PayloadTooLarge (length p))
       else Ok ([ty] ++ put_u24 (Z.of_nat (length p)) ++ put_u24 (Z.land ts 0x00ffffff)
             ++ [Z.land (Z.shiftr ts 24) 0xff] ++ put_u24 0 ++ p
             ++ be_bytes 4 (FLV_TAG_HEADER_LEN + Z.of_nat (length p))))
      = if (length p <=? Z.to_nat u24_max)%nat then Ok (tag_frame ty ts p)
        else Err (PayloadTooLarge (length p))) as Henc.
    { intros ty ts p Hts. unfold in_u, u32_max in Hts. unfold u24_max.
      destruct (Z.ltb_spec 0xFFFFFF (Z.of_nat (length p))), (Nat.leb_spec (length p) (Z.to_nat 0xFFFFFF));
        try lia; [done|]. f_equal.
      change 0x00ffffff with (2 ^ 24 - 1). rewrite (land_ones_mod ts 24), land_ff, shiftr_div by lia.
      rewrite !put_u24_be by lia_div.
      rewrite (Z.mod_small (ts / 2 ^ 24)) by lia_div.
      unfold tag_frame. rewrite <- !app_assoc. cbn [app]. do 2 f_equal.
      unfold FLV_TAG_HEADER_LEN. rewrite (be_bytes_mod 3 ts : be_bytes 3 (ts mod 2 ^ 24) = _). done. }
    destruct t as [ts p|ts p k|]; [..|done];
      unfold encode_flv_tag; cbn [tag_parts res_bind tag_payload tag_number tag_timestamp];
      apply Henc, Ht.
Qed.

Lemma decode_tag_frame ty ts p rest :
    in_u u32_max ts -> (length p <= Z.to_nat u24_max)%nat ->
    flv_tag_try_from des gop amv (tag_frame ty ts p ++ rest)
    = if ty =? 8 then Ok (tag_audio ts p)
      else if ty =? 9 then Ok (tag_video ts p)
      else if ty =? 18 then
        let? metadata := parse_script_data_metadata des gop amv p in Ok (tag_script_data metadata)
      else Err (UnsupportedTagType ty).
Proof.
    unfold in_u, u32_max, u24_max. intros Hts Hp.
    unfold flv_tag_try_from. rewrite !byte_at_tag_header by lia.
    rewrite length_app, length_tag_frame.
    destruct (Nat.ltb_spec (15 + length p + length rest) 15) as [?|_]; [lia|].
    set (n := Z.of_nat (length p)).
    set (hd := [ty] ++ be_bytes 3 n ++ be_bytes 3 ts ++ [ts / 2 ^ 24] ++ [0; 0; 0]).
    assert (Z.lor (Z.lor (Z.shiftl (byte_at hd 1) 16) (Z.shiftl (byte_at hd 2) 8)) (byte_at hd 3) = n)
      as -> by (etrans; [exact (read_u24_be n)|apply Z.mod_small; lia]).
    assert (Z.lor (Z.lor (Z.shiftl (byte_at hd 4) 16) (Z.shiftl (byte_at hd 5) 8)) (byte_at hd 6)
      = ts mod 2 ^ 24) as -> by exact (read_u24_be ts).
    change (byte_at hd 7) with (ts / 2 ^ 24). change (byte_at hd 0) with ty.
    rewrite lor_shiftl_add by lia_div.
    replace (ts / 2 ^ 24 * 2 ^ 24 + ts mod 2 ^ 24) with ts by lia_div.
    replace (Z.to_nat n) with (length p) by lia. rewrite slice_tag_payload.
    destruct (Z.ltb_spec (Z.of_nat (15 + length p + length rest)) (11 + n + 4)); [lia|done].
Qed.

(** The decoder asks for the whole frame before it reads a payload. *)
Lemma decode_tag_truncated ty ts p k :
    (length p <= Z.to_nat u24_max)%nat -> (k < length (tag_frame ty ts p))%nat ->
    exists e, flv_tag_try_from des gop amv (take k (tag_frame ty ts p)) = Err e
      /\ (e = BufferTooSmall k
          \/ e = IncompleteTag (Z.of_nat k) (15 + Z.of_nat (length p))).
Proof.
    unfold u24_max. intros Hp Hk. unfold flv_tag_try_from.
    rewrite length_take_le by lia. rewrite length_tag_frame in Hk.
    destruct (Nat.ltb_spec k 15) as [?|Hk15]; [by eauto|].
    assert (forall i, (i < 11)%nat -> byte_at (take k (tag_frame ty ts p)) i
      = byte_at (tag_frame ty ts p ++ []) i) as Hat.
    { intros i Hi. rewrite app_nil_r. unfold byte_at. rewrite <- (take_drop k (tag_frame ty ts p)) at 2.
      rewrite app_nth1; [done|]. rewrite length_take, length_tag_frame. lia. }
    rewrite !Hat, !byte_at_tag_header by lia.
    assert (forall hd, hd = [ty] ++ be_bytes 3 (Z.of_nat (length p)) ++ be_bytes 3 ts
      ++ [ts / 2 ^ 24] ++ [0; 0; 0] ->
      Z.lor (Z.lor (Z.shiftl (byte_at hd 1) 16) (Z.shiftl (byte_at hd 2) 8)) (byte_at hd 3)
      = Z.of_nat (length p)) as Hlen.
    { intros hd ->. etrans; [exact (read_u24_be _)|]. apply Z.mod_small. lia. }
    rewrite (Hlen _ eq_refl).
    destruct (Z.ltb_spec (Z.of_nat k) (11 + Z.of_nat (length p) + 4)); [|lia].
    eexists. split; [done|]. right. f_equal. lia.
Qed.

Lemma flv_tag_decodes t : media_tag t -> (length (tag_payload t) <= Z.to_nat u24_max)%nat ->
    exists b, encode_flv_tag ser t = Ok b /\ flv_tag_try_from des gop amv b = Ok t.
Proof.
    intros Ht Hl. rewrite (encode_media_tag t Ht). destruct (Nat.leb_spec (length (tag_payload t)) (Z.to_nat u24_max)); [|lia].
    eexists. split; [done|]. rewrite <- (app_nil_r (tag_frame _ _ _)).
    destruct t as [ts p|ts p k|]; [| |done]; cbn [media_tag tag_payload tag_number tag_timestamp] in *;
      rewrite decode_tag_frame by tauto; [done|]. destruct Ht as (_ & _ & ->). reflexivity.
Qed.

(** C29: encoding then decoding an audio or video tag gives the tag back,
      whatever bytes follow it in the buffer; the encoder refuses exactly the
      payloads of more than [0xFFFFFF] bytes; and no proper prefix of an encoded
      tag decodes (the decoder reports how many bytes it has and needs). *)
Theorem flv_tag_roundtrip t : media_tag t ->
    if (length (tag_payload t) <=? Z.to_nat u24_max)%nat then
      exists b, encode_flv_tag ser t = Ok b
        /\ length b = (15 + payload_size t)%nat
        /\ (forall rest, flv_tag_try_from des gop amv (b ++ rest) = Ok t)
        /\ (forall k, (k < length b)%nat -> exists e,
              flv_tag_try_from des gop amv (take k b) = Err e
              /\ (e = BufferTooSmall k \/ e = IncompleteTag (Z.of_nat k) (Z.of_nat (length b))))
    else encode_flv_tag ser t = Err (PayloadTooLarge (payload_size t)).
Proof.
    intros Ht. rewrite (encode_media_tag t Ht).
    assert (payload_size t = length (tag_payload t)) as -> by by destruct t.
    destruct (Nat.leb_spec (length (tag_payload t)) (Z.to_nat u24_max)) as [Hle|]; [|done].
    eexists. split; [done|]. rewrite length_tag_frame. split_and!; [done| |].
    - intros rest. destruct t as [ts p|ts p k|]; [| |done];
        cbn [media_tag tag_payload tag_number tag_timestamp] in *;
        rewrite decode_tag_frame by tauto; [done|].
      destruct Ht as (_ & _ & ->). reflexivity.
    - intros k Hk. destruct (decode_tag_truncated (tag_number t) (tag_timestamp t) (tag_payload t) k Hle)
        as (e & -> & He); [by rewrite length_tag_frame|].
      exists e. split; [done|]. rewrite Nat2Z.inj_add. exact He.
Qed.
End Codec.

Lemma flv_tag_roundtrip_witness :
  exists b, encode_flv_tag (fun _ => None) (TVideo 0xfffffffe [0x17; 1; 0; 0; 0; 9] true) = Ok b
    /\ flv_tag_try_from (fun _ => None) (fun _ => None) (fun m _ => m) (b ++ [1; 2])
       = Ok (TVideo 0xfffffffe [0x17; 1; 0; 0; 0; 9] true).
Proof.
  destruct (flv_tag_roundtrip (fun _ => None) (fun _ => None) (fun _ => None) (fun m _ => m)
    (TVideo 0xfffffffe [0x17; 1; 0; 0; 0; 9] true)) as (b & Hb & _ & Hr & _).
  - split_and!; [unfold in_u, u32_max; lia| |reflexivity].
    repeat constructor; unfold in_u, u8_max; lia.
  - exists b. split; [exact Hb|apply Hr].
Defined.
