(* ===== verification/AvPacket.v ===== *)
(** * FFmpeg packets
    [livestream-media/src/{packet.rs, convert.rs}]: the fields of an [AVPacket] as
    the wrapper reads and writes them, and the bridge between encoded packets and
    FFmpeg packets. The allocator, the fields of a fresh packet and
    [av_rescale_q] are FFmpeg's, and parameters here. *)
From S2P Require Import Prelude Types.

(** ** Machine integers *)

Definition AV_NOPTS_VALUE : Z := - 0x8000000000000000.
Definition AV_PKT_FLAG_KEY : Z := 1.

(** [as i32] and [as usize] (on 64 bits). *)
Definition as_i32 (z : Z) : Z := (z + 2 ^ 31) mod 2 ^ 32 - 2 ^ 31.
Definition as_usize (z : Z) : nat := Z.to_nat (z mod 2 ^ 64).

Lemma as_i32_small z : - 2 ^ 31 <= z < 2 ^ 31 -> as_i32 z = z.
Proof. intros Hz. unfold as_i32. rewrite Z.mod_small; lia. Qed.

Lemma as_i32_nat n : Z.of_nat n < 2 ^ 31 -> as_usize (as_i32 (Z.of_nat n)) = n.
Proof.
  intros Hn. rewrite as_i32_small by lia. unfold as_usize. rewrite Z.mod_small by lia. lia.
Qed.

(** ** Packets *)

Definition AVRational : Type := (Z * Z)%type.

(** The timing fields are [i64], the index and the flags [i32]; no data is []. *)
Record AvPacket := mkAvPacket {
  av_stream_index : Z;
  av_data : bytes;
  av_pts : Z;
  av_dts : Z;
  av_duration : Z;
  av_flags : Z;
}.

Inductive packet_error := AllocPacket | PacketMemory (size : Z).

(** What writing the payload can do: [av_new_packet] is asked for [len as i32]
    bytes but [len] bytes are copied. *)
Inductive set_outcome := DataSet (pkt : AvPacket) | DataError (e : packet_error) (pkt : AvPacket) | DataOverrun.

Section Packets.
(** FFmpeg: the fields of an allocated or unreferenced packet, and whether
    [av_new_packet] finds memory for a size. *)
Context (fresh : AvPacket) (av_new_packet : Z -> bool).

(** [alloc]; [ok]: [av_packet_alloc] gave a packet. *)
Definition packet_alloc (ok : bool) : result packet_error AvPacket :=
  if ok then Ok fresh else Err AllocPacket.

Definition with_data (p : AvPacket) (data : bytes) : AvPacket :=
  mkAvPacket (av_stream_index p) data (av_pts p) (av_dts p) (av_duration p) (av_flags p).

Definition set_data (data : bytes) : set_outcome :=
  let len := Z.of_nat (length data) in
  let size := as_i32 len in
  if negb (av_new_packet size) then DataError (PacketMemory size) fresh
  else if size <? len then DataOverrun
  else DataSet (with_data fresh data).

Definition stream_idx (p : AvPacket) : nat := as_usize (av_stream_index p).
Definition set_stream_idx (p : AvPacket) (idx : Z) : AvPacket :=
  mkAvPacket idx (av_data p) (av_pts p) (av_dts p) (av_duration p) (av_flags p).

Definition timestamp (v : Z) : option Z := if v =? AV_NOPTS_VALUE then None else Some v.
Definition packet_pts (p : AvPacket) : option Z := timestamp (av_pts p).
Definition packet_dts (p : AvPacket) : option Z := timestamp (av_dts p).
Definition packet_duration (p : AvPacket) : option Z :=
  if 0 <? av_duration p then Some (av_duration p) else None.

Definition set_pts (p : AvPacket) (pts : Z) : AvPacket :=
  mkAvPacket (av_stream_index p) (av_data p) pts (av_dts p) (av_duration p) (av_flags p).
Definition set_dts (p : AvPacket) (dts : Z) : AvPacket :=
  mkAvPacket (av_stream_index p) (av_data p) (av_pts p) dts (av_duration p) (av_flags p).

Definition is_key_frame (p : AvPacket) : bool := negb (Z.land (av_flags p) AV_PKT_FLAG_KEY =? 0).
Definition set_flags (p : AvPacket) (flags : Z) : AvPacket :=
  mkAvPacket (av_stream_index p) (av_data p) (av_pts p) (av_dts p) (av_duration p) flags.
Definition set_key_frame (p : AvPacket) (is_key : bool) : AvPacket :=
  set_flags p (if is_key then Z.lor (av_flags p) AV_PKT_FLAG_KEY
               else Z.land (av_flags p) (Z.lnot AV_PKT_FLAG_KEY)).

(** [av_rescale_q v from to]; [av_packet_rescale_ts] converts the valid times. *)
Context (av_rescale_q : Z -> AVRational -> AVRational -> Z).

Definition rescale_time (from to : AVRational) (v : Z) : Z :=
  if v =? AV_NOPTS_VALUE then v else av_rescale_q v from to.

Definition rescale_ts (p : AvPacket) (from to : AVRational) : AvPacket :=
  mkAvPacket (av_stream_index p) (av_data p) (rescale_time from to (av_pts p)) (rescale_time from to (av_dts p))
    (if 0 <? av_duration p then av_rescale_q (av_duration p) from to else av_duration p) (av_flags p).

(** ** The bridge ([convert.rs]) *)

(** The packet with its metadata; [base] is the packet holding the data. *)
Definition with_metadata (base : AvPacket) (pkt : EncodedPacket) : AvPacket :=
  mkAvPacket (as_i32 (Z.of_nat (pk_stream_index pkt))) (av_data base)
    (default AV_NOPTS_VALUE (pk_pts_ms pkt)) (default AV_NOPTS_VALUE (pk_dts_ms pkt)) (av_duration base)
    (if pk_is_keyframe pkt then Z.lor (av_flags base) AV_PKT_FLAG_KEY else av_flags base).

(** [None]: the overrun of [set_data]. *)
Definition to_av_packet (ok : bool) (pkt : EncodedPacket) : option (result packet_error AvPacket) :=
  match packet_alloc ok with
  | Err e => Some (Err e)
  | Ok base =>
      if nal_is_empty (pk_data pkt) then Some (Ok (with_metadata base pkt))
      else match set_data (as_bytes (pk_data pkt)) with
           | DataSet base => Some (Ok (with_metadata base pkt))
           | DataError e _ => Some (Err e)
           | DataOverrun => None
           end
  end.

Definition from_av_packet (pkt : AvPacket) (time_base : AVRational) (codec : Codec) : EncodedPacket :=
  let pkt := rescale_ts pkt time_base (1, 1000) in
  let pts_ms := packet_pts pkt in
  let dts_ms := match packet_dts pkt with
                | Some dts => Some dts
                | None => match pts_ms with Some pts => Some pts | None => Some 0 end
                end in
  mkPacket codec (stream_idx pkt) (AnnexB (av_data pkt)) pts_ms dts_ms (is_key_frame pkt) false false None.

End Packets.

(** ** Laws of the accessors *)

(** The fields FFmpeg documents for a packet that holds nothing yet. *)
Definition packet_defaults (p : AvPacket) : Prop :=
  av_stream_index p = 0 /\ av_data p = [] /\ av_pts p = AV_NOPTS_VALUE /\ av_dts p = AV_NOPTS_VALUE
  /\ av_duration p = 0 /\ av_flags p = 0.

Definition plain_packet : AvPacket := mkAvPacket 0 [] AV_NOPTS_VALUE AV_NOPTS_VALUE 0 0.

(** The key frame flag is one bit: reading it back gives what was written, and
    no other flag moves. *)
Lemma key_frame_flag p b : is_key_frame (set_key_frame p b) = b
  /\ forall n, n <> 0 -> 0 <= n -> Z.testbit (av_flags (set_key_frame p b)) n = Z.testbit (av_flags p) n.
Proof.
  assert (forall f, negb (Z.land f 1 =? 0) = Z.testbit f 0) as Hbit.
  { intros f. change 1 with (Z.ones 1). rewrite Z.land_ones by lia. change (2 ^ 1) with 2.
    rewrite <- Z.bit0_mod. destruct (Z.testbit f 0); done. }
  unfold is_key_frame, set_key_frame, AV_PKT_FLAG_KEY. split.
  - rewrite Hbit. destruct b; cbn [av_flags set_flags].
    + rewrite Z.lor_spec. change (Z.testbit 1 0) with true. apply orb_true_r.
    + rewrite Z.land_spec, Z.lnot_spec by lia. apply andb_false_r.
  - intros n Hn H0. assert (Z.testbit 1 n = false) as H1.
    { apply (Z.pow2_bits_false 0). lia. }
    destruct b; cbn [av_flags set_flags].
    + rewrite Z.lor_spec, H1. apply orb_false_r.
    + rewrite Z.land_spec, Z.lnot_spec, H1 by lia. apply andb_true_r.
Qed.

Lemma set_data_small fresh av_new data : Z.of_nat (length data) < 2 ^ 31 ->
  set_data fresh av_new data
  = if av_new (Z.of_nat (length data)) then DataSet (with_data fresh data)
    else DataError (PacketMemory (Z.of_nat (length data))) fresh.
Proof.
  intros Hl. unfold set_data. rewrite as_i32_small by lia. destruct (av_new _); [|done]. cbn.
  destruct (Z.ltb_spec (Z.of_nat (length data)) (Z.of_nat (length data))); [lia|done].
Qed.

Lemma timestamp_default (o : option Z) :
  timestamp (default AV_NOPTS_VALUE o) = match o with Some v => timestamp v | None => None end.
Proof. by destruct o. Qed.

(** What survives a trip through FFmpeg's representation: an absent decode time
    is filled in, and the least 64-bit integer reads as absent. *)
Definition bridged (pkt : EncodedPacket) : EncodedPacket :=
  let valid o := match o with Some v => timestamp v | None => None end in
  let pts := valid (pk_pts_ms pkt) in
  let dts := match valid (pk_dts_ms pkt) with
             | Some d => Some d
             | None => match pts with Some p => Some p | None => Some 0 end end in
  mkPacket (pk_codec pkt) (pk_stream_index pkt) (AnnexB (as_bytes (pk_data pkt))) pts dts
    (pk_is_keyframe pkt) false false None.

Lemma with_metadata_bridged fresh rescale data pkt : packet_defaults fresh ->
  (forall tb v, rescale v tb tb = v) -> Z.of_nat (pk_stream_index pkt) < 2 ^ 31 ->
  data = as_bytes (pk_data pkt) ->
  from_av_packet rescale (with_metadata (with_data fresh data) pkt) (1, 1000) (pk_codec pkt) = bridged pkt.
Proof.
  intros (_ & _ & _ & _ & Hdur & Hfl) Hr Hsi ->. unfold from_av_packet, bridged.
  assert (forall v, rescale_time rescale (1, 1000) (1, 1000) v = v) as Ht.
  { intros v. unfold rescale_time. rewrite Hr. by destruct (_ =? _). }
  unfold rescale_ts. cbn [with_metadata with_data av_pts av_dts av_data av_stream_index av_flags av_duration
    packet_pts packet_dts]. unfold packet_pts, packet_dts, is_key_frame, stream_idx.
  cbn [av_pts av_dts av_flags av_stream_index]. rewrite !Ht, !timestamp_default, as_i32_nat by done.
  f_equal. rewrite Hfl. by destruct (pk_is_keyframe pkt).
Qed.

(** An encoded packet survives FFmpeg's representation. Converted to an
    [AVPacket] and back in the millisecond time base, it keeps its stream,
    payload, key frame flag and times; a missing decode time comes back as the
    presentation time, or as 0 when that is missing too; framing, header marks
    and extradata do not survive. The conversion fails only when FFmpeg finds no
    memory, and a payload below 2 GiB is never copied past its buffer. *)
Theorem av_packet_roundtrip fresh av_new rescale ok pkt :
  packet_defaults fresh -> (forall tb v, rescale v tb tb = v) ->
  Z.of_nat (pk_stream_index pkt) < 2 ^ 31 -> Z.of_nat (nal_len (pk_data pkt)) < 2 ^ 31 ->
  match to_av_packet fresh av_new ok pkt with
  | Some (Ok p) => from_av_packet rescale p (1, 1000) (pk_codec pkt) = bridged pkt
  | Some (Err _) => ok = false \/ av_new (Z.of_nat (nal_len (pk_data pkt))) = false
  | None => False
  end.
Proof.
  intros Hf Hr Hsi Hlen. unfold to_av_packet, packet_alloc. destruct ok; [|by left]. cbn.
  pose proof Hf as (_ & Hd & _).
  destruct (nal_is_empty (pk_data pkt)) eqn:He.
  - replace fresh with (with_data fresh []) by (destruct fresh; cbn in *; by subst).
    apply with_metadata_bridged; try done. unfold nal_is_empty in He. by destruct (as_bytes (pk_data pkt)).
  - rewrite set_data_small by done. change (length (as_bytes (pk_data pkt))) with (nal_len (pk_data pkt)).
    destruct (av_new _) eqn:Ea; [|by right]. by apply with_metadata_bridged.
Qed.
