(* ===== verification/Ffmpeg.v ===== *)
(** * FFmpeg resources
    [livestream-media/src/{packet, frame, codec, decoder, encoder, scaler, bsf,
    rtp}.rs, context/{mod, hls_output}.rs]: which FFmpeg objects each wrapper
    allocates, frees and hands over, on every path of its constructors and in its
    [Drop]. FFmpeg itself is an interface: a ledger of live objects and calls
    that may fail. *)
From Stdlib Require Import Ascii String.
From stdpp Require Import strings gmap.
From S2P Require Import Prelude Types AvPacket.

(** ** The library *)

(** [KRust]: a box or a reference count handed to C as an opaque pointer. *)
Inductive AvKind :=
| KPacket | KFrame | KParams | KCodecContext | KFormatContext | KIoContext | KBuffer | KBsf | KSws | KRust.

#[export] Instance AvKind_eq_dec : EqDecision AvKind.
Proof. solve_decision. Defined.

Abbreviation ledger := (gmap nat AvKind).

Class Ffmpeg (H : Type) := {
  live : H -> ledger;
  (** Frees of objects that were not live. *)
  faults : H -> nat;
  ff_alloc : H -> AvKind -> option nat * H;
  ff_free : H -> nat -> H;
  (** Rust allocations abort instead of failing. *)
  ff_box : H -> nat * H;
  (** Any other call, as its return code. *)
  ff_call : H -> Z * H;
}.

Class FfmpegLaws (H : Type) `{Ffmpeg H} := {
  alloc_fresh h k p : fst (ff_alloc h k) = Some p -> live h !! p = None;
  alloc_live h k : live (snd (ff_alloc h k))
    = match fst (ff_alloc h k) with Some p => <[p := k]> (live h) | None => live h end;
  alloc_faults h k : faults (snd (ff_alloc h k)) = faults h;
  box_fresh h : live h !! fst (ff_box h) = None;
  box_live h : live (snd (ff_box h)) = <[fst (ff_box h) := KRust]> (live h);
  box_faults h : faults (snd (ff_box h)) = faults h;
  free_live h p : live (ff_free h p) = delete p (live h);
  free_faults h p : faults (ff_free h p) = match live h !! p with Some _ => faults h | None => S (faults h) end;
  call_live h : live (snd (ff_call h)) = live h;
  call_faults h : faults (snd (ff_call h)) = faults h;
}.

(** A heap whose calls fail as told: the codes to come, 0 when they run out. *)
Record Heap := mkHeap { hp_live : ledger; hp_faults : nat; hp_codes : list Z }.

Definition next_code (h : Heap) : Z * Heap :=
  (hd 0 (hp_codes h), mkHeap (hp_live h) (hp_faults h) (tl (hp_codes h))).

#[export] Instance Heap_ffmpeg : Ffmpeg Heap := {
  live := hp_live;
  faults := hp_faults;
  ff_alloc h k :=
    let '(code, h) := next_code h in
    if code <? 0 then (None, h)
    else let p := fresh (dom (hp_live h)) in
         (Some p, mkHeap (<[p := k]> (hp_live h)) (hp_faults h) (hp_codes h));
  ff_free h p := mkHeap (delete p (hp_live h))
    (match hp_live h !! p with Some _ => hp_faults h | None => S (hp_faults h) end) (hp_codes h);
  ff_box h := let p := fresh (dom (hp_live h)) in
    (p, mkHeap (<[p := KRust]> (hp_live h)) (hp_faults h) (hp_codes h));
  ff_call := next_code;
}.

Lemma fresh_free (l : ledger) : l !! fresh (dom l) = None.
Proof. apply not_elem_of_dom, is_fresh. Qed.

#[export] Instance Heap_laws : FfmpegLaws Heap.
Proof.
  split; cbn; try done.
  - intros h k p. destruct (hd 0 (hp_codes h) <? 0); [done|]. intros [= <-]. apply fresh_free.
  - intros h k. by destruct (hd 0 (hp_codes h) <? 0).
  - intros h k. by destruct (hd 0 (hp_codes h) <? 0).
  - intros h. apply fresh_free.
Qed.

(** ** Fallible code over the library *)

Inductive ff_error := NoMemory (k : AvKind) | CallFailed (code : Z) | NotFound | NulInString | NotAvailable.

Section Wrappers.
Context {H : Type} `{HF : Ffmpeg H}.

Definition Ff (A : Type) : Type := H -> result ff_error A * H.

Definition ff_ret {A} (a : A) : Ff A := fun h => (Ok a, h).
Definition ff_fail {A} (e : ff_error) : Ff A := fun h => (Err e, h).
Definition ff_bind {A B} (m : Ff A) (k : A -> Ff B) : Ff B := fun h =>
  match m h with (Ok a, h) => k a h | (Err e, h) => (Err e, h) end.

(** What runs when [m] fails: explicit clean-up, or the drop of a local. *)
Definition on_error {A} (m : Ff A) (cleanup : Ff unit) : Ff A := fun h =>
  match m h with (Err e, h) => (Err e, snd (cleanup h)) | r => r end.

Definition alloc (k : AvKind) : Ff nat := fun h =>
  match ff_alloc h k with (Some p, h) => (Ok p, h) | (None, h) => (Err (NoMemory k), h) end.
Definition free (p : nat) : Ff unit := fun h => (Ok tt, ff_free h p).
Definition box : Ff nat := fun h => let '(p, h) := ff_box h in (Ok p, h).
(** A call whose negative code is an error. *)
Definition call : Ff unit := fun h =>
  let '(code, h) := ff_call h in (if code <? 0 then Err (CallFailed code) else Ok tt, h).
(** A call whose outcome is ignored or only logged. *)
Definition call_ignored : Ff unit := fun h => (Ok tt, snd (ff_call h)).
Definition free_opt (o : option nat) : Ff unit := match o with Some p => free p | None => ff_ret tt end.

End Wrappers.

Declare Scope ff_scope.
Notation "'let!' x := m 'in' k" := (ff_bind m (fun x => k))
  (at level 200, x name, right associativity) : ff_scope.
Notation "m ';;!' k" := (ff_bind m (fun _ => k)) (at level 60, right associativity) : ff_scope.
Notation "m 'else!' c" := (on_error m c) (at level 58, left associativity) : ff_scope.
Open Scope ff_scope.

(** ** The wrappers *)

Definition has_nul (s : string) : bool := bool_decide (Ascii.zero ∈ list_ascii_of_string s).

(** A packet and the buffer its data is in. *)
Record Packet := mkPkt { pkt_ptr : nat; pkt_buf : option nat }.

Record Frame := mkFrm { fr_ptr : nat; fr_buf : option nat }.

(** Codec parameters: the fields the wrappers use, and the extradata with its
    buffer. *)
Inductive AVMediaType := AVMEDIA_TYPE_UNKNOWN | AVMEDIA_TYPE_VIDEO | AVMEDIA_TYPE_AUDIO.

Inductive AVCodecID :=
| AV_CODEC_ID_NONE | AV_CODEC_ID_H264 | AV_CODEC_ID_HEVC | AV_CODEC_ID_AAC | AV_CODEC_ID_MP3
| AV_CODEC_ID_OPUS | AV_CODEC_ID_AV1 | AV_CODEC_ID_MJPEG | AV_CODEC_ID_PCM_ALAW | AV_CODEC_ID_PCM_MULAW
| AV_CODEC_ID_OTHER (n : Z).

#[export] Instance AVMediaType_eq_dec : EqDecision AVMediaType.
Proof. solve_decision. Defined.
#[export] Instance AVCodecID_eq_dec : EqDecision AVCodecID.
Proof. solve_decision. Defined.

Record AVCodecParameters := mkCodecpar {
  par_codec_type : AVMediaType;
  par_codec_id : AVCodecID;
  par_sample_rate : Z;
  par_extradata : option bytes;
}.

Record OwnedCodecParams := mkParams { cp_ptr : nat; cp_extra : option nat; cp_par : AVCodecParameters }.

Definition codec_to_av_codec_id (codec : Codec) : AVCodecID :=
  match codec with
  | H264 => AV_CODEC_ID_H264 | H265 => AV_CODEC_ID_HEVC | Aac => AV_CODEC_ID_AAC | Mp3 => AV_CODEC_ID_MP3
  | Opus => AV_CODEC_ID_OPUS | Av1 => AV_CODEC_ID_AV1 | Mjpeg => AV_CODEC_ID_MJPEG
  end.

(** [rtp.rs]: an unknown codec is taken for H.264. *)
Definition codec_id_to_codec (id : AVCodecID) : Codec :=
  match id with
  | AV_CODEC_ID_H264 => H264 | AV_CODEC_ID_HEVC => H265 | AV_CODEC_ID_AAC => Aac | AV_CODEC_ID_MP3 => Mp3
  | AV_CODEC_ID_OPUS => Opus | AV_CODEC_ID_AV1 => Av1 | AV_CODEC_ID_MJPEG => Mjpeg
  | _ => H264
  end.

(** The encoder context as it is configured before it is opened. *)
Record Encoder := mkEncoder {
  en_ctx : nat;
  en_width : Z;
  en_height : Z;
  en_pix_fmt : Z;
  en_time_base : AVRational;
  en_framerate : AVRational;
  en_bit_rate : Z;
  en_gop_size : Z;
  en_max_b_frames : Z;
}.

Record H264Mp4ToAnnexb := mkBsf { bsf_ctx : nat; bsf_extra : option nat }.

Record HlsOutputContext := mkHlsCtx {
  hc_ctx : nat;
  hc_buffer : nat;
  hc_io : nat;
  hc_header_written : bool;
}.

Record RtpDemuxContext := mkRtpCtx {
  rd_fmt : nat;
  rd_io : nat;
  rd_buffer : nat;
  rd_opaque : nat;
  rd_inner : nat;
}.

Section Constructors.
Context {H : Type} `{HF : Ffmpeg H}.

(** [packet.rs] *)
Definition Packet_alloc : Ff Packet := let! p := alloc KPacket in ff_ret (mkPkt p None).

(** The packet with its new buffer; a failure leaves it without one. *)
Definition Packet_set_data (p : Packet) : Ff Packet :=
  free_opt (pkt_buf p) ;;! let! b := alloc KBuffer in ff_ret (mkPkt (pkt_ptr p) (Some b)).

Definition Packet_drop (p : Packet) : Ff unit := free_opt (pkt_buf p) ;;! free (pkt_ptr p).

(** [to_av_packet] and [make_packet]: the local packet is dropped when its data
    cannot be written. *)
Definition filled_packet : Ff Packet :=
  let! p := Packet_alloc in Packet_set_data p else! Packet_drop (mkPkt (pkt_ptr p) None).

(** [frame.rs] *)
Definition Frame_new : Ff Frame := let! p := alloc KFrame in ff_ret (mkFrm p None).
Definition Frame_drop (f : Frame) : Ff unit := free_opt (fr_buf f) ;;! free (fr_ptr f).
Definition Frame_new_with_format : Ff Frame :=
  let! f := Frame_new in
  let! b := alloc KBuffer else! Frame_drop f in ff_ret (mkFrm (fr_ptr f) (Some b)).

(** [codec.rs]; the fields of fresh parameters are FFmpeg's defaults. *)
Definition fresh_par : AVCodecParameters := mkCodecpar AVMEDIA_TYPE_UNKNOWN AV_CODEC_ID_NONE 0 None.

Definition alloc_codec_params : Ff OwnedCodecParams :=
  let! p := alloc KParams in ff_ret (mkParams p None fresh_par).
Definition params_free (c : OwnedCodecParams) : Ff unit := free_opt (cp_extra c) ;;! free (cp_ptr c).

(** The buffer of the new extradata, in place of the old. *)
Definition copy_extradata_to_codecpar (old : option nat) : Ff nat := free_opt old ;;! alloc KBuffer.

Definition with_extradata (par : AVCodecParameters) (data : bytes) : AVCodecParameters :=
  mkCodecpar (par_codec_type par) (par_codec_id par) (par_sample_rate par) (Some data).

(** [avcodec_parameters_copy] into fresh parameters: the buffer it allocates. *)
Definition parameters_copy (src : AVCodecParameters) : Ff (option nat) :=
  match par_extradata src with
  | Some _ => let! b := alloc KBuffer in ff_ret (Some b)
  | None => call ;;! ff_ret None
  end.

(** [None]: the source parameters are a null pointer. *)
Definition OwnedCodecParams_copy_from (params : option AVCodecParameters) : Ff OwnedCodecParams :=
  match params with
  | None => ff_fail NotAvailable
  | Some src =>
      let! c := alloc_codec_params in
      let! extra := parameters_copy src else! params_free c in
      ff_ret (mkParams (cp_ptr c) extra src)
  end.

Definition codecpar_of (params : CodecParams) : AVCodecParameters :=
  let '(codec_type, sample_rate) :=
    match cp_codec params with
    | H264 | H265 | Av1 | Mjpeg => (AVMEDIA_TYPE_VIDEO, 0)
    | Aac | Opus | Mp3 => (AVMEDIA_TYPE_AUDIO, as_i32 (cp_clock_rate params))
    end in
  mkCodecpar codec_type (codec_to_av_codec_id (cp_codec params)) sample_rate None.

Definition OwnedCodecParams_from_codec_params (params : CodecParams) : Ff OwnedCodecParams :=
  let! c := alloc_codec_params in
  let par := codecpar_of params in
  match cp_extradata params with
  | Some extradata =>
      let! extra := copy_extradata_to_codecpar (cp_extra c) in
      ff_ret (mkParams (cp_ptr c) (Some extra) (with_extradata par extradata))
  | None => ff_ret (mkParams (cp_ptr c) (cp_extra c) par)
  end.

(** [par]: what [avcodec_parameters_from_context] makes of the context. *)
Definition create_params_from_ctx (codec_ctx : nat) (par : AVCodecParameters) : Ff OwnedCodecParams :=
  let! c := alloc_codec_params else! free codec_ctx in
  call else! (free codec_ctx ;;! params_free c) ;;!
  free codec_ctx ;;! ff_ret (mkParams (cp_ptr c) (cp_extra c) par).

(** [create_dummy_video] and [create_dummy_audio], which set different fields of
    the temporary context. *)
Definition create_dummy (par : AVCodecParameters) : Ff OwnedCodecParams :=
  call ;;! let! codec_ctx := alloc KCodecContext in create_params_from_ctx codec_ctx par.

(** [decoder.rs] *)
Definition Decoder_new : Ff nat := call ;;! alloc KCodecContext.
Definition Decoder_open : Ff unit := call ;;! call.

(** [encoder.rs] *)
Fixpoint apply_options (options : list (string * string)) : Ff unit :=
  match options with
  | [] => ff_ret tt
  | (key, value) :: options =>
      if has_nul key || has_nul value then ff_fail NulInString
      else call_ignored ;;! apply_options options
  end.

Definition Encoder_init (width height pix_fmt : Z) (time_base : AVRational) (bit_rate gop_size : Z)
    (framerate : AVRational) (options : list (string * string)) : Ff Encoder :=
  let! ctx := alloc KCodecContext in
  apply_options options ;;! (call else! free ctx ;;!
  ff_ret (mkEncoder ctx width height pix_fmt time_base framerate bit_rate gop_size 0)).

Definition Encoder_new (width height pix_fmt : Z) (time_base : AVRational) (bit_rate : Z)
    (framerate : AVRational) : Ff Encoder :=
  call ;;! Encoder_init width height pix_fmt time_base bit_rate 60 framerate [].

Definition Encoder_new_named_with_opts (codec_name : string) (width height pix_fmt : Z) (time_base : AVRational)
    (bit_rate gop_size : Z) (framerate : AVRational) (options : list (string * string)) : Ff Encoder :=
  if has_nul codec_name then ff_fail NulInString
  else call ;;! Encoder_init width height pix_fmt time_base bit_rate gop_size framerate options.

Definition Encoder_new_named (codec_name : string) (width height pix_fmt : Z) (time_base : AVRational)
    (bit_rate : Z) (framerate : AVRational) : Ff Encoder :=
  Encoder_new_named_with_opts codec_name width height pix_fmt time_base bit_rate 60 framerate [].

Definition Encoder_drop (e : Encoder) : Ff unit := free (en_ctx e).

(** [scaler.rs] *)
Definition Scaler_new : Ff nat := alloc KSws.

(** [bsf.rs] *)
Definition bsf_free (b : H264Mp4ToAnnexb) : Ff unit := free_opt (bsf_extra b) ;;! free (bsf_ctx b).

(** The guard frees the context, and what it holds, on every early return. *)
Definition H264Mp4ToAnnexb_new : Ff H264Mp4ToAnnexb :=
  call ;;!
  let! ctx := alloc KBsf in
  let! extra := copy_extradata_to_codecpar None else! free ctx in
  call else! bsf_free (mkBsf ctx (Some extra)) ;;!
  ff_ret (mkBsf ctx (Some extra)).

Fixpoint drop_packets (out : list Packet) : Ff unit :=
  match out with [] => ff_ret tt | p :: out => Packet_drop p ;;! drop_packets out end.

(** What [av_bsf_receive_packet] answers in turn, then [EAGAIN]. *)
Inductive receive := ReceivePacket | ReceiveAgain | ReceiveError.

Fixpoint receive_packets (answers : list receive) (out : list Packet) : Ff (list Packet) :=
  let! p := Packet_alloc else! drop_packets out in
  match answers with
  | [] | ReceiveAgain :: _ => Packet_drop p ;;! ff_ret out
  | ReceiveError :: _ => ff_fail (CallFailed (-1)) else! (Packet_drop p ;;! drop_packets out)
  | ReceivePacket :: answers =>
      let! b := alloc KBuffer else! (Packet_drop p ;;! drop_packets out) in
      receive_packets answers (mkPkt (pkt_ptr p) (Some b) :: out)
  end.

(** The packet passed in is dropped whatever the outcome; the output is in
    reverse order here. *)
Definition bsf_filter (packet : Packet) (answers : list receive) : Ff (list Packet) :=
  call else! Packet_drop packet ;;!
  let! out := receive_packets answers [] else! Packet_drop packet in
  Packet_drop packet ;;! ff_ret out.

(** [context/mod.rs], [context/hls_output.rs]: the streams belong to their context. *)
Definition copy_stream : Ff unit := call ;;! call.

Fixpoint copy_streams (n : nat) : Ff unit :=
  match n with O => ff_ret tt | S n => copy_stream ;;! copy_streams n end.

Definition HlsOutputContext_create (streams : nat) : Ff HlsOutputContext :=
  let! ctx := alloc KFormatContext in
  copy_streams streams else! free ctx ;;!
  let! buffer := alloc KBuffer else! free ctx in
  let! io := alloc KIoContext else! (free buffer ;;! free ctx) in
  ff_ret (mkHlsCtx ctx buffer io false).

Definition HlsOutputContext_write_header (c : HlsOutputContext) : Ff HlsOutputContext :=
  call ;;! ff_ret (mkHlsCtx (hc_ctx c) (hc_buffer c) (hc_io c) true).

Definition HlsOutputContext_drop (c : HlsOutputContext) : Ff unit :=
  (if hc_header_written c then call_ignored else ff_ret tt) ;;!
  free (hc_buffer c) ;;! free (hc_io c) ;;! free (hc_ctx c).

(** [rtp.rs]; whether FFmpeg was built with the SDP demuxer, and whether
    [avio_context_free] frees the buffer of a writable context. *)
Context (sdp_demuxer avio_frees_buffer : bool).

Definition find_input_format : Ff (H := H) unit := if sdp_demuxer then ff_ret tt else ff_fail NotFound.

Definition free_sdp_io (sdp_io buf opaque : nat) : Ff unit := free sdp_io ;;! free buf ;;! free opaque.

(** [avformat_open_input] frees the context when it fails. *)
Definition open_input (fmt_ctx : nat) : Ff unit := call else! free fmt_ctx.

Definition RtpDemuxContext_new : Ff RtpDemuxContext :=
  let! sdp := box in
  let! buf := alloc KBuffer else! free sdp in
  let! sdp_io := alloc KIoContext else! (free buf ;;! free sdp) in
  let! fmt_ctx := alloc KFormatContext else! free_sdp_io sdp_io buf sdp in
  find_input_format else! (free sdp_io ;;! free fmt_ctx) ;;!
  open_input fmt_ctx else! free_sdp_io sdp_io buf sdp ;;!
  free_sdp_io sdp_io buf sdp ;;!
  let! inner := box in
  let! opaque := box in
  let! ib := alloc KBuffer else! (free opaque ;;! free fmt_ctx ;;! free inner) in
  let! rtp_io := alloc KIoContext else! (free opaque ;;! free ib ;;! free fmt_ctx ;;! free inner) in
  ff_ret (mkRtpCtx fmt_ctx rtp_io ib opaque inner).

Definition free_rtp_io (c : RtpDemuxContext) : Ff unit :=
  free (rd_opaque c) ;;! free (rd_io c) ;;! (if avio_frees_buffer then free (rd_buffer c) else ff_ret tt).

(** [Drop], then the drop of the field [_inner]. *)
Definition RtpDemuxContext_drop (c : RtpDemuxContext) : Ff unit :=
  free (rd_fmt c) ;;! free_rtp_io c ;;! free (rd_inner c).

End Constructors.

(** ** Ownership triples *)

Section Logic.
Context {H : Type} `{HF : Ffmpeg H} `{!FfmpegLaws H}.

(** The code owns [P]; the rest of the heap is [F]. *)
Definition owns (h : H) (P F : ledger) (n : nat) : Prop := live h = P ∪ F /\ P ##ₘ F /\ faults h = n.

(** From [P], the code ends with [Q a] or fails with [E], whatever the rest of
    the heap is, without touching it and without freeing a dead object. *)
Definition triple {A} (P : ledger) (m : Ff A) (Q : A -> ledger) (E : ledger) : Prop :=
  forall h F n, owns h P F n ->
    match m h with (Ok a, h') => owns h' (Q a) F n | (Err _, h') => owns h' E F n end.

Lemma t_ret {A} (a : A) Q E : triple (Q a) (ff_ret a) Q E.
Proof. intros h F n Ho. exact Ho. Qed.

Lemma t_fail {A} (e : ff_error) (Q : A -> ledger) E : triple E (ff_fail e) Q E.
Proof. intros h F n Ho. exact Ho. Qed.

Lemma t_bind {A B} P (m : Ff A) (k : A -> Ff B) R Q E :
  triple P m R E -> (forall a, triple (R a) (k a) Q E) -> triple P (ff_bind m k) Q E.
Proof.
  intros Hm Hk h F n Ho. unfold ff_bind. specialize (Hm h F n Ho). destruct (m h) as [[a|e] h']; [|done].
  by apply Hk.
Qed.

Lemma t_on_error {A} P (m : Ff A) c Q E E' :
  triple P m Q E -> triple E c (fun _ => E') E' -> triple P (on_error m c) Q E'.
Proof.
  intros Hm Hc h F n Ho. unfold on_error. specialize (Hm h F n Ho).
  destruct (m h) as [[a|e] h']; [done|]. specialize (Hc h' F n Hm). destruct (c h') as [[]]; done.
Qed.

Lemma insert_owned h P F n p k : owns h P F n -> live h !! p = None ->
  P !! p = None /\ <[p := k]> P ##ₘ F /\ <[p := k]> (live h) = <[p := k]> P ∪ F.
Proof.
  intros (Hl & Hd & _) Hp. rewrite Hl in Hp. apply lookup_union_None in Hp as [HP HF'].
  split_and!; [done|by apply map_disjoint_insert_l|]. by rewrite Hl, insert_union_l.
Qed.

Lemma t_alloc {B} P kd (k : nat -> Ff B) Q E :
  (forall p, P !! p = None -> triple (<[p := kd]> P) (k p) Q E) -> P = E ->
  triple P (ff_bind (alloc kd) k) Q E.
Proof.
  intros Hk <- h F n Ho. unfold ff_bind, alloc. pose proof (alloc_live h kd) as Hl.
  pose proof (alloc_faults h kd) as Hf. pose proof (alloc_fresh h kd) as Hfr.
  destruct (ff_alloc h kd) as [[p|] h']; cbn in *.
  - destruct (insert_owned h P F n p kd Ho (Hfr p eq_refl)) as (HP & Hd & Hi).
    apply Hk; [done|]. split_and!; [by rewrite Hl|done|]. rewrite Hf. apply Ho.
  - split_and!; [by rewrite Hl; apply Ho|apply Ho|]. rewrite Hf. apply Ho.
Qed.

Lemma t_alloc_else {B} P kd c (k : nat -> Ff B) Q E :
  (forall p, P !! p = None -> triple (<[p := kd]> P) (k p) Q E) -> triple P c (fun _ => E) E ->
  triple P (ff_bind (on_error (alloc kd) c) k) Q E.
Proof.
  intros Hk Hc h F n Ho. unfold ff_bind, on_error, alloc. pose proof (alloc_live h kd) as Hl.
  pose proof (alloc_faults h kd) as Hf. pose proof (alloc_fresh h kd) as Hfr.
  destruct (ff_alloc h kd) as [[p|] h']; cbn in *.
  - destruct (insert_owned h P F n p kd Ho (Hfr p eq_refl)) as (HP & Hd & Hi).
    apply Hk; [done|]. split_and!; [by rewrite Hl|done|]. rewrite Hf. apply Ho.
  - assert (owns h' P F n) as Ho' by (split_and!; [by rewrite Hl; apply Ho|apply Ho|rewrite Hf; apply Ho]).
    specialize (Hc h' F n Ho'). destruct (c h') as [[]]; done.
Qed.

Lemma t_box {B} P (k : nat -> Ff B) Q E :
  (forall p, P !! p = None -> triple (<[p := KRust]> P) (k p) Q E) -> triple P (ff_bind box k) Q E.
Proof.
  intros Hk h F n Ho. unfold ff_bind, box. pose proof (box_live h) as Hl.
  pose proof (box_faults h) as Hf. pose proof (box_fresh h) as Hfr.
  destruct (ff_box h) as [p h']; cbn in *.
  destruct (insert_owned h P F n p KRust Ho Hfr) as (HP & Hd & Hi).
  apply Hk; [done|]. split_and!; [by rewrite Hl|done|]. rewrite Hf. apply Ho.
Qed.

Lemma t_free P p Q E : is_Some (P !! p) -> Q tt = delete p P -> triple P (free p) Q E.
Proof.
  intros [k Hp] Hq h F n (Hl & Hd & Hf). cbn. rewrite Hq. split_and!.
  - rewrite free_live, Hl, delete_union. f_equal. apply delete_id. by eapply map_disjoint_Some_l.
  - by apply map_disjoint_delete_l.
  - by rewrite free_faults, Hl, (lookup_union_Some_l _ _ _ _ Hp).
Qed.

Lemma t_call P : triple P call (fun _ => P) P.
Proof.
  intros h F n (Hl & Hd & Hf). unfold call. pose proof (call_live h) as Hc. pose proof (call_faults h) as Hcf.
  destruct (ff_call h) as [code h']. cbn in *. destruct (code <? 0); split_and!; congruence || done.
Qed.

Lemma t_call_ignored P E : triple P call_ignored (fun _ => P) E.
Proof.
  intros h F n (Hl & Hd & Hf). cbn. split_and!; [by rewrite call_live|done|by rewrite call_faults].
Qed.

Lemma t_weaken {A} P (m : Ff A) Q Q' E E' : triple P m Q E -> (forall a, Q a = Q' a) -> E = E' -> triple P m Q' E'.
Proof. intros Hm HQ <- h F n Ho. specialize (Hm h F n Ho). destruct (m h) as [[a|]]; by rewrite <- ?HQ. Qed.

(** The rules in the form the code is met: first statement, then the rest. *)
Lemma t_done {A} (P : ledger) (a : A) Q E : P = Q a -> triple P (ff_ret a) Q E.
Proof. intros ->. apply t_ret. Qed.

Lemma t_failed {A} (P : ledger) (e : ff_error) (Q : A -> ledger) E : P = E -> triple P (ff_fail e) Q E.
Proof. intros ->. apply t_fail. Qed.

Lemma t_tail {A} P (m : Ff A) Q E : triple P (ff_bind m ff_ret) Q E -> triple P m Q E.
Proof.
  intros Hm h F n Ho. specialize (Hm h F n Ho). unfold ff_bind in Hm. by destruct (m h) as [[]].
Qed.

Lemma t_assoc {A B C} P (m : Ff A) (k : A -> Ff B) (k' : B -> Ff C) Q E :
  triple P (ff_bind m (fun a => ff_bind (k a) k')) Q E -> triple P (ff_bind (ff_bind m k) k') Q E.
Proof.
  intros Hm h F n Ho. specialize (Hm h F n Ho). unfold ff_bind in *. by destruct (m h) as [[]].
Qed.

Lemma t_ret_bind {A B} P (a : A) (k : A -> Ff B) Q E : triple P (k a) Q E -> triple P (ff_bind (ff_ret a) k) Q E.
Proof. done. Qed.

Lemma t_fail_bind {A B} P e (k : A -> Ff B) Q E : P = E -> triple P (ff_bind (ff_fail e) k) Q E.
Proof. intros -> h F n Ho. exact Ho. Qed.

Lemma t_free_bind {B} P p (k : unit -> Ff B) Q E : is_Some (P !! p) -> triple (delete p P) (k tt) Q E ->
  triple P (ff_bind (free p) k) Q E.
Proof. intros Hp Hk. eapply t_bind; [by apply (t_free P p (fun _ => delete p P))|]. by intros []. Qed.

Lemma t_call_bind {B} P (k : unit -> Ff B) Q E : triple P (k tt) Q E -> P = E -> triple P (ff_bind call k) Q E.
Proof. intros Hk <-. eapply t_bind; [apply t_call|]. by intros []. Qed.

Lemma t_ignored_bind {B} P (k : unit -> Ff B) Q E : triple P (k tt) Q E -> triple P (ff_bind call_ignored k) Q E.
Proof. intros Hk. eapply t_bind; [apply t_call_ignored|]. by intros []. Qed.

(** Code guarded by its clean-up: the guard covers each of its statements. *)
Lemma t_guard_assoc {A B C} P (m : Ff A) (k : A -> Ff B) c (k' : B -> Ff C) Q E :
  triple P (ff_bind (on_error m c) (fun a => ff_bind (on_error (k a) c) k')) Q E ->
  triple P (ff_bind (on_error (ff_bind m k) c) k') Q E.
Proof.
  intros Hm h F n Ho. specialize (Hm h F n Ho). unfold ff_bind, on_error in *. by destruct (m h) as [[]].
Qed.

Lemma t_guard_ret {A B} P (a : A) c (k : A -> Ff B) Q E :
  triple P (k a) Q E -> triple P (ff_bind (on_error (ff_ret a) c) k) Q E.
Proof. done. Qed.

Lemma t_guard_free {B} P p c (k : unit -> Ff B) Q E :
  triple P (ff_bind (free p) k) Q E -> triple P (ff_bind (on_error (free p) c) k) Q E.
Proof. done. Qed.

Lemma t_guard_fail {A B} P e c (k : A -> Ff B) Q E :
  triple P c (fun _ => E) E -> triple P (ff_bind (on_error (ff_fail e) c) k) Q E.
Proof. intros Hc h F n Ho. specialize (Hc h F n Ho). cbn. destruct (c h) as [[]]; done. Qed.

(** A clean-up inside another: [c1] is made of frees. *)
Lemma t_guard_guard {A B} P (m : Ff A) c1 c2 (k : A -> Ff B) Q E : (forall h, fst (c1 h) = Ok tt) ->
  triple P (ff_bind (on_error m (c1 ;;! c2)) k) Q E -> triple P (ff_bind (on_error (on_error m c1) c2) k) Q E.
Proof.
  intros Hc Hm h F n Ho. specialize (Hm h F n Ho). unfold ff_bind, on_error in *.
  destruct (m h) as [[a|e] h1]; [done|]. specialize (Hc h1). destruct (c1 h1) as [r h2]. cbn in *. by subst r.
Qed.

Lemma t_call_guard {B} P c (k : unit -> Ff B) Q E :
  triple P c (fun _ => E) E -> triple P (k tt) Q E -> triple P (ff_bind (on_error call c) k) Q E.
Proof. intros Hc Hk. eapply t_bind; [eapply t_on_error; [apply t_call|done]|]. by intros []. Qed.

End Logic.

(** Solves the equations between ledgers that the rules leave. *)
Ltac ledger_facts :=
  repeat match goal with
  | Hp : <[_ := _]> _ !! _ = None |- _ => apply lookup_insert_None in Hp as [Hp ?]
  end.

Ltac ledger_lookup :=
  repeat first [rewrite lookup_insert_ne by congruence | rewrite lookup_delete_ne by congruence];
  first [done | apply lookup_empty | rewrite lookup_insert_eq; eauto].

Ltac ledger_norm :=
  repeat first [rewrite delete_insert_eq | rewrite delete_insert_ne by congruence
               | rewrite delete_id by ledger_lookup].

Ltac ledger_solve :=
  ledger_facts;
  first [ledger_lookup | ledger_norm; done].

(** One statement of the code. *)
Ltac ff_step :=
  lazymatch goal with
  | |- triple _ (ff_bind (ff_bind _ _) _) _ _ => apply t_assoc
  | |- triple _ (ff_bind (ff_ret _) _) _ _ => apply t_ret_bind
  | |- triple _ (ff_bind (ff_fail _) _) _ _ => apply t_fail_bind; try ledger_solve
  | |- triple _ (ff_bind (alloc _) _) _ _ => apply t_alloc; [intros ? ?|try ledger_solve]
  | |- triple _ (ff_bind box _) _ _ => apply t_box; intros ? ?
  | |- triple _ (ff_bind (on_error (alloc _) _) _) _ _ => apply t_alloc_else; [intros ? ?|]
  | |- triple _ (ff_bind (on_error call _) _) _ _ => apply t_call_guard
  | |- triple _ (ff_bind (on_error (ff_bind _ _) _) _) _ _ => apply t_guard_assoc
  | |- triple _ (ff_bind (on_error (ff_ret _) _) _) _ _ => apply t_guard_ret
  | |- triple _ (ff_bind (on_error (free _) _) _) _ _ => apply t_guard_free
  | |- triple _ (ff_bind (on_error (ff_fail _) _) _) _ _ => apply t_guard_fail
  | |- triple _ (ff_bind (on_error (on_error _ _) _) _) _ _ => apply t_guard_guard; [done|]
  | |- triple _ (ff_bind (free _) _) _ _ => apply t_free_bind; [try ledger_solve|ledger_facts; ledger_norm]
  | |- triple _ (ff_bind call _) _ _ => apply t_call_bind; [|try ledger_solve]
  | |- triple _ (ff_bind call_ignored _) _ _ => apply t_ignored_bind
  | |- triple _ (ff_ret _) _ _ => apply t_done; try ledger_solve
  | |- triple _ (ff_fail _) _ _ => apply t_failed; try ledger_solve
  | |- triple _ (alloc _) _ _ => apply t_tail
  | |- triple _ (on_error _ _) _ _ => apply t_tail
  | |- triple _ (free _) _ _ => apply t_tail
  | |- triple _ call _ _ => apply t_tail
  | |- triple _ call_ignored _ _ => apply t_tail
  end.
Ltac ff_cbn :=
  cbn [pkt_ptr pkt_buf fr_ptr fr_buf cp_ptr cp_extra en_ctx bsf_ctx bsf_extra hc_ctx hc_buffer hc_io hc_header_written
    rd_fmt rd_io rd_buffer rd_opaque rd_inner free_opt].
Ltac ff_steps := ff_cbn; repeat (ff_step; ff_cbn).

(** ** Nothing leaks, nothing is freed twice *)

(** A value is made, used and dropped. *)
Definition life {H A} (make : Ff (H := H) A) (drop : A -> Ff (H := H) unit) : Ff (H := H) unit := ff_bind make drop.

Section Ledgers.
Context {H : Type} `{HF : Ffmpeg H} `{!FfmpegLaws H}.

Lemma packet_ledger : triple ∅ (life filled_packet Packet_drop) (fun _ => ∅) ∅.
Proof.
  unfold life, filled_packet, Packet_alloc, Packet_set_data, Packet_drop. ff_steps.
Qed.

Lemma frame_ledger : triple ∅ (life Frame_new_with_format Frame_drop) (fun _ => ∅) ∅.
Proof. unfold life, Frame_new_with_format, Frame_new, Frame_drop. ff_steps. Qed.

Lemma params_copy_ledger src : triple ∅ (life (OwnedCodecParams_copy_from src) params_free) (fun _ => ∅) ∅.
Proof.
  unfold life, OwnedCodecParams_copy_from, alloc_codec_params, parameters_copy, params_free.
  destruct src as [[ty id sr [x|]]|]; cbn [par_extradata]; ff_steps.
Qed.

Lemma params_new_ledger params : cp_extradata params = None ->
  triple ∅ (life (OwnedCodecParams_from_codec_params params) params_free) (fun _ => ∅) ∅.
Proof.
  intros He. unfold life, OwnedCodecParams_from_codec_params, alloc_codec_params, params_free. rewrite He. ff_steps.
Qed.

Lemma params_dummy_ledger par : triple ∅ (life (create_dummy par) params_free) (fun _ => ∅) ∅.
Proof. unfold life, create_dummy, create_params_from_ctx, alloc_codec_params, params_free. ff_steps. Qed.

(** A decoder that cannot be opened is dropped. *)
Lemma decoder_ledger : triple ∅
  (let! d := Decoder_new in Decoder_open else! free d ;;! free d) (fun _ => ∅) ∅.
Proof. unfold Decoder_new, Decoder_open. ff_steps. Qed.

Lemma options_ledger P options E : Forall (fun o => has_nul (fst o) = false /\ has_nul (snd o) = false) options ->
  triple P (apply_options options) (fun _ => P) E.
Proof.
  induction 1 as [|[k v] options [Hk Hv] _ IH]; [by apply t_done|]. cbn [fst snd] in *. cbn [apply_options].
  rewrite Hk, Hv. cbn [orb]. ff_steps. exact IH.
Qed.

Lemma encoder_ledger name w he pf tb br gop fr options : Forall (fun o => has_nul (fst o) = false /\ has_nul (snd o) = false) options ->
  triple ∅ (life (Encoder_new_named_with_opts name w he pf tb br gop fr options) Encoder_drop) (fun _ => ∅) ∅.
Proof.
  intros Ho. unfold life, Encoder_new_named_with_opts, Encoder_init, Encoder_drop. destruct (has_nul name); ff_steps.
  eapply t_bind; [by apply options_ledger|]. intros []. ff_steps.
Qed.

Lemma scaler_ledger : triple ∅ (life Scaler_new free) (fun _ => ∅) ∅.
Proof. unfold life, Scaler_new. ff_steps. Qed.

Lemma copy_streams_ledger P n : triple P (copy_streams n) (fun _ => P) P.
Proof.
  induction n as [|n IH]; [by apply t_done|]. cbn [copy_streams]. unfold copy_stream. ff_steps. exact IH.
Qed.

(** A context that gets its header, or fails to, and is dropped. *)
Lemma hls_ledger n : triple ∅
  (let! c := HlsOutputContext_create n in
   let! c := HlsOutputContext_write_header c else! HlsOutputContext_drop c in
   HlsOutputContext_drop c) (fun _ => ∅) ∅.
Proof.
  unfold HlsOutputContext_create, HlsOutputContext_write_header, HlsOutputContext_drop. ff_steps.
  eapply t_bind; [eapply t_on_error; [apply copy_streams_ledger|]|]; [ff_steps|]. intros []. ff_steps.
Qed.

(** The ledger of a dropped demultiplexer. *)
Lemma rtp_ledger frees : triple ∅
  (let! c := RtpDemuxContext_new true in
   RtpDemuxContext_drop frees c ;;! ff_ret (rd_buffer c))
  (fun b => if frees then ∅ else <[b := KBuffer]> ∅) ∅.
Proof.
  unfold RtpDemuxContext_new, RtpDemuxContext_drop, free_rtp_io, free_sdp_io, open_input, find_input_format.
  destruct frees; ff_steps.
Qed.

(** ** The bitstream filter *)

(** Code whose result is described by a relation with what it owns. *)
Definition rtriple {A} (P : ledger) (m : Ff (H := H) A) (R : A -> ledger -> Prop) (E : ledger) : Prop :=
  forall h F n, owns h P F n ->
    match m h with (Ok a, h') => exists L, R a L /\ owns h' L F n | (Err _, h') => owns h' E F n end.

Lemma rt_ret {A} P (a : A) (R : A -> ledger -> Prop) E : R a P -> rtriple P (ff_ret a) R E.
Proof. intros HR h F n Ho. by exists P. Qed.

Lemma rt_bind {A B} P (m : Ff A) (k : A -> Ff B) R Q E :
  rtriple P m R E -> (forall a L, R a L -> triple L (k a) Q E) -> triple P (ff_bind m k) Q E.
Proof.
  intros Hm Hk h F n Ho. unfold ff_bind. specialize (Hm h F n Ho). destruct (m h) as [[a|e] h']; [|done].
  destruct Hm as (L & HR & Ho'). by eapply Hk.
Qed.

Lemma rt_then {A B} P (m : Ff A) (k : A -> Ff B) R S E :
  rtriple P m R E -> (forall a L, R a L -> rtriple L (k a) S E) -> rtriple P (ff_bind m k) S E.
Proof.
  intros Hm Hk h F n Ho. unfold ff_bind. specialize (Hm h F n Ho). destruct (m h) as [[a|e] h']; [|done].
  destruct Hm as (L & HR & Ho'). by eapply Hk.
Qed.

Lemma rt_guard {A} P (m : Ff A) c R E E' :
  rtriple P m R E -> triple E c (fun _ => E') E' -> rtriple P (on_error m c) R E'.
Proof.
  intros Hm Hc h F n Ho. unfold on_error. specialize (Hm h F n Ho).
  destruct (m h) as [[a|e] h']; [done|]. specialize (Hc h' F n Hm). destruct (c h') as [[]]; done.
Qed.

Lemma rt_of {A} P (m : Ff A) (Q : A -> ledger) E : triple P m Q E -> rtriple P m (fun a L => L = Q a) E.
Proof. intros Hm h F n Ho. specialize (Hm h F n Ho). destruct (m h) as [[a|e] h']; [by exists (Q a)|done]. Qed.

Lemma rt_alloc P kd : rtriple P (alloc kd) (fun p L => P !! p = None /\ L = <[p := kd]> P) P.
Proof.
  intros h F n Ho. unfold alloc. pose proof (alloc_live h kd) as Hl.
  pose proof (alloc_faults h kd) as Hf. pose proof (alloc_fresh h kd) as Hfr.
  destruct (ff_alloc h kd) as [[p|] h']; cbn in *.
  - destruct (insert_owned h P F n p kd Ho (Hfr p eq_refl)) as (HP & Hd & Hi). eexists. split; [done|].
    split_and!; [by rewrite Hl|done|]. rewrite Hf. apply Ho.
  - split_and!; [by rewrite Hl; apply Ho|apply Ho|]. rewrite Hf. apply Ho.
Qed.

(** What is owned besides is kept. *)
Lemma t_frame {A} P (m : Ff A) Q E G E' : triple P m Q E -> P ##ₘ G -> (forall h e, fst (m h) <> Err e) ->
  triple (P ∪ G) m (fun a => Q a ∪ G) E'.
Proof.
  intros Hm HG Hok h F n (Hl & Hd & Hf). apply map_disjoint_union_l in Hd as [HdP HdG].
  specialize (Hm h (G ∪ F) n). specialize (Hok h). destruct (m h) as [[a|e] h']; [|by destruct (Hok e)].
  destruct Hm as (Hl' & Hd' & Hf').
  - split_and!; [by rewrite map_union_assoc|by apply map_disjoint_union_r|done].
  - apply map_disjoint_union_r in Hd' as [??].
    split_and!; [by rewrite <- map_union_assoc|by apply map_disjoint_union_l|done].
Qed.

Lemma Packet_drop_ok p h : fst (Packet_drop p h) = Ok tt.
Proof. unfold Packet_drop. by destruct p as [q [b|]]. Qed.

Lemma drop_packets_ok out h : fst (drop_packets out h) = Ok tt.
Proof.
  revert h. induction out as [|p out IH]; intros h; [done|]. cbn [drop_packets]. unfold ff_bind.
  pose proof (Packet_drop_ok p h). destruct (Packet_drop p h) as [[[]|]]; [apply IH|done].
Qed.

(** [out] owns [O]. *)
Definition droppable (out : list Packet) (O : ledger) : Prop :=
  triple O (drop_packets out) (fun _ => ∅) ∅.

Lemma droppable_frame out O G E : droppable out O -> O ##ₘ G ->
  triple (O ∪ G) (drop_packets out) (fun _ => G) E.
Proof.
  intros Hd HG. eapply t_weaken; [eapply (t_frame _ _ _ _ G E)|..]; [exact Hd|done| |intros []; apply map_empty_union|done].
  intros h e. by rewrite drop_packets_ok.
Qed.

Lemma droppable_cons out O p b : droppable out O -> O !! p = None -> <[p := KPacket]> O !! b = None ->
  droppable (mkPkt p (Some b) :: out) (<[b := KBuffer]> (<[p := KPacket]> O)).
Proof. intros Hd Hp Hb. unfold droppable. cbn [drop_packets]. unfold Packet_drop. ff_steps. exact Hd. Qed.

Definition received (P : ledger) (out : list Packet) (L : ledger) : Prop :=
  exists O, droppable out O /\ O ##ₘ P /\ L = O ∪ P.

Lemma received_drop P out L E : received P out L -> triple L (drop_packets out) (fun _ => P) E.
Proof. intros (O & Hd & HO & ->). by apply droppable_frame. Qed.

Lemma received_cons P out L p b : received P out L -> L !! p = None -> <[p := KPacket]> L !! b = None ->
  received P (mkPkt p (Some b) :: out) (<[b := KBuffer]> (<[p := KPacket]> L)).
Proof.
  intros (O & Hd & HO & ->) Hp Hb. apply lookup_union_None in Hp as [HpO HpP].
  apply lookup_insert_None in Hb as [Hb Hne]. apply lookup_union_None in Hb as [HbO HbP].
  exists (<[b := KBuffer]> (<[p := KPacket]> O)). split_and!.
  - apply droppable_cons; [done|done|]. by apply lookup_insert_None.
  - apply map_disjoint_insert_l. split; [done|]. by apply map_disjoint_insert_l.
  - by rewrite !insert_union_l.
Qed.

Lemma receive_ledger answers : forall P out L, received P out L ->
  rtriple L (receive_packets answers out) (received P) P.
Proof.
  assert (forall P out L, received P out L ->
    rtriple L (Packet_alloc else! drop_packets out) (fun p L' => exists q, p = mkPkt q None /\ L !! q = None
      /\ L' = <[q := KPacket]> L) P) as Halloc.
  { intros P out L Hd. eapply rt_guard; [|by apply received_drop]. unfold Packet_alloc.
    eapply rt_then; [apply rt_alloc|]. intros q L' [Hq ->]. apply rt_ret. by exists q. }
  assert (forall P out L q, received P out L -> L !! q = None ->
    triple (<[q := KPacket]> L) (Packet_drop (mkPkt q None) ;;! drop_packets out) (fun _ => P) P) as Hboth.
  { intros P out L q Hd Hq. unfold Packet_drop. ff_steps. by apply received_drop. }
  assert (forall P out L q, received P out L -> L !! q = None ->
    rtriple (<[q := KPacket]> L) (Packet_drop (mkPkt q None) ;;! ff_ret out) (received P) P) as Hlast.
  { intros P out L q Hd Hq. eapply (rt_then _ _ _ (fun _ L'' => L'' = L)); [|by intros [] ? ->; apply rt_ret].
    apply (rt_of _ _ (fun _ => L)). unfold Packet_drop. ff_steps. }
  induction answers as [|[] answers IH]; intros P out L Hd; cbn [receive_packets];
    (eapply rt_then; [by apply Halloc|]); intros p L' (q & -> & Hq & ->); [by apply Hlast| |by apply Hlast|].
  - eapply rt_then; [eapply rt_guard; [apply rt_alloc|by apply Hboth]|].
    intros b L' [Hb ->]. apply IH. by apply received_cons.
  - apply (rt_guard _ _ _ _ (<[q := KPacket]> L)); [intros h F n Ho; exact Ho|by apply Hboth].
Qed.

Lemma received_nil P : received P [] P.
Proof.
  exists ∅. split_and!; [by apply t_done|apply map_disjoint_empty_l|by rewrite map_empty_union].
Qed.

(** A filter that is made, given a packet and dropped with what it answered. *)
Lemma bsf_ledger answers : triple ∅
  (let! b := H264Mp4ToAnnexb_new in
   let! p := filled_packet else! bsf_free b in
   let! out := bsf_filter p answers else! bsf_free b in
   drop_packets out ;;! bsf_free b) (fun _ => ∅) ∅.
Proof.
  unfold H264Mp4ToAnnexb_new, filled_packet, Packet_alloc, Packet_set_data, bsf_free,
    copy_extradata_to_codecpar, bsf_filter. unfold Packet_drop. ff_steps.
  eapply rt_bind; [eapply rt_guard; [apply receive_ledger, received_nil|ff_steps]|].
  intros out L (O & Hd & HO & ->). cbn beta.
  ledger_facts. set (P := <[p0 := KBuffer]> (<[p := KBsf]> ∅) : ledger).
  apply map_disjoint_insert_r in HO as [HO2 HO]. apply map_disjoint_insert_r in HO as [HO1 HO].
  fold P in HO. apply t_guard_assoc. cbn beta. apply t_guard_assoc, t_guard_free, t_free_bind.
  { rewrite lookup_union_r, lookup_insert_eq by done. eauto. }
  rewrite delete_union, (delete_id O) by done. subst P. ledger_norm. cbn beta.
  apply t_guard_free, t_free_bind; [rewrite lookup_union_r, lookup_insert_eq by done; eauto|].
  rewrite delete_union, (delete_id O) by done. ledger_norm. cbn beta.
  apply t_guard_ret. eapply t_bind; [by apply droppable_frame|]. intros []. ff_steps.
Qed.

(** ** What the wrappers promise *)

(** Every run leaves the library with the objects it had, and frees nothing
    that was not live. *)
Definition balanced {A} (m : Ff (H := H) A) : Prop :=
  forall h, live (snd (m h)) = live h /\ faults (snd (m h)) = faults h.

Lemma balanced_of (m : Ff unit) : triple ∅ m (fun _ => ∅) ∅ -> balanced m.
Proof.
  intros Hm h. specialize (Hm h (live h) (faults h)).
  destruct (m h) as [[[]|e] h']; cbn; destruct Hm as (Hl & _ & Hf);
    try (split_and!; [by rewrite map_empty_union|apply map_disjoint_empty_l|done]);
    by rewrite Hl, map_empty_union.
Qed.

(** C24: making a wrapper, using it and dropping it leaves FFmpeg as it was,
    whichever of its calls fail and whatever else the program owns: no object is
    leaked on any of these paths, none is freed twice. This holds of packets with
    their data, frames, codec parameters copied, converted without extradata or
    made from a codec context, decoders, encoders (with options free of NUL characters), scalers, the
    bitstream filter with what it is fed and answers, and the in-memory MPEG-TS
    context. *)
Theorem ffmpeg_wrappers_balanced source params par name w he pf tb br gop fr options streams answers :
  cp_extradata params = None ->
  Forall (fun o => has_nul (fst o) = false /\ has_nul (snd o) = false) options ->
  balanced (life filled_packet Packet_drop)
  /\ balanced (life Frame_new_with_format Frame_drop)
  /\ balanced (life (OwnedCodecParams_copy_from source) params_free)
  /\ balanced (life (OwnedCodecParams_from_codec_params params) params_free)
  /\ balanced (life (create_dummy par) params_free)
  /\ balanced (let! d := Decoder_new in Decoder_open else! free d ;;! free d)
  /\ balanced (life (Encoder_new_named_with_opts name w he pf tb br gop fr options) Encoder_drop)
  /\ balanced (life Scaler_new free)
  /\ balanced (let! b := H264Mp4ToAnnexb_new in
               let! p := filled_packet else! bsf_free b in
               let! out := bsf_filter p answers else! bsf_free b in
               drop_packets out ;;! bsf_free b)
  /\ balanced (let! c := HlsOutputContext_create streams in
               let! c := HlsOutputContext_write_header c else! HlsOutputContext_drop c in
               HlsOutputContext_drop c).
Proof.
  intros He Ho. split_and!; apply balanced_of;
    eauto using packet_ledger, frame_ledger, params_copy_ledger, params_new_ledger, params_dummy_ledger, decoder_ledger,
      encoder_ledger, scaler_ledger, bsf_ledger, hls_ledger.
Qed.

(** ** What they leak *)

Lemma alloc_cases h kd : exists h', faults h' = faults h /\
  ((ff_alloc h kd = (None, h') /\ live h' = live h)
   \/ exists p, ff_alloc h kd = (Some p, h') /\ live h !! p = None /\ live h' = <[p := kd]> (live h)).
Proof.
  pose proof (alloc_fresh h kd) as Hf. pose proof (alloc_live h kd) as Hl. pose proof (alloc_faults h kd) as Hft.
  destruct (ff_alloc h kd) as [[p|] h']; cbn in *; exists h'; (split; [done|]); [right|left]; eauto.
Qed.

Lemma params_leak params h h' : OwnedCodecParams_from_codec_params params h = (Err (NoMemory KBuffer), h') ->
  exists p, live h !! p = None /\ live h' = <[p := KParams]> (live h).
Proof.
  unfold OwnedCodecParams_from_codec_params, alloc_codec_params, copy_extradata_to_codecpar, ff_bind, alloc.
  destruct (cp_extradata params) as [x|]; cbn;
    [|destruct (alloc_cases h KParams) as (h1 & _ & [(-> & H1)|(p & -> & Hp & H1)]); intros [=]].
  destruct (alloc_cases h KParams) as (h1 & _ & [(-> & H1)|(p & -> & Hp & H1)]); [intros [=]|]. cbn.
  destruct (alloc_cases h1 KBuffer) as (h2 & _ & [(-> & H2)|(b & -> & Hb & H2)]); intros [=]; subst h2.
  exists p. by rewrite H2, H1.
Qed.

Lemma encoder_leak w he pf tb br gop fr key value h h' : has_nul key || has_nul value = true ->
  Encoder_init w he pf tb br gop fr [(key, value)] h = (Err NulInString, h') ->
  exists p, live h !! p = None /\ live h' = <[p := KCodecContext]> (live h).
Proof.
  intros Hn. unfold Encoder_init, ff_bind, alloc. cbn [apply_options]. rewrite Hn.
  destruct (alloc_cases h KCodecContext) as (h1 & _ & [(-> & H1)|(p & -> & Hp & H1)]); [intros [=]|].
  cbn. intros [= <-]. by exists p.
Qed.

Lemma rtp_dropped_leak h h' b :
  (let! c := RtpDemuxContext_new true in RtpDemuxContext_drop false c ;;! ff_ret (rd_buffer c)) h = (Ok b, h') ->
  live h !! b = None /\ live h' = <[b := KBuffer]> (live h) /\ faults h' = faults h.
Proof.
  intros Hr. pose proof (rtp_ledger false h (live h) (faults h)) as Ht. rewrite Hr in Ht.
  destruct Ht as (Hl & Hd & Hf).
  { split_and!; [by rewrite map_empty_union|apply map_disjoint_empty_l|done]. }
  apply map_disjoint_insert_l in Hd as [Hb _]. split_and!; [done| |done].
  by rewrite Hl, <- insert_union_l, map_empty_union.
Qed.

Lemma rtp_new_leak h h' : RtpDemuxContext_new false h = (Err NotFound, h') ->
  exists sdp buf, live h !! sdp = None /\ live h !! buf = None /\ sdp <> buf
    /\ live h' = <[buf := KBuffer]> (<[sdp := KRust]> (live h)).
Proof.
  unfold RtpDemuxContext_new, find_input_format, free_sdp_io, ff_bind, on_error, box, alloc, free. cbn.
  pose proof (box_fresh h) as Hs. pose proof (box_live h) as H0. destruct (ff_box h) as [s h0]. cbn in *.
  destruct (alloc_cases h0 KBuffer) as (h1 & _ & [(-> & H1)|(b & -> & Hb & H1)]); [intros [=]|].
  destruct (alloc_cases h1 KIoContext) as (h2 & _ & [(-> & H2)|(io & -> & Hio & H2)]); [intros [=]|].
  destruct (alloc_cases h2 KFormatContext) as (h3 & _ & [(-> & H3)|(fmt & -> & Hfmt & H3)]); cbn; intros [=]; subst h'.
  rewrite H0 in Hb, H1. rewrite H1 in Hio, H2. rewrite H2 in Hfmt, H3. clear H0 H1 H2.
  apply lookup_insert_None in Hb as [Hb Hsb]. exists s, b. split_and!; [done|done|done|].
  rewrite !free_live, H3. ledger_facts. ledger_norm. done.
Qed.

(** The four paths on which a wrapper leaks. [from_codec_params] keeps its
    parameters when the extradata cannot be copied; an encoder option with a NUL
    character keeps the encoder context; without FFmpeg's SDP demuxer the RTP
    context keeps its first buffer and the boxed SDP; and a dropped RTP context
    keeps the buffer of its I/O context, which FFmpeg leaves to its user. In each
    case exactly these objects stay, and nothing is freed twice. *)
Theorem ffmpeg_wrappers_leak params w he pf tb br gop fr h h' :
  (OwnedCodecParams_from_codec_params params h = (Err (NoMemory KBuffer), h') ->
     exists p, live h !! p = None /\ live h' = <[p := KParams]> (live h))
  /\ (forall key value, has_nul key || has_nul value = true ->
     Encoder_init w he pf tb br gop fr [(key, value)] h = (Err NulInString, h') ->
     exists p, live h !! p = None /\ live h' = <[p := KCodecContext]> (live h))
  /\ (RtpDemuxContext_new false h = (Err NotFound, h') ->
     exists sdp buf, live h !! sdp = None /\ live h !! buf = None /\ sdp <> buf
       /\ live h' = <[buf := KBuffer]> (<[sdp := KRust]> (live h)))
  /\ (forall b, (let! c := RtpDemuxContext_new true in RtpDemuxContext_drop false c ;;! ff_ret (rd_buffer c)) h
       = (Ok b, h') ->
     live h !! b = None /\ live h' = <[b := KBuffer]> (live h) /\ faults h' = faults h).
Proof.
  split_and!; eauto using params_leak, encoder_leak, rtp_new_leak, rtp_dropped_leak.
Qed.
End Ledgers.

(** ** Concrete runs *)

Lemma ffmpeg_wrappers_balanced_witness :
  balanced (H := Heap) (life (Encoder_new_named_with_opts "libx264" 320 240 0 (1, 1000) 1000000 30 (30, 1)
    [("preset", "veryfast")]%string) Encoder_drop)
  /\ snd (HlsOutputContext_create 2 (mkHeap ∅ 0 [0; 0; 0; 0; 0; 0; -1])) = mkHeap ∅ 0 [].
Proof.
  split; [|vm_compute; reflexivity].
  refine (proj1 (proj2 (proj2 (proj2 (proj2 (proj2 (proj2 (ffmpeg_wrappers_balanced None
    (new_video H264 90000 None) fresh_par "libx264" 320 240 0 (1, 1000) 1000000 30 (30, 1)
    [("preset", "veryfast")]%string 2 [] eq_refl _)))))))).
  repeat constructor.
Defined.

(** Each of the other leaks happens. *)
Example encoder_leak_run : size (live (snd (Encoder_init 0 0 0 (1, 1) 0 0 (1, 1) [("preset"%string, String zero EmptyString)]
  (mkHeap ∅ 0 [])))) = 1%nat.
Proof. vm_compute. reflexivity. Qed.

Example rtp_new_leak_run : size (live (snd (RtpDemuxContext_new false (mkHeap ∅ 0 [])))) = 2%nat.
Proof. vm_compute. reflexivity. Qed.

Example rtp_drop_leak_run : size (live (snd ((let! c := RtpDemuxContext_new true in RtpDemuxContext_drop false c)
  (mkHeap ∅ 0 [])))) = 1%nat.
Proof. vm_compute. reflexivity. Qed.
