(* ===== verification/AvFields.v ===== *)
(** * What FFmpeg's objects hold
    [livestream-media/src/{frame, codec, encoder, scaler, bsf}.rs, context/mod.rs]:
    the fields the wrappers read and write of a frame, an open encoder, a scaler and
    codec parameters, the private options of an encoder, and the default operations
    of the format contexts. The objects themselves are those of [Ffmpeg]. *)
From stdpp Require Import strings gmap.
From S2P Require Import Prelude Types AvPacket Ffmpeg.

(** ** Frames *)

(** The fields of an [AVFrame] that are used, in the object that holds them. *)
Record VideoFrame := mkFrame {
  vf_object : Ffmpeg.Frame;
  vf_width : Z;
  vf_height : Z;
  vf_format : Z;
  vf_pts : Z;
}.

(** What [av_frame_alloc] sets them to. *)
Definition blank (f : Ffmpeg.Frame) : VideoFrame := mkFrame f 0 0 (-1) AV_NOPTS_VALUE.

Definition pts (f : VideoFrame) : option Z := if vf_pts f =? AV_NOPTS_VALUE then None else Some (vf_pts f).
Definition set_pts (f : VideoFrame) (v : Z) : VideoFrame :=
  mkFrame (vf_object f) (vf_width f) (vf_height f) (vf_format f) v.

(** ** Scalers *)

Record Scaler := mkScaler { sc_ctx : nat; src_width : Z; src_height : Z; dst_width : Z; dst_height : Z }.

(** ** Codec parameters *)

Section Names.
(** FFmpeg's names; [None] is a null pointer. *)
Context (avcodec_get_name : AVCodecID -> option string) (avcodec_profile_name : AVCodecID -> Z -> option string).

Definition codec_name (par : AVCodecParameters) : string := default "unknown"%string (avcodec_get_name (par_codec_id par)).
Definition profile_name (par : AVCodecParameters) (profile : Z) : string :=
  default "unknown"%string (avcodec_profile_name (par_codec_id par) profile).
End Names.

(** ** Encoders *)

Definition set_gop_size (e : Encoder) (frames : Z) : Encoder :=
  mkEncoder (en_ctx e) (en_width e) (en_height e) (en_pix_fmt e) (en_time_base e) (en_framerate e) (en_bit_rate e) frames
    (en_max_b_frames e).
Definition set_max_b_frames (e : Encoder) (n : Z) : Encoder :=
  mkEncoder (en_ctx e) (en_width e) (en_height e) (en_pix_fmt e) (en_time_base e) (en_framerate e) (en_bit_rate e)
    (en_gop_size e) n.

(** What the accessors of an encoder report. *)
Definition reported (e : Encoder) : Z * Z * Z * AVRational * AVRational :=
  (en_width e, en_height e, en_pix_fmt e, en_time_base e, en_framerate e).

(** ** Operations on the library *)

Section Calls.
Context {H : Type} `{HF : Ffmpeg H}.

Definition new_frame : Ff (H := H) VideoFrame := let! f := Frame_new in ff_ret (blank f).

(** [Frame::new_with_format]: the fields are set before the planes are allocated. *)
Definition new_with_format (pix_fmt width height : Z) : Ff (H := H) VideoFrame :=
  let! f := Frame_new_with_format in ff_ret (mkFrame f width height pix_fmt AV_NOPTS_VALUE).

Definition new_scaler (src_w src_h dst_w dst_h : Z) : Ff (H := H) Scaler :=
  let! ctx := Scaler_new in ff_ret (mkScaler ctx src_w src_h dst_w dst_h).

(** [scale]; the destination keeps its own time. *)
Definition scale (s : Scaler) (src dst : VideoFrame) : Ff (H := H) VideoFrame := call ;;! ff_ret dst.

Definition apply_private_option (key value : string) : Ff (H := H) unit :=
  if has_nul key || has_nul value then ff_fail NulInString else call.

(** [codec.rs]: looking up a decoder allocates nothing. *)
Definition find_decoder : Ff (H := H) unit := call.
Definition alloc_codec_context : Ff (H := H) nat := alloc KCodecContext.

(** [bsf.rs]: the guard of a filter context that is being set up; [None] once it
    was handed over. *)
Definition guard_into_inner (guard : option H264Mp4ToAnnexb) : option H264Mp4ToAnnexb * option H264Mp4ToAnnexb := (guard, None).
Definition guard_drop (guard : option H264Mp4ToAnnexb) : Ff (H := H) unit :=
  match guard with Some b => bsf_free b | None => ff_ret tt end.

(** [H264Mp4ToAnnexb::new] with its guard; the last call drops the disarmed one. *)
Definition bsf_new_guarded : Ff (H := H) H264Mp4ToAnnexb :=
  call ;;!
  let! ctx := alloc KBsf in
  let guard := Some (mkBsf ctx None) in
  let! extra := copy_extradata_to_codecpar None else! guard_drop guard in
  let guard := Some (mkBsf ctx (Some extra)) in
  call else! guard_drop guard ;;!
  let '(inner, guard) := guard_into_inner guard in
  guard_drop guard ;;! match inner with Some b => ff_ret b | None => ff_fail NotAvailable end.

(** [context/mod.rs]; the names are made into C strings before the call. *)
Definition c_string (s : option string) : Ff (H := H) unit :=
  match s with
  | Some s => if has_nul s then ff_fail NulInString else ff_ret tt
  | None => ff_ret tt
  end.

Definition alloc_output_ctx (format : string) (url : option string) : Ff (H := H) nat :=
  c_string (Some format) ;;! c_string url ;;! alloc KFormatContext.
Definition open_io (path : option string) : Ff (H := H) nat := c_string path ;;! alloc KIoContext.
Definition write_header : Ff (H := H) unit := call.
Definition write_trailer : Ff (H := H) unit := call.
End Calls.

(** ** Properties *)

(** A time that was set is read back, FFmpeg's marker of no time excepted. *)
Lemma pts_set f v : pts (set_pts f v) = if v =? AV_NOPTS_VALUE then None else Some v.
Proof. reflexivity. Qed.

Section Results.
Context {H : Type} `{HF : Ffmpeg H}.

(** A new frame has its size and format, and no time. *)
Lemma new_with_format_fields pix_fmt width height (h h' : H) f : new_with_format pix_fmt width height h = (Ok f, h') ->
  (vf_width f, vf_height f, vf_format f) = (width, height, pix_fmt) /\ pts f = None.
Proof.
  unfold new_with_format, ff_bind. destruct (Frame_new_with_format h) as [[f0|e] h0]; [|done]. by intros [= <- _].
Qed.

(** Scaling alone leaves the old time on the destination: its user sets it. *)
Lemma scale_keeps_time s src dst (h h' : H) f : scale s src dst h = (Ok f, h') -> pts f = pts dst.
Proof. unfold scale, ff_bind. destruct (call h) as [[[]|e] h0]; [|done]. by intros [= <- _]. Qed.

Lemma init_reports w he pf tb br gop fr options (h h' : H) e :
  Encoder_init w he pf tb br gop fr options h = (Ok e, h') -> reported e = (w, he, pf, tb, fr) /\ en_gop_size e = gop.
Proof.
  unfold Encoder_init, ff_bind, on_error. destruct (alloc KCodecContext h) as [[ctx|]  h0]; [|done].
  destruct (apply_options options h0) as [[[]|] h1]; [|done]. destruct (call h1) as [[[]|] h2]; [|done]. by intros [= <- _].
Qed.

(** An encoder reports what it was opened with, whatever was set since. *)
Theorem encoder_reports name w he pf tb br gop fr options frames n (h h' : H) e :
  Encoder_new_named_with_opts name w he pf tb br gop fr options h = (Ok e, h')
  \/ Encoder_new_named name w he pf tb br fr h = (Ok e, h') \/ Encoder_new w he pf tb br fr h = (Ok e, h') ->
  reported (set_max_b_frames (set_gop_size e frames) n) = (w, he, pf, tb, fr).
Proof.
  unfold Encoder_new_named, Encoder_new_named_with_opts, Encoder_new, ff_bind, ff_fail.
  intros He. change (reported (set_max_b_frames (set_gop_size e frames) n)) with (reported e).
  destruct (has_nul name); destruct (call h) as [[[]|] h0]; destruct He as [He|[He|He]]; try done; exact (proj1 (init_reports _ _ _ _ _ _ _ _ _ _ _ He)).
Qed.

(** The guard gives up the context exactly on success. *)
Theorem bsf_guard_moves (h : H) : bsf_new_guarded h = H264Mp4ToAnnexb_new h.
Proof.
  unfold bsf_new_guarded, H264Mp4ToAnnexb_new, ff_bind, on_error. destruct (call h) as [[[]|] h0]; [|done].
  destruct (alloc KBsf h0) as [[ctx|] h1]; [|done]. destruct (copy_extradata_to_codecpar None h1) as [[extra|] h2]; [|done].
  by destruct (call h2) as [[[]|] h3].
Qed.

(** An option the encoder lacks is an error once it is open; its constructor only
    logs it. *)
Lemma missing_option_differs key value (h : H) : has_nul key || has_nul value = false -> fst (ff_call h) < 0 ->
  fst (apply_private_option key value h) = Err (CallFailed (fst (ff_call h))) /\ fst (apply_options [(key, value)] h) = Ok tt.
Proof.
  intros Hn Hc. unfold apply_private_option, apply_options, call, call_ignored, ff_bind. rewrite Hn. cbn.
  destruct (ff_call h) as [code h0]. cbn in *. destruct (Z.ltb_spec code 0); [done|lia].
Qed.

(** A name C cannot hold is refused before anything is allocated. *)
Lemma nul_name_refused format path (h : H) : has_nul path = true ->
  snd (alloc_output_ctx format (Some path) h) = h /\ open_io (Some path) h = (Err NulInString, h).
Proof.
  intros Hn. unfold alloc_output_ctx, open_io, c_string, ff_bind, ff_fail. rewrite Hn. split; [|done].
  by destruct (has_nul format).
Qed.

(** The context of the segment muxer is made by the default operation. *)
Lemma mpegts_context (h : H) : alloc_output_ctx "mpegts" None h = alloc KFormatContext h.
Proof.
  unfold alloc_output_ctx, c_string. replace (has_nul "mpegts") with false by (symmetry; vm_compute; reflexivity). reflexivity.
Qed.
End Results.
