(* ===== verification/Tokio.v ===== *)
(** * Interfaces of the asynchronous runtime
    What the code relies on of the [tokio] crates, as typeclasses with the
    documented laws; components are modelled and proved against the classes, and
    each class has an implementation for concrete runs.
    - [TokenStore]: [tokio_util::sync::CancellationToken], a latch that is
      inherited by the tokens made with [child_token];
    - [BroadcastChan]: [tokio::sync::broadcast], a bounded log of which every
      receiver sees what was sent after it subscribed, the oldest entries being
      overwritten when it lags by more than the capacity. *)
From S2P Require Import Prelude.

(** ** Cancellation tokens *)

Class TokenStore (T : Type) := {
  tk_known : T -> nat -> bool;
  tk_cancelled : T -> nat -> bool;
  (** [tk_below s u t]: [t] is [u] or was derived from it by [child_token]. *)
  tk_below : T -> nat -> nat -> bool;
  (** [CancellationToken::new]: a token below no other. *)
  tk_new : T -> nat * T;
  tk_child : T -> nat -> nat * T;
  tk_cancel : T -> nat -> T;
}.

Class TokenLaws (T : Type) `{TokenStore T} := {
  tk_cancel_spec s u t : tk_cancelled (tk_cancel s u) t = tk_cancelled s t || tk_below s u t;
  tk_cancelled_known s t : tk_cancelled s t = true -> tk_known s t = true;
  tk_cancel_known s u t : tk_known (tk_cancel s u) t = tk_known s t;
  tk_cancel_below s u a b : tk_below (tk_cancel s u) a b = tk_below s a b;
  tk_below_refl s u : tk_known s u = true -> tk_below s u u = true;
  tk_below_known s u t : tk_below s u t = true -> tk_known s u = true /\ tk_known s t = true;
  tk_new_fresh s : tk_known s (fst (tk_new s)) = false;
  tk_new_known s t : tk_known (snd (tk_new s)) t = tk_known s t || bool_decide (t = fst (tk_new s));
  tk_new_cancelled s t : tk_cancelled (snd (tk_new s)) t = tk_cancelled s t;
  tk_new_below s u t : tk_known s u = true -> tk_below (snd (tk_new s)) u t
    = if decide (t = fst (tk_new s)) then false else tk_below s u t;
  tk_child_fresh s p : tk_known s (fst (tk_child s p)) = false;
  tk_child_known s p t :
    tk_known (snd (tk_child s p)) t = tk_known s t || bool_decide (t = fst (tk_child s p));
  tk_child_cancelled s p t : tk_cancelled (snd (tk_child s p)) t
    = if decide (t = fst (tk_child s p)) then tk_cancelled s p else tk_cancelled s t;
  tk_child_below s p u t : tk_known s u = true -> tk_below (snd (tk_child s p)) u t
    = if decide (t = fst (tk_child s p)) then tk_below s u p else tk_below s u t;
}.

Section Laws.
Context {T} `{TokenLaws T}.

Lemma tk_cancel_self s u : tk_known s u = true -> tk_cancelled (tk_cancel s u) u = true.
Proof. intros Hk. by rewrite tk_cancel_spec, tk_below_refl, orb_true_r. Qed.

Lemma tk_cancel_mono s u t : tk_cancelled s t = true -> tk_cancelled (tk_cancel s u) t = true.
Proof. intros Ht. by rewrite tk_cancel_spec, Ht. Qed.

Lemma tk_child_mono s p t : tk_cancelled s t = true -> tk_cancelled (snd (tk_child s p)) t = true.
Proof.
  intros Ht. rewrite tk_child_cancelled. case_decide as E; [|done].
  apply tk_cancelled_known in Ht. pose proof (tk_child_fresh s p). congruence.
Qed.

Lemma tk_child_old s p t : tk_known s t = true ->
  tk_cancelled (snd (tk_child s p)) t = tk_cancelled s t.
Proof.
  intros Ht. rewrite tk_child_cancelled. case_decide as E; [|done].
  pose proof (tk_child_fresh s p). congruence.
Qed.

Lemma tk_child_self_known s p : tk_known (snd (tk_child s p)) (fst (tk_child s p)) = true.
Proof. rewrite tk_child_known, bool_decide_true by done. by rewrite orb_true_r. Qed.
End Laws.

(** ** An implementation: a list of (ancestors, latch) *)

Abbreviation token_list := (list (list nat * bool)).

Definition tl_below (s : token_list) (u t : nat) : bool :=
  match s !! t with
  | Some (anc, _) => bool_decide (u < length s)%nat && bool_decide (u = t \/ u ∈ anc)
  | None => false
  end.

Definition tl_mark (s : token_list) (u : nat) : token_list :=
  imap (fun t '(anc, c) => (anc, c || bool_decide (u < length s)%nat && bool_decide (u = t \/ u ∈ anc))) s.

#[export] Instance token_list_store : TokenStore token_list := {
  tk_known s t := bool_decide (t < length s)%nat;
  tk_cancelled s t := match s !! t with Some (_, c) => c | None => false end;
  tk_below := tl_below;
  tk_new s := (length s, s ++ [([], false)]);
  tk_child s p :=
    (length s, s ++ [match s !! p with Some (anc, c) => (p :: anc, c) | None => ([], false) end]);
  tk_cancel := tl_mark;
}.

Lemma length_tl_mark s u : length (tl_mark s u) = length s.
Proof. apply length_imap. Qed.

Lemma tl_mark_lookup s u t : tl_mark s u !! t
  = (fun '(anc, c) => (anc, c || bool_decide (u < length s)%nat && bool_decide (u = t \/ u ∈ anc)))
    <$> s !! t.
Proof. unfold tl_mark. rewrite list_lookup_imap. by destruct (s !! t) as [[]|]. Qed.

#[export] Instance token_list_laws : TokenLaws token_list.
Proof.
  split; cbn.
  - intros s u t. unfold tl_below. rewrite tl_mark_lookup. by destruct (s !! t) as [[]|].
  - intros s t. destruct (s !! t) as [[]|] eqn:E; [|done]. intros _.
    apply bool_decide_eq_true. by eapply lookup_lt_Some.
  - intros s u t. by rewrite length_tl_mark.
  - intros s u a b. unfold tl_below. rewrite tl_mark_lookup, length_tl_mark.
    by destruct (s !! b) as [[]|].
  - intros s u Hu%bool_decide_eq_true. unfold tl_below.
    destruct (lookup_lt_is_Some_2 s u Hu) as [[anc c] ->]. rewrite !bool_decide_true; auto.
  - intros s u t. unfold tl_below. destruct (s !! t) as [[anc c]|] eqn:E; [|done].
    rewrite andb_true_iff, !bool_decide_eq_true. apply lookup_lt_Some in E. tauto.
  - intros s. rewrite bool_decide_false; [done|lia].
  - intros s t. rewrite length_app. cbn [length].
    destruct (decide (t < length s)%nat), (decide (t = length s));
      repeat first [rewrite bool_decide_true by lia|rewrite bool_decide_false by lia]; done.
  - intros s t. destruct (decide (t < length s)%nat); [by rewrite lookup_app_l|].
    rewrite (lookup_ge_None_2 s) by lia. rewrite lookup_app_r by lia. by destruct (t - length s)%nat as [|[]].
  - intros s u t Hu%bool_decide_eq_true. unfold tl_below. rewrite length_app. cbn [length].
    rewrite (bool_decide_true (u < length s)%nat), (bool_decide_true (u < length s + 1)%nat) by lia.
    case_decide as E; [subst t|].
    + rewrite list_lookup_middle by done. rewrite bool_decide_false; [done|].
      rewrite elem_of_nil. naive_solver lia.
    + destruct (decide (t < length s)%nat); [by rewrite lookup_app_l|].
      rewrite !lookup_ge_None_2; [done|lia|rewrite length_app; cbn; lia].
  - intros s p. rewrite bool_decide_false; [done|lia].
  - intros s p t. rewrite length_app. cbn [length].
    destruct (decide (t < length s)%nat), (decide (t = length s));
      repeat first [rewrite bool_decide_true by lia|rewrite bool_decide_false by lia]; done.
  - intros s p t. case_decide as E; [subst t|].
    + rewrite list_lookup_middle by done. by destruct (s !! p) as [[]|].
    + destruct (decide (t < length s)%nat); [by rewrite lookup_app_l|].
      rewrite !lookup_ge_None_2; [done|lia|rewrite length_app; cbn; lia].
  - intros s p u t Hu%bool_decide_eq_true. unfold tl_below. rewrite length_app. cbn [length].
    rewrite (bool_decide_true (u < length s)%nat), (bool_decide_true (u < length s + 1)%nat) by lia.
    case_decide as E; [subst t|].
    + rewrite list_lookup_middle by done. destruct (s !! p) as [[anc c]|]; cbn.
      * apply bool_decide_ext. rewrite elem_of_cons. naive_solver lia.
      * rewrite bool_decide_false; [done|]. rewrite elem_of_nil. naive_solver lia.
    + destruct (decide (t < length s)%nat); [by rewrite lookup_app_l|].
      rewrite !lookup_ge_None_2; [done|lia|rewrite length_app; cbn; lia].
Qed.

(** ** Broadcast channels *)

Definition last_n {A} (n : nat) (l : list A) : list A := drop (length l - n) l.

Class BroadcastChan (A B : Type) := {
  bc_new : nat -> B;
  bc_capacity : B -> nat;
  bc_receivers : B -> nat;
  bc_subscribe : B -> nat * B;
  (** [send] gives the number of receivers reached, or an error without any. *)
  bc_send : B -> A -> option nat * B;
  bc_backlog : B -> nat -> list A;
}.

Class BroadcastLaws (A B : Type) `{BroadcastChan A B} := {
  bc_new_capacity n : bc_capacity (bc_new n) = n;
  bc_new_receivers n : bc_receivers (bc_new n) = 0%nat;
  bc_subscribe_receivers b : bc_receivers (snd (bc_subscribe b)) = S (bc_receivers b);
  bc_subscribe_capacity b : bc_capacity (snd (bc_subscribe b)) = bc_capacity b;
  bc_subscribe_fresh b : bc_receivers b = fst (bc_subscribe b);
  bc_subscribe_backlog b r : bc_backlog (snd (bc_subscribe b)) r
    = if decide (r = fst (bc_subscribe b)) then [] else bc_backlog b r;
  bc_send_result b a : fst (bc_send b a)
    = if decide (bc_receivers b = 0%nat) then None else Some (bc_receivers b);
  bc_send_receivers b a : bc_receivers (snd (bc_send b a)) = bc_receivers b;
  bc_send_capacity b a : bc_capacity (snd (bc_send b a)) = bc_capacity b;
  bc_send_backlog b a r : (r < bc_receivers b)%nat ->
    bc_backlog (snd (bc_send b a)) r = last_n (bc_capacity b) (bc_backlog b r ++ [a]);
}.

Abbreviation queue_list A := (nat * list (list A))%type.

#[export] Instance queue_list_chan A : BroadcastChan A (queue_list A) := {
  bc_new n := (n, []);
  bc_capacity b := fst b;
  bc_receivers b := length (snd b);
  bc_subscribe b := (length (snd b), (fst b, snd b ++ [[]]));
  bc_send b a := (if decide (length (snd b) = 0%nat) then None else Some (length (snd b)),
                  (fst b, (fun q => last_n (fst b) (q ++ [a])) <$> snd b));
  bc_backlog b r := default [] (snd b !! r);
}.

#[export] Instance queue_list_laws A : BroadcastLaws A (queue_list A).
Proof.
  split; cbn; try done.
  - intros b. rewrite length_app. cbn. lia.
  - intros b r. case_decide as E; [subst r; by rewrite list_lookup_middle by done|].
    destruct (decide (r < length b.2)%nat); [by rewrite lookup_app_l|].
    rewrite !lookup_ge_None_2; [done|lia|rewrite length_app; cbn; lia].
  - intros b a. by rewrite length_fmap.
  - intros b a r Hr. rewrite list_lookup_fmap.
    by destruct (lookup_lt_is_Some_2 _ _ Hr) as [q ->].
Qed.

Lemma elem_of_last_n_snoc {A} n (l : list A) a : (0 < n)%nat -> a ∈ last_n n (l ++ [a]).
Proof.
  intros Hn. unfold last_n. rewrite length_app. cbn [length].
  rewrite drop_app_le by lia. set_solver.
Qed.

Lemma last_n_all {A} n (l : list A) : (length l <= n)%nat -> last_n n l = l.
Proof. intros Hl. unfold last_n. by replace (length l - n)%nat with 0%nat by lia. Qed.

Lemma last_n_snoc {A} n (l : list A) a : last_n n (last_n n l ++ [a]) = last_n n (l ++ [a]).
Proof.
  unfold last_n. rewrite !length_app, length_drop. cbn [length].
  destruct (decide (length l <= n)%nat) as [Hl|Hl].
  - replace (length l - n)%nat with 0%nat by lia. rewrite drop_0. f_equal. lia.
  - destruct n as [|n].
    + rewrite !drop_ge; [done|rewrite length_app; cbn; lia|rewrite length_app, length_drop; cbn; lia].
    + rewrite !drop_app_le; [|lia|rewrite length_drop; lia]. rewrite drop_drop. do 2 f_equal. lia.
Qed.
