(* ===== verification/Channels.v ===== *)
(** * Broadcast receivers
    [livestream-core/src/channel/{mod.rs, broadcast.rs}]: the wrapper of
    [tokio::sync::broadcast] the event dispatcher hands to its subscribers. The
    receiver of the [tokio] crate is an interface: it keeps the messages it has not
    seen, as many as the channel's capacity, and the number of those it missed. *)
From stdpp Require Import list.
From S2P Require Import Prelude Tokio.

(** ** The receiver of [tokio] *)

Inductive recv_answer (A : Type) := Item (a : A) | Lagged (n : nat) | RecvClosed | NothingYet.
Arguments Item {A} a.
Arguments Lagged {A} n.
Arguments RecvClosed {A}.
Arguments NothingYet {A}.

Class BroadcastRx (A R : Type) := {
  rx_poll : R -> recv_answer A * R;
  rx_resubscribe : R -> R;
  rx_pending : R -> list A;
  rx_missed : R -> nat;
  rx_closed : R -> bool;
}.

(** A lagging receiver is told so first; it then goes on with the oldest message
    the channel still holds, and there is one, as the capacity is not zero. *)
Class BroadcastRxLaws (A R : Type) `{BroadcastRx A R} := {
  rx_lagging r : (0 < rx_missed r)%nat -> rx_pending r <> [];
  rx_poll_lagged r : (0 < rx_missed r)%nat -> fst (rx_poll r) = Lagged (rx_missed r)
    /\ rx_missed (snd (rx_poll r)) = 0%nat /\ rx_pending (snd (rx_poll r)) = rx_pending r
    /\ rx_closed (snd (rx_poll r)) = rx_closed r;
  rx_poll_item r a l : rx_missed r = 0%nat -> rx_pending r = a :: l -> fst (rx_poll r) = Item a
    /\ rx_missed (snd (rx_poll r)) = 0%nat /\ rx_pending (snd (rx_poll r)) = l
    /\ rx_closed (snd (rx_poll r)) = rx_closed r;
  rx_poll_empty r : rx_missed r = 0%nat -> rx_pending r = [] ->
    rx_poll r = (if rx_closed r then RecvClosed else NothingYet, r);
  rx_resubscribed r : rx_pending (rx_resubscribe r) = [] /\ rx_missed (rx_resubscribe r) = 0%nat
    /\ rx_closed (rx_resubscribe r) = rx_closed r;
}.

(** ** The wrapper *)

(** [broadcast]: the capacity handed on; [tokio] panics on 0. *)
Definition broadcast_capacity (capacity : nat) : nat := Nat.max capacity 1.

Section Receiver.
Context {A R : Type} `{BroadcastRx A R}.

(** What [recv] comes to: a message, the end, or waiting for the next event. *)
Inductive received := Received (a : A) | Ended | Waits.

(** The loop of [recv]; [fuel] bounds its turns. *)
Fixpoint recv_loop (fuel : nat) (r : R) : received * R :=
  match fuel with
  | O => (Waits, r)
  | S fuel =>
      match rx_poll r with
      | (Item a, r) => (Received a, r)
      | (Lagged _, r) => recv_loop fuel r
      | (RecvClosed, r) => (Ended, r)
      | (NothingYet, r) => (Waits, r)
      end
  end.

(** Two turns are enough: see [recv_oldest]. *)
Definition recv (r : R) : received * R := recv_loop 2 r.

Definition try_recv (r : R) : option A * R :=
  match rx_poll r with
  | (Item a, r) => (Some a, r)
  | (Lagged _, r) => (None, r)
  | (RecvClosed, r) => (None, r)
  | (NothingYet, r) => (None, r)
  end.

Definition clone (r : R) : R := rx_resubscribe r.

(** Messages taken until the channel is empty or ended. *)
Fixpoint recv_all (fuel : nat) (r : R) : list A * received * R :=
  match fuel with
  | O => ([], Waits, r)
  | S fuel =>
      match recv r with
      | (Received a, r) => let '(l, e, r) := recv_all fuel r in (a :: l, e, r)
      | (e, r) => ([], e, r)
      end
  end.
End Receiver.

Section Laws.
Context {A R : Type} `{BroadcastRxLaws A R}.

(** A turn of the loop without lag. *)
Lemma recv_ready (r : R) fuel : rx_missed r = 0%nat ->
  recv_loop (S fuel) r = recv_loop 1 r
  /\ match rx_pending r with
     | a :: l => fst (recv_loop 1 r) = Received a /\ rx_pending (snd (recv_loop 1 r)) = l
     | [] => fst (recv_loop 1 r) = (if rx_closed r then Ended else Waits) /\ rx_pending (snd (recv_loop 1 r)) = []
     end
  /\ rx_missed (snd (recv_loop 1 r)) = 0%nat /\ rx_closed (snd (recv_loop 1 r)) = rx_closed r.
Proof.
  intros Hm. cbn [recv_loop]. destruct (rx_pending r) as [|a l] eqn:Ep.
  - rewrite (rx_poll_empty r Hm Ep). by destruct (rx_closed r) eqn:E.
  - destruct (rx_poll_item r a l Hm Ep) as (Hi & ? & ? & ?). destruct (rx_poll r) as [x q]. cbn in *. by subst x.
Qed.

(** [recv] in terms of what is held; the loop ends within two turns. *)
Lemma recv_oldest (r : R) fuel : (2 <= fuel)%nat ->
  recv_loop fuel r = recv r
  /\ match rx_pending r with
     | a :: l => fst (recv r) = Received a /\ rx_pending (snd (recv r)) = l
     | [] => fst (recv r) = (if rx_closed r then Ended else Waits) /\ rx_pending (snd (recv r)) = []
     end
  /\ rx_missed (snd (recv r)) = 0%nat /\ rx_closed (snd (recv r)) = rx_closed r.
Proof.
  intros Hf. destruct fuel as [|[|fuel]]; [lia|lia|]. unfold recv.
  destruct (decide (rx_missed r = 0%nat)) as [Hm|Hm].
  - destruct (recv_ready r (S fuel) Hm) as (-> & Hr). destruct (recv_ready r 1 Hm) as (-> & _). by split.
  - destruct (rx_poll_lagged r ltac:(lia)) as (Hi & Hm' & Hp & Hc).
    assert (forall n, recv_loop (S n) r = recv_loop n (snd (rx_poll r))) as Ht.
    { intros n. cbn [recv_loop]. destruct (rx_poll r) as [x q]. cbn in Hi |- *. by subst x. }
    rewrite (Ht (S fuel)), (Ht 1%nat), <- Hp, <- Hc.
    destruct (recv_ready _ fuel Hm') as (-> & Hr). by split.
Qed.

(** A subscriber sees what the channel still holds. Taking messages until
    there is none gives those the channel holds, oldest first and each once,
    however many were missed before; it then waits, or ends when every sender is
    gone. A clone starts without any of them. [try_recv] after a lag answers that
    there is no message although there is, and gives it the next time. *)
Theorem receiver_skips_lag (r : R) fuel : (length (rx_pending r) < fuel)%nat ->
  (let '(l, e, r') := recv_all fuel r in
   l = rx_pending r /\ e = (if rx_closed r then Ended else Waits) /\ rx_pending r' = [])
  /\ fst (fst (recv_all fuel (clone r))) = []
  /\ (rx_missed r <> 0%nat -> fst (try_recv r) = None
      /\ fst (try_recv (snd (try_recv r))) = head (rx_pending r) /\ rx_pending r <> []).
Proof.
  intros Hf. split; [|split].
  - revert r Hf. induction fuel as [|fuel IH]; intros r Hf; [lia|]. cbn [recv_all].
    destruct (recv_oldest r 2 ltac:(lia)) as (_ & Ho & _ & Hc).
    destruct (rx_pending r) as [|a l]; destruct Ho as [Hr Hp]; destruct (recv r) as [x r']; cbn in Hr, Hp, Hc; subst x.
    + by destruct (rx_closed r).
    + specialize (IH r'). rewrite Hp in IH. cbn in Hf. specialize (IH ltac:(lia)).
      destruct (recv_all fuel r') as [[l' e] r'']. destruct IH as (-> & -> & ?). by rewrite Hc.
  - destruct fuel as [|fuel]; [done|]. cbn [recv_all].
    destruct (recv_oldest (clone r) 2 ltac:(lia)) as (_ & Ho & _). unfold clone in *.
    destruct (rx_resubscribed r) as (Hp & _ & _). rewrite Hp in Ho. destruct Ho as [Hr _].
    destruct (recv (rx_resubscribe r)) as [x r']. cbn in Hr. subst x. by destruct (rx_closed _).
  - intros Hm. destruct (rx_poll_lagged r ltac:(lia)) as (Hi & Hm' & Hp & _).
    pose proof (rx_lagging r ltac:(lia)) as Hne. unfold try_recv.
    destruct (rx_poll r) as [x q]. cbn in Hi, Hm', Hp. subst x. split; [done|]. split; [|done]. cbn [snd].
    destruct (rx_pending r) as [|a l]; [done|]. destruct (rx_poll_item q a l Hm' Hp) as (Hq & _).
    destruct (rx_poll q) as [y q']. cbn in Hq. by subst y.
Qed.
End Laws.

(** ** An implementation: the messages held, the number missed, and the end *)

Record ring (A : Type) := mkRing { rg_held : list A; rg_missed : nat; rg_closed : bool }.
Arguments mkRing {A} rg_held rg_missed rg_closed.
Arguments rg_held {A} r.
Arguments rg_missed {A} r.
Arguments rg_closed {A} r.

(** A receiver that missed messages holds some. *)
Definition missed {A} (r : ring A) : nat := match rg_held r with [] => 0 | _ => rg_missed r end.

#[export] Instance ring_rx A : BroadcastRx A (ring A) := {
  rx_poll r :=
    if (0 <? missed r)%nat then (Lagged (missed r), mkRing (rg_held r) 0 (rg_closed r))
    else match rg_held r with
         | a :: l => (Item a, mkRing l 0 (rg_closed r))
         | [] => (if rg_closed r then RecvClosed else NothingYet, r)
         end;
  rx_resubscribe r := mkRing [] 0 (rg_closed r);
  rx_pending := rg_held;
  rx_missed := missed;
  rx_closed := rg_closed;
}.

#[export] Instance ring_laws A : BroadcastRxLaws A (ring A).
Proof.
  split; cbn; unfold missed.
  - intros [[] ? ?]; cbn; [lia|done].
  - intros [[|a l] [|n] c]; cbn; try lia. done.
  - intros [[|b l] n c] a l' Hm Hl; cbn in *; [done|]. injection Hl as -> ->. subst n. by destruct l'.
  - intros [[|b l] n c] ? ?; done.
  - done.
Qed.

Lemma receiver_skips_lag_witness :
  let r := mkRing [3; 4] 2 true in
  recv_all 3 r = ([3; 4], Ended, mkRing [] 0 true) /\ fst (try_recv r) = None.
Proof.
  split; [reflexivity|].
  destruct (receiver_skips_lag (mkRing [3; 4] 2 true) 3) as (_ & _ & Ht); [cbn; lia|].
  apply Ht. cbn. lia.
Defined.
