(* ===== verification/FlvHub.v ===== *)
(** * FLV egress hub
    [livestream-transport/src/flv/{channel,hub}.rs]: the per-stream broadcast
    channel with its sequence header caches, and the map of channels and demand
    signals the ingest servers, the pipelines and the players share. *)
From stdpp Require Import strings gmap.
From S2P Require Import Prelude Types Flv Tokio.

(** ** One live channel *)

Section Hub.
Context {B : Type} `{HB : BroadcastChan FlvTag B}.

Record FlvLiveChannel := mkChannel {
  ch_sender : B;
  ch_video_seq : option FlvTag;
  ch_audio_seq : option FlvTag;
  ch_metadata : option FlvTag;
}.

Definition FlvLiveChannel_new : FlvLiveChannel := mkChannel (bc_new 1024) None None None.

Definition cache_seq_header (ch : FlvLiveChannel) (tag : FlvTag) : FlvLiveChannel :=
  if negb (is_sequence_header tag) then ch
  else match tag with
       | TVideo _ _ _ => mkChannel (ch_sender ch) (Some tag) (ch_audio_seq ch) (ch_metadata ch)
       | TAudio _ _ => mkChannel (ch_sender ch) (ch_video_seq ch) (Some tag) (ch_metadata ch)
       | TScriptData _ => mkChannel (ch_sender ch) (ch_video_seq ch) (ch_audio_seq ch) (Some tag)
       end.

Definition with_sender (ch : FlvLiveChannel) (b : B) : FlvLiveChannel :=
  mkChannel b (ch_video_seq ch) (ch_audio_seq ch) (ch_metadata ch).

(** [self.sender.send(tag.clone())]. *)
Definition ch_send (ch : FlvLiveChannel) (tag : FlvTag) : option nat * FlvLiveChannel :=
  let '(r, b) := bc_send (ch_sender ch) tag in (r, with_sender ch b).

Definition ch_broadcast (ch : FlvLiveChannel) (tag : FlvTag) : option nat * FlvLiveChannel :=
  ch_send (cache_seq_header ch tag) tag.

(** [self.sender.subscribe()]. *)
Definition ch_subscribe_rx (ch : FlvLiveChannel) : nat * FlvLiveChannel :=
  let '(r, b) := bc_subscribe (ch_sender ch) in (r, with_sender ch b).

Definition opt_list {A} (o : option A) : list A := match o with Some x => [x] | None => [] end.

Definition ch_cached (ch : FlvLiveChannel) : list FlvTag :=
  opt_list (ch_metadata ch) ++ opt_list (ch_video_seq ch) ++ opt_list (ch_audio_seq ch).

Definition ch_subscribe (ch : FlvLiveChannel) : nat * list FlvTag * FlvLiveChannel :=
  let '(rx, ch) := ch_subscribe_rx ch in (rx, ch_cached ch, ch).

(** ** The hub *)

(** A [DemandSignal] is a shared counter of the handles that are alive. *)
Record FlvEgressHub := mkHub {
  hub_channels : gmap string FlvLiveChannel;
  hub_demand_signals : gmap string nat;
}.

Definition FlvEgressHub_new : FlvEgressHub := mkHub ∅ ∅.

Definition or_default {A} (m : gmap string A) (k : string) (d : A) : gmap string A :=
  match m !! k with Some _ => m | None => <[k := d]> m end.

Definition create_channel (h : FlvEgressHub) (live_id : string) : FlvEgressHub :=
  mkHub (or_default (hub_channels h) live_id FlvLiveChannel_new)
        (or_default (hub_demand_signals h) live_id 0%nat).

Definition remove_channel (h : FlvEgressHub) (live_id : string) : FlvEgressHub :=
  mkHub (delete live_id (hub_channels h)) (delete live_id (hub_demand_signals h)).

Definition hub_subscribe (h : FlvEgressHub) (live_id : string) :
    option (nat * list FlvTag) * FlvEgressHub :=
  match hub_channels h !! live_id with
  | Some ch =>
      let '(rx, cached, ch) := ch_subscribe ch in
      (Some (rx, cached), mkHub (<[live_id := ch]> (hub_channels h)) (hub_demand_signals h))
  | None => (None, h)
  end.

(** Errors of the send (no receiver) are logged and dropped. *)
Definition hub_broadcast (h : FlvEgressHub) (live_id : string) (tag : FlvTag) : FlvEgressHub :=
  match hub_channels h !! live_id with
  | Some ch => mkHub (<[live_id := snd (ch_broadcast ch tag)]> (hub_channels h)) (hub_demand_signals h)
  | None => h
  end.

(** [demand_signals.entry(id).or_default().new_handle()]. *)
Definition hub_demand (h : FlvEgressHub) (live_id : string) : FlvEgressHub :=
  mkHub (hub_channels h)
    (<[live_id := S (default 0%nat (hub_demand_signals h !! live_id))]> (hub_demand_signals h)).

(** ** What a late joiner receives *)

(** The cache slot a tag belongs to. *)
Definition slot (t : FlvTag) : Z := match t with TScriptData _ => 0 | TVideo _ _ _ => 1 | TAudio _ _ => 2 end.

Definition last_header (s : Z) (ts : list FlvTag) : option FlvTag :=
  last (filter (fun t => is_sequence_header t = true /\ slot t = s) ts).

Definition broadcast_all (ch : FlvLiveChannel) (ts : list FlvTag) : FlvLiveChannel :=
  foldl (fun c t => snd (ch_broadcast c t)) ch ts.

Context `{!BroadcastLaws FlvTag B}.

Lemma ch_send_caches ch t : let c := snd (ch_send ch t) in
  ch_metadata c = ch_metadata ch /\ ch_video_seq c = ch_video_seq ch /\ ch_audio_seq c = ch_audio_seq ch
  /\ ch_sender c = snd (bc_send (ch_sender ch) t).
Proof. unfold ch_send. by destruct (bc_send _ _). Qed.

Lemma cache_seq_header_sender ch t : ch_sender (cache_seq_header ch t) = ch_sender ch.
Proof. unfold cache_seq_header. by destruct (negb _), t. Qed.

Lemma ch_broadcast_sender ch t : ch_sender (snd (ch_broadcast ch t)) = snd (bc_send (ch_sender ch) t).
Proof.
  unfold ch_broadcast. destruct (ch_send_caches (cache_seq_header ch t) t) as (_ & _ & _ & ->).
  by rewrite cache_seq_header_sender.
Qed.

Lemma last_header_snoc s ts t : last_header s (ts ++ [t])
  = if decide (is_sequence_header t = true /\ slot t = s) then Some t else last_header s ts.
Proof.
  unfold last_header. rewrite filter_app. cbn. case_decide as E; [|by rewrite app_nil_r].
  by rewrite last_snoc.
Qed.

Lemma broadcast_all_snoc ch ts t :
  broadcast_all ch (ts ++ [t]) = snd (ch_broadcast (broadcast_all ch ts) t).
Proof. unfold broadcast_all. by rewrite foldl_snoc. Qed.

Lemma broadcast_all_caches ts : let c := broadcast_all FlvLiveChannel_new ts in
  ch_metadata c = last_header 0 ts /\ ch_video_seq c = last_header 1 ts
  /\ ch_audio_seq c = last_header 2 ts.
Proof.
  induction ts as [|t ts IH] using rev_ind; [done|]. cbn zeta. rewrite broadcast_all_snoc.
  destruct IH as (Hm & Hv & Ha). unfold ch_broadcast.
  destruct (ch_send_caches (cache_seq_header (broadcast_all FlvLiveChannel_new ts) t) t)
    as (-> & -> & -> & _).
  unfold cache_seq_header. rewrite !last_header_snoc.
  destruct (is_sequence_header t); [|cbn; by rewrite Hm, Hv, Ha].
  destruct t; cbn; by rewrite ?Hm, ?Hv, ?Ha.
Qed.

Lemma ch_subscribe_spec ch : let '(rx, cached, c) := ch_subscribe ch in
  rx = fst (bc_subscribe (ch_sender ch)) /\ cached = ch_cached ch
  /\ ch_sender c = snd (bc_subscribe (ch_sender ch)).
Proof. unfold ch_subscribe, ch_subscribe_rx. by destruct (bc_subscribe _). Qed.

Lemma broadcast_all_capacity ch ts :
  bc_capacity (ch_sender (broadcast_all ch ts)) = bc_capacity (ch_sender ch).
Proof.
  induction ts as [|t ts IH] using rev_ind; [done|].
  by rewrite broadcast_all_snoc, ch_broadcast_sender, bc_send_capacity.
Qed.

Lemma broadcast_all_receivers ch ts :
  bc_receivers (ch_sender (broadcast_all ch ts)) = bc_receivers (ch_sender ch).
Proof.
  induction ts as [|t ts IH] using rev_ind; [done|].
  by rewrite broadcast_all_snoc, ch_broadcast_sender, bc_send_receivers.
Qed.

Lemma broadcast_all_backlog ch ts r : (r < bc_receivers (ch_sender ch))%nat ->
  bc_backlog (ch_sender ch) r = [] ->
  bc_backlog (ch_sender (broadcast_all ch ts)) r = last_n (bc_capacity (ch_sender ch)) ts.
Proof.
  intros Hr H0. induction ts as [|t ts IH] using rev_ind; [by rewrite last_n_all by (cbn; lia)|].
  rewrite broadcast_all_snoc, ch_broadcast_sender, bc_send_backlog
    by (by rewrite broadcast_all_receivers).
  by rewrite broadcast_all_capacity, IH, last_n_snoc.
Qed.

(** The channel, the receiver and the cached tags of a late joiner. *)
Lemma joined_channel (ts us : list FlvTag) :
  let '(rx, cached, c) := ch_subscribe (broadcast_all FlvLiveChannel_new ts) in
  cached = opt_list (last_header 0 ts) ++ opt_list (last_header 1 ts) ++ opt_list (last_header 2 ts)
  /\ Forall (fun t => is_sequence_header t = true /\ t ∈ ts) cached
  /\ bc_backlog (ch_sender (broadcast_all c us)) rx = last_n 1024 us.
Proof.
  pose proof (ch_subscribe_spec (broadcast_all FlvLiveChannel_new ts)) as Hs.
  destruct (ch_subscribe _) as [[rx cached] c]. destruct Hs as (-> & -> & Hc).
  unfold ch_cached. destruct (broadcast_all_caches ts) as (-> & -> & ->). split; [done|split].
  - assert (forall s, Forall (fun t => is_sequence_header t = true /\ t ∈ ts) (opt_list (last_header s ts)))
      as Hall; [|by rewrite !Forall_app].
    intros s. unfold last_header. destruct (last _) as [t|] eqn:E; [|constructor].
    apply last_Some_elem_of, list_elem_of_filter in E as [[] ]. by repeat constructor.
  - rewrite broadcast_all_backlog; rewrite ?Hc.
    + rewrite bc_subscribe_capacity, broadcast_all_capacity. cbn [FlvLiveChannel_new ch_sender].
      by rewrite bc_new_capacity.
    + rewrite bc_subscribe_receivers, <- bc_subscribe_fresh. lia.
    + rewrite bc_subscribe_backlog. by rewrite decide_True.
Qed.

(** C27: a player that subscribes to a live channel after the tags [ts] were
    broadcast gets, before anything else, the last metadata, the last video
    sequence header and the last audio sequence header among [ts], in that
    order, each one present exactly when [ts] has one; and afterwards it finds
    in its receiver every tag broadcast since, in order, the oldest ones being
    lost only beyond the channel's 1024 entries. *)
Theorem late_joiner_initialised (ts us : list FlvTag) :
  let '(rx, cached, c) := ch_subscribe (broadcast_all FlvLiveChannel_new ts) in
  cached = opt_list (last_header 0 ts) ++ opt_list (last_header 1 ts) ++ opt_list (last_header 2 ts)
  /\ Forall (fun t => is_sequence_header t = true /\ t ∈ ts) cached
  /\ bc_backlog (ch_sender (broadcast_all c us)) rx = last_n 1024 us.
Proof. exact (joined_channel ts us). Qed.

(** ** A subscription racing with a broadcast *)

(** The shared accesses of [broadcast] and of [subscribe], in program order. *)
Inductive access := DoCache (t : FlvTag) | DoSend (t : FlvTag) | DoSubscribe | DoReadCaches.

Record race := mkRace { rc_ch : FlvLiveChannel; rc_rx : option nat; rc_cached : list FlvTag }.

Definition do_access (r : race) (a : access) : race :=
  match a with
  | DoCache t => mkRace (cache_seq_header (rc_ch r) t) (rc_rx r) (rc_cached r)
  | DoSend t => mkRace (snd (ch_send (rc_ch r) t)) (rc_rx r) (rc_cached r)
  | DoSubscribe => let '(rx, c) := ch_subscribe_rx (rc_ch r) in mkRace c (Some rx) (rc_cached r)
  | DoReadCaches => mkRace (rc_ch r) (rc_rx r) (ch_cached (rc_ch r))
  end.

(** The accesses compose to the two operations. *)
Lemma do_access_broadcast r t :
  rc_ch (foldl do_access r [DoCache t; DoSend t]) = snd (ch_broadcast (rc_ch r) t).
Proof. done. Qed.

Lemma do_access_subscribe r : let f := foldl do_access r [DoSubscribe; DoReadCaches] in
  ch_subscribe (rc_ch r) = (default 0%nat (rc_rx f), rc_cached f, rc_ch f).
Proof. cbn. unfold ch_subscribe. by destruct (ch_subscribe_rx (rc_ch r)). Qed.

Lemma cache_seq_header_cached ch t : is_sequence_header t = true ->
  t ∈ ch_cached (cache_seq_header ch t).
Proof. intros Ht. unfold cache_seq_header. rewrite Ht. destruct t; unfold ch_cached; cbn; set_solver. Qed.

Lemma ch_cached_with_sender ch b : ch_cached (with_sender ch b) = ch_cached ch.
Proof. done. Qed.

Lemma ch_subscribe_rx_eq ch :
  ch_subscribe_rx ch = (fst (bc_subscribe (ch_sender ch)), with_sender ch (snd (bc_subscribe (ch_sender ch)))).
Proof. unfold ch_subscribe_rx. by destruct (bc_subscribe _). Qed.

Lemma ch_send_eq ch t : snd (ch_send ch t) = with_sender ch (snd (bc_send (ch_sender ch) t)).
Proof. unfold ch_send. by destruct (bc_send _ _). Qed.

Lemma bc_send_after_subscribe b t :
  t ∈ bc_backlog (snd (bc_send (snd (bc_subscribe b)) t)) (fst (bc_subscribe b))
  \/ bc_capacity b = 0%nat.
Proof.
  destruct (decide (bc_capacity b = 0%nat)) as [|Hc]; [by right|left].
  rewrite bc_send_backlog; [|rewrite bc_subscribe_receivers, <- bc_subscribe_fresh; lia].
  rewrite bc_subscribe_capacity. apply elem_of_last_n_snoc. lia.
Qed.

(** However a subscription interleaves with the broadcast of a sequence
    header on the same channel (both run unlocked: [broadcast] caches, then
    sends; [subscribe] registers, then reads the caches), the new subscriber
    gets the header, in the cached tags or in its receiver. *)
Theorem racing_subscriber_gets_header ch t sched rx0 cached0 :
  is_sequence_header t = true -> (0 < bc_capacity (ch_sender ch))%nat ->
  interleave [DoCache t; DoSend t] [DoSubscribe; DoReadCaches] sched ->
  let r := foldl do_access (mkRace ch rx0 cached0) sched in
  exists rx, rc_rx r = Some rx
    /\ (t ∈ rc_cached r \/ t ∈ bc_backlog (ch_sender (rc_ch r)) rx).
Proof.
  intros Ht Hcap Hil.
  pose proof (bc_send_after_subscribe (ch_sender ch) t) as Hlate.
  pose proof (cache_seq_header_cached ch t Ht) as Hc.
  repeat match goal with H : interleave _ _ _ |- _ => inversion H; clear H; subst end;
    cbn -[ch_cached]; rewrite ?ch_subscribe_rx_eq, ?ch_send_eq; cbn -[ch_cached];
    rewrite ?cache_seq_header_sender; eexists; (split; [done|]);
    first [left; exact Hc|idtac].
  all: right; destruct Hlate; [done|lia].
Qed.
End Hub.
Arguments FlvLiveChannel : clear implicits.
Arguments FlvEgressHub : clear implicits.

Lemma late_joiner_initialised_witness :
  let ts := [TVideo 0 [0x17; 0; 0; 0; 0] true; TAudio 0 [0xAF; 0; 0x12; 0x10]; TVideo 40 [0x27; 1] false] in
  snd (fst (ch_subscribe (broadcast_all (B := queue_list FlvTag) FlvLiveChannel_new ts)))
  = [TVideo 0 [0x17; 0; 0; 0; 0] true; TAudio 0 [0xAF; 0; 0x12; 0x10]].
Proof.
  intros ts. pose proof (late_joiner_initialised (B := queue_list FlvTag) ts []) as Hs.
  destruct (ch_subscribe _) as [[rx cached] c]. exact (proj1 Hs).
Defined.
