(* ===== verification/Packetizer.v ===== *)
(** * Stream collections and the FLV packetizer
    [livestream-media/src/{stream.rs, flv/mapping.rs, flv/packetizer.rs}] and the
    codec tables of [codec.rs]: the streams a muxer is created with, and the
    conversion of FLV tags into FFmpeg packets for them. The bitstream filter and
    [av_rescale_q] are FFmpeg's, and parameters here. *)
From stdpp Require Import list gmap.
From S2P Require Import Prelude Types Flv AvPacket Ffmpeg.

(** ** Codec tables ([codec.rs]) *)

Section Tables.
(** The numbers of FFmpeg's enumeration ([AVCodecID as u32]). *)
Context (av_num : AVCodecID -> Z).

Definition flv_video_codec_id_to_av (codec_id : Z) : option AVCodecID :=
  if codec_id =? 7 then Some AV_CODEC_ID_H264
  else if codec_id =? 12 then Some AV_CODEC_ID_HEVC
  else if codec_id =? av_num AV_CODEC_ID_H264 then Some AV_CODEC_ID_H264
  else if codec_id =? av_num AV_CODEC_ID_HEVC then Some AV_CODEC_ID_HEVC
  else None.

Definition flv_audio_codec_id_to_av (codec_id : Z) : option AVCodecID :=
  if (codec_id =? 2) || (codec_id =? 14) then Some AV_CODEC_ID_MP3
  else if codec_id =? 7 then Some AV_CODEC_ID_PCM_ALAW
  else if codec_id =? 8 then Some AV_CODEC_ID_PCM_MULAW
  else if codec_id =? 10 then Some AV_CODEC_ID_AAC
  else if codec_id =? av_num AV_CODEC_ID_AAC then Some AV_CODEC_ID_AAC
  else if codec_id =? av_num AV_CODEC_ID_MP3 then Some AV_CODEC_ID_MP3
  else if codec_id =? av_num AV_CODEC_ID_PCM_ALAW then Some AV_CODEC_ID_PCM_ALAW
  else if codec_id =? av_num AV_CODEC_ID_PCM_MULAW then Some AV_CODEC_ID_PCM_MULAW
  else None.
End Tables.

(** ** Stream collections ([stream.rs]) *)

Record StaticStream := mkStream {
  st_index : nat;
  st_time_base : AVRational;
  st_codec_params : OwnedCodecParams;
}.

(** A collection as [stream] answers for each index below [stream_count]. *)
Definition StreamCollection : Type := list (option StaticStream).

(** [StreamCollectionIter]: the streams that exist, in index order. *)
Definition iter_streams (streams : StreamCollection) : list StaticStream := omap id streams.

Definition from_owned_params (params : list (nat * AVRational * OwnedCodecParams)) : list StaticStream :=
  map (fun '(index, time_base, codec_params) => mkStream index time_base codec_params) params.

(** [StaticStreamCollection] seen as a collection. *)
Definition as_collection (streams : list StaticStream) : StreamCollection := map Some streams.

Section Collections.
Context {H : Type} `{HF : Ffmpeg H}.

Fixpoint drop_streams (streams : list StaticStream) : Ff (H := H) unit :=
  match streams with
  | [] => ff_ret tt
  | st :: streams => params_free (st_codec_params st) ;;! drop_streams streams
  end.

(** Deep copies; what was copied is dropped when a later stream fails. *)
Fixpoint from_streams (streams : StreamCollection) : Ff (H := H) (list StaticStream) :=
  match streams with
  | [] => ff_ret []
  | None :: _ => ff_fail NotFound
  | Some st :: streams =>
      let! c := OwnedCodecParams_copy_from (Some (cp_par (st_codec_params st))) in
      (let! rest := from_streams streams in
       ff_ret (mkStream (st_index st) (st_time_base st) c :: rest)) else! params_free c
  end.

Definition video_tb : AVRational := (1, 90000).
Definition audio_tb : AVRational := (1, 44100).

Fixpoint collect_params (i : nat) (codec_params : list CodecParams) :
    Ff (H := H) (list (nat * AVRational * OwnedCodecParams)) :=
  match codec_params with
  | [] => ff_ret []
  | p :: codec_params =>
      let! c := OwnedCodecParams_from_codec_params p in
      (let! rest := collect_params (S i) codec_params in
       ff_ret ((i, if cp_is_video p then video_tb else audio_tb, c) :: rest)) else! params_free c
  end.

Definition from_codec_params (codec_params : list CodecParams) : Ff (H := H) (list StaticStream) :=
  let! owned := collect_params 0 codec_params in ff_ret (from_owned_params owned).
End Collections.

(** ** The mapping ([flv/mapping.rs]) *)

Record FlvStreamMapping := mkMapping {
  fm_audio : option (nat * AVRational);
  fm_video : option (nat * AVRational);
}.

Definition map_stream (m : FlvStreamMapping) (st : StaticStream) : FlvStreamMapping :=
  let ct := par_codec_type (cp_par (st_codec_params st)) in
  let entry := (st_index st, st_time_base st) in
  let audio := if bool_decide (ct = AVMEDIA_TYPE_AUDIO) && negb (is_some (fm_audio m))
               then Some entry else fm_audio m in
  let video := if bool_decide (ct = AVMEDIA_TYPE_VIDEO) && negb (is_some (fm_video m))
               then Some entry else fm_video m in
  mkMapping audio video.

Definition mapping_from_streams (streams : StreamCollection) : FlvStreamMapping :=
  foldl map_stream (mkMapping None None) (iter_streams streams).

(** ** The streams of a pipeline *)

(** The parameters the streams are made with. *)
Definition par_of (params : CodecParams) : AVCodecParameters :=
  match cp_extradata params with
  | Some x => with_extradata (codecpar_of params) x
  | None => codecpar_of params
  end.

Definition tb_of (params : CodecParams) : AVRational := if cp_is_video params then video_tb else audio_tb.

Definition is_type (ct : AVMediaType) (st : StaticStream) : Prop := par_codec_type (cp_par (st_codec_params st)) = ct.
#[export] Instance is_type_dec ct st : Decision (is_type ct st).
Proof. unfold is_type. apply _. Defined.

Definition first_of (ct : AVMediaType) (streams : list StaticStream) : option (nat * AVRational) :=
  (fun '(_, st) => (st_index st, st_time_base st)) <$> list_find (is_type ct) streams.

Definition first_param (ct : AVMediaType) (params : list CodecParams) : option (nat * AVRational) :=
  (fun '(i, p) => (i, tb_of p)) <$> list_find (fun p => par_codec_type (codecpar_of p) = ct) params.

Lemma first_of_cons ct st streams :
  first_of ct (st :: streams) = if decide (is_type ct st) then Some (st_index st, st_time_base st) else first_of ct streams.
Proof. unfold first_of. cbn. destruct (decide _); [done|]. by destruct (list_find _ streams) as [[]|]. Qed.

Lemma map_streams_first streams : forall m, let m' := foldl map_stream m streams in
  fm_audio m' = (match fm_audio m with Some x => Some x | None => first_of AVMEDIA_TYPE_AUDIO streams end)
  /\ fm_video m' = (match fm_video m with Some x => Some x | None => first_of AVMEDIA_TYPE_VIDEO streams end).
Proof.
  induction streams as [|st streams IH]; intros m; [cbn; by destruct (fm_audio m), (fm_video m)|].
  cbn zeta. cbn [foldl]. destruct (IH (map_stream m st)) as [-> ->]. rewrite !first_of_cons. unfold map_stream.
  rewrite !bool_decide_decide. cbn [fm_audio fm_video].
  split; destruct (decide (_ = _)) as [E|E], (decide (is_type _ st)) as [E'|E']; unfold is_type in E'; try congruence;
    by destruct (fm_audio m), (fm_video m).
Qed.

Lemma iter_collection streams : iter_streams (as_collection streams) = streams.
Proof. unfold iter_streams, as_collection. induction streams as [|st streams IH]; [done|]. cbn. by f_equal. Qed.

Lemma first_of_layout ct o streams params :
  map (fun st => (st_index st, st_time_base st, cp_par (st_codec_params st))) streams
  = imap (fun i p => ((o + i)%nat, tb_of p, par_of p)) params ->
  first_of ct streams = (fun '(i, tb) => ((o + i)%nat, tb)) <$> first_param ct params.
Proof.
  unfold first_param. revert o params. induction streams as [|st streams IH]; intros o [|p ps]; [done|done|done|].
  cbn [map imap]. intros [= H1 H2 H3 H4]. rewrite first_of_cons.
  assert (par_codec_type (par_of p) = par_codec_type (codecpar_of p)) as E.
  { unfold par_of. by destruct (cp_extradata p). }
  assert (is_type ct st <-> par_codec_type (codecpar_of p) = ct) as Hi by (unfold is_type; by rewrite H3, E).
  cbn [list_find]. destruct (decide (is_type ct st)), (decide (par_codec_type (codecpar_of p) = ct)); try tauto;
    [by cbn; rewrite H1, H2|].
  rewrite (IH (S o) ps).
  - destruct (list_find _ ps) as [[]|]; cbn; [|done]. by rewrite Nat.add_succ_r.
  - rewrite H4. apply imap_ext. intros i q _. cbn. by rewrite Nat.add_succ_r.
Qed.

Lemma from_codec_params_par `{Ffmpeg H} params (h h' : H) c :
  OwnedCodecParams_from_codec_params params h = (Ok c, h') -> cp_par c = par_of params.
Proof.
  unfold OwnedCodecParams_from_codec_params, par_of, ff_bind. destruct (alloc_codec_params h) as [[c0|] h0]; [|done].
  destruct (cp_extradata params) as [x|]; [|by intros [= <- _]].
  destruct (copy_extradata_to_codecpar _ h0) as [[e|] h1]; [|done]. by intros [= <- _].
Qed.

Lemma collect_params_layout `{Ffmpeg H} params : forall i (h h' : H) l, collect_params i params h = (Ok l, h') ->
  map (fun '(j, tb, c) => (j, tb, cp_par c)) l = imap (fun k p => ((i + k)%nat, tb_of p, par_of p)) params.
Proof.
  induction params as [|p params IH]; intros i h h' l; [by intros [= <- _]|]. cbn [collect_params]. unfold ff_bind at 1.
  destruct (OwnedCodecParams_from_codec_params p h) as [[c|] h1] eqn:Ec; [|done].
  apply from_codec_params_par in Ec. unfold on_error, ff_bind.
  destruct (collect_params (S i) params h1) as [[rest|] h2] eqn:El; [|by destruct (params_free c h2)].
  intros [= <- _]. cbn. rewrite (IH _ _ _ _ El), Ec, Nat.add_0_r. f_equal.
  apply imap_ext. intros k q _. cbn. do 2 f_equal. lia.
Qed.

(** The streams a muxer is created with. When they can be made, the
    streams of a list of codec parameters are one for each, numbered in order,
    with the extradata given and the clock of the medium (90 kHz for video, and
    1/44100 for audio whatever its sample rate); the mapping the packetizer
    builds points to the first stream with an audio codec and to the first one
    with a video codec. *)
Theorem codec_params_streams `{Ffmpeg H} params (h h' : H) streams :
  from_codec_params params h = (Ok streams, h') ->
  map (fun st => (st_index st, st_time_base st, cp_par (st_codec_params st))) streams
  = imap (fun i p => (i, tb_of p, par_of p)) params
  /\ mapping_from_streams (as_collection streams)
     = mkMapping (first_param AVMEDIA_TYPE_AUDIO params) (first_param AVMEDIA_TYPE_VIDEO params).
Proof.
  unfold from_codec_params, ff_bind. destruct (collect_params 0 params h) as [[l|] h1] eqn:El; [|done].
  intros [= <- _]. apply collect_params_layout in El.
  assert (map (fun st => (st_index st, st_time_base st, cp_par (st_codec_params st))) (from_owned_params l)
    = imap (fun i p => (i, tb_of p, par_of p)) params) as Hm.
  { unfold from_owned_params. rewrite map_map. cbn in El. rewrite <- El. apply map_ext. by intros [[]]. }
  split; [done|]. unfold mapping_from_streams. rewrite iter_collection.
  pose proof (map_streams_first (from_owned_params l) (mkMapping None None)) as [Ha Hv].
  destruct (foldl map_stream _ _) as [a v]. cbn in Ha, Hv. subst a v.
  f_equal; rewrite (first_of_layout _ 0 _ params) by done; by destruct (first_param _ params) as [[]|].
Qed.

Lemma codec_params_streams_witness :
  let params := [mkCodecParams Aac Audio 48000 (Some [0x12; 0x10]); mkCodecParams H264 Video 90000 None] in
  exists streams, fst (from_codec_params (H := Heap) params (mkHeap ∅ 0 [])) = Ok streams
  /\ map st_time_base streams = [(1, 44100); (1, 90000)]
  /\ mapping_from_streams (as_collection streams) = mkMapping (Some (0%nat, (1, 44100))) (Some (1%nat, (1, 90000))).
Proof.
  eexists. split; [vm_compute; reflexivity|].
  split; [vm_compute; reflexivity|].
  exact (proj2 (codec_params_streams (H := Heap)
    [mkCodecParams Aac Audio 48000 (Some [0x12; 0x10]); mkCodecParams H264 Video 90000 None] (mkHeap ∅ 0 []) _ _ eq_refl)).
Defined.

(** ** The packetizer ([flv/packetizer.rs]) *)

Inductive packetize_error :=
| VideoPayloadSize (len : nat)
| UnsupportedVideoCodec (codec_id : Z)
| UnsupportedAvcPacketType (x : Z)
| NoBsf
| AvcHeaderMissing
| BsfFailed
| AudioPayloadSize (len : nat)
| AscTooShort (len : nat)
| InvalidAudioObjectType
| AacHeaderMissing
| UnsupportedAacPacketType (x : Z)
| StreamNotFound (media : MediaType)
| PacketFailed (e : packet_error)
| PacketOverrun.

Section Packetizer.
Context {Bsf : Type}.
Context (bsf_new : bytes -> option Bsf) (bsf_filter : Bsf -> AvPacket -> option (list AvPacket) * Bsf).
Context (av_rescale_q : Z -> AVRational -> AVRational -> Z).
(** A packet that was just allocated, and whether memory is found for its data. *)
Context (fresh : AvPacket) (av_new_packet : Z -> bool).

Record FlvTagPacketizer := mkPacketizer {
  pz_avc_config_raw : option bytes;
  pz_aac_asc_raw : option bytes;
  pz_h264_bsf : option Bsf;
  pz_mapping : option FlvStreamMapping;
}.

Definition FlvTagPacketizer_new : FlvTagPacketizer := mkPacketizer None None None None.

Definition with_asc (pz : FlvTagPacketizer) (asc : bytes) : FlvTagPacketizer :=
  mkPacketizer (pz_avc_config_raw pz) (Some asc) (pz_h264_bsf pz) (pz_mapping pz).
Definition with_avc_config (pz : FlvTagPacketizer) (avcc : bytes) : FlvTagPacketizer :=
  mkPacketizer (Some avcc) (pz_aac_asc_raw pz) (pz_h264_bsf pz) (pz_mapping pz).
Definition with_bsf (pz : FlvTagPacketizer) (bsf : Bsf) : FlvTagPacketizer :=
  mkPacketizer (pz_avc_config_raw pz) (pz_aac_asc_raw pz) (Some bsf) (pz_mapping pz).
Definition with_mapping (pz : FlvTagPacketizer) (m : FlvStreamMapping) : FlvTagPacketizer :=
  mkPacketizer (pz_avc_config_raw pz) (pz_aac_asc_raw pz) (pz_h264_bsf pz) (Some m).

(** [PacketOverrun]: not an error value of the code but the copy past its buffer
    that [set_data] makes for a payload of 2 GiB or more. *)
Definition make_packet (ok : bool) (payload : bytes) (timestamp : Z) (time_base : AVRational)
    (is_keyframe : bool) (stream_idx : nat) : result packetize_error AvPacket :=
  match packet_alloc fresh ok with
  | Err e => Err (PacketFailed e)
  | Ok _ =>
      match set_data fresh av_new_packet payload with
      | DataError e _ => Err (PacketFailed e)
      | DataOverrun => Err PacketOverrun
      | DataSet pkt =>
          let pts := av_rescale_q timestamp (1, 1000) time_base in
          Ok (mkAvPacket (as_i32 (Z.of_nat stream_idx)) (av_data pkt) pts pts (av_duration pkt)
                (if is_keyframe then Z.lor (av_flags pkt) AV_PKT_FLAG_KEY else av_flags pkt))
      end
  end.

Definition validate_aac_audio_config (data : bytes) : result packetize_error unit :=
  if (length data <? 2)%nat then Err (AscTooShort (length data))
  else if Z.land (Z.shiftr (byte_at data 0) 3) 0x1F =? 0 then Err InvalidAudioObjectType
  else Ok tt.

Definition get_audio_stream (m : FlvStreamMapping) : result packetize_error (nat * AVRational) :=
  match fm_audio m with Some s => Ok s | None => Err (StreamNotFound Audio) end.
Definition get_video_stream (m : FlvStreamMapping) : result packetize_error (nat * AVRational) :=
  match fm_video m with Some s => Ok s | None => Err (StreamNotFound Video) end.

(** [ok]: the packet made in this call could be allocated. *)
Definition packetize_video (ok : bool) (pz : FlvTagPacketizer) (timestamp : Z) (payload : bytes)
    (is_keyframe : bool) (mapping : FlvStreamMapping) :
    result packetize_error (list AvPacket) * FlvTagPacketizer :=
  if (length payload <? 5)%nat then (Err (VideoPayloadSize (length payload)), pz)
  else
    let codec_id := Z.land (byte_at payload 0) 0x0F in
    if negb (codec_id =? 7) then (Err (UnsupportedVideoCodec codec_id), pz)
    else
      let avc_packet_type := byte_at payload 1 in
      let avc_payload := drop 5 payload in
      if avc_packet_type =? 0 then
        let pz := with_avc_config pz avc_payload in
        match bsf_new avc_payload with
        | None => (Err NoBsf, pz)
        | Some bsf => (Ok [], with_bsf pz bsf)
        end
      else if avc_packet_type =? 1 then
        match get_video_stream mapping with
        | Err e => (Err e, pz)
        | Ok (idx, time_base) =>
            match make_packet ok avc_payload timestamp time_base is_keyframe idx with
            | Err e => (Err e, pz)
            | Ok packet =>
                match pz_h264_bsf pz with
                | None => (Err AvcHeaderMissing, pz)
                | Some bsf =>
                    match bsf_filter bsf packet with
                    | (Some packets, bsf) => (Ok packets, with_bsf pz bsf)
                    | (None, bsf) => (Err BsfFailed, with_bsf pz bsf)
                    end
                end
            end
        end
      else if avc_packet_type =? 2 then (Ok [], pz)
      else (Err (UnsupportedAvcPacketType avc_packet_type), pz).

Definition packetize_aac (ok : bool) (pz : FlvTagPacketizer) (timestamp aac_packet_type : Z)
    (aac_payload : bytes) (mapping : FlvStreamMapping) :
    result packetize_error (list AvPacket) * FlvTagPacketizer :=
  if aac_packet_type =? 0 then
    match validate_aac_audio_config aac_payload with
    | Err e => (Err e, pz)
    | Ok _ => (Ok [], with_asc pz aac_payload)
    end
  else if aac_packet_type =? 1 then
    if negb (is_some (pz_aac_asc_raw pz)) then (Err AacHeaderMissing, pz)
    else (let? ' (idx, time_base) := get_audio_stream mapping in
          let? packet := make_packet ok aac_payload timestamp time_base false idx in Ok [packet], pz)
  else (Err (UnsupportedAacPacketType aac_packet_type), pz).

Definition packetize_audio (ok : bool) (pz : FlvTagPacketizer) (timestamp : Z) (payload : bytes)
    (mapping : FlvStreamMapping) : result packetize_error (list AvPacket) * FlvTagPacketizer :=
  if (length payload <? 2)%nat then (Err (AudioPayloadSize (length payload)), pz)
  else
    let sound_format := Z.shiftr (byte_at payload 0) 4 in
    if sound_format =? 10
    then packetize_aac ok pz timestamp (byte_at payload 1) (drop 2 payload) mapping
    else (let? ' (idx, time_base) := get_audio_stream mapping in
          let? packet := make_packet ok (drop 1 payload) timestamp time_base false idx in Ok [packet], pz).

(** The mapping is taken out, then restored, also after an error. *)
Definition packetize (ok : bool) (pz : FlvTagPacketizer) (tag : FlvTag) (streams : StreamCollection) :
    result packetize_error (list AvPacket) * FlvTagPacketizer :=
  let mapping := default (mapping_from_streams streams) (pz_mapping pz) in
  let '(packets, pz) :=
    match tag with
    | TAudio timestamp payload => packetize_audio ok pz timestamp payload mapping
    | TVideo timestamp payload is_keyframe => packetize_video ok pz timestamp payload is_keyframe mapping
    | TScriptData _ => (Ok [], pz)
    end in
  (packets, with_mapping pz mapping).

(** ** Extradata of an output context *)

(** The streams of a context: those that exist, with their parameters; [None]
    when the context is null. The old extradata is freed first. *)
Definition copied_extradata (ok : bool) (par : AVCodecParameters) (data : bytes) : AVCodecParameters :=
  if ok then with_extradata par data
  else mkCodecpar (par_codec_type par) (par_codec_id par) (par_sample_rate par) None.

Fixpoint set_first_extradata (media_type : AVMediaType) (ok : bool) (data : bytes)
    (streams : list (option AVCodecParameters)) : option (list (option AVCodecParameters)) :=
  match streams with
  | [] => None
  | Some par :: streams =>
      if bool_decide (par_codec_type par = media_type)
      then Some (Some (copied_extradata ok par data) :: streams)
      else cons (Some par) <$> set_first_extradata media_type ok data streams
  | None :: streams => cons None <$> set_first_extradata media_type ok data streams
  end.

(** What was set before a failure stays. [ok]: the buffer can be allocated. *)
Definition set_stream_extradata (ctx : option (list (option AVCodecParameters))) (media_type : AVMediaType)
    (ok : bool) (data : bytes) : bool * option (list (option AVCodecParameters)) :=
  match ctx with
  | None => (false, ctx)
  | Some streams =>
      match set_first_extradata media_type ok data streams with
      | Some streams => (ok, Some streams)
      | None => (false, ctx)
      end
  end.

Definition apply_one (ctx : option (list (option AVCodecParameters))) (media_type : AVMediaType) (ok : bool)
    (data : option bytes) : bool * option (list (option AVCodecParameters)) :=
  match data with Some d => set_stream_extradata ctx media_type ok d | None => (true, ctx) end.

Definition apply_codec_extradata (ok_video ok_audio : bool) (pz : FlvTagPacketizer)
    (ctx : option (list (option AVCodecParameters))) :
    bool * option (list (option AVCodecParameters)) :=
  match apply_one ctx AVMEDIA_TYPE_VIDEO ok_video (pz_avc_config_raw pz) with
  | (false, ctx) => (false, ctx)
  | (true, ctx) => apply_one ctx AVMEDIA_TYPE_AUDIO ok_audio (pz_aac_asc_raw pz)
  end.

(** ** Runs *)

(** Tags in turn; an error only loses its own tag. *)
Definition packetize_all (streams : StreamCollection) (tags : list (bool * FlvTag)) : FlvTagPacketizer :=
  foldl (fun pz '(ok, tag) => snd (packetize ok pz tag streams)) FlvTagPacketizer_new tags.

(** The configurations a stream carries. *)
Definition avc_of (tag : FlvTag) : option bytes :=
  match tag with
  | TVideo _ payload _ =>
      if (5 <=? length payload)%nat && (Z.land (byte_at payload 0) 0x0F =? 7) && (byte_at payload 1 =? 0)
      then Some (drop 5 payload) else None
  | _ => None
  end.

Definition asc_of (tag : FlvTag) : option bytes :=
  match tag with
  | TAudio _ payload =>
      if (2 <=? length payload)%nat && (Z.shiftr (byte_at payload 0) 4 =? 10) && (byte_at payload 1 =? 0)
         && is_ok (validate_aac_audio_config (drop 2 payload))
      then Some (drop 2 payload) else None
  | _ => None
  end.

(** The packet the filter is given for a tag: that of an AVC frame, when the
    streams have video and the packet can be made. *)
Definition frame_of (m : FlvStreamMapping) (t : bool * FlvTag) : option AvPacket :=
  match snd t, fm_video m with
  | TVideo timestamp payload key, Some (idx, tb) =>
      if (5 <=? length payload)%nat && (Z.land (byte_at payload 0) 0x0F =? 7) && (byte_at payload 1 =? 1)
      then match make_packet (fst t) (drop 5 payload) timestamp tb key idx with Ok p => Some p | Err _ => None end
      else None
  | _, _ => None
  end.

(** A filter after the packets it was given, whatever it answered. *)
Definition filtered (b : Bsf) (packets : list AvPacket) : Bsf :=
  foldl (fun b p => snd (bsf_filter b p)) b packets.

(** The filter of a tag with an accepted configuration. *)
Definition filter_of (tag : FlvTag) : option Bsf := avc_of tag ≫= bsf_new.

(** The state after one tag. *)
Lemma packetize_state ok pz tag streams : let pz' := snd (packetize ok pz tag streams) in
  let m := default (mapping_from_streams streams) (pz_mapping pz) in
  pz_mapping pz' = Some m
  /\ pz_avc_config_raw pz' = match avc_of tag with Some a => Some a | None => pz_avc_config_raw pz end
  /\ pz_aac_asc_raw pz' = match asc_of tag with Some a => Some a | None => pz_aac_asc_raw pz end
  /\ pz_h264_bsf pz' = match filter_of tag with
       | Some b => Some b
       | None => (fun b => filtered b (option_list (frame_of m (ok, tag)))) <$> pz_h264_bsf pz
       end.
Proof.
  cbn zeta. unfold packetize, filter_of, frame_of. set (m := default _ _).
  assert (forall o : option Bsf, o = (fun b => filtered b []) <$> o) as Hid by (by intros []).
  destruct tag as [ts p|ts p key|md]; cbn [fst snd].
  - change (avc_of (TAudio ts p)) with (@None bytes). cbn [mbind option_bind option_list filtered foldl].
    unfold packetize_audio, asc_of.
    destruct (Nat.ltb_spec (length p) 2), (Nat.leb_spec 2 (length p)); try lia; cbn [andb snd]; [by rewrite <- Hid|].
    destruct (Z.shiftr (byte_at p 0) 4 =? 10); cbn [andb]; [|cbn; by rewrite <- Hid]. unfold packetize_aac.
    destruct (byte_at p 1 =? 0); cbn [andb].
    + destruct (validate_aac_audio_config (drop 2 p)); cbn; by rewrite <- Hid.
    + destruct (byte_at p 1 =? 1); [|cbn; by rewrite <- Hid]. destruct (negb _); cbn; by rewrite <- Hid.
  - unfold packetize_video, asc_of, avc_of.
    destruct (Nat.ltb_spec (length p) 5), (Nat.leb_spec 5 (length p)); try lia; cbn [andb snd];
      [destruct (fm_video m) as [[]|]; cbn; by rewrite <- Hid|].
    destruct (Z.land (byte_at p 0) 15 =? 7); cbn [andb negb];
      [|destruct (fm_video m) as [[]|]; cbn; by rewrite <- Hid].
    destruct (Z.eqb_spec (byte_at p 1) 0) as [E0|]; cbn [andb].
    + rewrite E0. change (0 =? 1) with false. cbn -[drop].
      destruct (bsf_new (drop 5 p)); cbn; split_and!; try done.
      destruct (fm_video m) as [[]|]; cbn; by rewrite <- Hid.
    + destruct (byte_at p 1 =? 1);
        [|destruct (byte_at p 1 =? 2), (fm_video m) as [[]|]; cbn; by rewrite <- Hid].
      unfold get_video_stream. destruct (fm_video m) as [[idx tb]|]; [|cbn; by rewrite <- Hid].
      destruct (make_packet _ _ _ _ _ _) as [pkt|]; [|cbn; by rewrite <- Hid].
      destruct (pz_h264_bsf pz) as [bsf|] eqn:E; [|cbn; by rewrite E].
      cbn. by destruct (bsf_filter bsf pkt) as [[]].
  - cbn. by rewrite <- Hid.
Qed.

Lemma last_omap_snoc {A} (f : FlvTag -> option A) (tags : list (bool * FlvTag)) x :
  last (omap (fun t => f (snd t)) (tags ++ [x]))
  = match f (snd x) with Some a => Some a | None => last (omap (fun t => f (snd t)) tags) end.
Proof. rewrite omap_app. cbn. destruct (f (snd x)); [by rewrite last_snoc|by rewrite app_nil_r]. Qed.

(** Where the filter of a stream comes from: the last configuration it accepts,
    and the frames packetized since. *)
Definition filter_origin (m : FlvStreamMapping) (tags : list (bool * FlvTag)) (o : option Bsf) : Prop :=
  match o with
  | None => Forall (fun t => filter_of (snd t) = None) tags
  | Some b => exists before header since b0, tags = before ++ header :: since
      /\ filter_of (snd header) = Some b0
      /\ Forall (fun t => filter_of (snd t) = None) since
      /\ b = filtered b0 (omap (frame_of m) since)
  end.

Lemma filter_origin_snoc m tags o t : filter_origin m tags o ->
  filter_origin m (tags ++ [t]) (match filter_of (snd t) with
    | Some b => Some b
    | None => (fun b => filtered b (option_list (frame_of m t))) <$> o end).
Proof.
  destruct (filter_of (snd t)) as [b|] eqn:E.
  - intros _. by exists tags, t, [], b.
  - destruct o as [b|]; cbn.
    + intros (before & header & since & b0 & -> & Hh & Hs & ->).
      exists before, header, (since ++ [t]), b0. rewrite <- app_assoc. split_and!; try done.
      * by apply Forall_app_2; [|constructor].
      * rewrite omap_app. unfold filtered. rewrite foldl_app. cbn. by destruct (frame_of m t).
    + intros Hn. by apply Forall_app_2; [|constructor].
Qed.

Lemma packetize_all_state streams tags : let pz := packetize_all streams tags in
  default (mapping_from_streams streams) (pz_mapping pz) = mapping_from_streams streams
  /\ pz_avc_config_raw pz = last (omap (fun t => avc_of (snd t)) tags)
  /\ pz_aac_asc_raw pz = last (omap (fun t => asc_of (snd t)) tags)
  /\ filter_origin (mapping_from_streams streams) tags (pz_h264_bsf pz).
Proof.
  induction tags as [|[ok tag] tags IH] using rev_ind; [by repeat split; constructor|]. cbn zeta.
  unfold packetize_all in *. rewrite foldl_snoc. cbn zeta in IH. destruct IH as (Hm & Hv & Ha & Hb).
  pose proof (packetize_state ok (foldl (fun pz '(ok, tag) => snd (packetize ok pz tag streams))
    FlvTagPacketizer_new tags) tag streams) as (Hm' & Hv' & Ha' & Hb').
  rewrite Hm', Hv', Ha', Hb', !last_omap_snoc, Hm, Hv, Ha. split_and!; [done..|].
  exact (filter_origin_snoc _ _ _ (ok, tag) Hb).
Qed.

Lemma make_packet_ok payload ts tb key idx : packet_defaults fresh ->
  Z.of_nat (length payload) < 2 ^ 31 -> av_new_packet (Z.of_nat (length payload)) = true ->
  make_packet true payload ts tb key idx
  = Ok (mkAvPacket (as_i32 (Z.of_nat idx)) payload (av_rescale_q ts (1, 1000) tb) (av_rescale_q ts (1, 1000) tb) 0
      (if key then AV_PKT_FLAG_KEY else 0)).
Proof.
  intros (_ & _ & _ & _ & Hd & Hf) Hl Hn. unfold make_packet. cbn. rewrite set_data_small, Hn by done. cbn.
  by rewrite Hd, Hf.
Qed.

(** C31: the packetizer follows the configurations of its stream. After any tags,
    whatever became of each, an AAC frame is an error until a valid
    AudioSpecificConfig came, and then becomes one packet for the first audio
    stream. An AVC frame is an error until a configuration the bitstream filter
    accepts came; then one packet for the first video stream, holding the
    length-prefixed units and the key frame flag, goes to the filter that was
    made from the last configuration accepted, in the state the frames
    packetized since then left it in: a later accepted configuration replaces
    the filter, a refused one does not, though it becomes the configuration
    kept for the muxer. Both packets carry the tag's timestamp, converted to the
    stream's time base, as presentation and as decode time: the composition
    offset of a video tag is not read. *)
Theorem packetizer_follows_headers streams tags ts ba bv d c1 c2 c3 key :
  packet_defaults fresh -> Z.of_nat (length d) < 2 ^ 31 -> av_new_packet (Z.of_nat (length d)) = true ->
  Z.shiftr ba 4 = 10 -> Z.land bv 0x0F = 7 ->
  let pz := packetize_all streams tags in
  let m := mapping_from_streams streams in
  let frame tb idx flags := mkAvPacket (as_i32 (Z.of_nat idx)) d (av_rescale_q ts (1, 1000) tb)
    (av_rescale_q ts (1, 1000) tb) 0 flags in
  let out := fst (packetize true pz (TVideo ts (bv :: 1 :: c1 :: c2 :: c3 :: d) key) streams) in
  fst (packetize true pz (TAudio ts (ba :: 1 :: d)) streams)
  = match last (omap (fun t => asc_of (snd t)) tags), fm_audio m with
    | None, _ => Err AacHeaderMissing
    | Some _, None => Err (StreamNotFound Audio)
    | Some _, Some (idx, tb) => Ok [frame tb idx 0]
    end
  /\ pz_avc_config_raw pz = last (omap (fun t => avc_of (snd t)) tags)
  /\ match fm_video m with
     | None => out = Err (StreamNotFound Video)
     | Some (idx, tb) =>
         (Forall (fun t => filter_of (snd t) = None) tags /\ out = Err AvcHeaderMissing)
         \/ (exists before header since b0, tags = before ++ header :: since
             /\ filter_of (snd header) = Some b0
             /\ Forall (fun t => filter_of (snd t) = None) since
             /\ out = match fst (bsf_filter (filtered b0 (omap (frame_of m) since))
                                  (frame tb idx (if key then AV_PKT_FLAG_KEY else 0))) with
                      | Some packets => Ok packets | None => Err BsfFailed end)
     end.
Proof.
  intros Hf Hl Hn Hb10 Hb7 pz m frame out.
  destruct (packetize_all_state streams tags) as (Hm & Hv & Ha & Hbsf). fold pz in Hm, Hv, Ha, Hbsf.
  fold m in Hm, Hbsf. split_and!; [|done|].
  - unfold packetize. fold m. rewrite Hm. unfold packetize_audio. change (byte_at (ba :: 1 :: d) 0) with ba.
    change (byte_at (ba :: 1 :: d) 1) with 1. rewrite Hb10. cbn [drop length fst].
    unfold packetize_aac. change (1 =? 0) with false. change (1 =? 1) with true. cbn iota.
    rewrite Ha. destruct (last (omap (fun t => asc_of (snd t)) tags)) as [asc|]; [|done].
    unfold get_audio_stream. cbn -[make_packet]. destruct (fm_audio m) as [[idx tb]|]; [|done].
    cbn -[make_packet]. by rewrite make_packet_ok.
  - assert (out = match fm_video m with None => Err (StreamNotFound Video) | Some (idx, tb) =>
          match pz_h264_bsf pz with None => Err AvcHeaderMissing | Some bsf =>
            match fst (bsf_filter bsf (frame tb idx (if key then AV_PKT_FLAG_KEY else 0))) with
            | Some out => Ok out | None => Err BsfFailed end end end) as Hvid.
    { unfold out, packetize. fold m. rewrite Hm. unfold packetize_video.
      change (byte_at (bv :: 1 :: c1 :: c2 :: c3 :: d) 0) with bv.
      change (byte_at (bv :: 1 :: c1 :: c2 :: c3 :: d) 1) with 1. rewrite Hb7. cbn [drop length fst negb].
      change (7 =? 7) with true. change (1 =? 0) with false. change (1 =? 1) with true. cbn -[make_packet].
      unfold get_video_stream. destruct (fm_video m) as [[idx tb]|]; [|done].
      rewrite make_packet_ok by done. destruct (pz_h264_bsf pz) as [bsf|]; [|done].
      by destruct (bsf_filter bsf _) as [[] ]. }
    clearbody out. rewrite Hvid. destruct (fm_video m) as [[idx tb]|]; [|done].
    destruct (pz_h264_bsf pz) as [bsf|]; [right|by left].
    destruct Hbsf as (before & header & since & b0 & Ht & Hh & Hs & ->). by exists before, header, since, b0.
Qed.

End Packetizer.

(** One video and one audio stream, a header of each, a frame, a second video
    header and a refused one, then frames: the filter answers the configuration
    it was made with and the number of packets it was given. *)
Lemma packetizer_follows_headers_witness :
  let st i ty := Some (mkStream i (1, 1000) (mkParams 0 None (mkCodecpar ty AV_CODEC_ID_NONE 0 None))) in
  let streams := [st 0%nat AVMEDIA_TYPE_VIDEO; st 1%nat AVMEDIA_TYPE_AUDIO] in
  let tags := [(true, TAudio 0 [0xAF; 0; 0x12; 0x10]); (true, TVideo 0 [0x17; 0; 0; 0; 0; 1] true);
    (true, TVideo 0 [0x17; 1; 0; 0; 0; 3] true); (true, TVideo 0 [0x17; 0; 0; 0; 0; 2] true);
    (true, TVideo 0 [0x17; 1; 0; 0; 0; 4] true); (true, TVideo 0 [0x17; 0; 0; 0; 0] true)] in
  let new := fun avcc : bytes => match avcc with [] => None | _ => Some (avcc, 0) end in
  let filter := fun (b : bytes * Z) (p : AvPacket) =>
    (Some [mkAvPacket (av_stream_index p) (b.1 ++ b.2 :: av_data p) (av_pts p) (av_dts p) 0 (av_flags p)], (b.1, b.2 + 1)) in
  let resc := fun (v : Z) (_ _ : AVRational) => v in
  let go := packetize new filter resc plain_packet (fun _ => true) true
    (packetize_all new filter resc plain_packet (fun _ => true) streams tags) in
  fst (go (TAudio 40 [0xAF; 1; 5]) streams) = Ok [mkAvPacket 1 [5] 40 40 0 0]
  /\ fst (go (TVideo 40 [0x17; 1; 0; 0; 9; 5] true) streams) = Ok [mkAvPacket 0 [2; 1; 5] 40 40 0 AV_PKT_FLAG_KEY].
Proof.
  cbn zeta.
  pose proof (packetizer_follows_headers
    (fun avcc : bytes => match avcc with [] => None | _ => Some (avcc, 0) end)
    (fun (b : bytes * Z) (p : AvPacket) =>
      (Some [mkAvPacket (av_stream_index p) (b.1 ++ b.2 :: av_data p) (av_pts p) (av_dts p) 0 (av_flags p)], (b.1, b.2 + 1)))
    (fun v _ _ => v) plain_packet (fun _ => true)
    [Some (mkStream 0 (1, 1000) (mkParams 0 None (mkCodecpar AVMEDIA_TYPE_VIDEO AV_CODEC_ID_NONE 0 None)));
     Some (mkStream 1 (1, 1000) (mkParams 0 None (mkCodecpar AVMEDIA_TYPE_AUDIO AV_CODEC_ID_NONE 0 None)))]
    [(true, TAudio 0 [0xAF; 0; 0x12; 0x10]); (true, TVideo 0 [0x17; 0; 0; 0; 0; 1] true);
     (true, TVideo 0 [0x17; 1; 0; 0; 0; 3] true); (true, TVideo 0 [0x17; 0; 0; 0; 0; 2] true);
     (true, TVideo 0 [0x17; 1; 0; 0; 0; 4] true); (true, TVideo 0 [0x17; 0; 0; 0; 0] true)]
    40 0xAF 0x17 [5] 0 0 9 true ltac:(split_and!; reflexivity) ltac:(reflexivity) ltac:(reflexivity)
    ltac:(reflexivity) ltac:(reflexivity)) as (Ha & _ & Hv).
  split; [exact Ha|vm_compute; reflexivity].
Defined.
