(* ===== verification/Session.v ===== *)
(** * Sessions
    [livestream-transport/src/{registry/session.rs, registry/state.rs,
    lifecycle.rs, dispatcher/event.rs}]: the registry of live sessions with the
    cleanup task of each one, the lifecycle handles that drive a session, and the
    sequence of events they hand to the dispatcher (which is in [Dispatcher]). *)
From stdpp Require Import strings gmap.
From S2P Require Import Prelude Types Tokio.

(** ** Data *)

Inductive SessionState := Pending | Connecting | Connected | Disconnected.

#[export] Instance SessionState_eq_dec : EqDecision SessionState.
Proof. solve_decision. Defined.

Record SessionEndpoint := mkEndpoint { ep_port : option Z }.

Record SessionDescriptor := mkDescriptor {
  sd_id : string;
  sd_protocol : Protocol;
  sd_endpoint : SessionEndpoint;
  sd_state : SessionState;
}.

(** [Arc<RwLock<SessionDescriptor>>] is a location in the store of descriptors. *)
Record SessionEntry := mkEntry {
  se_descriptor : nat;
  se_cancel_token : nat;
  se_pipeline_handle : option nat;
}.

Inductive EndReason := ClientDisconnect | EndError (msg : string) | AdminStop | Timeout.

Inductive SessionEvent :=
| SessionStarted (live_id : string) (protocol : Protocol)
| SessionInit (live_id : string) (streams : nat)
| SessionEnded (live_id : string) (protocol : Protocol) (reason : EndReason).

Definition event_id (e : SessionEvent) : string :=
  match e with SessionStarted i _ | SessionInit i _ | SessionEnded i _ _ => i end.

(** The task [register_session] spawns: it waits for the token, marks the
    descriptor, sleeps for the grace period and removes the key. *)
Inductive cleanup_stage := AwaitCancelled | Sleeping (until : Z).

Record CleanupTask := mkCleanup {
  cl_token : nat;
  cl_descriptor : nat;
  cl_key : string;
  cl_stage : cleanup_stage;
}.

Record HandlerLifecycle := mkLifecycle {
  hl_live_id : string;
  hl_protocol : Protocol;
  hl_initialized : bool;
  hl_connected : bool;
  hl_disconnected : bool;
}.

(** Milliseconds. *)
Definition SESSION_REMOVAL_GRACE_PERIOD : Z := 200.

Inductive session_error :=
| KeyInUse (key : string)
| NoSession (key : string)
| SessionDisconnected
| InvalidTransition
| AlreadyDisconnected (live_id : string).

(** ** The world the sessions share *)

Section Sessions.
Context {T : Type} `{HT : TokenStore T}.

(** [w_events] is the sequence of events handed to the dispatcher. *)
Record World := mkWorld {
  w_now : Z;
  w_tokens : T;
  w_descs : list SessionDescriptor;
  w_sessions : gmap string SessionEntry;
  w_cleanups : list CleanupTask;
  w_lifecycles : list HandlerLifecycle;
  w_events : list SessionEvent;
}.

Definition set_tokens (w : World) (x : T) : World :=
  mkWorld (w_now w) x (w_descs w) (w_sessions w) (w_cleanups w) (w_lifecycles w) (w_events w).
Definition set_descs (w : World) (x : list SessionDescriptor) : World :=
  mkWorld (w_now w) (w_tokens w) x (w_sessions w) (w_cleanups w) (w_lifecycles w) (w_events w).
Definition set_sessions (w : World) (x : gmap string SessionEntry) : World :=
  mkWorld (w_now w) (w_tokens w) (w_descs w) x (w_cleanups w) (w_lifecycles w) (w_events w).
Definition set_cleanups (w : World) (x : list CleanupTask) : World :=
  mkWorld (w_now w) (w_tokens w) (w_descs w) (w_sessions w) x (w_lifecycles w) (w_events w).
Definition set_lifecycles (w : World) (x : list HandlerLifecycle) : World :=
  mkWorld (w_now w) (w_tokens w) (w_descs w) (w_sessions w) (w_cleanups w) x (w_events w).
Definition dispatch (w : World) (e : SessionEvent) : World :=
  mkWorld (w_now w) (w_tokens w) (w_descs w) (w_sessions w) (w_cleanups w) (w_lifecycles w) (w_events w ++ [e]).
Definition set_now (w : World) (x : Z) : World :=
  mkWorld x (w_tokens w) (w_descs w) (w_sessions w) (w_cleanups w) (w_lifecycles w) (w_events w).

Definition cancel_token (w : World) (t : nat) : World := set_tokens w (tk_cancel (w_tokens w) t).

Definition with_state (d : SessionDescriptor) (s : SessionState) : SessionDescriptor :=
  mkDescriptor (sd_id d) (sd_protocol d) (sd_endpoint d) s.

(** Writing the state through the lock of a descriptor. *)
Definition set_state (w : World) (loc : nat) (s : SessionState) : World :=
  set_descs w (alter (fun d => with_state d s) loc (w_descs w)).

(** ** Registry ([registry/session.rs]) *)

Definition register_session (w : World) (session ct : nat) : result session_error unit * World :=
  match w_descs w !! session with
  | None => (Err (NoSession EmptyString), w)
  | Some d =>
      let stream_key := sd_id d in
      match w_sessions w !! stream_key with
      | Some _ => (Err (KeyInUse stream_key), w)
      | None =>
          let w := set_sessions w (<[stream_key := mkEntry session ct None]> (w_sessions w)) in
          (Ok tt, set_cleanups w (w_cleanups w ++ [mkCleanup ct session stream_key AwaitCancelled]))
      end
  end.

(** The cleanup task after [ct.cancelled().await]. *)
Definition cleanup_cancelled (w : World) (i : nat) (c : CleanupTask) : World :=
  let w := set_state w (cl_descriptor c) Disconnected in
  set_cleanups w (<[i := mkCleanup (cl_token c) (cl_descriptor c) (cl_key c)
                          (Sleeping (w_now w + SESSION_REMOVAL_GRACE_PERIOD))]> (w_cleanups w)).

(** The cleanup task after its sleep; it then ends. *)
Definition cleanup_remove (w : World) (i : nat) (c : CleanupTask) : World :=
  let w := set_sessions w (delete (cl_key c) (w_sessions w)) in
  set_cleanups w (delete i (w_cleanups w)).

Definition get_session (w : World) (stream_key : string) : option nat :=
  se_descriptor <$> w_sessions w !! stream_key.

Definition get_descriptor (w : World) (stream_key : string) : option SessionDescriptor :=
  loc ← get_session w stream_key; w_descs w !! loc.

(** In the order of the map's shards, which the code does not promise. *)
Definition list_descriptors (w : World) : list SessionDescriptor :=
  omap (fun '(_, entry) => w_descs w !! se_descriptor entry) (map_to_list (w_sessions w)).

Definition get_cancel_token (w : World) (stream_key : string) : option nat :=
  se_cancel_token <$> w_sessions w !! stream_key.

Definition set_pipeline_handle (w : World) (stream_key : string) (handle : nat) :
    result session_error unit * World :=
  match w_sessions w !! stream_key with
  | None => (Err (NoSession stream_key), w)
  | Some e => (Ok tt, set_sessions w (<[stream_key := mkEntry (se_descriptor e) (se_cancel_token e)
                                                              (Some handle)]> (w_sessions w)))
  end.

Definition get_pipeline_handle (w : World) (stream_key : string) : option nat :=
  e ← w_sessions w !! stream_key; se_pipeline_handle e.

Definition get_state (w : World) (stream_key : string) : option SessionState :=
  sd_state <$> get_descriptor w stream_key.

Definition next_state (current new : SessionState) : result session_error SessionState :=
  match new, current with
  | Connecting, Pending => Ok Connecting
  | Connected, Pending => Ok Connected
  | Connected, Connecting => Ok Connected
  | Disconnected, _ => Ok Disconnected
  | _, _ => Err InvalidTransition
  end.

Definition update_state (w : World) (stream_key : string) (new_state : SessionState) :
    result session_error unit * World :=
  match get_session w stream_key with
  | None => (Err (NoSession stream_key), w)
  | Some loc =>
      match w_descs w !! loc with
      | None => (Err (NoSession stream_key), w)
      | Some session =>
          let current_state := sd_state session in
          if decide (current_state = Disconnected) then (Err SessionDisconnected, w)
          else if decide (current_state = new_state) then (Ok tt, w)
          else match next_state current_state new_state with
               | Ok s => (Ok tt, set_state w loc s)
               | Err e => (Err e, w)
               end
      end
  end.

(** ** Lifecycle handles ([lifecycle.rs]) *)

Definition lc_update (w : World) (l : nat) (f : HandlerLifecycle -> HandlerLifecycle) : World :=
  set_lifecycles w (alter f l (w_lifecycles w)).

(** [HandlerLifecycle::new]. *)
Definition lifecycle_new (w : World) (live_id : string) (protocol : Protocol) : nat * World :=
  (length (w_lifecycles w),
   set_lifecycles w (w_lifecycles w ++ [mkLifecycle live_id protocol false false false])).

Definition lc_pending (w : World) (h : HandlerLifecycle) (endpoint : SessionEndpoint)
    (cancel_token : nat) : result session_error unit * World :=
  if hl_disconnected h then (Err (AlreadyDisconnected (hl_live_id h)), w)
  else
    let descriptor := mkDescriptor (hl_live_id h) (hl_protocol h) endpoint Pending in
    let loc := length (w_descs w) in
    register_session (set_descs w (w_descs w ++ [descriptor])) loc cancel_token.

Definition mark_initialized (h : HandlerLifecycle) : HandlerLifecycle :=
  mkLifecycle (hl_live_id h) (hl_protocol h) true (hl_connected h) (hl_disconnected h).

Definition lc_init (w : World) (l : nat) (h : HandlerLifecycle) (streams : nat) : World :=
  if hl_initialized h then w
  else
    let w := lc_update w l mark_initialized in
    dispatch w (SessionInit (hl_live_id h) streams).

Definition lc_connecting (w : World) (h : HandlerLifecycle) : result session_error unit * World :=
  update_state w (hl_live_id h) Connecting.

Definition mark_connected (h : HandlerLifecycle) : HandlerLifecycle :=
  mkLifecycle (hl_live_id h) (hl_protocol h) (hl_initialized h) true (hl_disconnected h).

Definition lc_connect (w : World) (l : nat) (h : HandlerLifecycle) : result session_error unit * World :=
  if hl_connected h then (Ok tt, w)
  else
    let w := lc_update w l mark_connected in
    match update_state w (hl_live_id h) Connected with
    | (Err e, w) => (Err e, w)
    | (Ok _, w) => (Ok tt, dispatch w (SessionStarted (hl_live_id h) (hl_protocol h)))
    end.

Definition mark_disconnected (h : HandlerLifecycle) : HandlerLifecycle :=
  mkLifecycle (hl_live_id h) (hl_protocol h) (hl_initialized h) (hl_connected h) true.

Definition lc_disconnect_with_reason (w : World) (l : nat) (h : HandlerLifecycle) (reason : EndReason) :
    World :=
  if hl_disconnected h then w
  else
    let w := lc_update w l mark_disconnected in
    match get_cancel_token w (hl_live_id h) with
    | None => w
    | Some ct => dispatch (cancel_token w ct) (SessionEnded (hl_live_id h) (hl_protocol h) reason)
    end.

Definition lc_disconnect (w : World) (l : nat) (h : HandlerLifecycle) : World :=
  lc_disconnect_with_reason w l h ClientDisconnect.

(** [Drop for HandlerLifecycle]. *)
Definition lc_drop (w : World) (l : nat) (h : HandlerLifecycle) : World :=
  if negb (hl_disconnected h) then lc_disconnect w l h else w.

(** ** Steps: any task may run any of the operations, in any order *)

Inductive session_step (w : World) : World -> Prop :=
| ss_tick now : w_now w <= now -> session_step w (set_now w now)
| ss_cancel t : session_step w (cancel_token w t)
| ss_child p : session_step w (set_tokens w (snd (tk_child (w_tokens w) p)))
| ss_token : session_step w (set_tokens w (snd (tk_new (w_tokens w))))
| ss_new live_id p : session_step w (snd (lifecycle_new w live_id p))
| ss_pending l h ep ct : w_lifecycles w !! l = Some h -> session_step w (snd (lc_pending w h ep ct))
| ss_init l h s : w_lifecycles w !! l = Some h -> session_step w (lc_init w l h s)
| ss_connecting l h : w_lifecycles w !! l = Some h -> session_step w (snd (lc_connecting w h))
| ss_connect l h : w_lifecycles w !! l = Some h -> session_step w (snd (lc_connect w l h))
| ss_disconnect l h r : w_lifecycles w !! l = Some h ->
    session_step w (lc_disconnect_with_reason w l h r)
| ss_drop l h : w_lifecycles w !! l = Some h -> session_step w (lc_drop w l h)
| ss_update k s : session_step w (snd (update_state w k s))
| ss_pipeline k p : session_step w (snd (set_pipeline_handle w k p))
| ss_cleanup i c : w_cleanups w !! i = Some c -> cl_stage c = AwaitCancelled ->
    tk_cancelled (w_tokens w) (cl_token c) = true -> session_step w (cleanup_cancelled w i c)
| ss_remove i c until : w_cleanups w !! i = Some c -> cl_stage c = Sleeping until ->
    until <= w_now w -> session_step w (cleanup_remove w i c).

Definition initial_world (tokens : T) : World := mkWorld 0 tokens [] ∅ [] [] [].


(** ** Coherence of the registry with its cleanup tasks *)

Definition disconnected_at (ds : list SessionDescriptor) (loc : nat) : Prop :=
  exists d, ds !! loc = Some d /\ sd_state d = Disconnected.

(** An entry and the cleanup task [register_session] spawned for it. *)
Definition task_of (c : CleanupTask) (k : string) (e : SessionEntry) : Prop :=
  cl_key c = k /\ cl_token c = se_cancel_token e /\ cl_descriptor c = se_descriptor e.

Record registry_coherent (w : World) : Prop := {
  rc_keys : NoDup (map cl_key (w_cleanups w));
  rc_entry k e : w_sessions w !! k = Some e -> exists c, c ∈ w_cleanups w /\ task_of c k e;
  rc_task c : c ∈ w_cleanups w -> exists e, w_sessions w !! cl_key c = Some e /\ task_of c (cl_key c) e;
  rc_desc c : c ∈ w_cleanups w -> exists d, w_descs w !! cl_descriptor c = Some d /\ sd_id d = cl_key c;
  rc_sleep c until : c ∈ w_cleanups w -> cl_stage c = Sleeping until ->
    disconnected_at (w_descs w) (cl_descriptor c) /\ tk_cancelled (w_tokens w) (cl_token c) = true;
}.

Lemma coherent_desc w k e : registry_coherent w -> w_sessions w !! k = Some e ->
  exists d, w_descs w !! se_descriptor e = Some d /\ sd_id d = k.
Proof.
  intros Hw He. destruct (rc_entry _ Hw k e He) as (c & Hc & Hk & _ & Hd).
  destruct (rc_desc _ Hw c Hc) as (d & Hl & Hi). exists d. by rewrite <- Hd, <- Hk.
Qed.

(** The registry as the list of its descriptors: one for each key, under it. *)
Lemma coherent_list w : registry_coherent w ->
  map sd_id (list_descriptors w) = map fst (map_to_list (w_sessions w))
  /\ forall d, d ∈ list_descriptors w <-> get_descriptor w (sd_id d) = Some d.
Proof.
  intros Hw. split.
  - unfold list_descriptors.
    assert (forall l : list (string * SessionEntry), (forall k e, (k, e) ∈ l -> w_sessions w !! k = Some e) ->
      map sd_id (omap (fun '(_, e) => w_descs w !! se_descriptor e) l) = map fst l) as Hl.
    { induction l as [|[k e] l IH]; intros Hin; [done|]. cbn.
      destruct (coherent_desc w k e Hw) as (d & -> & Hd); [apply Hin; set_solver|].
      cbn. rewrite Hd. f_equal. apply IH. intros k' e' ?. apply Hin. set_solver. }
    apply Hl. intros k e. by rewrite elem_of_map_to_list.
  - intros d. unfold list_descriptors, get_descriptor, get_session. rewrite list_elem_of_omap. split.
    + intros ([k e] & Hin & Hd). apply elem_of_map_to_list in Hin.
      destruct (coherent_desc w k e Hw Hin) as (d' & Hl & Hk). rewrite Hl in Hd. injection Hd as ->.
      rewrite Hk, Hin. exact Hl.
    + intros (loc & Hs & Hd)%bind_Some. apply fmap_Some in Hs as (e & He & ->).
      exists (sd_id d, e). split; [by apply elem_of_map_to_list|done].
Qed.

(** A descriptor keeps its identity, and its state only advances. *)
Definition rank (s : SessionState) : nat :=
  match s with Pending => 0 | Connecting => 1 | Connected => 2 | Disconnected => 3 end.

Definition desc_le (d d' : SessionDescriptor) : Prop :=
  sd_id d' = sd_id d /\ sd_protocol d' = sd_protocol d /\ sd_endpoint d' = sd_endpoint d
  /\ (rank (sd_state d) <= rank (sd_state d'))%nat.

Definition descs_le (ds ds' : list SessionDescriptor) : Prop :=
  forall loc d, ds !! loc = Some d -> exists d', ds' !! loc = Some d' /\ desc_le d d'.

#[export] Instance descs_le_preorder : PreOrder descs_le.
Proof.
  split.
  - intros ds loc d Hd. exists d. unfold desc_le. auto.
  - intros d1 d2 d3 H1 H2 loc d Hd. destruct (H1 _ _ Hd) as (d' & Hd' & ? & ? & ? & ?).
    destruct (H2 _ _ Hd') as (d'' & Hd'' & ? & ? & ? & ?). exists d''. split; [done|].
    unfold desc_le. split_and!; [congruence..|lia].
Qed.

Lemma descs_le_app ds ds' : descs_le ds (ds ++ ds').
Proof. intros loc d Hd. exists d. rewrite lookup_app_l by eauto using lookup_lt_Some. unfold desc_le. auto. Qed.

Lemma descs_le_alter ds loc s :
  (forall d, ds !! loc = Some d -> (rank (sd_state d) <= rank s)%nat) ->
  descs_le ds (alter (fun d => with_state d s) loc ds).
Proof.
  intros Hs l d Hd. destruct (decide (l = loc)) as [->|Hne].
  - exists (with_state d s). rewrite list_lookup_alter_eq, Hd. unfold desc_le. cbn. split_and!; auto.
  - exists d. rewrite list_lookup_alter_ne by done. unfold desc_le. auto.
Qed.

Lemma disconnected_at_le ds ds' loc : descs_le ds ds' -> disconnected_at ds loc -> disconnected_at ds' loc.
Proof.
  intros Hle (d & Hd & Hs). destruct (Hle _ _ Hd) as (d' & Hd' & _ & _ & _ & Hr).
  exists d'. split; [done|]. rewrite Hs in Hr. destruct (sd_state d'); cbn in Hr; lia || done.
Qed.

(** Everything that leaves the map and the tasks alone, cancels tokens and
    advances descriptors keeps the coherence. *)
Lemma coherent_frame w w' : registry_coherent w ->
  w_sessions w' = w_sessions w -> w_cleanups w' = w_cleanups w -> descs_le (w_descs w) (w_descs w') ->
  (forall t, tk_cancelled (w_tokens w) t = true -> tk_cancelled (w_tokens w') t = true) ->
  registry_coherent w'.
Proof.
  intros [H1 H2 H3 H4 H5] Es Ec Hd Ht. split; rewrite ?Es, ?Ec; [done|done|done| |].
  - intros c Hc. destruct (H4 c Hc) as (d & Hl & Hid). destruct (Hd _ _ Hl) as (d' & Hl' & Hle).
    exists d'. split; [done|]. destruct Hle as (-> & _). done.
  - intros c u Hc Hu. destruct (H5 c u Hc Hu) as [Hs Hcan]. split; [by eapply disconnected_at_le|auto].
Qed.

Context `{!TokenLaws T}.

Lemma register_coherent w loc ct : registry_coherent w ->
  registry_coherent (snd (register_session w loc ct)).
Proof.
  intros Hc. unfold register_session. destruct (w_descs w !! loc) as [d|] eqn:Ed; [|done].
  destruct (w_sessions w !! sd_id d) eqn:Ek; [done|]. destruct Hc as [H1 H2 H3 H4 H5].
  set (c0 := mkCleanup ct loc (sd_id d) AwaitCancelled).
  assert (forall c, c ∈ w_cleanups w -> cl_key c <> sd_id d) as Hne.
  { intros c Hc Heq. destruct (H3 c Hc) as (e & He & _). congruence. }
  split; cbn.
  - rewrite map_app. apply NoDup_app. split_and!; [done| |apply NoDup_singleton].
    intros k Hk Hk'. apply list_elem_of_singleton in Hk'. subst k.
    apply list_elem_of_fmap in Hk as (c & Heq & Hc). by apply (Hne c Hc).
  - intros k e He. destruct (decide (k = sd_id d)) as [->|Hk].
    + rewrite lookup_insert_eq in He. injection He as <-. exists c0. split; [|done].
      apply elem_of_app. right. by apply list_elem_of_singleton.
    + rewrite lookup_insert_ne in He by done. destruct (H2 k e He) as (c & ? & ?).
      exists c. split; [|done]. apply elem_of_app. by left.
  - intros c [Hc| ->%list_elem_of_singleton]%elem_of_app.
    + destruct (H3 c Hc) as (e & He & ?). exists e. rewrite lookup_insert_ne by (by apply not_eq_sym, Hne).
      done.
    + exists (mkEntry loc ct None). by rewrite lookup_insert_eq.
  - intros c [Hc| ->%list_elem_of_singleton]%elem_of_app; [by apply H4|]. by exists d.
  - intros c u [Hc| ->%list_elem_of_singleton]%elem_of_app; [by apply H5|]. done.
Qed.

Lemma pipeline_coherent w k p : registry_coherent w ->
  registry_coherent (snd (set_pipeline_handle w k p)).
Proof.
  intros Hc. unfold set_pipeline_handle. destruct (w_sessions w !! k) as [e0|] eqn:Ek; [|done].
  destruct Hc as [H1 H2 H3 H4 H5]. split; cbn; try done.
  - intros k' e. destruct (decide (k' = k)) as [->|]; [|rewrite lookup_insert_ne by done; auto].
    rewrite lookup_insert_eq. intros [= <-]. destruct (H2 k e0 Ek) as (c & Hc & ?). by exists c.
  - intros c Hc. destruct (H3 c Hc) as (e & He & Ht).
    destruct (decide (cl_key c = k)) as [Heq|]; [|rewrite lookup_insert_ne by done; eauto].
    subst k. rewrite lookup_insert_eq. eexists. split; [done|]. replace e0 with e by congruence. done.
Qed.

Lemma update_state_shape w k s : exists w', snd (update_state w k s) = w' /\
  (w' = w \/ exists loc d s', get_session w k = Some loc /\ w_descs w !! loc = Some d
     /\ sd_state d <> Disconnected /\ sd_state d <> s
     /\ next_state (sd_state d) s = Ok s' /\ w' = set_state w loc s').
Proof.
  eexists. split; [done|]. unfold update_state. destruct (get_session w k) as [loc|] eqn:Eg; [|by left].
  destruct (w_descs w !! loc) as [d|] eqn:Ed; [|by left].
  case_decide; [by left|]. case_decide; [by left|].
  destruct (next_state _ _) as [s'|] eqn:En; [|by left]. right. by exists loc, d, s'.
Qed.

Lemma next_state_rank c n s : next_state c n = Ok s -> s = n /\ (c <> Disconnected -> (rank c <= rank s)%nat).
Proof. destruct c, n; cbn; intros [= <-]; split; cbn; auto; lia || done. Qed.

Lemma set_state_descs_le w loc s :
  (forall d, w_descs w !! loc = Some d -> (rank (sd_state d) <= rank s)%nat) ->
  descs_le (w_descs w) (w_descs (set_state w loc s)).
Proof. apply descs_le_alter. Qed.

Lemma update_descs_le w k s : descs_le (w_descs w) (w_descs (snd (update_state w k s))).
Proof.
  destruct (update_state_shape w k s) as (w' & -> & [->|(loc & d & s' & _ & Hd & Hn & _ & Hs & ->)]);
    [done|]. apply set_state_descs_le. intros d' Hd'. apply next_state_rank in Hs as [_ Hr].
  replace d' with d by congruence. auto.
Qed.

Lemma update_state_rest w k s : let w' := snd (update_state w k s) in
  w_sessions w' = w_sessions w /\ w_cleanups w' = w_cleanups w /\ w_tokens w' = w_tokens w
  /\ w_lifecycles w' = w_lifecycles w /\ w_events w' = w_events w.
Proof.
  destruct (update_state_shape w k s) as (w' & -> & [->|(loc & d & s' & _ & _ & _ & _ & _ & ->)]);
    repeat split.
Qed.

Lemma update_coherent w k s : registry_coherent w -> registry_coherent (snd (update_state w k s)).
Proof.
  intros Hc. destruct (update_state_rest w k s) as (? & ? & Et & _).
  eapply coherent_frame; eauto using update_descs_le. by rewrite Et.
Qed.

Lemma cleanup_cancelled_coherent w i c : registry_coherent w ->
  w_cleanups w !! i = Some c -> tk_cancelled (w_tokens w) (cl_token c) = true ->
  registry_coherent (cleanup_cancelled w i c).
Proof.
  intros [H1 H2 H3 H4 H5] Hi Hct.
  assert (c ∈ w_cleanups w) as Hin by by eapply list_elem_of_lookup_2.
  unfold cleanup_cancelled. set (c' := mkCleanup _ _ _ _).
  assert (forall x, x ∈ <[i := c']> (w_cleanups w) -> x = c' \/ x ∈ w_cleanups w) as Hel.
  { intros x [j Hj]%list_elem_of_lookup. destruct (decide (j = i)) as [->|].
    - left. rewrite list_lookup_insert_eq in Hj; [congruence|by eapply lookup_lt_Some].
    - right. rewrite list_lookup_insert_ne in Hj by done. by eapply list_elem_of_lookup_2. }
  assert (map cl_key (<[i := c']> (w_cleanups w)) = map cl_key (w_cleanups w)) as Hkeys.
  { change (map cl_key) with (fmap (M := list) cl_key). rewrite list_fmap_insert.
    apply list_insert_id. by rewrite list_lookup_fmap, Hi. }
  assert (descs_le (w_descs w) (w_descs (set_state w (cl_descriptor c) Disconnected))) as Hle.
  { apply set_state_descs_le. intros d _. by destruct (sd_state d); cbn; lia. }
  split; cbn [set_cleanups set_state set_descs w_cleanups w_sessions w_descs w_tokens].
  - by rewrite Hkeys.
  - intros k e He. destruct (H2 k e He) as (x & Hx & Hxt). destruct (decide (cl_key x = cl_key c)) as [Hk|Hk].
    + exists c'. split.
      * eapply list_elem_of_lookup_2, list_lookup_insert_eq. by eapply lookup_lt_Some.
      * destruct (H3 c Hin) as (e' & He' & Hce). destruct Hxt as (Hxk & ? & ?).
        assert (e' = e) as -> by congruence. destruct Hce as (_ & ? & ?).
        split_and!; cbn; congruence.
    + exists x. split; [|done]. apply list_elem_of_lookup in Hx as [j Hj].
      apply list_elem_of_lookup. exists j. rewrite list_lookup_insert_ne; [done|].
      intros ->. congruence.
  - intros x [->|Hx]%Hel; [|auto]. apply (H3 c Hin).
  - intros x Hx. assert (exists d, w_descs w !! cl_descriptor x = Some d /\ sd_id d = cl_key x)
      as (d & Hd & Hid) by (destruct (Hel x Hx) as [->|]; [apply (H4 c Hin)|auto]).
    destruct (Hle _ _ Hd) as (d' & Hd' & Hid' & _). exists d'. split; [done|congruence].
  - intros x u [->|Hx]%Hel Hu.
    + split; [|done]. destruct (H4 c Hin) as (d & Hd & _). exists (with_state d Disconnected).
      cbn. by rewrite list_lookup_alter_eq, Hd.
    + destruct (H5 x u Hx Hu) as [Hs Hcan]. split; [|done]. by eapply disconnected_at_le.
Qed.

Lemma cleanup_remove_coherent w i c : registry_coherent w ->
  w_cleanups w !! i = Some c -> registry_coherent (cleanup_remove w i c).
Proof.
  intros [H1 H2 H3 H4 H5] Hi. unfold cleanup_remove.
  assert (forall x, x ∈ delete i (w_cleanups w) -> x ∈ w_cleanups w /\ cl_key x <> cl_key c) as Hel.
  { intros x Hx. apply list_elem_of_lookup in Hx as [j Hj].
    assert (exists j', j' <> i /\ w_cleanups w !! j' = Some x) as (j' & Hne & Hj').
    { destruct (decide (j < i)%nat).
      - rewrite list_lookup_delete_lt in Hj by done. exists j. split; [lia|done].
      - rewrite list_lookup_delete_ge in Hj by lia. exists (S j). split; [lia|done]. }
    split; [by eapply list_elem_of_lookup_2|]. intros Hk. apply Hne.
    eapply (NoDup_lookup (cl_key <$> w_cleanups w)); [exact H1|..];
      rewrite list_lookup_fmap, ?Hj', ?Hi; cbn; by rewrite ?Hk. }
  split; cbn [set_cleanups set_sessions w_cleanups w_sessions w_descs w_tokens].
  - eapply sublist_NoDup; [exact H1|]. apply (fmap_sublist cl_key), sublist_delete.
  - intros k e [Hk He]%lookup_delete_Some. destruct (H2 k e He) as (x & Hx & Hxt).
    exists x. split; [|done]. apply list_elem_of_lookup in Hx as [j Hj].
    assert (j <> i) as Hne by (intros ->; destruct Hxt as (? & _); congruence).
    apply list_elem_of_lookup. destruct (decide (j < i)%nat).
    + exists j. by rewrite list_lookup_delete_lt.
    + exists (pred j). rewrite list_lookup_delete_ge by lia. by replace (S (pred j)) with j by lia.
  - intros x (Hx & Hne)%Hel. destruct (H3 x Hx) as (e & He & ?). exists e.
    rewrite lookup_delete_ne by done. done.
  - intros x (Hx & _)%Hel. auto.
  - intros x u (Hx & _)%Hel. exact (H5 x u Hx).
Qed.

Lemma disconnect_rest w l h r : let w' := lc_disconnect_with_reason w l h r in
  w_sessions w' = w_sessions w /\ w_cleanups w' = w_cleanups w /\ w_descs w' = w_descs w
  /\ (forall t, tk_cancelled (w_tokens w) t = true -> tk_cancelled (w_tokens w') t = true).
Proof.
  cbn zeta. unfold lc_disconnect_with_reason. destruct (hl_disconnected h); [done|].
  destruct (get_cancel_token _ _) as [ct|]; [|done]. cbn. split_and!; auto using tk_cancel_mono.
Qed.

Lemma drop_disconnect w l h :
  lc_drop w l h = w \/ lc_drop w l h = lc_disconnect_with_reason w l h ClientDisconnect.
Proof. unfold lc_drop. destruct (negb _); auto. Qed.

Lemma connect_rest w l h : let w' := snd (lc_connect w l h) in
  w_sessions w' = w_sessions w /\ w_cleanups w' = w_cleanups w /\ w_tokens w' = w_tokens w
  /\ descs_le (w_descs w) (w_descs w').
Proof.
  cbn zeta. unfold lc_connect. destruct (hl_connected h); [done|].
  pose proof (update_state_rest (lc_update w l mark_connected) (hl_live_id h) Connected) as (? & ? & ? & _).
  pose proof (update_descs_le (lc_update w l mark_connected) (hl_live_id h) Connected).
  destruct (update_state _ _ _) as [[] w']; done.
Qed.

Lemma register_descs w loc ct : w_descs (snd (register_session w loc ct)) = w_descs w.
Proof. unfold register_session. by destruct (w_descs w !! loc); [destruct (w_sessions w !! _)|]. Qed.

Lemma session_step_descs_le w w' : session_step w w' -> descs_le (w_descs w) (w_descs w').
Proof.
  intros Hs. destruct Hs; cbn; try done.
  - unfold lc_pending. destruct (hl_disconnected h); [done|]. rewrite register_descs. apply descs_le_app.
  - unfold lc_init. by destruct (hl_initialized h).
  - apply update_descs_le.
  - apply connect_rest.
  - by destruct (disconnect_rest w l h r) as (_ & _ & -> & _).
  - destruct (drop_disconnect w l h) as [->| ->]; [done|].
    by destruct (disconnect_rest w l h ClientDisconnect) as (_ & _ & -> & _).
  - apply update_descs_le.
  - unfold set_pipeline_handle. by destruct (w_sessions w !! k).
  - apply descs_le_alter. intros d _. by destruct (sd_state d); cbn; lia.
Qed.

Lemma session_step_coherent w w' : registry_coherent w -> session_step w w' -> registry_coherent w'.
Proof.
  intros Hc Hs. destruct Hs.
  - by apply (coherent_frame w).
  - apply (coherent_frame w); try done. intros u. apply tk_cancel_mono.
  - apply (coherent_frame w); try done. intros u. apply tk_child_mono.
  - apply (coherent_frame w); try done. intros u. cbn. by rewrite tk_new_cancelled.
  - by apply (coherent_frame w).
  - unfold lc_pending. destruct (hl_disconnected h); [done|]. apply register_coherent.
    apply (coherent_frame w); try done. apply descs_le_app.
  - unfold lc_init. destruct (hl_initialized h); [done|]. by apply (coherent_frame w).
  - by apply update_coherent.
  - destruct (connect_rest w l h) as (? & ? & Et & ?). apply (coherent_frame w); try done. by rewrite Et.
  - destruct (disconnect_rest w l h r) as (? & ? & Ed & ?). apply (coherent_frame w); try done. by rewrite Ed.
  - destruct (drop_disconnect w l h) as [->| ->]; [done|].
    destruct (disconnect_rest w l h ClientDisconnect) as (? & ? & Ed & ?).
    apply (coherent_frame w); try done. by rewrite Ed.
  - by apply update_coherent.
  - by apply pipeline_coherent.
  - by apply cleanup_cancelled_coherent.
  - by eapply cleanup_remove_coherent.
Qed.

Lemma initial_coherent tokens : registry_coherent (initial_world tokens).
Proof.
  split; cbn.
  - constructor.
  - intros k e He. by rewrite lookup_empty in He.
  - intros c Hc. by apply elem_of_nil in Hc.
  - intros c Hc. by apply elem_of_nil in Hc.
  - intros c u Hc. by apply elem_of_nil in Hc.
Qed.

(** C1: whatever operations the servers, handlers, timers and cleanup tasks
    run, in any order, the registry stays coherent with its cleanup tasks:
    every session of the map has a cleanup task holding its own token and
    descriptor, every running cleanup task still has its session in the map (so
    a removal after the grace period never deletes another session registered
    under the same key), no two tasks share a key, and a task sleeps only when
    its token is cancelled and its descriptor says [Disconnected]. *)
Theorem registry_stays_coherent tokens w :
  rtc session_step (initial_world tokens) w -> registry_coherent w.
Proof.
  apply (rtc_invariant session_step registry_coherent);
    eauto using session_step_coherent, initial_coherent.
Qed.

(** A session descriptor is never forgotten, never changes its id, protocol
    or endpoint, and its state only advances in the order pending, connecting,
    connected, disconnected; in particular [Disconnected] is final. *)
Theorem descriptors_monotone w w' loc d :
  rtc session_step w w' -> w_descs w !! loc = Some d ->
  exists d', w_descs w' !! loc = Some d' /\ sd_id d' = sd_id d /\ sd_protocol d' = sd_protocol d
    /\ sd_endpoint d' = sd_endpoint d /\ (rank (sd_state d) <= rank (sd_state d'))%nat
    /\ (sd_state d = Disconnected -> sd_state d' = Disconnected).
Proof.
  intros Hr Hd. assert (descs_le (w_descs w) (w_descs w')) as Hle.
  { clear Hd. induction Hr as [|w1 w2 w3 Hs _ IH]; [done|].
    etrans; [by apply session_step_descs_le|done]. }
  destruct (Hle _ _ Hd) as (d' & Hd' & ? & ? & ? & Hr'). exists d'. split_and!; try done.
  intros Hdis. rewrite Hdis in Hr'. destruct (sd_state d'); cbn in Hr'; lia || done.
Qed.

(** ** Transition table *)

(** [update_state] refuses an unknown key and a disconnected session, does
    nothing when the state is already the requested one, moves the state exactly
    when the request is further along pending, connecting, connected,
    disconnected, and refuses every backward transition, the registry and the
    other descriptors being left alone in all cases. *)
Theorem update_state_table w k s :
  update_state w k s =
  match get_session w k with
  | None => (Err (NoSession k), w)
  | Some loc =>
      match w_descs w !! loc with
      | None => (Err (NoSession k), w)
      | Some d =>
          match sd_state d with
          | Disconnected => (Err SessionDisconnected, w)
          | cur => if (rank cur =? rank s)%nat then (Ok tt, w)
                   else if (rank cur <? rank s)%nat then (Ok tt, set_state w loc s)
                   else (Err InvalidTransition, w)
          end
      end
  end.
Proof.
  unfold update_state. destruct (get_session w k) as [loc|]; [|done].
  destruct (w_descs w !! loc) as [d|]; [|done].
  by destruct (sd_state d), s.
Qed.

(** ** What the lifecycle handles announce *)

Definition started_for (id : string) (e : SessionEvent) : bool :=
  match e with SessionStarted i _ => bool_decide (i = id) | _ => false end.
Definition init_for (id : string) (e : SessionEvent) : bool :=
  match e with SessionInit i _ => bool_decide (i = id) | _ => false end.
Definition ended_for (id : string) (e : SessionEvent) : bool :=
  match e with SessionEnded i _ _ => bool_decide (i = id) | _ => false end.

Definition flagged (flag : HandlerLifecycle -> bool) (id : string) (h : HandlerLifecycle) : bool :=
  bool_decide (hl_live_id h = id) && flag h.

(** One announcement per handle at most. *)
Definition announced_once (w : World) : Prop := forall id,
  (countb (started_for id) (w_events w) <= countb (flagged hl_connected id) (w_lifecycles w))%nat
  /\ (countb (init_for id) (w_events w) <= countb (flagged hl_initialized id) (w_lifecycles w))%nat
  /\ (countb (ended_for id) (w_events w) <= countb (flagged hl_disconnected id) (w_lifecycles w))%nat.

Lemma announced_frame w w' : announced_once w ->
  w_events w' = w_events w -> w_lifecycles w' = w_lifecycles w -> announced_once w'.
Proof. intros Ha He Hl id. rewrite He, Hl. apply Ha. Qed.

(** A handle raises one of its flags and sends at most the matching event. *)
Lemma announced_raise w w' l h g (evs : list SessionEvent) : announced_once w ->
  w_lifecycles w !! l = Some h -> hl_live_id (g h) = hl_live_id h ->
  w_lifecycles w' = alter g l (w_lifecycles w) -> w_events w' = w_events w ++ evs ->
  (forall id, let b f := Nat.b2n (flagged f id h) in let b' f := Nat.b2n (flagged f id (g h)) in
     (countb (started_for id) evs + b hl_connected <= b' hl_connected
      /\ countb (init_for id) evs + b hl_initialized <= b' hl_initialized
      /\ countb (ended_for id) evs + b hl_disconnected <= b' hl_disconnected)%nat) ->
  announced_once w'.
Proof.
  intros Ha Hl Hid El Ee Hev id. rewrite El, Ee, !countb_app.
  destruct (Ha id) as (? & ? & ?), (Hev id) as (? & ? & ?).
  pose proof (countb_alter (flagged hl_connected id) g l _ h Hl).
  pose proof (countb_alter (flagged hl_initialized id) g l _ h Hl).
  pose proof (countb_alter (flagged hl_disconnected id) g l _ h Hl). lia.
Qed.

Lemma disconnect_announced w l h r : w_lifecycles w !! l = Some h -> announced_once w ->
  announced_once (lc_disconnect_with_reason w l h r).
Proof.
  intros Hl Ha. unfold lc_disconnect_with_reason. destruct (hl_disconnected h) eqn:Ed; [done|].
  set (evs := match get_cancel_token w (hl_live_id h) with
              | Some _ => [SessionEnded (hl_live_id h) (hl_protocol h) r] | None => [] end).
  apply (announced_raise w _ l h mark_disconnected evs); [done|done|done|..].
  - by destruct (get_cancel_token _ _).
  - subst evs. change (get_cancel_token (lc_update w l mark_disconnected)) with (get_cancel_token w).
    destruct (get_cancel_token _ _); cbn; [done|by rewrite app_nil_r].
  - intros id. subst evs. unfold flagged. cbn. rewrite Ed.
    destruct (get_cancel_token _ _); cbn; unfold countb; cbn;
      destruct (bool_decide (hl_live_id h = id)); cbn; lia.
Qed.

Lemma connect_announced w l h : w_lifecycles w !! l = Some h -> announced_once w ->
  announced_once (snd (lc_connect w l h)).
Proof.
  intros Hl Ha. unfold lc_connect. destruct (hl_connected h) eqn:Ec; [done|].
  pose proof (update_state_rest (lc_update w l mark_connected) (hl_live_id h) Connected)
    as (_ & _ & _ & Hls & Hes).
  destruct (update_state _ _ _) as [r w']; cbn in Hls, Hes.
  set (evs := match r with Ok _ => [SessionStarted (hl_live_id h) (hl_protocol h)] | Err _ => [] end).
  apply (announced_raise w _ l h mark_connected evs); [done|done|done|..].
  - by destruct r.
  - subst evs. destruct r; cbn; rewrite Hes; [done|by rewrite app_nil_r].
  - intros id. subst evs. unfold flagged. cbn. rewrite Ec.
    destruct r; unfold countb; cbn; destruct (bool_decide (hl_live_id h = id)); cbn; lia.
Qed.

Lemma session_step_announced w w' : announced_once w -> session_step w w' -> announced_once w'.
Proof.
  intros Ha Hs. destruct Hs; try by apply (announced_frame w).
  - intros id. cbn [lifecycle_new snd set_lifecycles w_events w_lifecycles].
    rewrite !countb_app. destruct (Ha id) as (? & ? & ?). lia.
  - unfold lc_pending. destruct (hl_disconnected h); [done|]. unfold register_session.
    by destruct (_ !! length _); [destruct (_ !! sd_id _)|].
  - unfold lc_init. destruct (hl_initialized h) eqn:Ei; [done|].
    apply (announced_raise w _ l h mark_initialized [SessionInit (hl_live_id h) s]); try done.
    intros id. unfold flagged. cbn. rewrite Ei. unfold countb. cbn.
    destruct (bool_decide (hl_live_id h = id)); cbn; lia.
  - unfold lc_connecting. destruct (update_state_rest w (hl_live_id h) Connecting) as (_ & _ & _ & ? & ?).
    by apply (announced_frame w).
  - by apply connect_announced.
  - by apply disconnect_announced.
  - destruct (drop_disconnect w l h) as [->| ->]; [done|by apply disconnect_announced].
  - destruct (update_state_rest w k s) as (_ & _ & _ & ? & ?). by apply (announced_frame w).
  - unfold set_pipeline_handle. by destruct (w_sessions w !! k).
Qed.

(** Handles are never removed and keep their id and, once raised, their flags. *)
Definition lifecycle_le (h h' : HandlerLifecycle) : Prop :=
  hl_live_id h' = hl_live_id h /\ hl_protocol h' = hl_protocol h
  /\ (hl_disconnected h = true -> hl_disconnected h' = true)
  /\ (hl_connected h = true -> hl_connected h' = true).

Definition lifecycles_le (ls ls' : list HandlerLifecycle) : Prop :=
  forall l h, ls !! l = Some h -> exists h', ls' !! l = Some h' /\ lifecycle_le h h'.

#[export] Instance lifecycles_le_preorder : PreOrder lifecycles_le.
Proof.
  split.
  - intros ls l h Hl. exists h. unfold lifecycle_le. auto.
  - intros l1 l2 l3 H12 H23 l h Hl. destruct (H12 _ _ Hl) as (h' & Hl' & ? & ? & ? & ?).
    destruct (H23 _ _ Hl') as (h'' & Hl'' & ? & ? & ? & ?). exists h''. split; [done|].
    unfold lifecycle_le. split_and!; [congruence..|auto|auto].
Qed.

Lemma lifecycles_le_alter ls f l : (forall h, lifecycle_le h (f h)) -> lifecycles_le ls (alter f l ls).
Proof.
  intros Hf i h Hi. destruct (decide (i = l)) as [->|Hne].
  - exists (f h). by rewrite list_lookup_alter_eq, Hi.
  - exists h. rewrite list_lookup_alter_ne by done. unfold lifecycle_le. auto.
Qed.

Lemma disconnect_lifecycles w l h r :
  lifecycles_le (w_lifecycles w) (w_lifecycles (lc_disconnect_with_reason w l h r)).
Proof.
  unfold lc_disconnect_with_reason. destruct (hl_disconnected h); [done|].
  transitivity (w_lifecycles (lc_update w l mark_disconnected)); [|by destruct (get_cancel_token _ _)].
  apply lifecycles_le_alter. by intros [].
Qed.

Lemma drop_lifecycles w l h : lifecycles_le (w_lifecycles w) (w_lifecycles (lc_drop w l h)).
Proof. destruct (drop_disconnect w l h) as [->| ->]; [done|]. apply disconnect_lifecycles. Qed.

Lemma connect_lifecycles w l h : lifecycles_le (w_lifecycles w) (w_lifecycles (snd (lc_connect w l h))).
Proof.
  unfold lc_connect. destruct (hl_connected h); [done|].
  pose proof (update_state_rest (lc_update w l mark_connected) (hl_live_id h) Connected) as (_ & _ & _ & Hl & _).
  destruct (update_state _ _ _) as [[] w']; cbn in *; rewrite Hl; apply lifecycles_le_alter; by intros [].
Qed.

Lemma session_step_lifecycles w w' : session_step w w' -> lifecycles_le (w_lifecycles w) (w_lifecycles w').
Proof.
  intros Hs. destruct Hs; try done.
  - intros i h Hi. exists h. cbn. rewrite lookup_app_l by (by eapply lookup_lt_Some). unfold lifecycle_le. auto.
  - unfold lc_pending. destruct (hl_disconnected h); [done|]. unfold register_session.
    by destruct (_ !! length _); [destruct (_ !! sd_id _)|].
  - unfold lc_init. destruct (hl_initialized h); [done|]. apply lifecycles_le_alter. by intros [].
  - unfold lc_connecting. by destruct (update_state_rest w (hl_live_id h) Connecting) as (_ & _ & _ & -> & _).
  - apply connect_lifecycles.
  - apply disconnect_lifecycles.
  - apply drop_lifecycles.
  - by destruct (update_state_rest w k s) as (_ & _ & _ & -> & _).
  - unfold set_pipeline_handle. by destruct (w_sessions w !! k).
Qed.

(** Over any run, the number of [SessionEnded] events sent for a live id is
    at most the number of its lifecycle handles that were disconnected (a handle
    announces its end at most once, through [disconnect], a reason or its drop),
    and likewise for [SessionStarted] with the connected handles and
    [SessionInit] with the initialised ones. *)
Theorem handles_announce_once tokens w id :
  rtc session_step (initial_world tokens) w ->
  (countb (started_for id) (w_events w) <= countb (flagged hl_connected id) (w_lifecycles w))%nat
  /\ (countb (init_for id) (w_events w) <= countb (flagged hl_initialized id) (w_lifecycles w))%nat
  /\ (countb (ended_for id) (w_events w) <= countb (flagged hl_disconnected id) (w_lifecycles w))%nat.
Proof.
  intros Hr. revert id. change (announced_once w).
  revert Hr. apply (rtc_invariant session_step announced_once); [|by intros id; cbn].
  intros s s'. apply session_step_announced.
Qed.

Lemma get_state_at w k loc d : get_session w k = Some loc -> w_descs w !! loc = Some d ->
  get_state w k = Some (sd_state d).
Proof. intros Hg Hd. unfold get_state, get_descriptor. rewrite Hg. cbn. by rewrite Hd. Qed.

(** Connecting a handle for the first time moves a live session to
    [Connected] and announces it once; on a session that is already
    disconnected it fails and announces nothing, but the handle has recorded the
    attempt, so that every later [connect] on it reports success without a
    connected session. *)
Theorem connect_first_attempt w l h loc d :
  w_lifecycles w !! l = Some h -> hl_connected h = false ->
  get_session w (hl_live_id h) = Some loc -> w_descs w !! loc = Some d ->
  let '(r, w') := lc_connect w l h in
  w_lifecycles w' !! l = Some (mark_connected h)
  /\ lc_connect w' l (mark_connected h) = (Ok tt, w')
  /\ if decide (sd_state d = Disconnected)
     then r = Err SessionDisconnected /\ get_state w' (hl_live_id h) = Some Disconnected
          /\ w_events w' = w_events w
     else r = Ok tt /\ get_state w' (hl_live_id h) = Some Connected
          /\ w_events w' = w_events w ++ [SessionStarted (hl_live_id h) (hl_protocol h)].
Proof.
  intros Hl Hc Hg Hd. unfold lc_connect at 1. rewrite Hc, update_state_table.
  change (get_session (lc_update w l mark_connected)) with (get_session w).
  change (w_descs (lc_update w l mark_connected)) with (w_descs w). rewrite Hg, Hd.
  assert (alter mark_connected l (w_lifecycles w) !! l = Some (mark_connected h)) as Hl'
    by by rewrite list_lookup_alter_eq, Hl.
  destruct (sd_state d) eqn:Es; cbn -[get_state lc_update alter];
    (split; [done|split; [done|]]); (split_and!; [done| |done]).
  1-2: eapply (get_state_at _ _ loc (with_state d Connected));
    [exact Hg|exact (eq_trans (list_lookup_alter_eq _ (w_descs w) loc) (f_equal _ Hd))].
  all: rewrite <- Es; eapply (get_state_at _ _ loc d); [exact Hg|exact Hd].
Qed.

(** ** A cancelled session goes away *)

Lemma coherent_entry_task w k e : registry_coherent w -> w_sessions w !! k = Some e ->
  exists i c, w_cleanups w !! i = Some c /\ task_of c k e.
Proof.
  intros Hc He. destruct (rc_entry w Hc k e He) as (c & Hin & Ht).
  apply list_elem_of_lookup in Hin as [i Hi]. eauto.
Qed.

Lemma sleeping_removed w i c until : w_cleanups w !! i = Some c -> cl_stage c = Sleeping until ->
  exists w', rtc session_step w w' /\ w_sessions w' = delete (cl_key c) (w_sessions w)
    /\ w_descs w' = w_descs w.
Proof.
  intros Hi Hs. exists (cleanup_remove (set_now w (Z.max (w_now w) until)) i c). split_and!; try done.
  eapply rtc_l; [apply (ss_tick w (Z.max (w_now w) until)); lia|].
  apply rtc_once. eapply ss_remove; [done|exact Hs|cbn; lia].
Qed.

Lemma cancelled_session_leaves w k e : registry_coherent w ->
  w_sessions w !! k = Some e -> tk_cancelled (w_tokens w) (se_cancel_token e) = true ->
  exists w', rtc session_step w w' /\ w_sessions w' = delete k (w_sessions w)
    /\ disconnected_at (w_descs w') (se_descriptor e).
Proof.
  intros Hc He Hcan. destruct (coherent_entry_task w k e Hc He) as (i & c & Hi & Hk & Ht & Hd).
  assert (c ∈ w_cleanups w) as Hin by by eapply list_elem_of_lookup_2.
  destruct (cl_stage c) as [|until] eqn:Es.
  - set (w1 := cleanup_cancelled w i c).
    assert (session_step w w1) as Hstep by (eapply ss_cleanup; [done|exact Es|congruence]).
    set (c1 := mkCleanup (cl_token c) (cl_descriptor c) (cl_key c)
      (Sleeping (w_now w + SESSION_REMOVAL_GRACE_PERIOD))).
    assert (w_cleanups w1 !! i = Some c1) as Hi1
      by (apply list_lookup_insert_eq; by eapply lookup_lt_Some).
    destruct (sleeping_removed w1 i c1 _ Hi1 eq_refl) as (w' & Hr & Hs & Hds).
    exists w'. split_and!; [by eapply rtc_l|by rewrite Hs; subst k|].
    destruct (rc_desc w Hc c Hin) as (d & Hld & _). exists (with_state d Disconnected).
    rewrite Hds, <- Hd. cbn. by rewrite list_lookup_alter_eq, Hld.
  - destruct (sleeping_removed w i c until Hi Es) as (w' & Hr & Hs & Hds). exists w'.
    split_and!; [done|by rewrite Hs; subst k|]. rewrite Hds, <- Hd. by apply (rc_sleep w Hc c until).
Qed.

(** Once the token of a registered session is cancelled, its cleanup task can
    run to its end: the session leaves the map, every other session stays, and
    its descriptor, still held by whoever shares it, says [Disconnected]. *)
Theorem cancelled_session_is_removed w k e : registry_coherent w ->
  w_sessions w !! k = Some e -> tk_cancelled (w_tokens w) (se_cancel_token e) = true ->
  exists w', rtc session_step w w' /\ w_sessions w' = delete k (w_sessions w)
    /\ disconnected_at (w_descs w') (se_descriptor e).
Proof. apply cancelled_session_leaves. Qed.
End Sessions.
Arguments World : clear implicits.

(** ** Concrete runs *)

Definition demo_world : World token_list :=
  let w := initial_world [([], false); ([0%nat], false)] in
  let w := snd (lifecycle_new w "live" Rtmp) in
  snd (lc_pending w (mkLifecycle "live" Rtmp false false false) (mkEndpoint None) 1).

Lemma demo_reachable : rtc session_step (initial_world [([], false); ([0%nat], false)]) demo_world.
Proof.
  eapply rtc_l; [apply (ss_new _ "live" Rtmp)|]. apply rtc_once.
  eapply (ss_pending _ 0 (mkLifecycle "live" Rtmp false false false) (mkEndpoint None) 1). reflexivity.
Qed.

Lemma demo_coherent : registry_coherent demo_world.
Proof.
  eapply (rtc_invariant session_step registry_coherent);
    [by apply session_step_coherent|apply initial_coherent|exact demo_reachable].
Qed.

Lemma registry_stays_coherent_witness : registry_coherent demo_world /\
  get_state demo_world "live" = Some Pending.
Proof.
  split; [|vm_compute; reflexivity].
  exact (registry_stays_coherent [([], false); ([0%nat], false)] demo_world demo_reachable).
Defined.
