(* ===== verification/SessionSpec.v ===== *)
(** * What the session registry promises
    An abstract specification of [livestream-transport/src/{registry/session.rs,
    lifecycle.rs}]: per stream key, a life cycle with five phases and the edges
    between them.  [Session] implements it with a map of entries, a store of
    shared descriptors, cancellation tokens and cleanup tasks; the theorems here
    say that it refines the specification, one concrete step to at most one edge
    of one key. *)
From stdpp Require Import strings gmap.
From S2P Require Import Prelude Types Tokio Session.

(** ** The specification *)

(** The live keys with their phase; an absent key is free. *)
Abbreviation LifeMap := (gmap string SessionState).

Inductive life_edge : SessionState -> SessionState -> Prop :=
| edge_connecting : life_edge Pending Connecting
| edge_direct : life_edge Pending Connected
| edge_connected : life_edge Connecting Connected
| edge_drop_pending : life_edge Pending Disconnected
| edge_drop_connecting : life_edge Connecting Disconnected
| edge_drop_connected : life_edge Connected Disconnected.

Inductive life_step (m : LifeMap) : LifeMap -> Prop :=
| life_open k : m !! k = None -> life_step m (<[k := Pending]> m)
| life_advance k s s' : m !! k = Some s -> life_edge s s' -> life_step m (<[k := s']> m)
| life_close k : m !! k = Some Disconnected -> life_step m (delete k m).

(** At most one edge of one key. *)
Definition life_move (m m' : LifeMap) : Prop := m' = m \/ life_step m m'.

#[export] Instance life_move_refl : Reflexive life_move.
Proof. intros m. by left. Qed.

Lemma life_move_rtc m m' : life_move m m' -> rtc life_step m m'.
Proof. intros [->|Hs]; [reflexivity|by apply rtc_once]. Qed.

Section Refinement.
Context {T : Type} `{HT : TokenStore T} `{!TokenLaws T}.

(** The abstraction function: what [get_state] answers, for every key at once. *)
Definition life (w : World T) : LifeMap :=
  omap (fun e => sd_state <$> w_descs w !! se_descriptor e) (w_sessions w).

Lemma life_lookup (w : World T) k : life w !! k = get_state w k.
Proof.
  unfold life, get_state, get_descriptor, get_session. rewrite lookup_omap.
  by destruct (w_sessions w !! k).
Qed.

(** ** Facts about the abstraction *)

Lemma life_same (w w' : World T) : w_sessions w' = w_sessions w -> w_descs w' = w_descs w -> life w' = life w.
Proof. unfold life. by intros -> ->. Qed.

(** The descriptor of a registered session is live and is its own. *)
Lemma entry_descriptor (w : World T) k e : registry_coherent w -> w_sessions w !! k = Some e ->
  exists d, w_descs w !! se_descriptor e = Some d /\ sd_id d = k.
Proof.
  intros Hc He. destruct (rc_entry w Hc k e He) as (c & Hin & Hk & _ & Hd).
  destruct (rc_desc w Hc c Hin) as (d & Hl & Hid). exists d. split; congruence.
Qed.

Lemma entry_life (w : World T) k e d : w_sessions w !! k = Some e -> w_descs w !! se_descriptor e = Some d ->
  life w !! k = Some (sd_state d).
Proof. intros He Hd. unfold life. rewrite lookup_omap, He. cbn. by rewrite Hd. Qed.

(** Growing the store of descriptors is invisible. *)
Lemma life_alloc (w : World T) ds : registry_coherent w -> life (set_descs w (w_descs w ++ ds)) = life w.
Proof.
  intros Hc. apply map_eq. intros k. unfold life. rewrite !lookup_omap. cbn.
  destruct (w_sessions w !! k) as [e|] eqn:He; [|done]. cbn.
  destruct (entry_descriptor w k e Hc He) as (d & Hd & _).
  by rewrite lookup_app_l by (by eapply lookup_lt_Some).
Qed.

(** Writing the state of a registered session's descriptor moves its key alone. *)
Lemma life_set_state (w : World T) k e s : registry_coherent w -> w_sessions w !! k = Some e ->
  life (set_state w (se_descriptor e) s) = <[k := s]> (life w).
Proof.
  intros Hc He. destruct (entry_descriptor w k e Hc He) as (d & Hd & Hid). apply map_eq. intros k'.
  destruct (decide (k' = k)) as [->|Hne].
  - rewrite lookup_insert_eq. unfold life. rewrite lookup_omap. cbn. rewrite He. cbn.
    by rewrite list_lookup_alter_eq, Hd.
  - rewrite lookup_insert_ne by done. unfold life. rewrite !lookup_omap. cbn.
    destruct (w_sessions w !! k') as [e'|] eqn:He'; [|done]. cbn.
    destruct (entry_descriptor w k' e' Hc He') as (d' & Hd' & Hid').
    rewrite list_lookup_alter_ne; [done|congruence].
Qed.

(** A rank increase is an edge. *)
Lemma next_state_edge c n s : next_state c n = Ok s -> c <> Disconnected -> c <> n -> life_edge c s.
Proof. destruct c, n; cbn; intros [= <-] ??; try done; constructor. Qed.

Lemma to_disconnected s : s = Disconnected \/ life_edge s Disconnected.
Proof. destruct s; auto; right; constructor. Qed.

(** ** One operation, one edge *)

Lemma update_refines (w : World T) k s : registry_coherent w ->
  life_move (life w) (life (snd (update_state w k s))).
Proof.
  intros Hc. destruct (update_state_shape w k s)
    as (w' & -> & [->|(loc & d & s' & Hg & Hd & Hn & Hne & Hs & ->)]); [reflexivity|].
  unfold get_session in Hg. destruct (w_sessions w !! k) as [e|] eqn:He; [|done]. injection Hg as <-.
  rewrite (life_set_state w k e) by done. right; apply (life_advance _ k (sd_state d) s').
  - by eapply entry_life.
  - by eapply next_state_edge.
Qed.

Lemma register_refines (w : World T) loc ct d : registry_coherent w ->
  w_descs w !! loc = Some d -> sd_state d = Pending ->
  life_move (life w) (life (snd (register_session w loc ct))).
Proof.
  intros Hc Hd Hp. unfold register_session. rewrite Hd.
  destruct (w_sessions w !! sd_id d) eqn:Ek; [reflexivity|].
  right. cbn. match goal with |- life_step _ ?m => assert (m = <[sd_id d := Pending]> (life w)) as -> end.
  - unfold life. cbn. rewrite <- Hp. apply omap_insert_Some. cbn. by rewrite Hd.
  - apply life_open. unfold life. by rewrite lookup_omap, Ek.
Qed.

Lemma pending_refines (w : World T) h ep ct : registry_coherent w ->
  life_move (life w) (life (snd (lc_pending w h ep ct))).
Proof.
  intros Hc. unfold lc_pending. destruct (hl_disconnected h); [reflexivity|].
  set (d := mkDescriptor _ _ _ _). rewrite <- (life_alloc w [d] Hc).
  apply (register_refines _ _ _ d); [|by apply list_lookup_middle|done].
  apply (coherent_frame w); try done. apply descs_le_app.
Qed.

Lemma connect_refines (w : World T) l h : registry_coherent w ->
  life_move (life w) (life (snd (lc_connect w l h))).
Proof.
  intros Hc. unfold lc_connect. destruct (hl_connected h); [reflexivity|].
  pose proof (update_refines (lc_update w l mark_connected) (hl_live_id h) Connected) as Hu.
  change (life (lc_update w l mark_connected)) with (life w) in Hu.
  destruct (update_state _ _ _) as [[] w']; apply Hu; by apply (coherent_frame w).
Qed.

Lemma cleanup_refines (w : World T) i c : registry_coherent w -> w_cleanups w !! i = Some c ->
  life_move (life w) (life (cleanup_cancelled w i c)).
Proof.
  intros Hc Hi. apply list_elem_of_lookup_2 in Hi as Hin.
  destruct (rc_task w Hc c Hin) as (e & He & _ & _ & Hd).
  change (life (cleanup_cancelled w i c)) with (life (set_state w (cl_descriptor c) Disconnected)).
  rewrite Hd, (life_set_state w (cl_key c) e) by done.
  destruct (entry_descriptor w _ e Hc He) as (d & Hl & _).
  pose proof (entry_life w _ e d He Hl) as Hk.
  destruct (to_disconnected (sd_state d)) as [Hs|Hs].
  - rewrite insert_id; [reflexivity|by rewrite Hk, Hs].
  - right. by apply (life_advance _ _ (sd_state d)).
Qed.

Lemma remove_refines (w : World T) i c until : registry_coherent w -> w_cleanups w !! i = Some c ->
  cl_stage c = Sleeping until -> life_move (life w) (life (cleanup_remove w i c)).
Proof.
  intros Hc Hi Hs. apply list_elem_of_lookup_2 in Hi as Hin.
  destruct (rc_task w Hc c Hin) as (e & He & _ & _ & Hd).
  destruct (rc_sleep w Hc c until Hin Hs) as [(d & Hl & Hdis) _].
  change (life (cleanup_remove w i c)) with (life (set_sessions w (delete (cl_key c) (w_sessions w)))).
  right. replace (life (set_sessions _ _)) with (delete (cl_key c) (life w)) by (symmetry; apply omap_delete).
  apply life_close.
  rewrite <- Hdis. apply (entry_life w _ e); [done|by rewrite <- Hd].
Qed.

Lemma session_step_refines (w w' : World T) : registry_coherent w -> session_step w w' ->
  life_move (life w) (life w').
Proof.
  intros Hc Hs. destruct Hs; try reflexivity.
  - by apply pending_refines.
  - unfold lc_init. by destruct (hl_initialized h).
  - by apply update_refines.
  - by apply connect_refines.
  - destruct (disconnect_rest w l h r) as (Es & _ & Ed & _). rewrite (life_same w _ Es Ed); reflexivity.
  - destruct (drop_disconnect w l h) as [->| ->]; [reflexivity|].
    destruct (disconnect_rest w l h ClientDisconnect) as (Es & _ & Ed & _). rewrite (life_same w _ Es Ed); reflexivity.
  - by apply update_refines.
  - unfold set_pipeline_handle. destruct (w_sessions w !! k) as [e|] eqn:He; [|reflexivity].
    left. apply map_eq. intros k'. unfold life.
    rewrite !lookup_omap. cbn. destruct (decide (k' = k)) as [->|];
      [by rewrite lookup_insert_eq, He|by rewrite lookup_insert_ne].
  - by apply cleanup_refines.
  - by eapply remove_refines.
Qed.

(** C2: the session registry refines the abstract life cycle.  In every world
    the servers, handlers, timers and cleanup tasks can reach, the phases that
    [get_state] reports form a state of the specification that the specification
    can itself reach, and every further operation moves at most one key along
    one edge: a free key opens as pending, a live key goes forward through
    connecting and connected or drops to disconnected, and only a disconnected
    key becomes free again. *)
Theorem registry_refines_life_cycle (tokens : T) w :
  rtc session_step (initial_world tokens) w ->
  (forall k, life w !! k = get_state w k)
  /\ rtc life_step ∅ (life w)
  /\ (forall w', session_step w w' -> life_move (life w) (life w')).
Proof.
  intros Hr.
  assert (registry_coherent w /\ rtc life_step ∅ (life w)) as [Hc Hl].
  { revert Hr. apply (rtc_invariant session_step (fun w => registry_coherent w /\ rtc life_step ∅ (life w))).
    - intros s s' [Hc Hl] Hs. split; [by eapply session_step_coherent|].
      etrans; [done|]. by apply life_move_rtc, session_step_refines.
    - split; [apply initial_coherent|reflexivity]. }
  split_and!; [intros k; apply life_lookup|done|]. intros w'. by apply session_step_refines.
Qed.
End Refinement.

Lemma registry_refines_life_cycle_witness :
  rtc life_step ∅ (life demo_world) /\ life demo_world !! "live" = Some Pending.
Proof.
  destruct (registry_refines_life_cycle [([], false); ([0%nat], false)] demo_world demo_reachable)
    as (Hk & Hr & _).
  split; [exact Hr|]. rewrite Hk. vm_compute. reflexivity.
Defined.
