(* ===== verification/Dispatcher.v ===== *)
(** * Session event dispatcher
    [livestream-transport/src/dispatcher/mod.rs] over
    [livestream-core/src/channel/broadcast.rs]: one broadcast channel for all
    events and one per live id that has subscribers. A channel that left the map
    lives on for its receivers, so channels are kept in a store and the map holds
    locations; receivers are never dropped here. *)
From stdpp Require Import strings gmap.
From S2P Require Import Prelude Types Tokio Session.

Section Dispatcher.
Context {B : Type} `{HB : BroadcastChan SessionEvent B}.

Record EventDispatcher := mkDispatcher {
  ed_channel : B;
  ed_store : list B;
  ed_senders : gmap string nat;
}.

Definition EventDispatcher_new : EventDispatcher := mkDispatcher (bc_new 256) [] ∅.

(** A receiver: the location of its channel and its number there. *)
Abbreviation receiver := (nat * nat)%type.

Definition subscribe_global (d : EventDispatcher) : nat * EventDispatcher :=
  let '(r, b) := bc_subscribe (ed_channel d) in (r, mkDispatcher b (ed_store d) (ed_senders d)).

(** [entry(live_id).or_insert_with(..)]. *)
Definition sender_entry (d : EventDispatcher) (live_id : string) : nat * EventDispatcher :=
  match ed_senders d !! live_id with
  | Some loc => (loc, d)
  | None =>
      let loc := length (ed_store d) in
      (loc, mkDispatcher (ed_channel d) (ed_store d ++ [bc_new 256]) (<[live_id := loc]> (ed_senders d)))
  end.

Definition subscribe (d : EventDispatcher) (live_id : string) : receiver * EventDispatcher :=
  let '(loc, d) := sender_entry d live_id in
  match ed_store d !! loc with
  | None => ((loc, 0%nat), d)
  | Some b =>
      let '(r, b) := bc_subscribe b in
      ((loc, r), mkDispatcher (ed_channel d) (<[loc := b]> (ed_store d)) (ed_senders d))
  end.

Definition is_ended (e : SessionEvent) : bool := match e with SessionEnded _ _ _ => true | _ => false end.

(** The per-stream part of [send]: the channel is given up when nobody listened
    or the session ended. *)
Definition send_stream (d : EventDispatcher) (e : SessionEvent) : EventDispatcher :=
  match ed_senders d !! event_id e with
  | None => d
  | Some loc =>
      match ed_store d !! loc with
      | None => d
      | Some b =>
          let '(r, b) := bc_send b e in
          let heard := match r with Some n => negb (n =? 0)%nat | None => false end in
          mkDispatcher (ed_channel d) (<[loc := b]> (ed_store d))
            (if negb heard || is_ended e then delete (event_id e) (ed_senders d) else ed_senders d)
      end
  end.

Definition send (d : EventDispatcher) (e : SessionEvent) : EventDispatcher :=
  let d := send_stream d e in
  mkDispatcher (snd (bc_send (ed_channel d) e)) (ed_store d) (ed_senders d).

(** What any task may do with the dispatcher. *)
Inductive dispatcher_op := OpSend (e : SessionEvent) | OpSubscribe (live_id : string) | OpSubscribeGlobal.

Definition dispatcher_step (d : EventDispatcher) (op : dispatcher_op) : EventDispatcher :=
  match op with
  | OpSend e => send d e
  | OpSubscribe live_id => snd (subscribe d live_id)
  | OpSubscribeGlobal => snd (subscribe_global d)
  end.

Definition dispatcher_run (d : EventDispatcher) (ops : list dispatcher_op) : EventDispatcher :=
  foldl dispatcher_step d ops.

(** The events a receiver still has. *)
Definition backlog (d : EventDispatcher) (rx : receiver) : list SessionEvent :=
  match ed_store d !! fst rx with Some b => bc_backlog b (snd rx) | None => [] end.

(** ** A subscriber follows its session *)

Definition own_event (live_id : string) (op : dispatcher_op) : option SessionEvent :=
  match op with
  | OpSend e => if bool_decide (event_id e = live_id) then Some e else None
  | _ => None
  end.

(** Up to and including the first end of the session. *)
Fixpoint until_end (es : list SessionEvent) : list SessionEvent :=
  match es with [] => [] | e :: es => e :: (if is_ended e then [] else until_end es) end.

Context `{!BroadcastLaws SessionEvent B}.

(** Every stream of the map has a channel of its own, with its capacity. *)
Record dispatcher_ok (d : EventDispatcher) : Prop := {
  do_loc id loc : ed_senders d !! id = Some loc -> (loc < length (ed_store d))%nat;
  do_inj id1 id2 loc : ed_senders d !! id1 = Some loc -> ed_senders d !! id2 = Some loc -> id1 = id2;
  do_capacity loc b : ed_store d !! loc = Some b -> bc_capacity b = 256%nat;
}.

Lemma sender_entry_ok d id : dispatcher_ok d -> let '(loc, d') := sender_entry d id in
  dispatcher_ok d' /\ ed_senders d' !! id = Some loc
  /\ (forall l b, ed_store d !! l = Some b -> ed_store d' !! l = Some b)
  /\ (forall k, k <> id -> ed_senders d' !! k = ed_senders d !! k)
  /\ (ed_senders d !! id = None -> loc = length (ed_store d)).
Proof.
  intros [Hl Hi Hc]. unfold sender_entry. destruct (ed_senders d !! id) as [loc|] eqn:E; [by split_and!|].
  split_and!; cbn; try done.
  - split; cbn.
    + intros k l. rewrite length_app. cbn. rewrite lookup_insert_Some. intros [[_ <-]|[_ Hk]]; [lia|].
      specialize (Hl _ _ Hk). lia.
    + intros k1 k2 l. rewrite !lookup_insert_Some. intros [[<- <-]|[? H1]] [[<- H2]|[? H2]]; try done;
        [| |by eapply Hi]; [apply Hl in H2|apply Hl in H1]; lia.
    + intros l b [Hb|[_ Hb]]%lookup_app_Some; [by eapply Hc|].
      apply list_lookup_singleton_Some in Hb as [_ <-]. apply bc_new_capacity.
  - by rewrite lookup_insert_eq.
  - intros l b Hb. by apply lookup_app_l_Some.
  - intros k Hk. by rewrite lookup_insert_ne.
Qed.

Lemma ok_insert d loc b b' m : dispatcher_ok d -> ed_store d !! loc = Some b -> bc_capacity b' = bc_capacity b ->
  (forall k l, m !! k = Some l -> ed_senders d !! k = Some l) ->
  forall c, dispatcher_ok (mkDispatcher c (<[loc := b']> (ed_store d)) m).
Proof.
  intros [Hl Hi Hc] Hb Hcap Hm c. split; cbn.
  - intros k l Hk. rewrite length_insert. eauto.
  - eauto.
  - intros l x [(<- & <- & _)|[_ Hx]]%list_lookup_insert_Some; [rewrite Hcap|]; by eapply Hc.
Qed.

Lemma step_ok d op : dispatcher_ok d -> dispatcher_ok (dispatcher_step d op).
Proof.
  intros Hd. destruct op as [e|id|]; cbn.
  - assert (dispatcher_ok (send_stream d e)) as [? ? ?]; [|by split].
    unfold send_stream. destruct (ed_senders d !! event_id e) as [loc|]; [|done].
    destruct (ed_store d !! loc) as [b|] eqn:Eb; [|done].
    pose proof (bc_send_capacity b e) as Hcap. destruct (bc_send b e) as [r b'].
    apply (ok_insert d loc b b'); [done..|]. intros k l. case_match; [|done].
    rewrite lookup_delete_Some. by intros [_ ?].
  - unfold subscribe. pose proof (sender_entry_ok d id Hd) as Hs. destruct (sender_entry d id) as [loc d1].
    destruct Hs as (Hd1 & _). destruct (ed_store d1 !! loc) as [b|] eqn:Eb; [|done].
    pose proof (bc_subscribe_capacity b) as Hcap. destruct (bc_subscribe b) as [r b'].
    by apply (ok_insert d1 loc b b').
  - unfold subscribe_global. destruct (bc_subscribe (ed_channel d)). destruct Hd. by split.
Qed.

Lemma run_ok d ops : dispatcher_ok d -> dispatcher_ok (dispatcher_run d ops).
Proof. revert d. induction ops as [|op ops IH]; intros d Hd; [done|]. apply IH. by apply step_ok. Qed.

(** The receiver exists, and its channel is still in the map, under its id, or in
    it no more. *)
Definition following d (id : string) (rx : receiver) (live : bool) : Prop :=
  (exists b, ed_store d !! fst rx = Some b /\ (snd rx < bc_receivers b)%nat)
  /\ if live then ed_senders d !! id = Some (fst rx) else forall k, ed_senders d !! k <> Some (fst rx).

Lemma following_other d d' id rx live : following d id rx live ->
  ed_store d' !! fst rx = ed_store d !! fst rx ->
  (forall k, k = id \/ ed_senders d' !! k = Some (fst rx) -> ed_senders d' !! k = ed_senders d !! k) ->
  following d' id rx live /\ backlog d' rx = backlog d rx.
Proof.
  intros [Hb Hl] Hs Hm. unfold backlog, following. rewrite Hs. split; [|done]. split; [done|].
  destruct live; [by rewrite Hm by by left|]. intros k Hk. apply (Hl k). by rewrite <- Hm by by right.
Qed.

Lemma send_following d id rx live e : dispatcher_ok d -> following d id rx live ->
  let own := live && bool_decide (event_id e = id) in
  following (send d e) id rx (live && negb (own && is_ended e))
  /\ backlog (send d e) rx = if own then last_n 256 (backlog d rx ++ [e]) else backlog d rx.
Proof.
  intros Hd Hf own.
  assert (following (send_stream d e) id rx (live && negb (own && is_ended e))
    /\ backlog (send_stream d e) rx = if own then last_n 256 (backlog d rx ++ [e]) else backlog d rx) as [H1 H2];
    [|by split].
  unfold send_stream. destruct own eqn:Eo; subst own.
  - apply andb_true_iff in Eo as [-> Ei%bool_decide_eq_true]. subst id.
    destruct Hf as [(b & Hb & Hr) Hl]. rewrite Hl, Hb.
    pose proof (bc_send_result b e) as Hres. pose proof (bc_send_receivers b e) as Hrec.
    pose proof (bc_send_backlog b e (snd rx) Hr) as Hlog. rewrite (do_capacity _ Hd _ _ Hb) in Hlog.
    destruct (bc_send b e) as [r b']. cbn in Hres, Hrec, Hlog. rewrite decide_False in Hres by lia. subst r.
    destruct (Nat.eqb_spec (bc_receivers b) 0); [lia|]. cbn [negb orb andb].
    unfold backlog, following. cbn. rewrite list_lookup_insert_eq by (by eapply lookup_lt_Some). rewrite Hb.
    split; [|done]. split; [exists b'; split; [done|lia]|]. destruct (is_ended e); cbn; [|done].
    intros k. rewrite lookup_delete_Some. intros [Hne Hk]. apply Hne. by eapply do_inj.
  - assert (live && negb (false && is_ended e) = live) as -> by (by rewrite andb_true_r).
    destruct (ed_senders d !! event_id e) as [loc|] eqn:El; [|done].
    destruct (ed_store d !! loc) as [b|] eqn:Eb; [|done]. destruct (bc_send b e) as [r b'].
    assert (loc <> fst rx /\ (live = true -> event_id e <> id)) as [Hne Hid].
    { destruct live; cbn in Eo.
      - case_bool_decide; [done|]. split; [|done]. intros ->. destruct Hf as [_ Hl].
        by pose proof (do_inj _ Hd _ _ _ El Hl).
      - split; [|done]. intros ->. destruct Hf as [_ Hl]. by apply (Hl (event_id e)). }
    destruct live.
    + apply (following_other d); [done|by cbn; rewrite list_lookup_insert_ne|]. cbn. intros k Hk.
      case_match; [|done]. destruct (decide (k = event_id e)) as [->|]; [|by rewrite lookup_delete_ne].
      destruct Hk as [Hk|Hk]; [by destruct (Hid eq_refl)|]. by rewrite lookup_delete_eq in Hk.
    + destruct Hf as [Hb Hl]. split.
      * split; cbn; [by rewrite list_lookup_insert_ne|]. intros k. case_match; [|done].
        rewrite lookup_delete_Some. intros [_ Hk]. by apply (Hl k).
      * unfold backlog. cbn. by rewrite list_lookup_insert_ne.
Qed.

Lemma entry_following d id rx live k : following d id rx live ->
  following (snd (sender_entry d k)) id rx live /\ backlog (snd (sender_entry d k)) rx = backlog d rx.
Proof.
  intros Hf. unfold sender_entry. destruct (ed_senders d !! k) as [loc|] eqn:E; [done|].
  destruct Hf as [(b & Hb & Hr) Hl]. unfold backlog, following. cbn.
  rewrite (lookup_app_l_Some _ _ _ _ Hb), Hb. split; [|done]. split; [by exists b|]. destruct live.
  - rewrite lookup_insert_ne; [done|]. intros ->. congruence.
  - intros x. rewrite lookup_insert_Some. intros [[_ Hx]|[_ Hx]]; [|by apply (Hl x)].
    apply lookup_lt_Some in Hb. lia.
Qed.

Lemma subscribe_following d id rx live k : dispatcher_ok d -> following d id rx live ->
  following (snd (subscribe d k)) id rx live /\ backlog (snd (subscribe d k)) rx = backlog d rx.
Proof.
  intros Hd Hf. unfold subscribe. pose proof (entry_following d id rx live k Hf) as [Hf1 Hlog].
  destruct (sender_entry d k) as [loc d1]. cbn in Hf1, Hlog. rewrite <- Hlog.
  destruct (ed_store d1 !! loc) as [b|] eqn:Eb; [|done].
  pose proof (bc_subscribe_fresh b) as Hfr. pose proof (bc_subscribe_receivers b) as Hrec.
  pose proof (bc_subscribe_backlog b (snd rx)) as Hbl. destruct (bc_subscribe b) as [r b']. cbn in *.
  destruct Hf1 as [(b0 & Hb0 & Hr) Hl]. unfold backlog, following. cbn.
  destruct (decide (loc = fst rx)) as [->|Hne].
  - rewrite Hb0 in Eb. simplify_eq. rewrite list_lookup_insert_eq by (by eapply lookup_lt_Some). rewrite Hb0, Hbl.
    rewrite decide_False by lia. split; [|done]. split; [|done]. exists b'. split; [done|lia].
  - rewrite list_lookup_insert_ne by done. split; [|done]. split; [by exists b0|done].
Qed.

Lemma subscribe_new d id : dispatcher_ok d ->
  following (snd (subscribe d id)) id (fst (subscribe d id)) true
  /\ backlog (snd (subscribe d id)) (fst (subscribe d id)) = [].
Proof.
  intros Hd. unfold subscribe. pose proof (sender_entry_ok d id Hd) as Hs.
  destruct (sender_entry d id) as [loc d1]. destruct Hs as (Hd1 & Hk & _).
  destruct (lookup_lt_is_Some_2 (ed_store d1) loc) as [b Eb]; [by eapply do_loc|]. rewrite Eb.
  pose proof (bc_subscribe_fresh b) as Hfr. pose proof (bc_subscribe_receivers b) as Hrec.
  pose proof (bc_subscribe_backlog b (fst (bc_subscribe b))) as Hbl. destruct (bc_subscribe b) as [r b']. cbn in *.
  unfold backlog, following. cbn. rewrite list_lookup_insert_eq by (by eapply lookup_lt_Some).
  rewrite Hbl, decide_True by done. split; [|done]. split; [|done]. exists b'. split; [done|lia].
Qed.

Lemma run_following ops : forall d id rx live l, dispatcher_ok d -> following d id rx live ->
  backlog d rx = last_n 256 l ->
  backlog (dispatcher_run d ops) rx = last_n 256 (l ++ if live then until_end (omap (own_event id) ops) else []).
Proof.
  induction ops as [|op ops IH]; intros d id rx live l Hd Hf Hl.
  { cbn. rewrite Hl. by destruct live; rewrite app_nil_r. }
  change (dispatcher_run d (op :: ops)) with (dispatcher_run (dispatcher_step d op) ops).
  pose proof (step_ok d op Hd) as Hd'. destruct op as [e|k|]; cbn [dispatcher_step omap list_omap own_event] in *.
  - destruct (send_following d id rx live e Hd Hf) as [Hf' Hl']. rewrite Hl in Hl'.
    case_bool_decide as Ei; destruct live; cbn in *.
    + rewrite last_n_snoc in Hl'. rewrite (IH _ _ _ _ _ Hd' Hf' Hl'), <- app_assoc. by destruct (is_ended e).
    + by apply (IH _ _ _ _ _ Hd' Hf' Hl').
    + by apply (IH _ _ _ _ _ Hd' Hf' Hl').
    + by apply (IH _ _ _ _ _ Hd' Hf' Hl').
  - destruct (subscribe_following d id rx live k Hd Hf) as [Hf' Hl']. rewrite Hl in Hl'. by apply (IH _ _ _ _ _ Hd' Hf' Hl').
  - unfold subscribe_global in *. destruct (bc_subscribe (ed_channel d)) as [r b]. cbn [snd] in *. by apply (IH _ id rx).
Qed.

(** C23: a subscriber to a live id is told about that stream exactly. Whatever was
    sent and subscribed before, and whatever happens at the same time to this and
    other streams, a receiver made by [subscribe] holds the events of its id sent
    since, in order, up to and including the first end of the session, of which
    it keeps the last 256; no event of another id or of a later session of the id
    reaches it. *)
Theorem subscriber_follows_session before_ops live_id ops :
  let d := dispatcher_run EventDispatcher_new before_ops in
  let '(rx, d') := subscribe d live_id in
  backlog (dispatcher_run d' ops) rx = last_n 256 (until_end (omap (own_event live_id) ops)).
Proof.
  cbn zeta. set (d := dispatcher_run EventDispatcher_new before_ops).
  assert (dispatcher_ok d) as Hd.
  { apply run_ok. split; cbn; [intros ? ?; by rewrite lookup_empty|intros ? ? ?; by rewrite lookup_empty|done]. }
  destruct (subscribe_new d live_id Hd) as [Hf Hl]. pose proof (step_ok d (OpSubscribe live_id) Hd) as Hd'. cbn in Hd'.
  destruct (subscribe d live_id) as [rx d']. cbn in *. by rewrite (run_following ops d' live_id rx true []).
Qed.

End Dispatcher.

Lemma subscriber_follows_session_witness :
  let ended := SessionEnded "cam" Rtmp ClientDisconnect in
  let '(rx, d) := subscribe (EventDispatcher_new (B := queue_list SessionEvent)) "cam" in
  backlog (dispatcher_run d [OpSend (SessionStarted "other" Rtsp); OpSend (SessionStarted "cam" Rtmp); OpSend ended;
                             OpSubscribe "cam"; OpSend (SessionStarted "cam" Rtsp)]) rx
  = last_n 256 [SessionStarted "cam" Rtmp; ended].
Proof.
  exact (subscriber_follows_session (B := queue_list SessionEvent) [] "cam"
    [OpSend (SessionStarted "other" Rtsp); OpSend (SessionStarted "cam" Rtmp);
     OpSend (SessionEnded "cam" Rtmp ClientDisconnect); OpSubscribe "cam"; OpSend (SessionStarted "cam" Rtsp)]).
Defined.
