(* ===== verification/Control.v ===== *)
(** * Ingest server control
    [livestream-transport/src/{protocol_server.rs, controller.rs, config.rs}]: the
    control messages of the RTMP and RTSP servers (both work on one registry, one
    dispatcher and one hub), the TTL task of a precreated session, the connection
    limit of the accept loop, and the controller's side of closing a stream. *)
From stdpp Require Import strings gmap.
From S2P Require Import Prelude Types Flv Tokio FlvHub Session.

(** ** Connection limit ([config.rs], [protocol_server.rs]) *)

Inductive io_error_kind :=
| Interrupted | WouldBlock | TimedOut | ConnectionAborted | ConnectionReset | OtherKind.

Definition is_retryable_accept_error (k : io_error_kind) : bool :=
  match k with
  | Interrupted | WouldBlock | TimedOut | ConnectionAborted | ConnectionReset => true
  | OtherKind => false
  end.

(** [Option<Arc<Semaphore>>], as the number of free permits, and the connection
    tasks that run, each with the permit it holds. *)
Record Acceptor := mkAcceptor { ac_semaphore : option nat; ac_tasks : list bool }.

Definition make_connection_semaphore (limit : nat) : option nat :=
  if (0 <? limit)%nat then Some limit else None.

Definition acquire_permit (a : Acceptor) : bool * Acceptor :=
  match ac_semaphore a with
  | None => (false, a)
  | Some 0%nat => (false, a)
  | Some (S n) => (true, mkAcceptor (Some n) (ac_tasks a))
  end.

Definition spawn_accepted (a : Acceptor) : Acceptor :=
  let '(permit, a) := acquire_permit a in
  if negb permit && is_some (ac_semaphore a) then a
  else mkAcceptor (ac_semaphore a) (permit :: ac_tasks a).

(** The accept loop's reaction: serve, or back off for some milliseconds. *)
Definition handle_accept_result (a : Acceptor) (res : result io_error_kind unit) : Z * Acceptor :=
  match res with
  | Ok _ => (0, spawn_accepted a)
  | Err k => (if is_retryable_accept_error k then 20 else 200, a)
  end.

(** The [i]-th connection task ends and drops its permit. *)
Definition finish_task (a : Acceptor) (i : nat) : Acceptor :=
  match (ac_tasks a !! i : option bool) with
  | None => a
  | Some permit =>
      mkAcceptor (if permit then option_map S (ac_semaphore a) else ac_semaphore a) (delete i (ac_tasks a))
  end.

(** [self.tasks.shutdown()]: every task is aborted and drops its permit. *)
Definition shutdown_tasks (a : Acceptor) : Acceptor :=
  mkAcceptor (option_map (fun n => n + countb id (ac_tasks a))%nat (ac_semaphore a)) [].

Inductive accept_step (a : Acceptor) : Acceptor -> Prop :=
| as_accept res : accept_step a (snd (handle_accept_result a res))
| as_finish i : accept_step a (finish_task a i).

(** ** Control messages *)

Inductive ControlMessage :=
| PrecreateStream (live_id : string)
| StopStream (live_id : string).

Record TtlTask := mkTtl {
  tt_protocol : Protocol;
  tt_live_id : string;
  tt_token : nat;
  tt_deadline : Z;
}.

Section Control.
Context {T B : Type} `{HT : TokenStore T} `{HB : BroadcastChan FlvTag B}.

(** What the two ingest servers share, with the pending lifecycles of each one
    and the TTL tasks they spawned. *)
Record Servers := mkServers {
  sv_world : World T;
  sv_hub : FlvEgressHub B;
  sv_pending_rtmp : gmap string nat;
  sv_pending_rtsp : gmap string nat;
  sv_ttl_tasks : list TtlTask;
  sv_cancel_token : nat;
  sv_precreate_ttl : Z;
}.

Definition set_world (s : Servers) (w : World T) : Servers :=
  mkServers w (sv_hub s) (sv_pending_rtmp s) (sv_pending_rtsp s) (sv_ttl_tasks s)
            (sv_cancel_token s) (sv_precreate_ttl s).
Definition set_hub (s : Servers) (h : FlvEgressHub B) : Servers :=
  mkServers (sv_world s) h (sv_pending_rtmp s) (sv_pending_rtsp s) (sv_ttl_tasks s)
            (sv_cancel_token s) (sv_precreate_ttl s).
Definition set_ttl_tasks (s : Servers) (l : list TtlTask) : Servers :=
  mkServers (sv_world s) (sv_hub s) (sv_pending_rtmp s) (sv_pending_rtsp s) l
            (sv_cancel_token s) (sv_precreate_ttl s).

Definition pending_of (s : Servers) (p : Protocol) : gmap string nat :=
  match p with Rtsp => sv_pending_rtsp s | _ => sv_pending_rtmp s end.
Definition set_pending (s : Servers) (p : Protocol) (m : gmap string nat) : Servers :=
  match p with
  | Rtsp => mkServers (sv_world s) (sv_hub s) (sv_pending_rtmp s) m (sv_ttl_tasks s)
                      (sv_cancel_token s) (sv_precreate_ttl s)
  | _ => mkServers (sv_world s) (sv_hub s) m (sv_pending_rtsp s) (sv_ttl_tasks s)
                   (sv_cancel_token s) (sv_precreate_ttl s)
  end.

(** Dropping the lifecycle handle [l], wherever it was owned. *)
Definition drop_lifecycle (s : Servers) (l : nat) : Servers :=
  match w_lifecycles (sv_world s) !! l with
  | Some h => set_world s (lc_drop (sv_world s) l h)
  | None => s
  end.

(** [pending_lifecycle.insert(id, l)]: the value it replaces is dropped. *)
Definition insert_pending (s : Servers) (p : Protocol) (live_id : string) (l : nat) : Servers :=
  let old := pending_of s p !! live_id in
  let s := set_pending s p (<[live_id := l]> (pending_of s p)) in
  match old with Some l0 => drop_lifecycle s l0 | None => s end.

Definition spawn_precreate_session_ttl (s : Servers) (p : Protocol) (live_id : string) (l : nat)
    (session_token : nat) : Servers :=
  let s := insert_pending s p live_id l in
  let ttl := sv_precreate_ttl s in
  if ttl =? 0 then s
  else set_ttl_tasks s (sv_ttl_tasks s ++ [mkTtl p live_id session_token (w_now (sv_world s) + ttl)]).

(** The TTL task after its sleep. *)
Definition ttl_expired (s : Servers) (p : Protocol) (live_id : string) : Servers :=
  match pending_of s p !! live_id with
  | None => s
  | Some l =>
      let s := set_pending s p (delete live_id (pending_of s p)) in
      let s := match w_lifecycles (sv_world s) !! l with
               | Some h => set_world s (lc_disconnect_with_reason (sv_world s) l h Timeout)
               | None => s
               end in
      set_hub s (remove_channel (sv_hub s) live_id)
  end.

(** The existence check of [PrecreateStream]. *)
Definition precreate_check (s : Servers) (live_id : string) : result session_error unit :=
  match get_session (sv_world s) live_id with
  | Some _ => Err (KeyInUse live_id)
  | None => Ok tt
  end.

(** The rest of [PrecreateStream]: a local lifecycle handle is dropped when
    the registration fails. *)
Definition precreate_commit (s : Servers) (p : Protocol) (live_id : string) :
    result session_error SessionDescriptor * Servers :=
  let s := set_hub s (create_channel (sv_hub s) live_id) in
  let '(session_token, tokens) := tk_child (w_tokens (sv_world s)) (sv_cancel_token s) in
  let w := set_tokens (sv_world s) tokens in
  let '(l, w) := lifecycle_new w live_id p in
  match lc_pending w (mkLifecycle live_id p false false false) (mkEndpoint None) session_token with
  | (Err e, w) => (Err e, drop_lifecycle (set_world s w) l)
  | (Ok _, w) =>
      match get_descriptor w live_id with
      | None => (Err (NoSession live_id), drop_lifecycle (set_world s w) l)
      | Some descriptor =>
          (Ok descriptor, spawn_precreate_session_ttl (set_world s w) p live_id l session_token)
      end
  end.

(** The outcome is what the message's acknowledgement resolves to. *)
Definition handle_control_message (s : Servers) (msg : ControlMessage) (p : Protocol) :
    option (result session_error SessionDescriptor) * Servers :=
  match msg with
  | PrecreateStream live_id =>
      match precreate_check s live_id with
      | Err e => (Some (Err e), s)
      | Ok _ => let '(ack, s) := precreate_commit s p live_id in (Some ack, s)
      end
  | StopStream live_id =>
      let s := match get_cancel_token (sv_world s) live_id with
               | Some token => set_world s (cancel_token (sv_world s) token)
               | None => s
               end in
      (None, set_hub s (remove_channel (sv_hub s) live_id))
  end.

(** The select loop of a server: it ends on cancellation only. *)
Inductive server_event :=
| Cancelled
| ControlClosed
| Control (msg : ControlMessage)
| Accept (res : result io_error_kind unit).

Fixpoint server_run (s : Servers) (a : Acceptor) (p : Protocol) (evs : list server_event) :
    Servers * Acceptor :=
  match evs with
  | [] => (s, a)
  | Cancelled :: _ => (s, shutdown_tasks a)
  | ControlClosed :: evs => server_run s a p evs
  | Control msg :: evs => server_run (snd (handle_control_message s msg p)) a p evs
  | Accept res :: evs => server_run s (snd (handle_accept_result a res)) p evs
  end.

(** ** The controller ([controller.rs]) *)

(** Whom [close_session] sends [StopStream] to; [None]: it returns at once. *)
Definition close_session_target (s : Servers) (live_id : string) : option Protocol :=
  match get_descriptor (sv_world s) live_id with
  | None => None
  | Some desc =>
      match sd_protocol desc with Rtmp => Some Rtmp | Rtsp => Some Rtsp | _ => None end
  end.

End Control.
Arguments Servers : clear implicits.

(** [poll_cleanup] under [timeout(2 s)]: the registry is looked up every 10 ms
    until the key is gone; [present] tells, by milliseconds, whether it is there. *)
Definition SESSION_CLEANUP_TIMEOUT : Z := 2000.

Fixpoint poll_cleanup (fuel : nat) (present : Z -> bool) (t : Z) : bool :=
  if negb (present t) then true
  else match fuel with
       | O => false
       | S fuel => if SESSION_CLEANUP_TIMEOUT <? t + 10 then false else poll_cleanup fuel present (t + 10)
       end.

Definition wait_for_cleanup (present : Z -> bool) : bool := poll_cleanup 201 present 0.

(** ** The connection limit holds *)

Definition acceptor_ok (limit : nat) (a : Acceptor) : Prop :=
  match ac_semaphore a with
  | None => limit = 0%nat /\ Forall (fun p => p = false) (ac_tasks a)
  | Some free => (0 < limit)%nat /\ Forall (fun p => p = true) (ac_tasks a)
                 /\ (free + length (ac_tasks a) = limit)%nat
  end.

Lemma accept_step_ok limit a a' : acceptor_ok limit a -> accept_step a a' -> acceptor_ok limit a'.
Proof.
  intros Ha Hs. destruct Hs as [[[]|k]|i]; cbn; [|done|].
  - unfold spawn_accepted, acquire_permit, acceptor_ok in *.
    destruct (ac_semaphore a) as [[|n]|] eqn:Es; cbn; rewrite ?Es; cbn; rewrite ?Es.
    + done.
    + destruct Ha as (? & ? & ?). split_and!; [done|by constructor|cbn; lia].
    + destruct Ha as (? & ?). split; [done|by constructor].
  - unfold finish_task, acceptor_ok in *. destruct (ac_tasks a !! i) as [permit|] eqn:Ei; [|done].
    pose proof (length_delete (ac_tasks a) i ltac:(by eexists)) as Hlen.
    pose proof (lookup_lt_Some _ _ _ Ei).
    destruct (ac_semaphore a) as [free|] eqn:Es; cbn.
    + destruct Ha as (Hl & Hf & Hn). rewrite (Forall_lookup_1 _ _ _ _ Hf Ei). cbn.
      split_and!; [done|by apply Forall_delete|lia].
    + destruct Ha as (Hl & Hf). rewrite (Forall_lookup_1 _ _ _ _ Hf Ei). split; [done|by apply Forall_delete].
Qed.

(** C28: with a connection limit, a server never runs more connection tasks than
    the limit and every permit is either free or held by a running task (none
    leaks, whatever accept errors and disconnections happen); with the limit 0
    no connection is ever turned away. *)
Theorem connection_limit_respected limit a :
  rtc accept_step (mkAcceptor (make_connection_semaphore limit) []) a ->
  if (limit =? 0)%nat
  then length (ac_tasks (spawn_accepted a)) = S (length (ac_tasks a))
  else (length (ac_tasks a) <= limit)%nat
       /\ exists free, ac_semaphore a = Some free /\ (free + length (ac_tasks a) = limit)%nat.
Proof.
  intros Hr. assert (acceptor_ok limit a) as Ha.
  { revert Hr. apply (rtc_invariant accept_step); [by apply accept_step_ok|].
    unfold acceptor_ok, make_connection_semaphore. destruct limit; cbn; [by auto|].
    split_and!; [lia|constructor|lia]. }
  unfold acceptor_ok in Ha. destruct (ac_semaphore a) as [free|] eqn:Es.
  - destruct Ha as (Hl & _ & Hn). destruct (Nat.eqb_spec limit 0); [lia|]. split; [lia|by exists free].
  - destruct Ha as (-> & _). cbn. unfold spawn_accepted, acquire_permit. rewrite Es. cbn. by rewrite Es.
Qed.

Lemma connection_limit_respected_witness :
  length (ac_tasks (spawn_accepted (spawn_accepted (mkAcceptor (Some 1%nat) [])))) = 1%nat
  /\ (1 <= 1)%nat.
Proof.
  split; [reflexivity|].
  refine (proj1 (connection_limit_respected 1 (spawn_accepted (mkAcceptor (Some 1%nat) [])) _)).
  apply rtc_once. exact (as_accept (mkAcceptor (Some 1%nat) []) (Ok tt)).
Defined.

(** ** Precreation *)

Section Precreate.
Context {T B : Type} `{TokenLaws T} `{BroadcastChan FlvTag B}.
Implicit Types (s : Servers T B).

Definition new_descriptor (live_id : string) (p : Protocol) : SessionDescriptor :=
  mkDescriptor live_id p (mkEndpoint None) Pending.

Definition session_child s : nat * T := tk_child (w_tokens (sv_world s)) (sv_cancel_token s).

(** The world after a successful registration. *)
Definition registered_world s (p : Protocol) (live_id : string) : World T :=
  let w := sv_world s in
  let ct := fst (session_child s) in
  let loc := length (w_descs w) in
  mkWorld (w_now w) (snd (session_child s)) (w_descs w ++ [new_descriptor live_id p])
    (<[live_id := mkEntry loc ct None]> (w_sessions w))
    (w_cleanups w ++ [mkCleanup ct loc live_id AwaitCancelled])
    (w_lifecycles w ++ [mkLifecycle live_id p false false false]) (w_events w).

Lemma get_session_None (w : World T) id : get_session w id = None <-> w_sessions w !! id = None.
Proof. unfold get_session. by destruct (w_sessions w !! id). Qed.

Lemma registered_descriptor s p id : get_descriptor (registered_world s p id) id = Some (new_descriptor id p).
Proof.
  unfold get_descriptor, get_session. cbn. rewrite lookup_insert_eq. cbn. by rewrite list_lookup_middle.
Qed.

Lemma precreate_commit_fresh s p id : get_session (sv_world s) id = None ->
  precreate_commit s p id
  = (Ok (new_descriptor id p),
     spawn_precreate_session_ttl
       (set_world (set_hub s (create_channel (sv_hub s) id)) (registered_world s p id))
       p id (length (w_lifecycles (sv_world s))) (fst (session_child s))).
Proof.
  intros Hn%get_session_None. unfold precreate_commit, session_child.
  cbn [set_hub sv_world sv_cancel_token].
  destruct (tk_child (w_tokens (sv_world s)) (sv_cancel_token s)) as [ct tokens] eqn:Et.
  unfold lc_pending, register_session. cbn -[get_descriptor spawn_precreate_session_ttl].
  rewrite list_lookup_middle by done. cbn -[get_descriptor spawn_precreate_session_ttl]. rewrite Hn.
  cbn -[get_descriptor spawn_precreate_session_ttl].
  match goal with |- context [get_descriptor ?x id] => assert (x = registered_world s p id) as -> end.
  { unfold registered_world, session_child. by rewrite Et. }
  by rewrite registered_descriptor.
Qed.

Lemma spawn_ttl_same s p id l ct : let s' := spawn_precreate_session_ttl s p id l ct in
  sv_world s' = sv_world (insert_pending s p id l) /\ sv_hub s' = sv_hub (insert_pending s p id l)
  /\ pending_of s' p = pending_of (insert_pending s p id l) p.
Proof. cbn zeta. unfold spawn_precreate_session_ttl. destruct (_ =? 0); [done|]. by destruct p. Qed.

Lemma pending_of_set s p m : pending_of (set_pending s p m) p = m.
Proof. by destruct p. Qed.

Lemma set_pending_same s p m : sv_world (set_pending s p m) = sv_world s
  /\ sv_hub (set_pending s p m) = sv_hub s.
Proof. by destruct p. Qed.

Lemma drop_lifecycle_same s l p : sv_hub (drop_lifecycle s l) = sv_hub s
  /\ pending_of (drop_lifecycle s l) p = pending_of s p.
Proof. unfold drop_lifecycle. destruct (_ !! l); [|done]. by destruct p. Qed.

Lemma insert_pending_hub s p id l : sv_hub (insert_pending s p id l) = sv_hub s
  /\ pending_of (insert_pending s p id l) p = <[id := l]> (pending_of s p).
Proof.
  unfold insert_pending. destruct (set_pending_same s p (<[id := l]> (pending_of s p))) as [_ Hh].
  destruct (pending_of s p !! id) as [l0|].
  - destruct (drop_lifecycle_same (set_pending s p (<[id := l]> (pending_of s p))) l0 p) as [-> ->].
    by rewrite Hh, pending_of_set.
  - by rewrite Hh, pending_of_set.
Qed.

Lemma create_channel_exists (h : FlvEgressHub B) id : is_Some (hub_channels (create_channel h id) !! id).
Proof.
  cbn. unfold or_default. destruct (hub_channels h !! id) eqn:E; [by rewrite E|].
  by rewrite lookup_insert_eq.
Qed.

(** What a precreation leaves when the server holds no handle for the id. *)
Lemma precreated s p id : get_session (sv_world s) id = None -> pending_of s p !! id = None ->
  let s' := snd (precreate_commit s p id) in
  sv_world s' = registered_world s p id /\ sv_hub s' = create_channel (sv_hub s) id
  /\ pending_of s' p = <[id := length (w_lifecycles (sv_world s))]> (pending_of s p).
Proof.
  intros Hg Hp. rewrite precreate_commit_fresh by done. cbn [snd]. set (s1 := set_world _ _).
  destruct (spawn_ttl_same s1 p id (length (w_lifecycles (sv_world s))) (fst (session_child s))) as (-> & -> & ->).
  destruct (insert_pending_hub s1 p id (length (w_lifecycles (sv_world s)))) as [-> ->].
  assert (pending_of s1 p = pending_of s p) as Hp1 by by destruct p.
  split_and!; [|done|by rewrite Hp1].
  unfold insert_pending. rewrite Hp1, Hp. by destruct (set_pending_same s1 p
    (<[id := length (w_lifecycles (sv_world s))]> (pending_of s p))) as [-> _].
Qed.

(** The registration fails when the id was registered since the check, by the other
    server; the handle made for it is dropped, and with it the session there is. *)
Lemma precreate_commit_used s p id e : w_sessions (sv_world s) !! id = Some e ->
  let '(ack, s') := precreate_commit s p id in
  ack = Err (KeyInUse id) /\ sv_hub s' = create_channel (sv_hub s) id /\ pending_of s' p = pending_of s p
  /\ w_sessions (sv_world s') = w_sessions (sv_world s)
  /\ w_tokens (sv_world s') = tk_cancel (snd (session_child s)) (se_cancel_token e)
  /\ w_events (sv_world s') = w_events (sv_world s) ++ [SessionEnded id p ClientDisconnect].
Proof.
  intros He. unfold precreate_commit, session_child. cbn [set_hub sv_world sv_cancel_token].
  destruct (tk_child (w_tokens (sv_world s)) (sv_cancel_token s)) as [ct tokens].
  unfold lc_pending, register_session. cbn. rewrite list_lookup_middle by done. cbn. rewrite He.
  unfold drop_lifecycle. cbn. rewrite list_lookup_middle by done. cbn. unfold get_cancel_token. cbn. rewrite He. cbn. by destruct p.
Qed.

(** The handle the server still holds for an id, when dropping it has an effect. *)
Definition stale_handle s (p : Protocol) (id : string) : option HandlerLifecycle :=
  l ← pending_of s p !! id; h ← w_lifecycles (sv_world s) !! l;
  if hl_disconnected h then None else Some h.

(** The replaced handle is dropped: the world but for its tokens, events and flags. *)
Lemma precreated_replacing s p id : get_session (sv_world s) id = None ->
  (forall l, pending_of s p !! id = Some l -> exists h, w_lifecycles (sv_world s) !! l = Some h /\ hl_live_id h = id) ->
  let s' := snd (precreate_commit s p id) in
  w_sessions (sv_world s') = w_sessions (registered_world s p id)
  /\ w_descs (sv_world s') = w_descs (registered_world s p id)
  /\ sv_hub s' = create_channel (sv_hub s) id
  /\ pending_of s' p = <[id := length (w_lifecycles (sv_world s))]> (pending_of s p)
  /\ match stale_handle s p id with
     | None => w_tokens (sv_world s') = snd (session_child s) /\ w_events (sv_world s') = w_events (sv_world s)
     | Some h =>
         w_tokens (sv_world s') = tk_cancel (snd (session_child s)) (fst (session_child s))
         /\ w_events (sv_world s') = w_events (sv_world s) ++ [SessionEnded id (hl_protocol h) ClientDisconnect]
     end.
Proof.
  intros Hg Hheld. rewrite precreate_commit_fresh by done. cbn [snd]. set (s1 := set_world _ _).
  set (l := length (w_lifecycles (sv_world s))).
  destruct (spawn_ttl_same s1 p id l (fst (session_child s))) as (-> & -> & ->).
  destruct (insert_pending_hub s1 p id l) as [-> ->].
  assert (pending_of s1 p = pending_of s p) as Hp1 by by destruct p. rewrite Hp1.
  unfold insert_pending, stale_handle. rewrite Hp1. set (s2 := set_pending s1 p (<[id := l]> (pending_of s p))).
  assert (sv_world s2 = registered_world s p id) as Hw by apply set_pending_same.
  destruct (pending_of s p !! id) as [l0|] eqn:Ep; cbn; [|rewrite Hw; by split_and!].
  destruct (Hheld l0 eq_refl) as (h & Eh & Hid). unfold drop_lifecycle. rewrite Hw, Eh. cbn.
  rewrite lookup_app_l by (by eapply lookup_lt_Some). rewrite Eh. unfold lc_drop. destruct (hl_disconnected h) eqn:Ed; cbn; [done|].
  unfold lc_disconnect, lc_disconnect_with_reason, get_cancel_token. rewrite Ed, Hid. cbn. rewrite lookup_insert_eq. done.
Qed.

(** C11: Precreating a stream, on every branch. A request whose id is registered is
    refused and nothing changes. Otherwise the server goes on to the registration,
    and meanwhile the other server, which shares the registry, may have registered
    the id. Then the request is refused too, but dropping the handle made for it
    cancels the session there is and announces its end, and its channel is (still)
    there. Else it is acknowledged with a pending descriptor: the session is
    registered, its handle waits in the server's pending map and its FLV channel
    exists; its token is cancelled only if the server's own is, unless the server
    still held a live handle for the id, whose replacement cancels it. No other
    session is touched. (A handle held for an id is one of that id.) *)
Theorem precreate_outcome s p id :
  (forall l, pending_of s p !! id = Some l -> exists h, w_lifecycles (sv_world s) !! l = Some h /\ hl_live_id h = id) ->
  handle_control_message s (PrecreateStream id) p
  = (match get_session (sv_world s) id with
     | Some _ => (Some (Err (KeyInUse id)), s)
     | None => let '(ack, s') := precreate_commit s p id in (Some ack, s')
     end)
  /\ let '(ack, s') := precreate_commit s p id in
    is_Some (hub_channels (sv_hub s') !! id)
    /\ (forall k, k <> id -> w_sessions (sv_world s') !! k = w_sessions (sv_world s) !! k)
    /\ match w_sessions (sv_world s) !! id with
       | Some e => ack = Err (KeyInUse id) /\ w_sessions (sv_world s') !! id = Some e /\ pending_of s' p = pending_of s p
           /\ (tk_known (snd (session_child s)) (se_cancel_token e) = true ->
               tk_cancelled (w_tokens (sv_world s')) (se_cancel_token e) = true)
           /\ w_events (sv_world s') = w_events (sv_world s) ++ [SessionEnded id p ClientDisconnect]
       | None => ack = Ok (new_descriptor id p)
           /\ get_descriptor (sv_world s') id = Some (new_descriptor id p)
           /\ pending_of s' p = <[id := length (w_lifecycles (sv_world s))]> (pending_of s p)
           /\ exists ct, get_cancel_token (sv_world s') id = Some ct
              /\ match stale_handle s p id with
                 | None => tk_cancelled (w_tokens (sv_world s')) ct = tk_cancelled (w_tokens (sv_world s)) (sv_cancel_token s)
                     /\ w_events (sv_world s') = w_events (sv_world s)
                 | Some h => tk_cancelled (w_tokens (sv_world s')) ct = true
                     /\ w_events (sv_world s') = w_events (sv_world s) ++ [SessionEnded id (hl_protocol h) ClientDisconnect]
                 end
       end.
Proof.
  intros Hheld. split.
  { unfold handle_control_message, precreate_check. by destruct (get_session (sv_world s) id). }
  destruct (w_sessions (sv_world s) !! id) as [e|] eqn:Ee.
  - pose proof (precreate_commit_used s p id e Ee) as Hu. destruct (precreate_commit s p id) as [ack s'].
    destruct Hu as (-> & Hh & Hp & Hs & Ht & Hev). rewrite Hh, Hs, Ht, Ee. split_and!; try done.
    + apply create_channel_exists.
    + apply tk_cancel_self.
  - assert (get_session (sv_world s) id = None) as Hg by by apply get_session_None.
    pose proof (precreated_replacing s p id Hg Hheld) as Hr. pose proof (precreate_commit_fresh s p id Hg) as Hf.
    destruct (precreate_commit s p id) as [ack s']. cbn [snd] in Hr. injection Hf as -> _.
    destruct Hr as (Hs & Hd & Hh & Hp & Hst). rewrite Hh, Hs.
    split_and!; [apply create_channel_exists| |done| |done|].
    + intros k Hk. cbn. by rewrite lookup_insert_ne.
    + pose proof (registered_descriptor s p id) as Hrd. unfold get_descriptor, get_session in *. by rewrite Hs, Hd.
    + exists (fst (session_child s)). unfold get_cancel_token. rewrite Hs. cbn. rewrite lookup_insert_eq. split; [done|].
      destruct (stale_handle s p id) as [h|]; destruct Hst as [-> ->]; (split; [|done]).
      * apply tk_cancel_self. unfold session_child. apply tk_child_self_known.
      * unfold session_child. rewrite tk_child_cancelled. by rewrite decide_True.
Qed.

(** Dropping a live handle cancels whatever session its id names now. *)
Lemma drop_lifecycle_cancels s l h e : w_lifecycles (sv_world s) !! l = Some h ->
  hl_disconnected h = false -> w_sessions (sv_world s) !! hl_live_id h = Some e ->
  let w' := sv_world (drop_lifecycle s l) in
  w_tokens w' = tk_cancel (w_tokens (sv_world s)) (se_cancel_token e)
  /\ w_sessions w' = w_sessions (sv_world s)
  /\ w_events w' = w_events (sv_world s) ++ [SessionEnded (hl_live_id h) (hl_protocol h) ClientDisconnect].
Proof.
  intros Hl Hd He. unfold drop_lifecycle. rewrite Hl. cbn. unfold lc_drop, lc_disconnect,
    lc_disconnect_with_reason. rewrite Hd. cbn. unfold get_cancel_token. cbn. by rewrite He.
Qed.

(** C7: when the server still holds the handle of an earlier session of the same
    id (stopped while it was pending, the handle stays in the pending map),
    precreating the id again is acknowledged as a success, but installing the
    new handle drops the old one, which cancels the new session and announces
    its end. *)
Theorem stale_handle_cancels_new_session s p id l0 h0 :
  get_session (sv_world s) id = None -> pending_of s p !! id = Some l0 ->
  w_lifecycles (sv_world s) !! l0 = Some h0 -> hl_live_id h0 = id -> hl_disconnected h0 = false ->
  let '(ack, s') := handle_control_message s (PrecreateStream id) p in
  ack = Some (Ok (new_descriptor id p))
  /\ (exists ct, get_cancel_token (sv_world s') id = Some ct
      /\ tk_cancelled (w_tokens (sv_world s')) ct = true)
  /\ w_events (sv_world s') = w_events (sv_world s) ++ [SessionEnded id (hl_protocol h0) ClientDisconnect].
Proof.
  intros Hg Hp Hl Hid Hd. unfold handle_control_message, precreate_check. rewrite Hg.
  rewrite precreate_commit_fresh by done. split; [done|].
  set (s1 := set_world _ _). set (l := length (w_lifecycles (sv_world s))).
  destruct (spawn_ttl_same s1 p id l (fst (session_child s))) as (-> & _ & _).
  assert (pending_of s1 p = pending_of s p) as Hp1 by by destruct p.
  unfold insert_pending. rewrite Hp1, Hp.
  set (s2 := set_pending s1 p (<[id := l]> (pending_of s p))).
  assert (sv_world s2 = registered_world s p id) as Hw by apply set_pending_same.
  destruct (drop_lifecycle_cancels s2 l0 h0 (mkEntry (length (w_descs (sv_world s))) (fst (session_child s)) None))
    as (Ht & Hs & He); rewrite ?Hw.
  - cbn. by rewrite lookup_app_l by (by eapply lookup_lt_Some).
  - done.
  - cbn. rewrite Hid. by rewrite lookup_insert_eq.
  - rewrite Hw in Ht, Hs, He. split.
    + exists (fst (session_child s)). unfold get_cancel_token. rewrite Hs, Ht. cbn.
      rewrite lookup_insert_eq. split; [done|]. apply tk_cancel_self. unfold session_child.
      apply tk_child_self_known.
    + rewrite He, Hid. done.
Qed.

(** The existence check does not serialise the two servers, which share the
    registry: when both check the same new id before either registers it, the
    loser's request is refused, yet dropping its handle cancels the winner's
    session, which was acknowledged. *)
Theorem concurrent_precreate_cancels_winner s p q id :
  precreate_check s id = Ok tt -> pending_of s p !! id = None ->
  let '(ack1, s1) := precreate_commit s p id in
  let '(ack2, s2) := precreate_commit s1 q id in
  ack1 = Ok (new_descriptor id p) /\ ack2 = Err (KeyInUse id)
  /\ (exists ct, get_cancel_token (sv_world s1) id = Some ct
      /\ get_cancel_token (sv_world s2) id = Some ct
      /\ tk_cancelled (w_tokens (sv_world s1)) ct
         = tk_cancelled (w_tokens (sv_world s)) (sv_cancel_token s)
      /\ tk_cancelled (w_tokens (sv_world s2)) ct = true).
Proof.
  unfold precreate_check. destruct (get_session (sv_world s) id) eqn:Hg; [done|]. intros _ Hp.
  rewrite precreate_commit_fresh by done.
  set (s1' := set_world (set_hub s _) _). set (l := length (w_lifecycles (sv_world s))).
  set (s1 := spawn_precreate_session_ttl _ _ _ _ _).
  assert (sv_world s1 = registered_world s p id) as Hw1.
  { subst s1. destruct (spawn_ttl_same s1' p id l (fst (session_child s))) as (-> & _ & _).
    unfold insert_pending. replace (pending_of s1' p) with (pending_of s p) by by destruct p.
    rewrite Hp. by apply set_pending_same. }
  set (ct := fst (session_child s)).
  set (e := mkEntry (length (w_descs (sv_world s))) ct None).
  assert (w_sessions (sv_world s1) !! id = Some e) as He1.
  { rewrite Hw1. cbn. by rewrite lookup_insert_eq. }
  unfold precreate_commit. cbn [set_hub sv_world sv_cancel_token].
  destruct (tk_child (w_tokens (sv_world s1)) (sv_cancel_token s1)) as [ct2 tokens2] eqn:Et.
  unfold lc_pending, register_session. cbn -[get_descriptor drop_lifecycle].
  rewrite list_lookup_middle by done. cbn -[get_descriptor drop_lifecycle]. rewrite He1.
  cbn -[get_descriptor drop_lifecycle].
  set (s2 := set_world _ _).
  destruct (drop_lifecycle_cancels s2 (length (w_lifecycles (sv_world s1))) (mkLifecycle id q false false false) e)
    as (Ht & Hs & _); [cbn; by rewrite list_lookup_middle|done|exact He1|].
  split_and!; [done|done|]. exists ct. unfold get_cancel_token. rewrite Hs, Ht, He1.
  change (w_sessions (sv_world s2)) with (w_sessions (sv_world s1)). rewrite He1.
  split_and!; [done|done| |].
  - rewrite Hw1. cbn. unfold ct, session_child. rewrite tk_child_cancelled. by rewrite decide_True.
  - apply tk_cancel_self. change (w_tokens (sv_world s2)) with tokens2.
    change tokens2 with (snd (ct2, tokens2)). rewrite <- Et, tk_child_known, Hw1.
    apply orb_true_intro. left. apply tk_child_self_known.
Qed.

(** When the TTL of a precreated session expires and its handle still waits
    in the pending map, the session's token is cancelled, its end is announced as
    a timeout, and the handle and the FLV channel are gone; when a publisher has
    taken the handle, the expiry changes nothing. *)
Theorem ttl_expiry_outcome s p id :
  (pending_of s p !! id = None -> ttl_expired s p id = s)
  /\ forall l h e, pending_of s p !! id = Some l -> w_lifecycles (sv_world s) !! l = Some h ->
     hl_live_id h = id -> hl_disconnected h = false -> w_sessions (sv_world s) !! id = Some e ->
     let s' := ttl_expired s p id in
     pending_of s' p !! id = None /\ hub_channels (sv_hub s') !! id = None
     /\ w_tokens (sv_world s') = tk_cancel (w_tokens (sv_world s)) (se_cancel_token e)
     /\ w_lifecycles (sv_world s') !! l = Some (mark_disconnected h)
     /\ w_events (sv_world s') = w_events (sv_world s) ++ [SessionEnded id (hl_protocol h) Timeout].
Proof.
  unfold ttl_expired. split; [by intros ->|]. intros l h e Hp Hl Hid Hd He. rewrite Hp.
  set (s1 := set_pending s p (delete id (pending_of s p))).
  destruct (set_pending_same s p (delete id (pending_of s p))) as [Hw Hh].
  change (sv_world s1) with (sv_world (set_pending s p (delete id (pending_of s p)))). rewrite Hw, Hl.
  unfold lc_disconnect_with_reason. rewrite Hd, Hid. unfold get_cancel_token.
  change (w_sessions (lc_update (sv_world s) l mark_disconnected)) with (w_sessions (sv_world s)).
  rewrite He. cbn -[pending_of alter]. split_and!; try done.
  - transitivity (pending_of s1 p !! id); [by destruct p|].
    unfold s1. by rewrite pending_of_set, lookup_delete_eq.
  - by rewrite lookup_delete_eq.
  - by rewrite list_lookup_alter_eq, Hl.
Qed.

End Precreate.

(** ** Waiting for the cleanup *)

Lemma poll_cleanup_spec fuel present t : SESSION_CLEANUP_TIMEOUT < t + 10 * Z.of_nat fuel ->
  t <= SESSION_CLEANUP_TIMEOUT ->
  poll_cleanup fuel present t = true
  <-> exists k, 0 <= k /\ t + 10 * k <= SESSION_CLEANUP_TIMEOUT /\ present (t + 10 * k) = false.
Proof.
  unfold SESSION_CLEANUP_TIMEOUT. revert t. induction fuel as [|fuel IH]; intros t Hf Ht; [lia|].
  cbn [poll_cleanup]. destruct (present t) eqn:Ep; cbn [negb].
  - destruct (Z.ltb_spec SESSION_CLEANUP_TIMEOUT (t + 10)); unfold SESSION_CLEANUP_TIMEOUT in *.
    + split; [done|]. intros (k & Hk & Hle & Hp). replace k with 0 in Hp by lia.
      rewrite Z.mul_0_r, Z.add_0_r in Hp. congruence.
    + rewrite IH by lia. split; intros (k & Hk & Hle & Hp).
      * exists (k + 1). split_and!; [lia|lia|]. rewrite <- Hp. f_equal. lia.
      * exists (k - 1). assert (k <> 0) by (intros ->; rewrite Z.mul_0_r, Z.add_0_r in Hp; congruence).
        split_and!; [lia|lia|]. rewrite <- Hp. f_equal. lia.
  - split; [|done]. intros _. exists 0. rewrite Z.mul_0_r, Z.add_0_r. split_and!; [lia|lia|done].
Qed.

(** Closing a stream waits, looking every 10 ms for up to 2 s, and succeeds
    exactly when one of these looks finds the session gone; so a session that is
    removed for good within 1990 ms of the request (cancellation plus the 200 ms
    grace period) is always reported closed. *)
Theorem wait_for_cleanup_complete present :
  (wait_for_cleanup present = true <-> exists k, 0 <= k <= 200 /\ present (10 * k) = false)
  /\ forall removed, 0 <= removed <= 1990 -> (forall t, removed <= t -> present t = false) ->
     wait_for_cleanup present = true.
Proof.
  assert (wait_for_cleanup present = true <-> exists k, 0 <= k <= 200 /\ present (10 * k) = false) as Hw.
  { unfold wait_for_cleanup. rewrite poll_cleanup_spec by (unfold SESSION_CLEANUP_TIMEOUT; lia).
    unfold SESSION_CLEANUP_TIMEOUT. split; intros (k & Hk); exists k; [|rewrite Z.add_0_l];
      rewrite ?Z.add_0_l in Hk; split_and!; try lia; apply Hk. }
  split; [done|]. intros removed Hr Hp. apply Hw. exists (removed / 10 + 1).
  split; [lia_div|]. apply Hp. lia_div.
Qed.

(** ** Concrete runs *)

Definition demo_servers : Servers token_list (queue_list FlvTag) :=
  mkServers (initial_world [([], false)]) FlvEgressHub_new ∅ ∅ [] 0 300000.

Definition precreate (s : Servers token_list (queue_list FlvTag)) (p : Protocol) (id : string) :=
  snd (handle_control_message s (PrecreateStream id) p).

(** A session that is precreated, stopped while pending, and cleaned up. *)
Definition stopped_servers : Servers token_list (queue_list FlvTag) :=
  let s := snd (handle_control_message (precreate demo_servers Rtmp "cam") (StopStream "cam") Rtmp) in
  let c := mkCleanup 1 0 "cam" AwaitCancelled in
  let w := cleanup_cancelled (sv_world s) 0 c in
  set_world s (cleanup_remove (set_now w 200) 0 (mkCleanup 1 0 "cam" (Sleeping 200))).

Lemma stale_handle_cancels_new_session_witness :
  exists ct, get_cancel_token (sv_world (precreate stopped_servers Rtmp "cam")) "cam" = Some ct
    /\ tk_cancelled (w_tokens (sv_world (precreate stopped_servers Rtmp "cam"))) ct = true.
Proof.
  pose proof (stale_handle_cancels_new_session stopped_servers Rtmp "cam" 0
    (mkLifecycle "cam" Rtmp false false false) ltac:(vm_compute; reflexivity)
    ltac:(vm_compute; reflexivity) ltac:(vm_compute; reflexivity) eq_refl eq_refl) as Hs.
  unfold precreate. destruct (handle_control_message _ _ _) as [ack s']. exact (proj1 (proj2 Hs)).
Defined.

Lemma precreate_outcome_witness :
  get_descriptor (sv_world (precreate demo_servers Rtsp "cam")) "cam" = Some (new_descriptor "cam" Rtsp)
  /\ pending_of (precreate demo_servers Rtsp "cam") Rtsp !! "cam" = Some 0%nat.
Proof.
  destruct (precreate_outcome demo_servers Rtsp "cam" ltac:(intros l Hl; vm_compute in Hl; discriminate Hl)) as [Hm Hc].
  unfold precreate. rewrite Hm. assert (get_session (sv_world demo_servers) "cam" = None) as Hg by (vm_compute; reflexivity).
  assert (w_sessions (sv_world demo_servers) !! "cam"%string = None) as Hw by (vm_compute; reflexivity).
  rewrite Hg. rewrite Hw in Hc. split; [|vm_compute; reflexivity].
  destruct (precreate_commit demo_servers Rtsp "cam") as [ack s']. exact (proj1 (proj2 (proj2 (proj2 Hc)))).
Defined.
