(* ===== verification/Metrics.v ===== *)
(** * Metrics
    [livestream-telemetry/src/metrics.rs] and the metrics of the connections of an
    ingest server [livestream-transport/src/protocol_server.rs]: the instruments,
    the macros that record them, and the accept loop of [Control] with what it
    records. A meter is what its instruments have been given, by name and labels. *)
From Stdlib Require Import String.
From stdpp Require Import strings gmap list.
From S2P Require Import Prelude Types Control.

(** ** Instruments *)

Definition labels : Type := list (string * string).

(** Sums of counters and up-down counters; recorded values of histograms. *)
Record Meter := mkMeter { mt_sums : gmap (string * labels) Z; mt_values : gmap (string * labels) (list Z) }.

Definition Meter_new : Meter := mkMeter ∅ ∅.

Definition sum_of (m : Meter) (name : string) (l : labels) : Z := default 0 (mt_sums m !! (name, l)).

Definition add (name : string) (n : Z) (l : labels) (m : Meter) : Meter :=
  mkMeter (<[(name, l) := sum_of m name l + n]> (mt_sums m)) (mt_values m).

Definition record (name : string) (v : Z) (l : labels) (m : Meter) : Meter :=
  mkMeter (mt_sums m) (<[(name, l) := default [] (mt_values m !! (name, l)) ++ [v]]> (mt_values m)).

Section Macros.
(** The [opentelemetry] feature. *)
Context (enabled : bool).

Definition metric_record (f : Meter -> Meter) (m : Meter) : Meter := if enabled then f m else m.

Definition as_u64 (z : Z) : Z := z mod 2 ^ 64.

Definition metric_pipeline_stream_started : Meter -> Meter := metric_record (add "pipeline_active_streams" 1 []).
Definition metric_pipeline_stream_ended : Meter -> Meter := metric_record (add "pipeline_active_streams" (-1) []).

Definition metric_pipeline_packet (packet_kind : string) (bytes : Z) : Meter -> Meter :=
  metric_record (fun m =>
    let l := [("packet.kind", packet_kind)]%string in
    add "pipeline_bytes_total" (as_u64 bytes) l (add "pipeline_packets_total" 1 l m)).

Definition metric_pipeline_error (stage : string) : Meter -> Meter :=
  metric_record (add "pipeline_errors_total" 1 [("pipeline.stage", stage)]%string).

Definition metric_middleware_latency_us (middleware : string) (duration_us : Z) : Meter -> Meter :=
  metric_record (record "pipeline_middleware_latency_us" (as_u64 duration_us) [("middleware", middleware)]%string).

Definition metric_queue_drop (queue reason : string) : Meter -> Meter :=
  metric_record (add "transport_queue_drops_total" 1 [("queue", queue); ("reason", reason)]%string).

Definition metric_listener_lag (listener : string) (skipped : Z) : Meter -> Meter :=
  metric_record (add "transport_listener_lag_total" (Z.max (as_u64 skipped) 1) [("listener", listener)]%string).

Definition metric_ttl_expiration (protocol reason : string) : Meter -> Meter :=
  metric_record (add "transport_ttl_expirations_total" 1 [("protocol", protocol); ("reason", reason)]%string).

Definition metric_connection_accepted (protocol : string) : Meter -> Meter :=
  metric_record (add "transport_connections_active" 1 [("protocol", protocol)]%string).
Definition metric_connection_closed (protocol : string) : Meter -> Meter :=
  metric_record (add "transport_connections_active" (-1) [("protocol", protocol)]%string).
Definition metric_connection_rejected (protocol : string) : Meter -> Meter :=
  metric_record (add "transport_connections_rejected_total" 1 [("protocol", protocol)]%string).

Definition metric_minio_upload_total (bucket status : string) : Meter -> Meter :=
  metric_record (add "storage_minio_uploads_total" 1 [("storage.bucket.name", bucket); ("upload.status", status)]%string).

Definition metric_minio_upload_latency_ms (bucket status : string) (duration_ms : Z) : Meter -> Meter :=
  metric_record (record "storage_minio_upload_latency_ms" (as_u64 duration_ms)
    [("storage.bucket.name", bucket); ("upload.status", status)]%string).

(** ** The accept loop, recording *)

Context (protocol_name : string).

Definition acquire_permit_recorded (a : Acceptor) (m : Meter) : bool * Acceptor * Meter :=
  match ac_semaphore a with
  | None => (false, a, m)
  | Some 0%nat => (false, a, metric_connection_rejected protocol_name m)
  | Some (S n) => (true, mkAcceptor (Some n) (ac_tasks a), metric_connection_accepted protocol_name m)
  end.

Definition spawn_accepted_recorded (a : Acceptor) (m : Meter) : Acceptor * Meter :=
  let '(permit, a, m) := acquire_permit_recorded a m in
  if negb permit && is_some (ac_semaphore a) then (a, m)
  else
    let m := if negb (is_some (ac_semaphore a)) then metric_connection_accepted protocol_name m else m in
    (mkAcceptor (ac_semaphore a) (permit :: ac_tasks a), m).

(** The end of a connection task: by itself, or by a panic, which drops the
    permit but skips the last statement. *)
Definition finish_recorded (a : Acceptor) (m : Meter) (i : nat) (panics : bool) : Acceptor * Meter :=
  (finish_task a i,
   if is_some (ac_tasks a !! i) && negb panics then metric_connection_closed protocol_name m else m).

(** [tasks.shutdown()] aborts the tasks where they are. *)
Definition shutdown_recorded (a : Acceptor) (m : Meter) : Acceptor * Meter := (shutdown_tasks a, m).

Inductive connection_event :=
| ConnectionAccepted
| AcceptFailed (k : io_error_kind)
| ConnectionEnds (i : nat) (panics : bool).

Definition connection_step (s : Acceptor * Meter) (e : connection_event) : Acceptor * Meter :=
  let '(a, m) := s in
  match e with
  | ConnectionAccepted => spawn_accepted_recorded a m
  | AcceptFailed _ => s
  | ConnectionEnds i panics => finish_recorded a m i panics
  end.

Definition connection_run (limit : nat) (m : Meter) (evs : list connection_event) : Acceptor * Meter :=
  foldl connection_step (mkAcceptor (make_connection_semaphore limit) [], m) evs.

(** How the events change what the metrics count: connections served, refused,
    and ended by a panic. *)
Definition served (a : Acceptor) (e : connection_event) : Z :=
  match e with ConnectionAccepted => if bool_decide (ac_semaphore a = Some 0%nat) then 0 else 1 | _ => 0 end.
Definition refused (a : Acceptor) (e : connection_event) : Z :=
  match e with ConnectionAccepted => if bool_decide (ac_semaphore a = Some 0%nat) then 1 else 0 | _ => 0 end.
Definition panicked (a : Acceptor) (e : connection_event) : Z :=
  match e with ConnectionEnds i true => if is_some (ac_tasks a !! i) then 1 else 0 | _ => 0 end.

Fixpoint total (f : Acceptor -> connection_event -> Z) (s : Acceptor * Meter) (evs : list connection_event) : Z :=
  match evs with [] => 0 | e :: evs => f (fst s) e + total f (connection_step s e) evs end.

End Macros.

(** ** Properties *)

Lemma sum_of_add name name' l l' n m :
  sum_of (add name n l m) name' l' = sum_of m name' l' + (if decide ((name, l) = (name', l')) then n else 0).
Proof.
  unfold sum_of at 1, add. cbn. case_decide as E.
  - injection E as -> ->. by rewrite lookup_insert_eq.
  - rewrite lookup_insert_ne by done. unfold sum_of. lia.
Qed.

Definition active (p : string) (m : Meter) : Z := sum_of m "transport_connections_active" [("protocol", p)]%string.
Definition rejected (p : string) (m : Meter) : Z := sum_of m "transport_connections_rejected_total" [("protocol", p)]%string.

Lemma recorded_accepted p m : active p (metric_connection_accepted true p m) = active p m + 1
  /\ rejected p (metric_connection_accepted true p m) = rejected p m.
Proof.
  unfold metric_connection_accepted, metric_record, active, rejected. rewrite !sum_of_add.
  rewrite decide_True, decide_False by done. lia.
Qed.
Lemma recorded_closed p m : active p (metric_connection_closed true p m) = active p m - 1
  /\ rejected p (metric_connection_closed true p m) = rejected p m.
Proof.
  unfold metric_connection_closed, metric_record, active, rejected. rewrite !sum_of_add.
  rewrite decide_True, decide_False by done. lia.
Qed.
Lemma recorded_rejected p m : active p (metric_connection_rejected true p m) = active p m
  /\ rejected p (metric_connection_rejected true p m) = rejected p m + 1.
Proof.
  unfold metric_connection_rejected, metric_record, active, rejected. rewrite !sum_of_add.
  rewrite decide_False, decide_True by done. lia.
Qed.

(** Recording does not change what the accept loop does. *)
Lemma recording_is_transparent en p a m e :
  fst (connection_step en p (a, m) e)
  = match e with
    | ConnectionAccepted => snd (handle_accept_result a (Ok tt))
    | AcceptFailed k => snd (handle_accept_result a (Err k))
    | ConnectionEnds i _ => finish_task a i
    end.
Proof.
  destruct e; [|done|done]. cbn. unfold spawn_accepted_recorded, acquire_permit_recorded, spawn_accepted, acquire_permit.
  destruct (ac_semaphore a) as [[|n]|] eqn:E; cbn; rewrite ?E; done.
Qed.

Lemma connection_step_counts p a m e : let '(a', m') := connection_step true p (a, m) e in
  active p m' - Z.of_nat (length (ac_tasks a')) = active p m - Z.of_nat (length (ac_tasks a)) + panicked a e
  /\ rejected p m' = rejected p m + refused a e.
Proof.
  destruct e as [|k|i pan].
  - cbn. unfold spawn_accepted_recorded, acquire_permit_recorded.
    pose proof (recorded_accepted p m) as [Ha Hr]. pose proof (recorded_rejected p m) as [Ha' Hr'].
    unfold metric_connection_accepted, metric_connection_rejected, metric_record in *.
    destruct (ac_semaphore a) as [[|n]|] eqn:E; cbn -[add]; rewrite ?E; cbn -[add]; rewrite ?E;
      case_bool_decide; try done; lia.
  - cbn. lia.
  - cbn. unfold finish_recorded, finish_task. pose proof (recorded_closed p m) as [Ha Hr].
    unfold metric_connection_closed, metric_record in *.
    destruct (ac_tasks a !! i) as [permit|] eqn:Ei; cbn -[add]; [|destruct pan; lia].
    pose proof (length_delete (ac_tasks a) i ltac:(by eexists)). apply lookup_lt_Some in Ei.
    destruct pan; cbn -[add]; lia.
Qed.

(** The connection metrics tell the truth about the accept loop. Whatever
    connections come, fail and end, the gauge of active connections is the number
    of connection tasks that run plus the number of those that panicked, which it
    never forgets, and the counter of rejected connections is the number refused
    at the limit; without the feature nothing is recorded. The aborted
    connections of a shutdown stay counted as active. *)
Theorem connection_gauge limit p m evs :
  let s := connection_run true p limit m evs in
  let s0 := (mkAcceptor (make_connection_semaphore limit) [], m) in
  active p (snd s) = active p m + Z.of_nat (length (ac_tasks (fst s))) + total true p panicked s0 evs
  /\ rejected p (snd s) = rejected p m + total true p refused s0 evs
  /\ snd (connection_run false p limit m evs) = m
  /\ (let s' := shutdown_recorded (fst s) (snd s) in ac_tasks (fst s') = [] /\ active p (snd s') = active p (snd s)).
Proof.
  cbn zeta. split; [|split; [|split; [|done]]].
  1,2: enough (forall evs a m, let s := foldl (connection_step true p) (a, m) evs in
    active p (snd s) - Z.of_nat (length (ac_tasks (fst s)))
    = active p m - Z.of_nat (length (ac_tasks a)) + total true p panicked (a, m) evs
    /\ rejected p (snd s) = rejected p m + total true p refused (a, m) evs) as Hall
    by (destruct (Hall evs (mkAcceptor (make_connection_semaphore limit) []) m) as [H1 H2];
        unfold connection_run; cbn [ac_tasks length] in H1; lia);
    clear; induction evs as [|e evs IH]; intros a m; cbn [foldl total]; [cbn; lia|];
    pose proof (connection_step_counts p a m e) as Hs; destruct (connection_step true p (a, m) e) as [a' m'] eqn:E;
    specialize (IH a' m'); cbn [fst snd] in *; lia.
  unfold connection_run. generalize (mkAcceptor (make_connection_semaphore limit) []). clear.
  induction evs as [|e evs IH]; intros a; [done|]. cbn [foldl].
  assert (snd (connection_step false p (a, m) e) = m) as Hm.
  { destruct e; cbn; [|done|]; [|unfold finish_recorded; cbn; by case_match].
    unfold spawn_accepted_recorded, acquire_permit_recorded.
    destruct (ac_semaphore a) as [[|n]|] eqn:E; cbn; rewrite ?E; done. }
  destruct (connection_step false p (a, m) e) as [a' m']. cbn in Hm. subst m'. apply IH.
Qed.

(** One permit: the second connection is refused, the first panics. *)
Example gauge_keeps_panics :
  let m := snd (connection_run true "RTMP" 1 Meter_new
    [ConnectionAccepted; ConnectionAccepted; ConnectionEnds 0 true]) in
  active "RTMP" m = 1 /\ rejected "RTMP" m = 1.
Proof. by vm_compute. Qed.
