(* ===== verification/Nal.v ===== *)
(** * NAL unit framing
    The conversions between the two framings of H.264 access units:
    [split_annexb] (the same function in [processor/flv_mux.rs] and
    [processor/transcode.rs]), [avcc_to_annex_b] ([source/rtmp.rs]),
    [annex_b_to_avcc] ([processor/flv_mux.rs]), [extract_sps_pps]
    ([processor/transcode.rs]) and [hls_extradata] ([factory.rs]). *)
From S2P Require Import Prelude Types.

(** ** Annex B *)

Definition start_code_3 (data : bytes) (i : nat) : bool :=
  (byte_at data i =? 0) && (byte_at data (i + 1) =? 0) && (byte_at data (i + 2) =? 1).

Definition start_code_4 (data : bytes) (i : nat) : bool :=
  (i + 3 <? length data)%nat
  && (byte_at data i =? 0) && (byte_at data (i + 1) =? 0) && (byte_at data (i + 2) =? 0)
  && (byte_at data (i + 3) =? 1).

Definition push_nal (data : bytes) (start : option nat) (i : nat) (nals : list bytes) : list bytes :=
  match start with Some s => nals ++ [slice s i data] | None => nals end.

(** The while loop; every iteration advances [i], so [length data] is enough fuel. *)
Fixpoint split_loop (fuel : nat) (data : bytes) (i : nat) (start : option nat) (nals : list bytes) :
    option nat * list bytes :=
  match fuel with
  | O => (start, nals)
  | S fuel =>
      if (i + 2 <? length data)%nat then
        if start_code_3 data i then
          split_loop fuel data (i + 3) (Some (i + 3)%nat) (push_nal data start i nals)
        else if start_code_4 data i then
          split_loop fuel data (i + 4) (Some (i + 4)%nat) (push_nal data start i nals)
        else split_loop fuel data (i + 1) start nals
      else (start, nals)
  end.

Definition split_annexb (data : bytes) : list bytes :=
  let '(start, nals) := split_loop (length data) data 0 None [] in
  match start with Some s => nals ++ [drop s data] | None => nals end.

(** ** Length-prefixed units *)

Fixpoint avcc_loop (fuel : nat) (data : bytes) (pos : nat) (out : bytes) : bytes :=
  match fuel with
  | O => out
  | S fuel =>
      if (pos + 4 <=? length data)%nat then
        let nal_len := Z.to_nat (be_val (slice pos (pos + 4) data)) in
        let pos := (pos + 4)%nat in
        if (length data <? pos + nal_len)%nat then out
        else avcc_loop fuel data (pos + nal_len) (out ++ [0; 0; 0; 1] ++ slice pos (pos + nal_len) data)
      else out
  end.

Definition avcc_to_annex_b (data : bytes) : bytes := avcc_loop (length data) data 0 [].

Definition annex_b_to_avcc (avcc_framing : bool) (data : bytes) : bytes :=
  if negb avcc_framing then data
  else concat (map (fun nal => be_bytes 4 (Z.of_nat (length nal)) ++ nal) (split_annexb data)).

(** ** Parameter sets *)

Fixpoint find_sps_pps (nals : list bytes) (sps pps : option bytes) : option bytes * option bytes :=
  match nals with
  | [] => (sps, pps)
  | nal :: nals =>
      match nal with
      | [] => find_sps_pps nals sps pps
      | b :: _ =>
          let ty := Z.land b 0x1F in
          let sps' := if (ty =? 7) && negb (is_some sps) then Some nal else sps in
          let pps' := if (ty =? 8) && negb (is_some pps) then Some nal else pps in
          if is_some sps' && is_some pps' then (sps', pps') else find_sps_pps nals sps' pps'
      end
  end.

Definition extract_sps_pps (annexb : bytes) : option (bytes * bytes) :=
  match find_sps_pps (split_annexb annexb) None None with
  | (Some sps, Some pps) => if (4 <=? length sps)%nat then Some (sps, pps) else None
  | _ => None
  end.

(** One array of [n] length-prefixed parameter sets of an avcC record, from
    [pos]; [None] when it runs over the end. *)
Fixpoint take_sets (n : nat) (extradata : bytes) (pos : nat) (out : bytes) : option (nat * bytes) :=
  match n with
  | O => Some (pos, out)
  | S n =>
      if (length extradata <? pos + 2)%nat then None
      else
        let len := Z.to_nat (be_val (slice pos (pos + 2) extradata)) in
        let pos := (pos + 2)%nat in
        if (length extradata <? pos + len)%nat then None
        else take_sets n extradata (pos + len) (out ++ slice pos (pos + len) extradata)
  end.

Definition hls_extradata (codec : Codec) (extradata : bytes) : bytes :=
  if negb (bool_decide (codec = H264)) || (length extradata <? 7)%nat then extradata
  else
    let num_sps := Z.to_nat (Z.land (byte_at extradata 5) 0x1F) in
    match take_sets num_sps extradata 6 [] with
    | None => extradata
    | Some (pos, out) =>
        if (length extradata <=? pos)%nat then out
        else
          let num_pps := Z.to_nat (byte_at extradata pos) in
          match take_sets num_pps extradata (pos + 1) out with
          | None => extradata
          | Some (_, out) => out
          end
    end.

(** The avcC record [maybe_emit_sequence_header] builds. *)
Definition avcc_record (sps pps : bytes) : bytes :=
  [0x01] ++ slice 1 4 sps ++ [0xFF; 0xE1] ++ be_bytes 2 (Z.of_nat (length sps)) ++ sps
  ++ [0x01] ++ be_bytes 2 (Z.of_nat (length pps)) ++ pps.

(** ** Specification of the framings *)

(** A stream of units, each after a start code of four ([true]) or three bytes. *)
Definition start_code (long : bool) : bytes := if long then [0; 0; 0; 1] else [0; 0; 1].
Definition annexb_stream (us : list (bool * bytes)) : bytes :=
  concat (map (fun u => start_code (fst u) ++ snd u) us).

Definition avcc_stream (nals : list bytes) : bytes :=
  concat (map (fun nal => be_bytes 4 (Z.of_nat (length nal)) ++ nal) nals).

(** Emulation prevention: no start code inside a unit. *)
Fixpoint no_start_code (l : bytes) : bool :=
  match l with
  | [] => true
  | x :: l' =>
      negb match l' with y :: z :: _ => (x =? 0) && (y =? 0) && (z =? 1) | _ => false end
      && no_start_code l'
  end.

(** A unit followed by a short start code does not end with a zero byte, which
    the longer code would swallow. *)
Fixpoint annexb_ok (us : list (bool * bytes)) : Prop :=
  match us with
  | [] => True
  | (_, nal) :: us' =>
      no_start_code nal = true
      /\ match us' with (false, _) :: _ => last nal <> Some 0 | _ => True end
      /\ annexb_ok us'
  end.

(** ** The fuel is enough *)

Lemma split_loop_fuel data k : forall fuel i start nals, (length data <= fuel + i)%nat ->
  split_loop (fuel + k) data i start nals = split_loop fuel data i start nals.
Proof.
  induction fuel as [|fuel IH]; intros i start nals Hf.
  - destruct k as [|k]; [done|]. cbn. destruct (Nat.ltb_spec (i + 2) (length data)); [lia|done].
  - cbn. destruct (_ <? _)%nat; [|done]. destruct (start_code_3 data i), (start_code_4 data i);
      apply IH; lia.
Qed.

Lemma avcc_loop_fuel data k : forall fuel pos out, (length data <= fuel + pos)%nat ->
  avcc_loop (fuel + k) data pos out = avcc_loop fuel data pos out.
Proof.
  induction fuel as [|fuel IH]; intros pos out Hf.
  - destruct k as [|k]; [done|]. cbn [Nat.add avcc_loop].
    destruct (Nat.leb_spec (pos + 4) (length data)); [lia|done].
  - cbn [Nat.add avcc_loop]. destruct (Nat.leb_spec (pos + 4) (length data)); [|done].
    destruct (_ <? _)%nat; [done|]. apply IH. lia.
Qed.

(** ** Splitting *)

Lemma byte_at_drop_0 data i k l : drop i data = l -> byte_at data (i + k) = byte_at l k.
Proof. intros <-. by rewrite byte_at_drop. Qed.

Lemma drop_length_eq {A} i (data l : list A) : drop i data = l -> (i <= length data)%nat ->
  length data = (i + length l)%nat.
Proof. intros <- Hi. rewrite length_drop. lia. Qed.

(** Inside a unit, whatever follows being a start code or the end, the loop steps. *)
Definition boundary (nal rest : bytes) : Prop :=
  rest = [] \/ (exists r, rest = [0; 0; 0; 1] ++ r) \/ (last nal <> Some 0 /\ exists r, rest = [0; 0; 1] ++ r).

Lemma boundary_tail x nal rest : boundary (x :: nal) rest -> nal <> [] -> boundary nal rest.
Proof.
  intros [->|[[r ->]|[Hl [r ->]]]] Hn; [by left|right; left; by eexists|right; right].
  split; [|by eexists]. by destruct nal.
Qed.

Lemma no_code_inside x nal rest data i :
  no_start_code (x :: nal) = true -> boundary (x :: nal) rest -> drop i data = (x :: nal) ++ rest ->
  start_code_3 data i = false /\ start_code_4 data i = false.
Proof.
  intros Hn Hb Hd. unfold start_code_3, start_code_4.
  rewrite <- (Nat.add_0_r i) at 1 5.
  assert (forall k, byte_at data (i + k) = byte_at ((x :: nal) ++ rest) k) as Hat
    by (intros k; by apply byte_at_drop_0).
  rewrite !Hat.
  cbn [no_start_code] in Hn. apply andb_true_iff in Hn as [Hx Hn].
  split.
  - destruct nal as [|y [|z nal]].
    + destruct Hb as [->|[[r ->]|[_ [r ->]]]]; cbn; by rewrite ?andb_false_r.
    + destruct Hb as [->|[[r ->]|[_ [r ->]]]]; cbn; by rewrite ?andb_false_r.
    + cbn. by apply negb_true_iff in Hx.
  - destruct nal as [|y [|z [|t nal]]].
    + destruct Hb as [->|[[r ->]|[Hl [r ->]]]]; cbn; rewrite ?andb_false_r; try done.
      destruct (Z.eqb_spec x 0) as [->|]; [done|]. by rewrite !andb_false_r.
    + destruct Hb as [->|[[r ->]|[_ [r ->]]]]; cbn; by rewrite ?andb_false_r.
    + destruct Hb as [->|[[r ->]|[_ [r ->]]]]; cbn; by rewrite ?andb_false_r.
    + cbn in Hn |- *. destruct (Z.eqb_spec y 0), (Z.eqb_spec z 0), (Z.eqb_spec t 1);
        rewrite ?andb_false_r; try done. 
Qed.

Lemma split_walk nal : forall rest data i start nals fuel,
  no_start_code nal = true -> boundary nal rest -> rest <> [] -> drop i data = nal ++ rest ->
  (length data <= fuel + i)%nat ->
  split_loop fuel data i start nals = split_loop (fuel - length nal) data (i + length nal) start nals.
Proof.
  induction nal as [|x nal IH]; intros rest data i start nals fuel Hn Hb Hr Hd Hf.
  - cbn. by rewrite Nat.sub_0_r, Nat.add_0_r.
  - assert (i <= length data)%nat as Hi.
    { destruct (decide (i <= length data)%nat); [done|]. rewrite drop_ge in Hd by lia. done. }
    assert (2 < length rest)%nat as Hr3.
    { destruct Hb as [->|[[r ->]|[_ [r ->]]]]; [done|cbn; lia..]. }
    pose proof (drop_length_eq i data _ Hd Hi) as Hlen. rewrite length_app in Hlen. cbn in Hlen.
    destruct fuel as [|fuel]; [lia|]. cbn [split_loop length].
    destruct (Nat.ltb_spec (i + 2) (length data)); [|lia].
    destruct (no_code_inside x nal rest data i Hn Hb Hd) as [-> ->].
    rewrite (IH rest); [f_equal; lia|..].
    + cbn in Hn. by apply andb_true_iff in Hn as [_ ->].
    + destruct nal; [|by apply (boundary_tail x)].
      destruct Hb as [->|[Hb|[_ Hb]]]; [by left|by right; left|]. right. right. by split.
    + done.
    + by rewrite <- (drop_drop data 1 i), Hd.
    + lia.
Qed.

Lemma split_end nal : forall data i start nals fuel,
  no_start_code nal = true -> drop i data = nal -> (length data <= fuel + i)%nat ->
  split_loop fuel data i start nals = (start, nals).
Proof.
  induction nal as [|x nal IH]; intros data i start nals fuel Hn Hd Hf.
  - assert (length data <= i)%nat by (apply (f_equal length) in Hd; rewrite length_drop in Hd; cbn in Hd; lia).
    destruct fuel as [|fuel]; [done|]. cbn [split_loop].
    destruct (Nat.ltb_spec (i + 2) (length data)); [lia|done].
  - destruct fuel as [|fuel]; [done|]. cbn [split_loop].
    destruct (Nat.ltb_spec (i + 2) (length data)); [|done].
    destruct (no_code_inside x nal [] data i Hn) as [-> ->]; [by left|by rewrite app_nil_r|].
    cbn in Hn. apply andb_true_iff in Hn as [_ Hn].
    apply (IH data (i + 1)%nat); [done| |lia]. by rewrite <- (drop_drop data 1 i), Hd.
Qed.

Lemma drop_app_drop {A} (data : list A) i l1 l2 : drop i data = l1 ++ l2 ->
  drop (i + length l1) data = l2.
Proof. intros Hd. by rewrite <- drop_drop, Hd, drop_app_length. Qed.

(** At a start code the pending unit is pushed and the next one starts. *)
Lemma split_at_code long rest data i start nals fuel :
  drop i data = start_code long ++ rest -> (length data <= fuel + i)%nat ->
  exists fuel', (length data <= fuel' + (i + length (start_code long)))%nat
    /\ split_loop fuel data i start nals
       = split_loop fuel' data (i + length (start_code long)) (Some (i + length (start_code long))%nat)
           (push_nal data start i nals).
Proof.
  intros Hd Hf.
  assert (i <= length data)%nat as Hi.
  { destruct (decide (i <= length data)%nat); [done|]. rewrite drop_ge in Hd by lia. by destruct long. }
  pose proof (drop_length_eq i data _ Hd Hi) as Hlen. rewrite length_app in Hlen.
  destruct fuel as [|fuel]; [destruct long; cbn in Hlen; lia|]. exists fuel.
  split; [destruct long; cbn in *; lia|]. cbn [split_loop].
  destruct (Nat.ltb_spec (i + 2) (length data)); [|destruct long; cbn in Hlen; lia].
  assert (forall k, byte_at data (i + k) = byte_at (start_code long ++ rest) k) as Hat
    by (intros k; by apply byte_at_drop_0).
  pose proof (Hat 0%nat) as Hat0. rewrite Nat.add_0_r in Hat0.
  unfold start_code_3, start_code_4. rewrite !Hat, Hat0. destruct long; cbn [start_code app byte_at nth length Z.eqb andb].
  - destruct (Nat.ltb_spec (i + 3) (length data)) as [_|]; [done|cbn in Hlen; lia].
  - done.
Qed.

Lemma stream_boundary n us : annexb_ok ((true, n) :: us) -> boundary n (annexb_stream us).
Proof.
  intros (_ & Hl & _). destruct us as [|[[] m] us]; [by left|right; left|right; right].
  - exists (m ++ annexb_stream us). unfold annexb_stream. cbn. done.
  - split; [done|]. exists (m ++ annexb_stream us). unfold annexb_stream. cbn. done.
Qed.

Definition split_finish (data : bytes) (r : option nat * list bytes) : list bytes :=
  match fst r with Some s => snd r ++ [drop s data] | None => snd r end.

Lemma split_stream us : forall data n i nals fuel,
  annexb_ok ((true, n) :: us) -> drop i data = n ++ annexb_stream us -> (length data <= fuel + i)%nat ->
  split_finish data (split_loop fuel data i (Some i) nals) = nals ++ n :: map snd us.
Proof.
  induction us as [|[long m] us IH]; intros data n i nals fuel Hok Hd Hf.
  - cbn in Hd. rewrite app_nil_r in Hd. rewrite (split_end n) by (done || apply Hok).
    unfold split_finish. cbn. by rewrite Hd.
  - pose proof (stream_boundary _ _ Hok) as Hb. destruct Hok as (Hn & _ & Hok).
    change (annexb_stream ((long, m) :: us)) with ((start_code long ++ m) ++ annexb_stream us) in *.
    rewrite (split_walk n ((start_code long ++ m) ++ annexb_stream us)); try done.
    2: { by destruct long. }
    assert (drop (i + length n) data = start_code long ++ m ++ annexb_stream us) as Hd2
      by (rewrite <- app_assoc in Hd; by apply drop_app_drop).
    destruct (split_at_code long (m ++ annexb_stream us) data (i + length n) (Some i) nals (fuel - length n)) 
      as (fuel' & Hf' & ->); [done|lia|].
    rewrite (IH data m); [|by destruct us|by apply drop_app_drop in Hd2|done].
    cbn [push_nal map snd]. rewrite <- app_assoc. cbn [app]. do 2 f_equal.
    unfold slice. replace (i + length n - i)%nat with (length n) by lia.
    by rewrite Hd, take_app_length.
Qed.

Lemma split_annexb_finish data : split_annexb data = split_finish data (split_loop (length data) data 0 None []).
Proof. unfold split_annexb, split_finish. by destruct (split_loop _ _ _ _ _) as [[] ?]. Qed.

Lemma split_annexb_stream us : annexb_ok us -> split_annexb (annexb_stream us) = map snd us.
Proof.
  intros Hok. rewrite split_annexb_finish. destruct us as [|[long n] us]; [done|].
  set (data := annexb_stream ((long, n) :: us)).
  assert (data = start_code long ++ n ++ annexb_stream us) as Hd
    by (unfold data, annexb_stream; cbn; by rewrite <- app_assoc).
  destruct (split_at_code long (n ++ annexb_stream us) data 0 None [] (length data)) as (fuel & Hf & ->);
    [done|lia|].
  rewrite (split_stream us data n); [done|done| |done].
  by apply (drop_app_drop data 0).
Qed.

(** Splitting an Annex B stream gives back its units, in order and
    unchanged, whatever mix of three- and four-byte start codes separates them,
    for units that contain no start code (emulation prevention) and do not end
    with a zero byte before a short code; bytes that hold no start code at all
    split into nothing. *)
Theorem split_annexb_units us junk :
  annexb_ok us -> no_start_code junk = true ->
  split_annexb (annexb_stream us) = map snd us /\ split_annexb junk = [].
Proof.
  intros Hok Hj. split; [by apply split_annexb_stream|].
  rewrite split_annexb_finish, (split_end junk) by (done || lia). done.
Qed.

(** ** Length-prefixed round trip *)

Definition nal_ok (nal : bytes) : Prop :=
  no_start_code nal = true /\ Z.of_nat (length nal) <= u32_max.

Definition to_annexb (nals : list bytes) : bytes := annexb_stream (map (pair true) nals).

Lemma avcc_loop_stream nals : forall data tail pos out fuel,
  drop pos data = avcc_stream nals ++ tail -> Forall (fun n => Z.of_nat (length n) <= u32_max) nals ->
  (length data <= fuel + pos)%nat -> (length tail < 4)%nat ->
  avcc_loop fuel data pos out = out ++ to_annexb nals.
Proof.
  induction nals as [|n nals IH]; intros data tail pos out fuel Hd Hn Hf Ht.
  - cbn in Hd. unfold to_annexb. cbn. rewrite app_nil_r. destruct fuel as [|fuel]; [done|]. cbn [avcc_loop].
    destruct (Nat.leb_spec (pos + 4) (length data)); [|done].
    apply (f_equal length) in Hd. rewrite length_drop in Hd. lia.
  - apply Forall_cons in Hn as [Hn Hns]. unfold u32_max in Hn.
    change (avcc_stream (n :: nals)) with ((be_bytes 4 (Z.of_nat (length n)) ++ n) ++ avcc_stream nals) in Hd.
    rewrite <- !app_assoc in Hd.
    assert (length data = pos + (4 + (length n + length (avcc_stream nals ++ tail))))%nat as Hlen.
    { assert (pos <= length data)%nat.
      { destruct (decide (pos <= length data)%nat); [done|]. rewrite drop_ge in Hd by lia. done. }
      pose proof (drop_length_eq pos data _ Hd ltac:(done)) as Hl. rewrite Hl.
      rewrite !length_app. cbn. lia. }
    destruct fuel as [|fuel]; [lia|]. cbn [avcc_loop].
    destruct (Nat.leb_spec (pos + 4) (length data)); [|lia].
    assert (slice pos (pos + 4) data = be_bytes 4 (Z.of_nat (length n))) as ->.
    { unfold slice. replace (pos + 4 - pos)%nat with (length (be_bytes 4 (Z.of_nat (length n)))) by (cbn; lia).
      by rewrite Hd, take_app_length. }
    rewrite be_val_be_bytes by lia. rewrite Nat2Z.id.
    destruct (Nat.ltb_spec (length data) (pos + 4 + length n)); [lia|].
    pose proof (drop_app_drop data pos _ _ Hd) as Hd2. rewrite length_be_bytes in Hd2.
    assert (slice (pos + 4) (pos + 4 + length n) data = n) as ->.
    { unfold slice. replace (pos + 4 + length n - (pos + 4))%nat with (length n) by lia.
      by rewrite Hd2, take_app_length. }
    rewrite (IH data tail); [|by apply drop_app_drop in Hd2|done|lia|done].
    unfold to_annexb, annexb_stream. cbn. by rewrite <- !app_assoc.
Qed.

Lemma annexb_ok_long nals : Forall nal_ok nals -> annexb_ok (map (pair true) nals).
Proof.
  induction 1 as [|n nals [Hn _] _ IH]; cbn; [done|]. split_and!; [done|by destruct nals|done].
Qed.

Lemma avcc_annex_b_stream nals : Forall nal_ok nals ->
  annex_b_to_avcc true (to_annexb nals) = avcc_stream nals.
Proof.
  intros Hn. unfold annex_b_to_avcc, to_annexb. cbn [negb].
  rewrite split_annexb_stream by by apply annexb_ok_long.
  assert (map snd (map (pair true) nals) = nals) as -> by (rewrite map_map; apply map_id). done.
Qed.

(** Converting length-prefixed units to Annex B (as the RTMP source does)
    and back (as the FLV muxer does once it has seen an avcC record) gives the
    original bytes, for units without an embedded start code; an incomplete
    length at the end is dropped. *)
Theorem avcc_annex_b_roundtrip nals tail :
  Forall nal_ok nals -> (length tail < 4)%nat ->
  annex_b_to_avcc true (avcc_to_annex_b (avcc_stream nals ++ tail)) = avcc_stream nals.
Proof.
  intros Hn Ht. unfold avcc_to_annex_b. rewrite (avcc_loop_stream nals _ tail); [|done| |lia|done].
  - by apply avcc_annex_b_stream.
  - eapply Forall_impl; [exact Hn|]. by intros n [_ ?].
Qed.

(** ** Parameter sets *)

Definition nal_type (nal : bytes) : Z := match nal with [] => -1 | b :: _ => Z.land b 0x1F end.

Definition first_of_type (ty : Z) (nals : list bytes) : option bytes :=
  List.find (fun n => nal_type n =? ty) nals.

Definition or_else {A} (o1 o2 : option A) : option A := match o1 with Some x => Some x | None => o2 end.

Lemma find_sps_pps_spec nals : forall sps pps, ~ (is_some sps = true /\ is_some pps = true) ->
  let r := find_sps_pps nals sps pps in
  let sps' := or_else sps (first_of_type 7 nals) in
  let pps' := or_else pps (first_of_type 8 nals) in
  (sps', pps') = r.
Proof.
  induction nals as [|nal nals IH]; intros sps pps Hb; cbn zeta.
  - cbn. by destruct sps, pps.
  - destruct nal as [|b nal]; [apply (IH sps pps Hb)|].
    cbn [find_sps_pps]. unfold first_of_type at 1 2. cbn [List.find nal_type].
    destruct (Z.eqb_spec (Z.land b 0x1F) 7) as [E7|E7], (Z.eqb_spec (Z.land b 0x1F) 8) as [E8|E8]; [lia|..];
      destruct sps, pps; cbn in Hb |- *; try (exfalso; apply Hb; by split); try done;
      fold (first_of_type 7 nals) (first_of_type 8 nals); rewrite <- IH; cbn; try done; by intros [? ?].
Qed.

(** The first SPS and the first PPS, when both are there and the SPS has the
    bytes the avcC record copies. *)
Lemma extract_sps_pps_spec us : annexb_ok us ->
  extract_sps_pps (annexb_stream us)
  = match first_of_type 7 (map snd us), first_of_type 8 (map snd us) with
    | Some sps, Some pps => if (4 <=? length sps)%nat then Some (sps, pps) else None
    | _, _ => None
    end.
Proof.
  intros Hok. unfold extract_sps_pps. rewrite split_annexb_stream by done.
  rewrite <- (find_sps_pps_spec _ None None) by by intros []. done.
Qed.

(** The array of an avcC record: each set after its 16-bit length. *)
Definition set_array (sets : list bytes) : bytes :=
  concat (map (fun n => be_bytes 2 (Z.of_nat (length n)) ++ n) sets).

Lemma take_sets_array sets : forall data tail pos out,
  Forall (fun n => Z.of_nat (length n) <= u16_max) sets -> (pos <= length data)%nat ->
  drop pos data = set_array sets ++ tail ->
  take_sets (length sets) data pos out = Some ((pos + length (set_array sets))%nat, out ++ concat sets).
Proof.
  induction sets as [|n sets IH]; intros data tail pos out Hn Hp Hd.
  - cbn. by rewrite Nat.add_0_r, app_nil_r.
  - apply Forall_cons in Hn as [Hn Hns]. unfold u16_max in Hn.
    change (set_array (n :: sets)) with ((be_bytes 2 (Z.of_nat (length n)) ++ n) ++ set_array sets) in *.
    rewrite <- !app_assoc in Hd. pose proof (drop_length_eq pos data _ Hd Hp) as Hlen.
    rewrite !length_app, length_be_bytes in Hlen. cbn [take_sets length].
    destruct (Nat.ltb_spec (length data) (pos + 2)); [lia|].
    assert (slice pos (pos + 2) data = be_bytes 2 (Z.of_nat (length n))) as ->.
    { unfold slice. replace (pos + 2 - pos)%nat with (length (be_bytes 2 (Z.of_nat (length n)))) by (cbn; lia).
      by rewrite Hd, take_app_length. }
    rewrite be_val_be_bytes by lia. rewrite Nat2Z.id.
    destruct (Nat.ltb_spec (length data) (pos + 2 + length n)); [lia|].
    pose proof (drop_app_drop data pos _ _ Hd) as Hd2. rewrite length_be_bytes in Hd2.
    assert (slice (pos + 2) (pos + 2 + length n) data = n) as ->.
    { unfold slice. replace (pos + 2 + length n - (pos + 2))%nat with (length n) by lia.
      by rewrite Hd2, take_app_length. }
    rewrite (IH data tail); [|done|lia|by apply drop_app_drop in Hd2].
    rewrite !length_app, length_be_bytes. cbn [concat]. rewrite <- app_assoc. do 2 f_equal. lia.
Qed.

(** An avcC record: five bytes of version, profile and NAL length size, then the
    two arrays. *)
Definition avcc_image (hd : bytes) (spss ppss : list bytes) (tail : bytes) : bytes :=
  hd ++ [0xE0 + Z.of_nat (length spss)] ++ set_array spss
  ++ [Z.of_nat (length ppss)] ++ set_array ppss ++ tail.

Lemma e0_mask n : (n <= 31)%nat -> Z.land (0xE0 + Z.of_nat n) 0x1F = Z.of_nat n.
Proof. intros Hn. change 0x1F with (2 ^ 5 - 1). rewrite land_ones_mod by lia. lia_div. Qed.

Lemma hls_extradata_image hd spss ppss tail : length hd = 5%nat -> (length spss <= 31)%nat ->
  Forall (fun n => Z.of_nat (length n) <= u16_max) (spss ++ ppss) ->
  hls_extradata H264 (avcc_image hd spss ppss tail) = concat spss ++ concat ppss.
Proof.
  intros Hhd Hs [Hf1 Hf2]%Forall_app. set (data := avcc_image hd spss ppss tail).
  assert (drop 5 data = (0xE0 + Z.of_nat (length spss)) :: set_array spss
    ++ [Z.of_nat (length ppss)] ++ set_array ppss ++ tail) as H5
    by (unfold data, avcc_image; rewrite <- Hhd; apply drop_app_length).
  assert (length data >= 7)%nat as Hl.
  { unfold data, avcc_image. rewrite !length_app. cbn. lia. }
  unfold hls_extradata.
  destruct (Nat.ltb_spec (length data) 7); [lia|]. cbn [bool_decide negb orb].
  rewrite bool_decide_true by done. cbn [negb orb].
  rewrite (byte_at_drop_0 data 5 0 _ H5 : byte_at data 5 = 0xE0 + Z.of_nat (length spss)).
  rewrite e0_mask, Nat2Z.id by done.
  assert (drop 6 data = set_array spss ++ [Z.of_nat (length ppss)] ++ set_array ppss ++ tail) as H6.
  { change 6%nat with (5 + 1)%nat. by rewrite <- drop_drop, H5. }
  rewrite (take_sets_array spss data _ 6 [] Hf1 ltac:(lia) H6).
  pose proof (drop_app_drop data 6 _ _ H6) as H7.
  destruct (Nat.leb_spec (length data) (6 + length (set_array spss))).
  - rewrite drop_ge in H7 by done. done.
  - rewrite <- (Nat.add_0_r (6 + length (set_array spss))), (byte_at_drop_0 data _ 0 _ H7). cbn [nth byte_at app].
    rewrite Nat2Z.id, Nat.add_0_r. 
    pose proof (drop_app_drop data (6 + length (set_array spss)) [Z.of_nat (length ppss)] _ H7) as H8.
    rewrite (take_sets_array ppss data tail); [done|done| |exact H8].
    cbn. lia.
Qed.

Lemma hls_extradata_record sps pps : (4 <= length sps)%nat ->
  Z.of_nat (length sps) <= u16_max -> Z.of_nat (length pps) <= u16_max ->
  hls_extradata H264 (avcc_record sps pps) = sps ++ pps.
Proof.
  intros Hlen Hs Hp.
  assert (avcc_record sps pps = avcc_image ([0x01] ++ slice 1 4 sps ++ [0xFF]) [sps] [pps] []) as ->.
  { unfold avcc_record, avcc_image, set_array. cbn -[slice be_bytes].
    by rewrite <- !app_assoc, !app_nil_r. }
  rewrite hls_extradata_image; [cbn; by rewrite !app_nil_r| |cbn; lia|].
  - rewrite !length_app, length_slice by lia. done.
  - apply Forall_app; split; by apply Forall_singleton.
Qed.

(** From an avcC record, whatever its profile bytes and trailing extensions,
    [hls_extradata] keeps exactly the SPS and PPS payloads, in order; anything
    that is not H.264 is passed through; and the record the transcoder builds
    from one SPS and one PPS is read back as their concatenation. *)
Theorem hls_extradata_avcc hd spss ppss tail sps pps :
  length hd = 5%nat -> (length spss <= 31)%nat ->
  Forall (fun n => Z.of_nat (length n) <= u16_max) (sps :: pps :: spss ++ ppss) ->
  (4 <= length sps)%nat ->
  hls_extradata H264 (avcc_image hd spss ppss tail) = concat spss ++ concat ppss
  /\ hls_extradata H264 (avcc_record sps pps) = sps ++ pps
  /\ (forall c e, c <> H264 -> hls_extradata c e = e).
Proof.
  intros Hhd Hs Hf Hlen.
  apply Forall_cons in Hf as [Hsps Hf]. apply Forall_cons in Hf as [Hpps Hf].
  split_and!; [by apply hls_extradata_image| |].
  - by apply hls_extradata_record.
  - intros c e Hc. unfold hls_extradata. by rewrite bool_decide_false.
Qed.
