(* ===== verification/FlvMux.v ===== *)
(** * FLV muxer
    [livestream-pipeline/src/processor/flv_mux.rs]: encoded packets become FLV
    tags. The muxer's only state is whether a sequence header carried an avcC
    record, after which media units are framed by length. *)
From S2P Require Import Prelude Types Flv Nal.

Record FlvMux := mkFlvMux { fm_avcc_framing : bool }.
Definition FlvMux_new : FlvMux := mkFlvMux false.

Definition build_avc_sequence_header (extradata : option bytes) : bytes :=
  match extradata with Some ext => ext | None => [] end.

(** The times of a video tag: clamped PTS and DTS, then timestamp and offset. *)
Definition video_pts (pkt : EncodedPacket) : Z := Z.max (default 0 (pk_pts_ms pkt)) 0.
Definition video_dts (pkt : EncodedPacket) : Z := Z.max (default (video_pts pkt) (pk_dts_ms pkt)) 0.
Definition video_timestamp (pkt : EncodedPacket) : Z := Z.min (video_dts pkt) u32_max.
Definition composition_time (pkt : EncodedPacket) : Z :=
  Z.min (sat_sub (video_pts pkt) (video_dts pkt)) 0xFFFFFF.

Definition is_avcc_record (codec : Codec) (ext : option bytes) : bool :=
  bool_decide (codec = H264) && match ext with Some (b :: _) => b =? 0x01 | _ => false end.

Definition flv_codec_id (c : Codec) : Z := match c with H264 => 7 | H265 => 12 | _ => 7 end.

Definition mux_video (m : FlvMux) (pkt : EncodedPacket) : FlvTag * FlvMux :=
  let is_seq_header := pk_is_sequence_header pkt in
  let m := if is_seq_header && is_avcc_record (pk_codec pkt) (pk_extradata pkt)
           then mkFlvMux true else m in
  let payload := if is_seq_header then build_avc_sequence_header (pk_extradata pkt)
                 else annex_b_to_avcc (fm_avcc_framing m) (as_bytes (pk_data pkt)) in
  let frame_type := if pk_is_keyframe pkt then 1 else 2 in
  let first_byte := Z.lor (Z.shiftl frame_type 4) (flv_codec_id (pk_codec pkt)) in
  let hd := if is_seq_header then [0] ++ put_u24 0 else [1] ++ put_u24 (composition_time pkt) in
  (tag_video (video_timestamp pkt) ([first_byte] ++ hd ++ payload), m).

Definition mux_audio (pkt : EncodedPacket) : FlvTag :=
  let timestamp := Z.min (Z.max (default 0 (pk_pts_ms pkt)) 0) u32_max in
  let sound_byte := Z.lor (Z.shiftl 10 4) 0x0F in
  let aac_packet_type := if pk_is_sequence_header pkt then 0 else 1 in
  tag_audio timestamp ([sound_byte] ++ [aac_packet_type] ++ as_bytes (pk_data pkt)).

Definition flv_mux_process (m : FlvMux) (pkt : EncodedPacket) : list FlvTag * FlvMux :=
  match pk_codec pkt with
  | H264 | H265 => let '(tag, m) := mux_video m pkt in ([tag], m)
  | Aac => ([mux_audio pkt], m)
  | _ => ([], m)
  end.

Fixpoint flv_mux_run (m : FlvMux) (pkts : list EncodedPacket) : list FlvTag * FlvMux :=
  match pkts with
  | [] => ([], m)
  | pkt :: pkts =>
      let '(tags, m) := flv_mux_process m pkt in
      let '(more, m) := flv_mux_run m pkts in (tags ++ more, m)
  end.

(** ** The tags are well formed and keep the packet's classification *)

Definition packet_bytes_ok (pkt : EncodedPacket) : Prop :=
  bytes_ok (as_bytes (pk_data pkt)) /\ match pk_extradata pkt with Some e => bytes_ok e | None => True end.

Lemma bytes_ok_concat ls : Forall bytes_ok ls -> bytes_ok (concat ls).
Proof. induction 1; cbn; [constructor|]. by apply bytes_ok_app. Qed.

Lemma split_loop_bytes_ok data fuel : bytes_ok data -> forall i start nals, Forall bytes_ok nals ->
  Forall bytes_ok (snd (split_loop fuel data i start nals)).
Proof.
  intros Hd. assert (forall i start nals, Forall bytes_ok nals ->
    Forall bytes_ok (push_nal data start i nals)) as Hpush.
  { intros i [s|] nals Hn; [|done]. apply Forall_app. split; [done|].
    apply Forall_singleton. by apply bytes_ok_slice. }
  induction fuel as [|fuel IH]; intros i start nals Hn; [done|]. cbn [split_loop].
  destruct (_ <? _)%nat; [|done]. destruct (start_code_3 data i), (start_code_4 data i); auto.
Qed.

Lemma split_annexb_bytes_ok data : bytes_ok data -> Forall bytes_ok (split_annexb data).
Proof.
  intros Hd. unfold split_annexb. pose proof (split_loop_bytes_ok data (length data) Hd 0%nat None [] ltac:(constructor)) as Hl.
  destruct (split_loop _ _ _ _ _) as [[s|] l]; cbn in Hl; [|done].
  apply Forall_app. split; [done|]. apply Forall_singleton. by apply bytes_ok_drop.
Qed.

Lemma annex_b_to_avcc_bytes_ok b data : bytes_ok data -> bytes_ok (annex_b_to_avcc b data).
Proof.
  intros Hd. unfold annex_b_to_avcc. destruct (negb b); [done|]. apply bytes_ok_concat.
  apply List.Forall_map. eapply Forall_impl; [by apply split_annexb_bytes_ok|]. intros n Hn.
  apply bytes_ok_app. split; [apply bytes_ok_be_bytes|done].
Qed.

Lemma composition_time_range pkt : 0 <= composition_time pkt <= 0xFFFFFF.
Proof. unfold composition_time, sat_sub. lia. Qed.

Lemma mux_video_payload_ok m pkt : packet_bytes_ok pkt ->
  bytes_ok (if pk_is_sequence_header pkt then build_avc_sequence_header (pk_extradata pkt)
            else annex_b_to_avcc m (as_bytes (pk_data pkt))).
Proof.
  intros [Hd He]. destruct (pk_is_sequence_header pkt); [|by apply annex_b_to_avcc_bytes_ok].
  unfold build_avc_sequence_header. by destruct (pk_extradata pkt); [|constructor].
Qed.

Lemma mux_video_wf m pkt : packet_bytes_ok pkt -> pk_codec pkt = H264 \/ pk_codec pkt = H265 ->
  let t := fst (mux_video m pkt) in
  media_tag t /\ is_sequence_header t = pk_is_sequence_header pkt
  /\ mp_is_keyframe t = pk_is_keyframe pkt /\ tag_number t = 9.
Proof.
  intros Hp Hc. unfold mux_video. set (m' := if _ && _ then _ else m).
  pose proof (mux_video_payload_ok (fm_avcc_framing m') pkt Hp) as Hpl.
  set (payload := if pk_is_sequence_header pkt then _ else annex_b_to_avcc _ _) in *.
  set (first_byte := Z.lor _ _).
  assert (bytes_ok ([first_byte] ++ (if pk_is_sequence_header pkt then [0] ++ put_u24 0
                     else [1] ++ put_u24 (composition_time pkt)) ++ payload)) as Hok.
  { pose proof (composition_time_range pkt). apply bytes_ok_app. split.
    - constructor; [|constructor]. subst first_byte. unfold in_u, u8_max.
      destruct Hc as [-> | ->], (pk_is_keyframe pkt); vm_compute; split; discriminate.
    - apply bytes_ok_app. split; [|done]. destruct (pk_is_sequence_header pkt); rewrite put_u24_be by lia;
        (constructor; [unfold in_u, u8_max; lia|apply (bytes_ok_be_bytes 3)]). }
  cbn [fst tag_video media_tag is_sequence_header mp_is_keyframe FlvTag_media tag_number].
  split_and!; [|done|done| | |done].
  - unfold in_u, video_timestamp, video_dts, u32_max. lia.
  - subst first_byte. by destruct (pk_is_sequence_header pkt), (pk_is_keyframe pkt), Hc as [-> | ->].
  - subst first_byte. by destruct (pk_is_keyframe pkt), Hc as [-> | ->].
Qed.

Lemma mux_audio_wf pkt : packet_bytes_ok pkt ->
  media_tag (mux_audio pkt) /\ is_sequence_header (mux_audio pkt) = pk_is_sequence_header pkt.
Proof.
  intros [Hd _]. unfold mux_audio. cbn [tag_audio media_tag is_sequence_header]. split; [split|].
  - unfold in_u, u32_max. lia.
  - constructor; [|constructor; [|done]]; destruct (pk_is_sequence_header pkt);
      vm_compute; split; discriminate.
  - by destruct (pk_is_sequence_header pkt).
Qed.

(** C30: the muxer drops exactly the packets whose codec FLV output does not
    carry, and turns every other one into a single well-formed tag (32-bit
    timestamp, byte payload), video for H.264 and H.265, audio for AAC, that is
    a sequence header exactly when the packet is. A video tag is a key frame
    exactly when its packet is; an audio tag never is, although the AAC packets
    of the sources carry the key frame flag. *)
Theorem flv_mux_tag_wf m pkt : packet_bytes_ok pkt ->
  match fst (flv_mux_process m pkt) with
  | [] => pk_codec pkt <> H264 /\ pk_codec pkt <> H265 /\ pk_codec pkt <> Aac
  | [t] => media_tag t
      /\ is_sequence_header t = pk_is_sequence_header pkt
      /\ mp_is_keyframe t = (if decide (pk_codec pkt = Aac) then false else pk_is_keyframe pkt)
      /\ tag_number t = (if decide (pk_codec pkt = Aac) then 8 else 9)
  | _ => False
  end.
Proof.
  intros Hp. unfold flv_mux_process. destruct (pk_codec pkt) eqn:Ec; try done.
  - pose proof (mux_video_wf m pkt Hp (or_introl Ec)) as Hw.
    destruct (mux_video m pkt) as [t m']. destruct Hw as (? & ? & ? & ?). done.
  - pose proof (mux_video_wf m pkt Hp (or_intror Ec)) as Hw.
    destruct (mux_video m pkt) as [t m']. destruct Hw as (? & ? & ? & ?). done.
  - destruct (mux_audio_wf pkt Hp). done.
Qed.

Lemma flv_mux_tag_wf_witness :
  exists t, fst (flv_mux_process FlvMux_new (new_video_keyframe [0; 0; 0; 1; 0x65; 9] 40 40 0)) = [t]
  /\ media_tag t /\ is_sequence_header t = false /\ mp_is_keyframe t = true /\ tag_number t = 9.
Proof.
  eexists. split; [vm_compute; reflexivity|].
  refine (flv_mux_tag_wf FlvMux_new (new_video_keyframe [0; 0; 0; 1; 0x65; 9] 40 40 0) _).
  split; [|exact I]. cbn. repeat (constructor; [vm_compute; split; discriminate|]). constructor.
Defined.

(** ** Times *)

(** The tag's timestamp is the decode time and its composition offset leads
    back to the presentation time, whenever 0 <= DTS <= PTS (a missing DTS
    counts as equal to the PTS) and both fit their fields; outside of that the
    values are clamped, never wrapped. *)
Theorem flv_mux_times m pkt :
  let t := fst (mux_video m pkt) in
  let ct := be_val (slice 2 5 (tag_payload t)) in
  (pk_is_sequence_header pkt = false -> in_u u24_max ct)
  /\ in_u u32_max (tag_timestamp t)
  /\ (forall pts dts, pk_is_sequence_header pkt = false -> pk_pts_ms pkt = Some pts ->
       default pts (pk_dts_ms pkt) = dts -> 0 <= dts <= pts -> dts <= u32_max -> pts - dts <= u24_max ->
       tag_timestamp t = dts /\ tag_timestamp t + ct = pts).
Proof.
  unfold mux_video. set (m' := if _ && _ then _ else m). set (fb := Z.lor _ _).
  set (pl := if pk_is_sequence_header pkt then _ else annex_b_to_avcc _ _).
  cbn [fst tag_video tag_payload tag_timestamp].
  assert (pk_is_sequence_header pkt = false ->
    be_val (slice 2 5 ([fb] ++ (if pk_is_sequence_header pkt then [0] ++ put_u24 0
       else [1] ++ put_u24 (composition_time pkt)) ++ pl)) = composition_time pkt) as Hct.
  { intros ->. pose proof (composition_time_range pkt). rewrite put_u24_be by lia.
    etrans; [|apply (be_val_be_bytes 3 (composition_time pkt)); cbn; lia]. done. }
  split_and!.
  - intros Hs. rewrite Hct by done. unfold in_u, u24_max. apply composition_time_range.
  - unfold in_u, video_timestamp, video_dts, u32_max. lia.
  - intros pts dts Hs Hp Hd. rewrite Hct by done.
    unfold video_timestamp, composition_time, video_dts, video_pts, sat_sub, u24_max, u32_max in *.
    rewrite Hp. cbn [default]. destruct (pk_dts_ms pkt); cbn in Hd |- *; subst; lia.
Qed.

(** The AudioSpecificConfig of an AAC sequence header that carries it as
    extradata (as the RTP demultiplexer and [new_aac_sequence_header] build it)
    is not in the muxed tag: every such header becomes the same two bytes. *)
Lemma aac_config_not_muxed m asc i :
  flv_mux_process m (new_aac_sequence_header asc i) = ([TAudio 0 [0xAF; 0]], m).
Proof. reflexivity. Qed.
