(* ===== verification/RtmpSource.v ===== *)
(** * RTMP source
    [livestream-transport/src/source/rtmp.rs]: the frames a publisher pushes (FLV
    tag bodies with their RTMP timestamp) become encoded packets in Annex B
    framing, sent into the pipeline with retries while it is full. *)
From S2P Require Import Prelude Types Flv Nal FlvMux.

Record RtmpRawFrame := mkRawFrame {
  rf_data : bytes;
  rf_timestamp : Z;
  rf_is_video : bool;
  rf_is_audio : bool;
  rf_is_script_data : bool;
}.

(** Two's complement on 32 bits: the or with the complement extends the sign. *)
Definition extract_cts (data : bytes) : option Z :=
  if (length data <? 5)%nat then None
  else
    let cts_raw := Z.lor (Z.lor (Z.shiftl (byte_at data 2) 16) (Z.shiftl (byte_at data 3) 8)) (byte_at data 4) in
    Some (if negb (Z.land cts_raw 0x800000 =? 0) then Z.lor cts_raw (Z.lnot 0xFFFFFF) else cts_raw).

Definition video_codec (codec_id : Z) : option Codec :=
  if codec_id =? 7 then Some H264 else if codec_id =? 12 then Some H265 else None.

Definition convert_video_frame (data : bytes) (pts_ms : Z) : option EncodedPacket :=
  let first_byte := byte_at data 0 in
  let frame_type := Z.land (Z.shiftr first_byte 4) 0x0F in
  let codec_id := Z.land first_byte 0x0F in
  let avc_packet_type := byte_at data 1 in
  match video_codec codec_id with
  | None => None
  | Some codec =>
      let is_keyframe := frame_type =? 1 in
      let is_seq_header := avc_packet_type =? 0 in
      let raw_codec_data := if (5 <? length data)%nat then drop 5 data else [] in
      let codec_data := if negb is_seq_header && negb (length raw_codec_data =? 0)%nat
                        then avcc_to_annex_b raw_codec_data else raw_codec_data in
      let extradata := if is_seq_header && negb (length codec_data =? 0)%nat
                       then Some codec_data else None in
      let cts_ms := default 0 (extract_cts data) in
      let dts_ms := pts_ms - cts_ms in
      Some (mkPacket codec 0 (AnnexB codec_data) (Some pts_ms) (Some dts_ms) is_keyframe is_seq_header
                     false extradata)
  end.

Definition convert_audio_frame (data : bytes) (pts_ms : Z) : option EncodedPacket :=
  let is_aac_seq := (2 <=? length data)%nat && (Z.shiftr (byte_at data 0) 4 =? 10)
                    && (byte_at data 1 =? 0) in
  let codec_data := if (2 <? length data)%nat then drop 2 data else [] in
  Some (mkPacket Aac 0 (AnnexB codec_data) (Some pts_ms) None false is_aac_seq false None).

Definition convert_frame (frame : RtmpRawFrame) : option EncodedPacket :=
  if rf_is_script_data frame || (length (rf_data frame) =? 0)%nat then None
  else
    let pts_ms := rf_timestamp frame in
    if rf_is_video frame && (2 <=? length (rf_data frame))%nat then convert_video_frame (rf_data frame) pts_ms
    else if rf_is_audio frame then convert_audio_frame (rf_data frame) pts_ms
    else None.

(** ** The send loop *)

Inductive send_result := SendOk | SendFull | SendClosed.

(** The successive answers of the output pad drive the loop; the result is what
    is left of them, and whether the packet was taken or the stream cancelled. *)
Inductive delivery := Delivered | StreamCancelled | StillRetrying.

Fixpoint send_pkt_or_stop (answers : list send_result) : delivery * list send_result :=
  match answers with
  | [] => (StillRetrying, [])
  | SendOk :: rest => (Delivered, rest)
  | SendClosed :: rest => (StreamCancelled, rest)
  | SendFull :: rest => send_pkt_or_stop rest
  end.

(** [start]: frames until the sender closes or the token is cancelled. *)
Fixpoint source_run (frames : list RtmpRawFrame) (answers : list send_result) : list EncodedPacket * bool :=
  match frames with
  | [] => ([], false)
  | frame :: frames =>
      match convert_frame frame with
      | None => source_run frames answers
      | Some pkt =>
          match send_pkt_or_stop answers with
          | (Delivered, rest) => let '(sent, c) := source_run frames rest in (pkt :: sent, c)
          | (StreamCancelled, _) => ([], true)
          | (StillRetrying, _) => ([], false)
          end
      end
  end.

(** ** Composition times *)

Lemma extract_cts_spec a b c1 c2 c3 rest : Forall (in_u u8_max) [c1; c2; c3] ->
  extract_cts (a :: b :: c1 :: c2 :: c3 :: rest)
  = Some (let v := be_val [c1; c2; c3] in if v <? 2 ^ 23 then v else v - 2 ^ 24).
Proof.
  intros Hc. pose proof Hc as Hok. apply Forall_cons in Hc as [H1 Hc]. apply Forall_cons in Hc as [H2 Hc].
  apply Forall_cons in Hc as [H3 _]. unfold extract_cts. cbn -[Z.land be_val].
  rewrite lor_u24 by done. f_equal.
  set (v := be_val [c1; c2; c3]).
  assert (0 <= v < 2 ^ 24) as Hv.
  { pose proof (be_val_bound [c1; c2; c3] Hok) as Hbd. exact Hbd. }
  assert (Z.land v 0x800000 = if v <? 2 ^ 23 then 0 else 0x800000) as ->.
  { change 0x800000 with (2 ^ 23). apply Z.bits_inj'. intros n Hn.
    rewrite Z.land_spec, Z.pow2_bits_eqb by lia.
    destruct (Z.eqb_spec 23 n) as [<-|Hne].
    - rewrite andb_true_r. destruct (Z.ltb_spec v (2 ^ 23)).
      + rewrite Z.bits_0. destruct (decide (v = 0)) as [->|]; [done|].
        apply Z.bits_above_log2; [lia|]. apply Z.log2_lt_pow2; lia.
      + rewrite Z.pow2_bits_true by lia. apply Z.testbit_true; [lia|].
        replace (v / 2 ^ 23) with 1 by lia_div. done.
    - rewrite andb_false_r. destruct (v <? 2 ^ 23); [by rewrite Z.bits_0|].
      by rewrite Z.pow2_bits_false. }
  destruct (Z.ltb_spec v (2 ^ 23)); [done|]. change (negb (0x800000 =? 0)) with true. cbn iota.
  rewrite Z.lor_comm. change (Z.lnot 0xFFFFFF) with (Z.shiftl (-1) 24).
  rewrite lor_shiftl_add by lia. lia.
Qed.

(** ** What is relayed to players *)

Definition relay (m : FlvMux) (frame : RtmpRawFrame) : list FlvTag * FlvMux :=
  match convert_frame frame with Some pkt => flv_mux_process m pkt | None => ([], m) end.

Definition signed24 (v : Z) : Z := if v <? 2 ^ 23 then v else v - 2 ^ 24.

Definition video_frame (ts : Z) (body : bytes) : RtmpRawFrame := mkRawFrame body ts true false false.
Definition audio_frame (ts : Z) (body : bytes) : RtmpRawFrame := mkRawFrame body ts false true false.

Lemma avcc_to_annex_b_stream nals : Forall nal_ok nals -> avcc_to_annex_b (avcc_stream nals) = to_annexb nals.
Proof.
  intros Hn. unfold avcc_to_annex_b. rewrite (avcc_loop_stream nals _ []); [done|by rewrite app_nil_r| |lia|cbn; lia].
  eapply Forall_impl; [exact Hn|]. by intros n [_ ?].
Qed.

Lemma convert_units b c1 c2 c3 nals codec ts : Forall (in_u u8_max) [c1; c2; c3] -> Forall nal_ok nals ->
  video_codec (Z.land b 0x0F) = Some codec ->
  convert_frame (video_frame ts ([b; 1; c1; c2; c3] ++ avcc_stream nals))
  = Some (mkPacket codec 0 (AnnexB (to_annexb nals)) (Some ts)
      (Some (ts - signed24 (be_val [c1; c2; c3]))) (Z.land (Z.shiftr b 4) 0x0F =? 1) false false None).
Proof.
  intros Hc Hn Hcodec. set (nd := avcc_stream nals).
  assert (convert_frame (video_frame ts ([b; 1; c1; c2; c3] ++ nd))
    = convert_video_frame (b :: 1 :: c1 :: c2 :: c3 :: nd) ts) as -> by done.
  unfold convert_video_frame. rewrite (extract_cts_spec b 1 c1 c2 c3 nd Hc). cbn [byte_at nth default].
  rewrite Hcodec. change (1 =? 0) with false. cbn [negb andb].
  assert ((if (5 <? length (b :: 1%Z :: c1 :: c2 :: c3 :: nd))%nat
           then drop 5 (b :: 1 :: c1 :: c2 :: c3 :: nd) else []) = nd) as ->.
  { cbn [drop]. by destruct nd. }
  assert ((if negb (length nd =? 0)%nat then avcc_to_annex_b nd else nd) = to_annexb nals) as Hd.
  { subst nd. rewrite <- avcc_to_annex_b_stream by done. by destruct (avcc_stream nals). }
  by rewrite Hd.
Qed.

(** Once the muxer has seen an avcC record, a video frame a publisher pushes
    reaches the players as one tag with the same codec id, packet type and NAL
    units, byte for byte; without composition offset a key or inter frame is
    relayed unchanged, timestamp included. The source takes the FLV timestamp,
    which is the decode time, for the presentation time: with an offset the
    relayed tag is stamped that much too early. *)
Theorem rtmp_relay_video b c1 c2 c3 nals codec ts :
  Forall (in_u u8_max) [c1; c2; c3] -> Forall nal_ok nals -> in_u u32_max ts ->
  video_codec (Z.land b 0x0F) = Some codec ->
  let body := [b; 1; c1; c2; c3] ++ avcc_stream nals in
  let cts := signed24 (be_val [c1; c2; c3]) in
  let key := Z.land (Z.shiftr b 4) 0x0F =? 1 in
  exists t, relay (mkFlvMux true) (video_frame ts body) = ([t], mkFlvMux true)
    /\ drop 5 (tag_payload t) = avcc_stream nals
    /\ take 2 (tag_payload t) = [(if key then 16 else 32) + flv_codec_id codec; 1]
    /\ tag_timestamp t = Z.min (Z.max (ts - cts) 0) u32_max
    /\ (cts = 0 -> b = (if key then 16 else 32) + flv_codec_id codec -> t = TVideo ts body key)
    /\ (0 < cts <= ts -> tag_timestamp t = ts - cts).
Proof.
  intros Hc Hn Hts Hcodec body cts key. unfold relay. subst body.
  rewrite (convert_units b c1 c2 c3 nals codec ts Hc Hn Hcodec). fold cts key.
  set (pkt := mkPacket _ _ _ _ _ _ _ _ _).
  assert (codec = H264 \/ codec = H265) as Hcc.
  { unfold video_codec in Hcodec. destruct (_ =? 7); [left; congruence|].
    destruct (_ =? 12); [right; congruence|done]. }
  assert (annex_b_to_avcc true (to_annexb nals) = avcc_stream nals) as Hrt.
  { pose proof (avcc_annex_b_stream nals Hn). done. }
  assert (flv_mux_process (mkFlvMux true) pkt
    = ([tag_video (video_timestamp pkt) ([(if key then 16 else 32) + flv_codec_id codec] ++
         ([1] ++ put_u24 (composition_time pkt)) ++ avcc_stream nals)], mkFlvMux true)) as ->.
  { unfold flv_mux_process, mux_video. subst pkt. cbn [pk_codec pk_is_sequence_header pk_extradata
      pk_is_keyframe pk_data as_bytes andb fm_avcc_framing]. rewrite Hrt.
    by destruct Hcc as [-> | ->], key. }
  eexists. split; [done|].
  unfold in_u, u32_max in Hts. pose proof (composition_time_range pkt).
  assert (video_timestamp pkt = Z.min (Z.max (ts - cts) 0) u32_max) as Hvt by done.
  split_and!; try done.
  - intros Hcts Hb. unfold tag_video. rewrite Hvt, Hcts.
    assert (composition_time pkt = 0) as ->.
    { unfold composition_time, sat_sub, video_pts, video_dts. subst pkt. cbn. lia. }
    assert (c1 = 0 /\ c2 = 0 /\ c3 = 0) as (-> & -> & ->).
    { subst cts. apply Forall_cons in Hc as [? Hc]. apply Forall_cons in Hc as [? Hc].
      apply Forall_cons in Hc as [? _]. unfold in_u, u8_max in *. unfold signed24, be_val, be_val_acc in Hcts.
      destruct (Z.ltb_spec (((0 * 256 + c1) * 256 + c2) * 256 + c3) (2 ^ 23)); lia. }
    rewrite put_u24_be by lia. f_equal; [unfold u32_max; lia|by rewrite <- Hb|].
    unfold is_video_keyframe. cbn. subst key. by destruct Hcc as [-> | ->], (Z.land (Z.shiftr b 4) 15 =? 1).
  - intros Hpos. cbn. rewrite Hvt. unfold u32_max. lia.
Qed.

Lemma convert_header b c1 c2 c3 r e codec ts : Forall (in_u u8_max) [c1; c2; c3] ->
  video_codec (Z.land b 0x0F) = Some codec ->
  convert_frame (video_frame ts ([b; 0] ++ [c1; c2; c3] ++ r :: e))
  = Some (mkPacket codec 0 (AnnexB (r :: e)) (Some ts) (Some (ts - signed24 (be_val [c1; c2; c3])))
      (Z.land (Z.shiftr b 4) 0x0F =? 1) true false (Some (r :: e))).
Proof.
  intros Hc Hcodec.
  change (convert_frame _) with (convert_video_frame (b :: 0 :: c1 :: c2 :: c3 :: r :: e) ts).
  unfold convert_video_frame. rewrite (extract_cts_spec b 0 c1 c2 c3 (r :: e) Hc).
  cbn [byte_at nth]. rewrite Hcodec. change (0 =? 0) with true. done.
Qed.

Lemma mux_header m codec r e pts dts key : codec = H264 \/ codec = H265 ->
  let pkt := mkPacket codec 0 (AnnexB (r :: e)) pts dts key true false (Some (r :: e)) in
  flv_mux_process m pkt
  = ([tag_video (video_timestamp pkt) ([(if key then 16 else 32) + flv_codec_id codec; 0; 0; 0; 0] ++ r :: e)],
     mkFlvMux (fm_avcc_framing m || (bool_decide (codec = H264) && (r =? 1)))).
Proof.
  intros Hcc pkt. unfold flv_mux_process, mux_video.
  assert (is_avcc_record (pk_codec pkt) (pk_extradata pkt) = bool_decide (codec = H264) && (r =? 1)) as -> by done.
  destruct m as [fm], (bool_decide (codec = H264) && (r =? 1)), fm, Hcc as [-> | ->], key; done.
Qed.

(** The codec configuration of a publisher reaches the players: an AVC or
    HEVC sequence header is relayed with its record intact, an H.264 one that
    holds an avcC record switches the muxer to length-prefixed framing, and AAC
    frames and their AudioSpecificConfig are relayed byte for byte behind the
    fixed sound byte; script data and empty frames are not relayed. *)
Theorem rtmp_relay_headers m b cts3 r e codec ts k d x :
  Forall (in_u u8_max) cts3 -> length cts3 = 3%nat -> in_u u32_max ts ->
  video_codec (Z.land b 0x0F) = Some codec -> k = 0 \/ k = 1 ->
  (let key := Z.land (Z.shiftr b 4) 0x0F =? 1 in
   exists t, relay m (video_frame ts ([b; 0] ++ cts3 ++ r :: e))
     = ([t], mkFlvMux (fm_avcc_framing m || (bool_decide (codec = H264) && (r =? 1))))
   /\ tag_payload t = [(if key then 16 else 32) + flv_codec_id codec; 0; 0; 0; 0] ++ r :: e
   /\ is_sequence_header t = true)
  /\ relay m (audio_frame ts ([0xAF; k] ++ d)) = ([TAudio ts ([0xAF; k] ++ d)], m)
  /\ relay m (mkRawFrame d ts true true true) = ([], m)
  /\ relay m (mkRawFrame [] ts x true false) = ([], m).
Proof.
  intros Hc Hl Hts Hcodec Hk. destruct cts3 as [|c1 [|c2 [|c3 [|]]]]; try done.
  unfold in_u, u32_max in Hts. split_and!.
  - assert (codec = H264 \/ codec = H265) as Hcc.
    { unfold video_codec in Hcodec. destruct (_ =? 7); [left; congruence|].
      destruct (_ =? 12); [right; congruence|done]. }
    unfold relay. rewrite (convert_header b c1 c2 c3 r e codec ts Hc Hcodec), (mux_header m codec) by done.
    eexists. split; [done|split; [done|]].
    by destruct Hcc as [-> | ->], (Z.land (Z.shiftr b 4) 15 =? 1).
  - unfold relay. assert (convert_frame (audio_frame ts ([0xAF; k] ++ d))
      = Some (mkPacket Aac 0 (AnnexB d) (Some ts) None false (k =? 0) false None)) as ->.
    { unfold convert_frame, audio_frame. cbn. unfold convert_audio_frame. by destruct d. }
    unfold flv_mux_process, mux_audio. cbn [pk_codec pk_pts_ms default pk_is_sequence_header pk_data as_bytes].
    do 2 f_equal. unfold tag_audio. f_equal; [unfold id, u32_max; lia|]. by destruct Hk as [-> | ->].
  - unfold relay, convert_frame. cbn. done.
  - unfold relay, convert_frame. cbn. done.
Qed.
