(* ===== verification/Sanitize.v ===== *)
(** * Identifiers in paths and object keys
    [livestream-pipeline/src/sanitize.rs], on strings as sequences of bytes. *)
From Stdlib Require Import Ascii String.
From stdpp Require Import strings.
From S2P Require Import Prelude.

Definition is_ascii_alphanumeric (b : ascii) : bool :=
  let n := nat_of_ascii b in
  (48 <=? n)%nat && (n <=? 57)%nat || (65 <=? n)%nat && (n <=? 90)%nat || (97 <=? n)%nat && (n <=? 122)%nat.

Definition keep (b : ascii) : bool :=
  is_ascii_alphanumeric b || bool_decide (b = "-"%char) || bool_decide (b = "_"%char).

Fixpoint sanitize_loop (bs : list ascii) (out : list ascii) : list ascii :=
  match bs with
  | [] => out
  | b :: bs =>
      if (length out =? 128)%nat then out
      else sanitize_loop bs (out ++ [if keep b then b else "_"%char])
  end.

Definition sanitize_stream_id (stream_id : string) : string :=
  let out := sanitize_loop (list_ascii_of_string stream_id) [] in
  string_of_list_ascii match out with [] => list_ascii_of_string "unnamed" | _ => out end.

Lemma sanitize_loop_spec bs out : (length out <= 128)%nat ->
  sanitize_loop bs out
  = out ++ map (fun b => if keep b then b else "_"%char) (take (128 - length out) bs).
Proof.
  revert out. induction bs as [|b bs IH]; intros out Hl; cbn [sanitize_loop].
  - rewrite take_nil. cbn. by rewrite app_nil_r.
  - destruct (Nat.eqb_spec (length out) 128) as [E|E].
    + rewrite E. cbn. by rewrite app_nil_r.
    + rewrite IH by (rewrite length_app; cbn; lia). rewrite length_app. cbn [length].
      replace (128 - length out)%nat with (S (128 - (length out + 1))) by lia. cbn [take firstn map].
      by rewrite <- app_assoc.
Qed.

Lemma keep_underscore : keep "_"%char = true.
Proof. reflexivity. Qed.

(** A character a path segment may hold. *)
Definition safe_char (b : ascii) : Prop :=
  keep b = true /\ b <> "/"%char /\ b <> "."%char /\ b <> "\"%char /\ b <> " "%char.

Lemma keep_safe b : keep b = true -> safe_char b.
Proof. intros Hk. unfold safe_char. split_and!; [done|..]; intros ->; vm_compute in Hk; done. Qed.

(** A sanitized identifier is always a safe path segment: between 1 and 128
    characters, none of which is a separator, a dot or a space; identifiers
    that already are of this form are kept as they are. *)
Theorem sanitize_is_safe id :
  let out := list_ascii_of_string (sanitize_stream_id id) in
  (1 <= length out <= 128)%nat /\ Forall safe_char out
  /\ (id <> EmptyString -> (String.length id <= 128)%nat -> Forall (fun b => keep b = true) (list_ascii_of_string id) ->
      sanitize_stream_id id = id).
Proof.
  cbn zeta. unfold sanitize_stream_id. rewrite sanitize_loop_spec by (cbn; lia). cbn [app length].
  rewrite Nat.sub_0_r. set (f := fun b => if keep b then b else "_"%char).
  set (bs := list_ascii_of_string id).
  assert (Forall safe_char (map f (take 128 bs))) as Hsafe.
  { apply List.Forall_map, Forall_true. intros b. apply keep_safe. unfold f.
    destruct (keep b) eqn:E; [done|apply keep_underscore]. }
  pose proof (firstn_le_length 128 bs) as Hlen.
  split_and!.
  - rewrite list_ascii_of_string_of_list_ascii. destruct (map f _); cbn; lia.
  - rewrite list_ascii_of_string_of_list_ascii. destruct (map f _) eqn:E; [cbn; lia|].
    by rewrite <- E, length_map.
  - rewrite list_ascii_of_string_of_list_ascii. destruct (map f _); [|exact Hsafe].
    repeat (constructor; [by apply keep_safe|]). constructor.
  - intros Hne Hl Hk. assert (String.length id = length bs) as Hl2.
    { unfold bs. clear. induction id; cbn; congruence. }
    rewrite take_ge by lia. assert (map f bs = bs) as ->.
    { fold bs in Hk. clear -Hk. induction Hk as [|b bs Hb _ IH]; cbn; [done|]. unfold f at 1. by rewrite Hb, IH. }
    destruct bs eqn:E; [by destruct id|]. rewrite <- E. apply string_of_list_ascii_of_string.
Qed.

(** Distinct identifiers may share a path segment and an object key prefix. *)
Lemma sanitize_collision : sanitize_stream_id "a/b" = sanitize_stream_id "a_b".
Proof. reflexivity. Qed.
