(* ===== verification/Config.v ===== *)
(** * Configuration
    [livestream-core/src/config.rs]: the records, their defaults and their
    validation. Where the values come from is in [Settings]. *)
From Stdlib Require Import Ascii String Floats.SpecFloat.
From stdpp Require Import strings.
From S2P Require Import Prelude.

(** ** Doubles *)

Definition f64_prec : Z := 53.
Definition f64_emax : Z := 1024.
Definition f64_of_Z (z : Z) : spec_float := binary_normalize f64_prec f64_emax z 0 false.
Definition f64_zero : spec_float := S754_zero false.

(** ** Records and defaults *)

Record SegmentConfig := mkSegmentConfig {
  sc_duration_secs : Z;
  sc_cache_dir : string;
  sc_playlist_size : nat;
  sc_minio_prefix : string;
  sc_max_staged_segments : nat;
}.
Definition SegmentConfig_default : SegmentConfig := mkSegmentConfig 10 "" 5 "hls" 100.

Record TranscodeConfig := mkTranscodeConfig {
  tc_bitrate_kbps : Z;
  tc_preset : string;
  tc_gop_secs : spec_float;
  tc_fps : option spec_float;
}.
Definition TranscodeConfig_default : TranscodeConfig := mkTranscodeConfig 4096 "medium" (f64_of_Z 2) None.

Record RtmpConfig := mkRtmpConfig {
  rm_port : Z;
  rm_app_name : string;
  rm_session_ttl_secs : Z;
  rm_max_connections : nat;
}.
Definition RtmpConfig_default : RtmpConfig := mkRtmpConfig 1935 "lives" 30 1000.

Record RtspConfig := mkRtspConfig { rs_port : Z; rs_session_ttl_secs : Z; rs_max_connections : nat }.
Definition RtspConfig_default : RtspConfig := mkRtspConfig 8554 30 1000.

Record HttpFlvConfig := mkHttpFlvConfig { hf_enabled : bool; hf_port : Z; hf_max_connections : nat }.
Definition HttpFlvConfig_default : HttpFlvConfig := mkHttpFlvConfig false 8080 2000.

Record GrpcConfig := mkGrpcConfig { gc_port : Z }.
Definition GrpcConfig_default : GrpcConfig := mkGrpcConfig 50051.

Record QueueConfig := mkQueueConfig {
  qc_rtmp_forward : Z; qc_flv_relay : Z; qc_packet_relay : Z; qc_control : Z; qc_event : Z;
}.
Definition QueueConfig_default : QueueConfig := mkQueueConfig 8192 2048 2048 1024 4096.

Record MinioConfig := mkMinioConfig { mc_uri : string; mc_access_key : string; mc_secret_key : string; mc_bucket : string }.
Record TransportConfig := mkTransport { tp_rtmp : RtmpConfig; tp_rtsp : RtspConfig }.
Record ServiceConfig := mkServices { sv_grpc : GrpcConfig; sv_http_flv : HttpFlvConfig }.
Record StorageConfig := mkStorage { st_segment : SegmentConfig; st_minio : option MinioConfig }.

Record AppConfig := mkAppConfig {
  ac_transport : TransportConfig;
  ac_services : ServiceConfig;
  ac_storage : StorageConfig;
  ac_queue : QueueConfig;
  ac_transcode : TranscodeConfig;
}.

Definition AppConfig_default : AppConfig :=
  mkAppConfig (mkTransport RtmpConfig_default RtspConfig_default)
    (mkServices GrpcConfig_default HttpFlvConfig_default)
    (mkStorage SegmentConfig_default None) QueueConfig_default TranscodeConfig_default.

(** ** [str::trim], on UTF-8 bytes *)

Definition bytes_of (s : string) : list nat := map nat_of_ascii (list_ascii_of_string s).

(** The encodings of the characters with the White_Space property. *)
Definition whitespace : list (list nat) :=
  map (fun c => [c]) [9; 10; 11; 12; 13; 32]%nat
  ++ [[0xC2; 0x85]; [0xC2; 0xA0]; [0xE1; 0x9A; 0x80]]%nat
  ++ map (fun c => [0xE2; 0x80; c]%nat) (seq 0x80 11)
  ++ [[0xE2; 0x80; 0xA8]; [0xE2; 0x80; 0xA9]; [0xE2; 0x80; 0xAF]; [0xE2; 0x81; 0x9F]; [0xE3; 0x80; 0x80]]%nat.

Definition strip_one (pats : list (list nat)) (l : list nat) : option (list nat) :=
  head (omap (fun p => if decide (take (length p) l = p) then Some (drop (length p) l) else None) pats).

Fixpoint strip_all (fuel : nat) (pats : list (list nat)) (l : list nat) : list nat :=
  match fuel with
  | O => l
  | S fuel => match strip_one pats l with Some l' => strip_all fuel pats l' | None => l end
  end.

Definition trim (l : list nat) : list nat :=
  let l := strip_all (length l) whitespace l in
  rev (strip_all (length l) (map (@rev nat) whitespace) (rev l)).

(** ** Validation *)

Inductive config_error :=
| BitrateZero | GopNotPositive | PresetEmpty | FpsNotPositive
| SegmentDurationZero | CacheDirInvalid
| RtmpTtl (ttl : Z) | RtmpPortZero | RtspTtl (ttl : Z) | RtspPortZero
| QueueCapacityZero.

Definition TranscodeConfig_validate (c : TranscodeConfig) : result config_error unit :=
  if tc_bitrate_kbps c =? 0 then Err BitrateZero
  else if SFleb (tc_gop_secs c) f64_zero then Err GopNotPositive
  else if bool_decide (tc_preset c = "") then Err PresetEmpty
  else match tc_fps c with
       | Some fps => if SFleb fps f64_zero then Err FpsNotPositive else Ok tt
       | None => Ok tt
       end.

Definition StorageConfig_validate (c : StorageConfig) : result config_error unit :=
  if sc_duration_secs (st_segment c) =? 0 then Err SegmentDurationZero
  else
    let cache_dir := trim (bytes_of (sc_cache_dir (st_segment c))) in
    if bool_decide (cache_dir = bytes_of ".") || bool_decide (cache_dir = bytes_of "..") then Err CacheDirInvalid
    else Ok tt.

Definition MIN_SESSION_TTL_SECS : Z := 1.
Definition MAX_SESSION_TTL_SECS : Z := 86400.

Definition RtmpConfig_validate (c : RtmpConfig) : result config_error unit :=
  let ttl := rm_session_ttl_secs c in
  if negb ((MIN_SESSION_TTL_SECS <=? ttl) && (ttl <=? MAX_SESSION_TTL_SECS)) then Err (RtmpTtl ttl)
  else if rm_port c =? 0 then Err RtmpPortZero else Ok tt.

Definition RtspConfig_validate (c : RtspConfig) : result config_error unit :=
  let ttl := rs_session_ttl_secs c in
  if negb ((MIN_SESSION_TTL_SECS <=? ttl) && (ttl <=? MAX_SESSION_TTL_SECS)) then Err (RtspTtl ttl)
  else if rs_port c =? 0 then Err RtspPortZero else Ok tt.

Definition TransportConfig_validate (c : TransportConfig) : result config_error unit :=
  let? _ := RtmpConfig_validate (tp_rtmp c) in RtspConfig_validate (tp_rtsp c).

Definition QueueConfig_validate (c : QueueConfig) : result config_error unit :=
  if (qc_rtmp_forward c =? 0) || (qc_flv_relay c =? 0) || (qc_packet_relay c =? 0)
     || (qc_control c =? 0) || (qc_event c =? 0)
  then Err QueueCapacityZero else Ok tt.

Definition AppConfig_validate (c : AppConfig) : result config_error unit :=
  let? _ := TransportConfig_validate (ac_transport c) in
  let? _ := StorageConfig_validate (ac_storage c) in
  let? _ := QueueConfig_validate (ac_queue c) in
  TranscodeConfig_validate (ac_transcode c).

(** ** What a validated configuration guarantees *)

Record config_valid (c : AppConfig) : Prop := {
  cv_rtmp_ttl : 1 <= rm_session_ttl_secs (tp_rtmp (ac_transport c)) <= 86400;
  cv_rtsp_ttl : 1 <= rs_session_ttl_secs (tp_rtsp (ac_transport c)) <= 86400;
  cv_ports : rm_port (tp_rtmp (ac_transport c)) <> 0 /\ rs_port (tp_rtsp (ac_transport c)) <> 0;
  cv_segment : sc_duration_secs (st_segment (ac_storage c)) <> 0;
  cv_cache : trim (bytes_of (sc_cache_dir (st_segment (ac_storage c)))) <> bytes_of "."
             /\ trim (bytes_of (sc_cache_dir (st_segment (ac_storage c)))) <> bytes_of "..";
  cv_queues : Forall (fun q => q <> 0) [qc_rtmp_forward (ac_queue c); qc_flv_relay (ac_queue c);
                qc_packet_relay (ac_queue c); qc_control (ac_queue c); qc_event (ac_queue c)];
  cv_transcode : tc_bitrate_kbps (ac_transcode c) <> 0 /\ tc_preset (ac_transcode c) <> ""
    /\ SFleb (tc_gop_secs (ac_transcode c)) f64_zero = false
    /\ (forall fps, tc_fps (ac_transcode c) = Some fps -> SFleb fps f64_zero = false);
}.

Lemma ttl_range ttl : negb ((MIN_SESSION_TTL_SECS <=? ttl) && (ttl <=? MAX_SESSION_TTL_SECS)) = false
  <-> 1 <= ttl <= 86400.
Proof. unfold MIN_SESSION_TTL_SECS, MAX_SESSION_TTL_SECS. rewrite negb_false_iff, andb_true_iff, !Z.leb_le. done. Qed.

Lemma rtmp_validate_iff c : RtmpConfig_validate c = Ok tt
  <-> 1 <= rm_session_ttl_secs c <= 86400 /\ rm_port c <> 0.
Proof.
  unfold RtmpConfig_validate. rewrite <- ttl_range. destruct (negb _); [split; [done|by intros [? _]]|].
  destruct (Z.eqb_spec (rm_port c) 0); split; try done. by intros [_ ?].
Qed.

Lemma rtsp_validate_iff c : RtspConfig_validate c = Ok tt
  <-> 1 <= rs_session_ttl_secs c <= 86400 /\ rs_port c <> 0.
Proof.
  unfold RtspConfig_validate. rewrite <- ttl_range. destruct (negb _); [split; [done|by intros [? _]]|].
  destruct (Z.eqb_spec (rs_port c) 0); split; try done. by intros [_ ?].
Qed.

Lemma storage_validate_iff c : StorageConfig_validate c = Ok tt
  <-> sc_duration_secs (st_segment c) <> 0
      /\ trim (bytes_of (sc_cache_dir (st_segment c))) <> bytes_of "."
      /\ trim (bytes_of (sc_cache_dir (st_segment c))) <> bytes_of "..".
Proof.
  unfold StorageConfig_validate. destruct (Z.eqb_spec (sc_duration_secs (st_segment c)) 0);
    [split; [done|by intros [? _]]|].
  set (d := trim _). destruct (bool_decide_reflect (d = bytes_of ".")), (bool_decide_reflect (d = bytes_of ".."));
    cbn [orb]; split; try done; by intros (_ & ? & ?).
Qed.

Lemma queue_validate_iff c : QueueConfig_validate c = Ok tt
  <-> Forall (fun q => q <> 0) [qc_rtmp_forward c; qc_flv_relay c; qc_packet_relay c; qc_control c; qc_event c].
Proof.
  unfold QueueConfig_validate. rewrite !Forall_cons.
  match goal with |- context [if ?b then _ else _] => destruct b eqn:E end.
  - split; [done|]. intros (? & ? & ? & ? & ? & _).
    repeat (apply orb_true_iff in E as [E|E]); by apply Z.eqb_eq in E.
  - split; [|done]. intros _. rewrite !orb_false_iff, !Z.eqb_neq in E.
    destruct_and? E. split_and!; try done.
Qed.

Lemma transcode_validate_iff c : TranscodeConfig_validate c = Ok tt
  <-> tc_bitrate_kbps c <> 0 /\ tc_preset c <> "" /\ SFleb (tc_gop_secs c) f64_zero = false
      /\ (forall fps, tc_fps c = Some fps -> SFleb fps f64_zero = false).
Proof.
  unfold TranscodeConfig_validate. destruct (Z.eqb_spec (tc_bitrate_kbps c) 0); [split; [done|by intros [? _]]|].
  destruct (SFleb (tc_gop_secs c) f64_zero); [split; [done|by intros (_ & _ & ? & _)]|].
  destruct (bool_decide_reflect (tc_preset c = "")); [split; [done|by intros (_ & ? & _)]|].
  destruct (tc_fps c) as [fps|]; [|by split].
  destruct (SFleb fps f64_zero) eqn:E.
  - split; [done|]. intros (_ & _ & _ & Hf). specialize (Hf fps eq_refl). congruence.
  - split; [|done]. intros _. split_and!; try done. by intros ? [= <-].
Qed.

Lemma bind_unit_Ok {E} (r : result E unit) (k : unit -> result E unit) :
  res_bind r k = Ok tt <-> r = Ok tt /\ k tt = Ok tt.
Proof. destruct r as [[]|e]; cbn; [tauto|]. split; [done|]. by intros [? _]. Qed.

(** Validation accepts exactly the configurations with both session TTLs
    between one second and a day, non-zero ports, segment duration and queue
    capacities, a cache directory other than the dot directories, a non-zero
    bitrate, a named preset, and a GOP length and frame rate that are not zero
    or below; the defaults pass. *)
Theorem config_validate_iff c :
  (AppConfig_validate c = Ok tt <-> config_valid c) /\ AppConfig_validate AppConfig_default = Ok tt.
Proof.
  split; [|vm_compute; reflexivity].
  unfold AppConfig_validate, TransportConfig_validate.
  rewrite !bind_unit_Ok, rtmp_validate_iff, rtsp_validate_iff, storage_validate_iff, queue_validate_iff,
    transcode_validate_iff. split.
  - intros (([] & []) & (? & []) & ? & ?). by split.
  - intros [? ? [] ? ? ? ?]. tauto.
Qed.
