(* ===== verification/Settings.v ===== *)
(** * Where the configuration comes from
    [livestream-core/src/config.rs] (AppConfig::new), [src/config.rs]: the layers
    of settings, what each field is read from, and the one load of the process. A
    layer is what the [config] crate makes of a source, as a map from dotted keys
    to values; how it converts a value to a type is a parameter. *)
From Stdlib Require Import Ascii String Floats.SpecFloat.
From stdpp Require Import strings gmap.
From S2P Require Import Prelude Config.

Section Settings.
(** A value, [Value::from] of a string, and the conversions of the crate; the first
    has the maximum of the integer type. *)
Context {V : Type} (of_string : string -> V).
Context (as_uint : Z -> V -> option Z) (as_bool : V -> option bool) (as_string : V -> option string)
        (as_f64 : V -> option spec_float).
Abbreviation layer := (gmap string V).

(** ** Reading the fields *)

(** A field with a default: a value that cannot be converted is an error. *)
Definition field {A} (m : layer) (key : string) (conv : V -> option A) (dflt : A) : option A :=
  match m !! key with None => Some dflt | Some v => conv v end.

Definition as_usize (v : V) : option nat := Z.to_nat <$> as_uint u64_max v.

Definition read_rtmp (m : layer) : option RtmpConfig :=
  port ← field m "rtmp.port" (as_uint u16_max) 1935;
  app_name ← field m "rtmp.app_name" as_string "lives"%string;
  ttl ← field m "rtmp.session_ttl_secs" (as_uint u64_max) 30;
  connections ← field m "rtmp.max_connections" as_usize 1000%nat;
  Some (mkRtmpConfig port app_name ttl connections).

Definition read_rtsp (m : layer) : option RtspConfig :=
  port ← field m "rtsp.port" (as_uint u16_max) 8554;
  ttl ← field m "rtsp.session_ttl_secs" (as_uint u64_max) 30;
  connections ← field m "rtsp.max_connections" as_usize 1000%nat;
  Some (mkRtspConfig port ttl connections).

Definition read_services (m : layer) : option ServiceConfig :=
  grpc ← field m "grpc.port" (as_uint u16_max) 50051;
  enabled ← field m "http_flv.enabled" as_bool false;
  port ← field m "http_flv.port" (as_uint u16_max) 8080;
  connections ← field m "http_flv.max_connections" as_usize 2000%nat;
  Some (mkServices (mkGrpcConfig grpc) (mkHttpFlvConfig enabled port connections)).

Definition read_segment (m : layer) : option SegmentConfig :=
  duration ← field m "segment.duration_secs" (as_uint u64_max) 10;
  cache_dir ← field m "segment.cache_dir" as_string ""%string;
  size ← field m "segment.playlist_size" as_usize 5%nat;
  prefix ← field m "segment.minio_prefix" as_string "hls"%string;
  staged ← field m "segment.max_staged_segments" as_usize 100%nat;
  Some (mkSegmentConfig duration cache_dir size prefix staged).

(** An optional section, whose fields are all required. *)
Definition has_minio (m : layer) : bool :=
  negb (bool_decide (filter (fun '(key, _) => String.prefix "minio." key = true) m = ∅)).

Definition read_minio (m : layer) : option (option MinioConfig) :=
  if has_minio m then
    uri ← m !! "minio.uri"%string ≫= as_string;
    access_key ← m !! "minio.access_key"%string ≫= as_string;
    secret_key ← m !! "minio.secret_key"%string ≫= as_string;
    bucket ← m !! "minio.bucket"%string ≫= as_string;
    Some (Some (mkMinioConfig uri access_key secret_key bucket))
  else Some None.

Definition read_queue (m : layer) : option QueueConfig :=
  rtmp_forward ← field m "queue.rtmp_forward" (as_uint u64_max) 8192;
  flv_relay ← field m "queue.flv_relay" (as_uint u64_max) 2048;
  packet_relay ← field m "queue.packet_relay" (as_uint u64_max) 2048;
  control ← field m "queue.control" (as_uint u64_max) 1024;
  event ← field m "queue.event" (as_uint u64_max) 4096;
  Some (mkQueueConfig rtmp_forward flv_relay packet_relay control event).

Definition read_transcode (m : layer) : option TranscodeConfig :=
  bitrate ← field m "transcode.bitrate_kbps" (as_uint u64_max) 4096;
  preset ← field m "transcode.preset" as_string "medium"%string;
  gop ← field m "transcode.gop_secs" as_f64 (f64_of_Z 2);
  fps ← field m "transcode.fps" (fun v => Some <$> as_f64 v) None;
  Some (mkTranscodeConfig bitrate preset gop fps).

(** [AppConfig]'s [Deserialize]: the flattened groups read from the top level. *)
Definition read_config (m : layer) : option AppConfig :=
  rtmp ← read_rtmp m;
  rtsp ← read_rtsp m;
  services ← read_services m;
  segment ← read_segment m;
  minio ← read_minio m;
  queue ← read_queue m;
  transcode ← read_transcode m;
  Some (mkAppConfig (mkTransport rtmp rtsp) services (mkStorage segment minio) queue transcode).

(** ** The layers *)

(** The overrides, from variables of their own. *)
Definition legacy_keys : list (string * string) :=
  [("minio.uri", "MINIO_URI"); ("minio.access_key", "MINIO_ACCESSKEY");
   ("minio.secret_key", "MINIO_SECRETKEY"); ("minio.bucket", "MINIO_BUCKET")]%string.

(** The variable that overrides a setting. *)
Definition legacy_var (key : string) : option string := snd <$> List.find (fun k => String.eqb (fst k) key) legacy_keys.

Definition overrides (var : string -> option string) : layer :=
  list_to_map (omap (fun '(key, name) => (fun v => (key, of_string v)) <$> var name) legacy_keys).

(** Later sources win, overrides over all. *)
Definition merged (file env : layer) (var : string -> option string) : layer := overrides var ∪ (env ∪ file).

Inductive settings_error := BuildFailed | DeserializeFailed | Rejected (e : config_error).

(** [AppConfig::new]. [None]: a source that cannot be read; a missing file is empty. *)
Definition AppConfig_new (file env : option layer) (var : string -> option string) : result settings_error AppConfig :=
  match file, env with
  | Some file, Some env =>
      match read_config (merged file env var) with
      | None => Err DeserializeFailed
      | Some settings =>
          match AppConfig_validate settings with Ok _ => Ok settings | Err e => Err (Rejected e) end
      end
  | _, _ => Err BuildFailed
  end.

(** [load_config]: the cell of the process; [None]: a panic. *)
Definition load_config (cell : option AppConfig) (file env : option layer) (var : string -> option string) :
    option (AppConfig * option AppConfig) :=
  match cell with
  | Some c => Some (c, cell)
  | None => match AppConfig_new file env var with Ok c => Some (c, Some c) | Err _ => None end
  end.

(** ** What is read, and what is not *)

Definition settings_keys : list string :=
  ["rtmp.port"; "rtmp.app_name"; "rtmp.session_ttl_secs"; "rtmp.max_connections"; "rtsp.port"; "rtsp.session_ttl_secs";
   "rtsp.max_connections"; "grpc.port"; "http_flv.enabled"; "http_flv.port"; "http_flv.max_connections";
   "segment.duration_secs"; "segment.cache_dir"; "segment.playlist_size"; "segment.minio_prefix";
   "segment.max_staged_segments"; "queue.rtmp_forward"; "queue.flv_relay"; "queue.packet_relay"; "queue.control";
   "queue.event"; "transcode.bitrate_kbps"; "transcode.preset"; "transcode.gop_secs"; "transcode.fps"]%string.

Definition is_setting (key : string) : bool := existsb (String.eqb key) settings_keys || String.prefix "minio." key.

(** The settings are all that is looked at. *)
Lemma read_config_ext m1 m2 : (forall key, is_setting key = true -> m1 !! key = m2 !! key) ->
  read_config m1 = read_config m2.
Proof.
  intros Hk. assert (has_minio m1 = has_minio m2) as Hm.
  { unfold has_minio. do 2 f_equal. assert (filter (fun '(key, _) => String.prefix "minio." key = true) m1
      = filter (fun '(key, _) => String.prefix "minio." key = true) m2) as ->; [|done].
    apply map_eq. intros key. destruct (decide (String.prefix "minio." key = true)) as [Hp|Hp].
    - rewrite !map_lookup_filter, (Hk key); [done|]. unfold is_setting. by rewrite Hp, orb_true_r.
    - transitivity (@None V); [|symmetry]; apply map_lookup_filter_None; right; by intros v _. }
  unfold read_config, read_rtmp, read_rtsp, read_services, read_segment, read_minio, read_queue, read_transcode, field.
  rewrite Hm. repeat match goal with |- context [m1 !! ?key] => rewrite (Hk key eq_refl) end. reflexivity.
Qed.

Lemma merged_lookup file env var key : merged file env var !! key
  = match overrides var !! key with Some v => Some v
    | None => match env !! key with Some v => Some v | None => file !! key end end.
Proof.
  unfold merged. destruct (overrides var !! key) as [v|] eqn:E; [by apply lookup_union_Some_l|].
  rewrite lookup_union_r by done. destruct (env !! key) as [v|] eqn:E2; [by apply lookup_union_Some_l|by apply lookup_union_r].
Qed.

Lemma overrides_lookup var key : overrides var !! key = of_string <$> (legacy_var key ≫= var).
Proof.
  unfold overrides, legacy_var. cbn [legacy_keys omap list_omap List.find fst snd].
  destruct (String.eqb_spec "minio.uri" key) as [<-|H1]; [|destruct (String.eqb_spec "minio.access_key" key) as [<-|H2];
    [|destruct (String.eqb_spec "minio.secret_key" key) as [<-|H3]; [|destruct (String.eqb_spec "minio.bucket" key) as [<-|H4]]]].
  all: cbn; destruct (var "MINIO_URI"%string), (var "MINIO_ACCESSKEY"%string), (var "MINIO_SECRETKEY"%string), (var "MINIO_BUCKET"%string);
    cbn; by simplify_map_eq.
Qed.

Lemma read_config_minio m c : read_config m = Some c ->
  has_minio m = is_some (st_minio (ac_storage c))
  /\ forall mc, st_minio (ac_storage c) = Some mc ->
     map (fun k => m !! fst k ≫= as_string) legacy_keys = map Some [mc_uri mc; mc_access_key mc; mc_secret_key mc; mc_bucket mc].
Proof.
  intros Hr. unfold read_config in Hr. repeat (apply bind_Some in Hr as (? & ? & Hr)). injection Hr as <-. cbn [ac_storage st_minio].
  match goal with H : read_minio m = Some ?mi |- _ => unfold read_minio in H; revert H end.
  destruct (has_minio m); [|intros [= <-]; by split].
  intros Hm. repeat (apply bind_Some in Hm as (? & ? & Hm)). injection Hm as <-. split; [done|]. intros mc [= <-]. cbn.
  by repeat match goal with E : _ ≫= _ = Some _ |- _ => rewrite E; clear E end.
Qed.
End Settings.

(** The process starts with a configuration that validation accepts or not at all.
    Without any source it is the defaults. Every setting is that of the last source
    that has it: the four variables of the store, then the environment, then the
    file; the store is configured as soon as one of its settings is there, and then
    all four of them have to be. Nothing else is read: the sections [transport],
    [services] and [storage], say, which are only groups of the program. And it is
    loaded once. *)
Theorem settings_layers {V} of_string as_uint as_bool as_string as_f64 (file env : gmap string V) var :
  let new f e v := AppConfig_new of_string as_uint as_bool as_string as_f64 (Some f) (Some e) v in
  let m := merged of_string file env var in
  new ∅ ∅ (fun _ => None) = Ok AppConfig_default
  /\ (forall c, new file env var = Ok c -> config_valid c /\ read_config as_uint as_bool as_string as_f64 m = Some c
      /\ (has_minio m = is_some (st_minio (ac_storage c)))
      /\ forall mc, st_minio (ac_storage c) = Some mc ->
         map (fun k => m !! fst k ≫= as_string) legacy_keys = map Some [mc_uri mc; mc_access_key mc; mc_secret_key mc; mc_bucket mc])
  /\ (forall key, m !! key
        = match legacy_var key ≫= var with Some s => Some (of_string s)
          | None => match env !! key with Some v => Some v | None => file !! key end end)
  /\ (forall key v, is_setting key = false -> new (<[key := v]> file) env var = new file env var)
  /\ (forall suffix, is_setting ("transport." +:+ suffix) = false /\ is_setting ("services." +:+ suffix) = false
        /\ is_setting ("storage." +:+ suffix) = false)
  /\ (forall cell c cell', load_config of_string as_uint as_bool as_string as_f64 cell (Some file) (Some env) var = Some (c, cell') ->
      forall f e v, load_config of_string as_uint as_bool as_string as_f64 cell' f e v = Some (c, cell')).
Proof.
  intros new m. split_and!; try (by intros suffix).
  - unfold new, AppConfig_new. change (merged of_string ∅ ∅ (fun _ => None)) with (∅ : gmap string V).
    assert (read_config as_uint as_bool as_string as_f64 (∅ : gmap string V) = Some AppConfig_default) as -> by (vm_compute; reflexivity).
    by rewrite (proj2 (config_validate_iff AppConfig_default)).
  - intros c. unfold new, AppConfig_new. fold m. destruct (read_config _ _ _ _ m) as [c'|] eqn:Er; [|done].
    destruct (AppConfig_validate c') as [[]|] eqn:Ev; [|done]. intros [= ->].
    split; [by apply config_validate_iff|]. split; [done|]. by apply (read_config_minio as_uint as_bool as_string as_f64).
  - intros key. unfold m. by rewrite merged_lookup, overrides_lookup; destruct (legacy_var key ≫= var).
  - intros key v Hk. unfold new, AppConfig_new. rewrite (read_config_ext as_uint as_bool as_string as_f64 _ (merged of_string file env var)); [done|].
    intros key' Hk'. rewrite !merged_lookup. rewrite lookup_insert_ne; [done|]. intros ->. congruence.
  - intros cell c cell' Hl f e v. unfold load_config in *. destruct cell as [c0|]; [by injection Hl as -> <-|].
    destruct (AppConfig_new _ _ _ _ _ _ _ _) as [c0|]; [|done]. by injection Hl as -> <-.
Qed.
