(* ===== verification/Hls.v ===== *)
(** * HLS segmenter
    [livestream-pipeline/src/processor/hls_segment.rs]. FFmpeg's MPEG-TS muxer is
    represented by what the segmenter gives it: the buffer of a context is the
    list of frames written since the context was created, and every call that
    can fail reads its outcome from an environment record. Durations are in
    nanoseconds; the seconds of a playlist are IEEE doubles. *)
From Stdlib Require Import Ascii String Floats.SpecFloat Sorting.Sorted.
From stdpp Require Import strings pretty.
From S2P Require Import Prelude Types Tokio Sanitize Config.

(** ** Workspace *)

Definition pad_zeros (n : nat) (s : string) : string :=
  string_of_list_ascii (replicate (n - String.length s) "0"%char) +:+ s.

(** [format!("segment_{:04}.ts", sequence)]. *)
Definition segment_filename (sequence : Z) : string :=
  "segment_" +:+ pad_zeros 4 (pretty (Z.to_N sequence)) +:+ ".ts".

(** The two directories of a stream; [segment_dir] is the random temporary one. *)
Record SegmentWorkspace := mkWorkspace { ws_segment_dir : string; ws_upload_dir : string }.

Definition path_join (a b : string) : string := a +:+ "/" +:+ b.

Definition workspace_new (stream_id : string) (cache_root random : string) : SegmentWorkspace :=
  let safe := sanitize_stream_id stream_id in
  mkWorkspace (path_join cache_root ("livestream-rs-segment-" +:+ safe +:+ "-" +:+ random))
              (path_join (path_join cache_root "livestream-rs-artifacts") safe).

Definition playlist_path (ws : SegmentWorkspace) : string := path_join (ws_upload_dir ws) "index.m3u8".

(** ** Playlist *)

(** [Duration::as_secs_f64]: the seconds plus the fraction of a second. *)
Definition as_secs_f64 (d : Z) : spec_float :=
  SFadd f64_prec f64_emax (f64_of_Z (d / 1000000000))
        (SFdiv f64_prec f64_emax (f64_of_Z (d mod 1000000000)) (f64_of_Z 1000000000)).

(** [x.ceil() as u64], saturating. *)
Definition ceil_u64 (x : spec_float) : Z :=
  match x with
  | S754_finite false m e =>
      Z.min u64_max (if 0 <=? e then Zpos m * 2 ^ e else (Zpos m + 2 ^ (- e) - 1) / 2 ^ (- e))
  | S754_infinity false => u64_max
  | _ => 0
  end.

(** [{:.3}]: the exact value rounded to thousandths, ties to even. *)
Definition round_half_even (num den : Z) : Z :=
  let q := num / den in
  let r := num mod den in
  if 2 * r <? den then q else if den <? 2 * r then q + 1 else if Z.even q then q else q + 1.

Definition fmt_3 (x : spec_float) : string :=
  match x with
  | S754_finite s m e =>
      let n := if 0 <=? e then Zpos m * 2 ^ e * 1000 else round_half_even (Zpos m * 1000) (2 ^ (- e)) in
      (if s then "-" else "") +:+ pretty (Z.to_N (n / 1000)) +:+ "." +:+ pad_zeros 3 (pretty (Z.to_N (n mod 1000)))
  | S754_zero s => (if s then "-" else "") +:+ "0.000"
  | S754_infinity s => (if s then "-" else "") +:+ "inf"
  | S754_nan => "NaN"
  end.

Record PlaylistEntry := mkPlaylistEntry { pe_filename : string; pe_duration : spec_float }.

Record PlaylistState := mkPlaylist {
  pl_playlist_size : nat;
  pl_entries : list PlaylistEntry;
  pl_media_sequence : Z;
}.

Definition playlist_new (cfg : SegmentConfig) : PlaylistState :=
  mkPlaylist (Nat.max (sc_playlist_size cfg) 1) [] 0.

(** The while loop that makes room; each turn removes one entry. *)
Fixpoint pop_front_while (size : nat) (entries : list PlaylistEntry) (seq : Z) : list PlaylistEntry * Z :=
  match entries with
  | [] => ([], seq)
  | e :: rest =>
      if (size <=? length (e :: rest))%nat then pop_front_while size rest (seq + 1) else (e :: rest, seq)
  end.

Definition push_segment (pl : PlaylistState) (filename : string) (duration : Z) : PlaylistState :=
  let '(entries, seq) := pop_front_while (pl_playlist_size pl) (pl_entries pl) (pl_media_sequence pl) in
  mkPlaylist (pl_playlist_size pl) (entries ++ [mkPlaylistEntry filename (as_secs_f64 duration)]) seq.

Definition nl : string := String "010"%char EmptyString.

Definition render (pl : PlaylistState) (is_final : bool) : string :=
  let durations := map (fun e => ceil_u64 (pe_duration e)) (pl_entries pl) in
  let max_dur := match durations with [] => 1 | d :: ds => foldl Z.max d ds end in
  "#EXTM3U" +:+ nl +:+ "#EXT-X-VERSION:3" +:+ nl
  +:+ "#EXT-X-TARGETDURATION:" +:+ pretty (Z.to_N max_dur) +:+ nl
  +:+ "#EXT-X-MEDIA-SEQUENCE:" +:+ pretty (Z.to_N (pl_media_sequence pl)) +:+ nl
  +:+ foldr (fun e s => "#EXTINF:" +:+ fmt_3 (pe_duration e) +:+ "," +:+ nl +:+ pe_filename e +:+ nl +:+ s)
        "" (pl_entries pl)
  +:+ (if is_final then "#EXT-X-ENDLIST" +:+ nl else "").

(** ** Segment state *)

Record SegmentState := mkSegState {
  ss_first_pts : option Z;
  ss_last_pts : option Z;
  ss_has_keyframe : bool;
}.

Definition elapsed (s : SegmentState) : option Z :=
  match ss_first_pts s, ss_last_pts s with
  | Some first, Some last => if first <? last then Some (from_millis (last - first)) else None
  | _, _ => None
  end.

Definition segment_reset : SegmentState := mkSegState None None false.

(** ** The muxer *)

(** A frame given to the TS muxer: its stream, its 90 kHz time and its packet. *)
Record MuxFrame := mkFrame { mf_stream : nat; mf_ts : Z; mf_packet : EncodedPacket }.

(** [hms_ctx]: whether there is an output context. *)
Record HlsMuxerState := mkMuxer {
  hms_ctx : bool;
  hms_ts_buffer : list MuxFrame;
  hms_next_sequence : Z;
  hms_last_dts : Z;
}.

(** A write of the playlist file: done, refused before the file was opened, or
    failed with the first [n] bytes of the text in the truncated file. *)
Inductive playlist_write := PlaylistWritten | PlaylistUntouched | PlaylistCut (n : nat).

(** The outcomes of the calls outside the segmenter during one [process] or [close]. *)
Record HlsEnv := mkEnv {
  he_packet : bool;      (* to_av_packet *)
  he_write : bool;       (* write_frame *)
  he_trailer : bool;     (* write_trailer *)
  he_create : bool;      (* HlsOutputContext::create and write_header in rollover *)
  he_files : bool;       (* write_ts_file and stage_segment *)
  he_recreate : bool;    (* the same in recreate_muxer_ctx *)
  he_playlist : playlist_write;    (* write_playlist or write_final_playlist *)
}.

Definition env_ok : HlsEnv := mkEnv true true true true true true PlaylistWritten.

Record HlsSegmenter := mkSegmenter {
  hs_codec_index : Codec -> option nat;
  hs_segment_duration : Z;
  hs_muxer : HlsMuxerState;
  hs_segmenter : SegmentState;
  hs_playlist : PlaylistState;
  hs_workspace : SegmentWorkspace;
  hs_playlist_file : option string;
}.

Definition with_muxer (h : HlsSegmenter) (m : HlsMuxerState) : HlsSegmenter :=
  mkSegmenter (hs_codec_index h) (hs_segment_duration h) m (hs_segmenter h) (hs_playlist h)
              (hs_workspace h) (hs_playlist_file h).
Definition with_segmenter (h : HlsSegmenter) (s : SegmentState) : HlsSegmenter :=
  mkSegmenter (hs_codec_index h) (hs_segment_duration h) (hs_muxer h) s (hs_playlist h)
              (hs_workspace h) (hs_playlist_file h).
Definition with_playlist (h : HlsSegmenter) (pl : PlaylistState) (file : option string) : HlsSegmenter :=
  mkSegmenter (hs_codec_index h) (hs_segment_duration h) (hs_muxer h) (hs_segmenter h) pl
              (hs_workspace h) file.

(** The first stream of each codec, in collection order. *)
Fixpoint codec_stream_index (codecs : list Codec) (index : nat) (c : Codec) : option nat :=
  match codecs with
  | [] => None
  | c' :: codecs => if decide (c' = c) then Some index else codec_stream_index codecs (S index) c
  end.

Definition segmenter_new (codecs : list Codec) (cfg : SegmentConfig) (ws : SegmentWorkspace) : HlsSegmenter :=
  mkSegmenter (codec_stream_index codecs 0) (from_secs (sc_duration_secs cfg))
              (mkMuxer true [] 0 0) segment_reset (playlist_new cfg) ws None.

Inductive hls_error := ToAvPacket | NoContext | WriteFrame | WriteTrailer | CreateContext | SegmentFiles.

(** [write_packet]: on the path to the muxer the clock has already moved on when
    the write fails. *)
Definition write_packet (env : HlsEnv) (h : HlsSegmenter) (pkt : EncodedPacket) :
    result hls_error unit * HlsSegmenter :=
  if negb (he_packet env) then (Err ToAvPacket, h)
  else match hs_codec_index h (pk_codec pkt) with
       | None => (Ok tt, h)
       | Some muxer_idx =>
           let muxer := hs_muxer h in
           let orig_pts := default 0 ((fun pts => pts * 90) <$> pk_pts_ms pkt) in
           let next := Z.max orig_pts (hms_last_dts muxer + 1) in
           let moved buffer := with_muxer h (mkMuxer (hms_ctx muxer) buffer (hms_next_sequence muxer) next) in
           if negb (hms_ctx muxer) then (Err NoContext, moved (hms_ts_buffer muxer))
           else if negb (he_write env) then (Err WriteFrame, moved (hms_ts_buffer muxer))
           else (Ok tt, moved (hms_ts_buffer muxer ++ [mkFrame muxer_idx next pkt]))
       end.

(** [rollover]: the frames of the closed context, and the segment that names
    their file. *)
Definition rollover (env : HlsEnv) (h : HlsSegmenter) (duration : Z) :
    result hls_error (TsSegment * list MuxFrame) * HlsSegmenter :=
  let muxer := hs_muxer h in
  if hms_ctx muxer && negb (he_trailer env) then (Err WriteTrailer, h)
  else
    let seq := hms_next_sequence muxer in
    let ts_data := hms_ts_buffer muxer in
    if negb (he_create env)
    then (Err CreateContext, with_muxer h (mkMuxer (hms_ctx muxer) [] (seq + 1) (hms_last_dts muxer)))
    else
      let h := with_muxer h (mkMuxer true [] (seq + 1) 0) in
      if negb (he_files env) then (Err SegmentFiles, h)
      else
        let filename := segment_filename seq in
        (Ok (mkSegment (path_join (ws_upload_dir (hs_workspace h)) filename) filename seq duration false,
             ts_data), h).

Definition reset_after_write_error (env : HlsEnv) (h : HlsSegmenter) : HlsSegmenter :=
  let h := with_segmenter h segment_reset in
  with_muxer h (mkMuxer (he_recreate env) [] (hms_next_sequence (hs_muxer h)) 0).

Definition write_packet_or_reset (env : HlsEnv) (h : HlsSegmenter) (pkt : EncodedPacket) : HlsSegmenter :=
  match write_packet env h pkt with
  | (Ok _, h) => h
  | (Err _, h) => reset_after_write_error env h
  end.

(** The segment state after a packet, and whether it closes the segment. *)
Definition observe (h : HlsSegmenter) (pkt : EncodedPacket) : bool * Z * SegmentState :=
  let state := hs_segmenter h in
  let first := match ss_first_pts state with None => pk_pts_ms pkt | f => f end in
  let state := mkSegState first (pk_pts_ms pkt) (ss_has_keyframe state || pk_is_keyframe pkt) in
  let el := default 0 (elapsed state) in
  ((hs_segment_duration h <=? el) && (pk_is_keyframe pkt || negb (ss_has_keyframe state)), el, state).

Definition push_and_write (env : HlsEnv) (h : HlsSegmenter) (seg : TsSegment) (is_final : bool) : HlsSegmenter :=
  let playlist := push_segment (hs_playlist h) (ts_filename seg) (ts_duration seg) in
  with_playlist h playlist (match he_playlist env with
    | PlaylistWritten => Some (render playlist is_final)
    | PlaylistUntouched => hs_playlist_file h
    | PlaylistCut n => Some (String.substring 0 n (render playlist is_final))
    end).

Definition hls_process (env : HlsEnv) (h : HlsSegmenter) (pkt : EncodedPacket) :
    result hls_error (list (TsSegment * list MuxFrame)) * HlsSegmenter :=
  if pk_is_sequence_header pkt then (Ok [], h)
  else
    let '(should_rollover, el, state) := observe h pkt in
    let h := with_segmenter h state in
    if should_rollover then
      match rollover env h el with
      | (Err e, h) => (Err e, h)
      | (Ok seg, h) =>
          let h := with_segmenter h (mkSegState (pk_pts_ms pkt) (pk_pts_ms pkt) (pk_is_keyframe pkt)) in
          let h := push_and_write env h (fst seg) false in
          (Ok [seg], write_packet_or_reset env h pkt)
      end
    else (Ok [], write_packet_or_reset env h pkt).

(** [close]: the segment sent to the output pads. *)
Definition hls_close (env : HlsEnv) (h : HlsSegmenter) :
    result hls_error (TsSegment * list MuxFrame) * HlsSegmenter :=
  let duration := default 0 (elapsed (hs_segmenter h)) in
  match rollover env h duration with
  | (Err e, h) => (Err e, h)
  | (Ok (seg, ts_data), h) =>
      let seg := mkSegment (ts_path seg) (ts_filename seg) (ts_sequence seg) (ts_duration seg) true in
      (Ok (seg, ts_data), push_and_write env h seg true)
  end.

(** A run: the packets in order, each with the outcomes met while it was processed. *)
Fixpoint hls_run (h : HlsSegmenter) (pkts : list (HlsEnv * EncodedPacket)) :
    list (TsSegment * list MuxFrame) * HlsSegmenter :=
  match pkts with
  | [] => ([], h)
  | (env, pkt) :: pkts =>
      let '(r, h) := hls_process env h pkt in
      let segs := match r with Ok segs => segs | Err _ => [] end in
      let '(more, h) := hls_run h pkts in (segs ++ more, h)
  end.

(** ** Playlist window *)

Lemma pop_front_while_spec size entries seq : (0 < size)%nat ->
  pop_front_while size entries seq
  = (last_n (size - 1) entries, seq + Z.of_nat (length entries - (size - 1))).
Proof.
  intros Hs. revert seq. induction entries as [|e entries IH]; intros seq; cbn [pop_front_while].
  - f_equal. cbn. lia.
  - destruct (Nat.leb_spec size (length (e :: entries))) as [Hle|Hlt]; cbn [length] in *.
    + rewrite IH. unfold last_n. cbn [length].
      replace (S (length entries) - (size - 1))%nat with (S (length entries - (size - 1))) by lia.
      f_equal. lia.
    + rewrite last_n_all by (cbn; lia). f_equal. lia.
Qed.

(** Whatever segments are pushed, the live playlist lists exactly the last
    [max(1, playlist_size)] of them, in order, and its media sequence number is
    the number of segments that left the window (so it is the sequence of the
    first one listed, when segments are numbered from 0); a size of 0 keeps one
    segment, not all. *)
Theorem playlist_window cfg (segs : list (string * Z)) :
  let pl := foldl (fun pl s => push_segment pl (fst s) (snd s)) (playlist_new cfg) segs in
  let size := Nat.max (sc_playlist_size cfg) 1 in
  map pe_filename (pl_entries pl) = last_n size (map fst segs)
  /\ length (pl_entries pl) = Nat.min size (length segs)
  /\ pl_media_sequence pl + Z.of_nat (length (pl_entries pl)) = Z.of_nat (length segs).
Proof.
  cbn zeta. set (size := Nat.max _ _).
  assert (0 < size)%nat as Hs by lia.
  set (entry := fun s : string * Z => mkPlaylistEntry (fst s) (as_secs_f64 (snd s))).
  assert (foldl (fun pl s => push_segment pl (fst s) (snd s)) (playlist_new cfg) segs
    = mkPlaylist size (last_n size (map entry segs)) (Z.of_nat (length segs - size))) as ->.
  { induction segs as [|s segs IH] using rev_ind; [done|].
    rewrite foldl_snoc, IH. unfold push_segment. cbn [pl_playlist_size pl_entries pl_media_sequence].
    rewrite pop_front_while_spec by done. rewrite map_app, length_app. cbn [map length].
    unfold last_n at 3. rewrite length_drop, length_map. f_equal; [|lia].
    unfold last_n. rewrite !length_app, !length_drop, !length_map. cbn [length].
    destruct (decide (length segs < size)%nat).
    - replace (length segs - size)%nat with 0%nat by lia. rewrite drop_0, Nat.sub_0_r.
      replace (length segs + 1 - size)%nat with 0%nat by lia.
      replace (length segs - (size - 1))%nat with 0%nat by lia. by rewrite !drop_0.
    - rewrite drop_drop, drop_app_le by (rewrite length_map; lia). f_equal. f_equal. lia. }
  cbn [pl_entries pl_media_sequence].
  assert (length (last_n size (map entry segs)) = Nat.min size (length segs)) as Hl.
  { unfold last_n. rewrite length_drop, length_map. lia. }
  split_and!; [|done|rewrite Hl; lia].
  unfold last_n. rewrite !length_map. change (map pe_filename) with (fmap (M := list) pe_filename).
  rewrite fmap_drop. f_equal. change (fmap (M := list) pe_filename) with (map pe_filename).
  by rewrite map_map.
Qed.

(** ** Times given to the muxer *)

Definition increasing (frames : list MuxFrame) : Prop := StronglySorted Z.lt (map mf_ts frames).

Definition not_early (f : MuxFrame) : Prop :=
  default 0 (pk_pts_ms (mf_packet f)) * 90 <= mf_ts f /\ 0 < mf_ts f.

(** The frames of the open context increase up to the last time handed out. *)
Definition muxer_ok (h : HlsSegmenter) : Prop :=
  let m := hs_muxer h in
  increasing (hms_ts_buffer m) /\ Forall not_early (hms_ts_buffer m)
  /\ Forall (fun f => mf_ts f <= hms_last_dts m) (hms_ts_buffer m) /\ 0 <= hms_last_dts m.

Lemma increasing_snoc frames f : increasing frames -> Forall (fun g => mf_ts g < mf_ts f) frames ->
  increasing (frames ++ [f]).
Proof.
  unfold increasing. rewrite map_app. induction frames as [|g frames IH]; intros Hi Hf; cbn.
  - repeat constructor.
  - apply Forall_cons in Hf as [Hg Hf]. cbn in Hi. inversion Hi as [|? ? Hs Hall]; subst.
    constructor; [by apply IH|]. apply Forall_app. split; [done|]. by apply Forall_singleton.
Qed.

Lemma fresh_muxer_ok h c seq : muxer_ok (with_muxer h (mkMuxer c [] seq 0)).
Proof. unfold muxer_ok, increasing. cbn. split_and!; constructor || lia. Qed.

Lemma write_packet_ok env h pkt : muxer_ok h -> muxer_ok (snd (write_packet env h pkt)).
Proof.
  intros (Hi & Hn & Hb & H0). unfold write_packet. destruct (negb (he_packet env)); [done|].
  destruct (hs_codec_index h (pk_codec pkt)) as [idx|]; [|done].
  set (next := Z.max _ _).
  assert (hms_last_dts (hs_muxer h) < next) as Hlt by (unfold next; lia).
  assert (Forall (fun f => mf_ts f <= next) (hms_ts_buffer (hs_muxer h))) as Hb'.
  { eapply Forall_impl; [exact Hb|]. cbn. intros f Hf. lia. }
  destruct (negb (hms_ctx _)); [|destruct (negb (he_write env))]; unfold muxer_ok; cbn;
    split_and!; try done; try lia.
  - apply increasing_snoc; [done|]. eapply Forall_impl; [exact Hb|]. cbn. intros f Hf. lia.
  - apply Forall_app. split; [done|]. apply Forall_singleton. unfold not_early. cbn. unfold next.
    destruct (pk_pts_ms pkt); cbn; lia.
  - apply Forall_app. split; [done|]. apply Forall_singleton. cbn. lia.
Qed.

Lemma write_or_reset_ok env h pkt : muxer_ok h -> muxer_ok (write_packet_or_reset env h pkt).
Proof.
  intros Hok. unfold write_packet_or_reset. pose proof (write_packet_ok env h pkt Hok) as Hw.
  destruct (write_packet env h pkt) as [[] h']; [done|]. apply fresh_muxer_ok.
Qed.

Lemma rollover_ok env h d : muxer_ok h ->
  match rollover env h d with
  | (Ok (_, frames), h') => increasing frames /\ Forall not_early frames /\ muxer_ok h'
  | (Err _, h') => muxer_ok h'
  end.
Proof.
  intros (Hi & Hn & Hb & H0). unfold rollover. destruct (_ && _); [done|].
  destruct (negb (he_create env)); [unfold muxer_ok, increasing; cbn; split_and!; try constructor; lia|].
  destruct (negb (he_files env)); [apply fresh_muxer_ok|]. split_and!; [done|done|apply fresh_muxer_ok].
Qed.

Definition segment_ok (s : TsSegment * list MuxFrame) : Prop :=
  increasing (snd s) /\ Forall not_early (snd s).

Lemma hls_process_ok env h pkt : muxer_ok h ->
  let '(r, h') := hls_process env h pkt in
  muxer_ok h' /\ match r with Ok segs => Forall segment_ok segs | Err _ => True end.
Proof.
  intros Hok. unfold hls_process. destruct (pk_is_sequence_header pkt); [by split; [|constructor]|].
  destruct (observe h pkt) as [[ro el] st]. assert (muxer_ok (with_segmenter h st)) as Hok' by done.
  destruct ro; [|by split; [apply write_or_reset_ok|constructor]].
  pose proof (rollover_ok env _ el Hok') as Hr. destruct (rollover _ _ _) as [[[seg frames]|e] h'].
  - destruct Hr as (Hi & Hn & Hm). split; [by apply write_or_reset_ok|]. by apply Forall_singleton.
  - by split.
Qed.

(** Whatever the sources' timestamps and whatever the muxer and the disk
    answer, within every segment file, and within the segment being written,
    the times given to the TS muxer strictly increase (so it never rejects a
    frame as out of order) and no frame is stamped before its own time. *)
Theorem hls_times_increase codecs cfg ws pkts :
  let '(segs, h) := hls_run (segmenter_new codecs cfg ws) pkts in
  Forall (fun s => increasing (snd s) /\ Forall not_early (snd s)) segs
  /\ increasing (hms_ts_buffer (hs_muxer h)) /\ Forall not_early (hms_ts_buffer (hs_muxer h)).
Proof.
  assert (muxer_ok (segmenter_new codecs cfg ws)) as Hok
    by (unfold muxer_ok, increasing; cbn; split_and!; constructor || lia).
  revert Hok. generalize (segmenter_new codecs cfg ws) as h.
  induction pkts as [|[env pkt] pkts IH]; intros h Hok; cbn [hls_run].
  - destruct Hok as (? & ? & _). by split_and!.
  - pose proof (hls_process_ok env h pkt Hok) as Hp. destruct (hls_process env h pkt) as [r h'].
    destruct Hp as [Hm Hr]. specialize (IH h' Hm). destruct (hls_run h' pkts) as [more h''].
    destruct IH as (? & ? & ?). split_and!; [|done|done]. apply Forall_app. split; [|done].
    destruct r; [done|constructor].
Qed.

(** ** Nothing is lost, duplicated or reordered *)

(** The packets the TS muxer has a stream for. *)
Definition routed (h : HlsSegmenter) (pkt : EncodedPacket) : bool :=
  negb (pk_is_sequence_header pkt) && is_some (hs_codec_index h (pk_codec pkt)).

Definition buffered (h : HlsSegmenter) : list EncodedPacket := map mf_packet (hms_ts_buffer (hs_muxer h)).

Definition segment_packets (segs : list (TsSegment * list MuxFrame)) : list EncodedPacket :=
  map mf_packet (concat (map snd segs)).

Lemma write_packet_env_ok h pkt : hms_ctx (hs_muxer h) = true ->
  let h' := write_packet_or_reset env_ok h pkt in
  hms_ctx (hs_muxer h') = true /\ hms_next_sequence (hs_muxer h') = hms_next_sequence (hs_muxer h)
  /\ hs_codec_index h' = hs_codec_index h /\ hs_segment_duration h' = hs_segment_duration h
  /\ buffered h' = buffered h ++ (if is_some (hs_codec_index h (pk_codec pkt)) then [pkt] else []).
Proof.
  intros Hc. unfold write_packet_or_reset, write_packet. cbn [he_packet env_ok negb].
  destruct (hs_codec_index h (pk_codec pkt)) as [idx|]; cbn [is_some]; [|by rewrite app_nil_r].
  rewrite Hc. cbn. split_and!; try done. unfold buffered. cbn. by rewrite map_app.
Qed.

Lemma hls_process_env_ok h pkt : hms_ctx (hs_muxer h) = true ->
  exists segs h', hls_process env_ok h pkt = (Ok segs, h')
  /\ hms_ctx (hs_muxer h') = true
  /\ hms_next_sequence (hs_muxer h') = hms_next_sequence (hs_muxer h) + Z.of_nat (length segs)
  /\ hs_codec_index h' = hs_codec_index h /\ hs_segment_duration h' = hs_segment_duration h
  /\ segment_packets segs ++ buffered h' = buffered h ++ (if routed h pkt then [pkt] else [])
  /\ match segs with
     | [] => True
     | [(seg, _)] => ts_sequence seg = hms_next_sequence (hs_muxer h)
         /\ hs_segment_duration h <= ts_duration seg
         /\ (pk_is_keyframe pkt = true \/ ss_has_keyframe (hs_segmenter h) = false)
         /\ buffered h' = if routed h pkt then [pkt] else []
     | _ => False
     end.
Proof.
  intros Hc. unfold hls_process, routed. destruct (pk_is_sequence_header pkt) eqn:Eh.
  { exists [], h. cbn. rewrite app_nil_r, Z.add_0_r. done. }
  cbn [negb andb].
  destruct (observe h pkt) as [[ro el] st] eqn:Eo. destruct ro.
  - unfold rollover. cbn [he_trailer he_create he_files env_ok negb]. rewrite andb_false_r.
    eexists _, _. split; [reflexivity|].
    set (h1 := push_and_write _ _ _ _).
    destruct (write_packet_env_ok h1 pkt eq_refl) as (Hc' & Hs & Hi & Hd & Hb). split_and!; try done.
    + unfold segment_packets. cbn [map snd concat]. rewrite app_nil_r, Hb. done.
    + unfold observe in Eo. injection Eo as Hro <- _. apply andb_true_iff in Hro as [Hle%Z.leb_le _].
      exact Hle.
    + unfold observe in Eo. injection Eo as Hro _ _. apply andb_true_iff in Hro as [_ Hk].
      cbn [ss_has_keyframe] in Hk. destruct (pk_is_keyframe pkt); [by left|right].
      by destruct (ss_has_keyframe (hs_segmenter h)).
  - eexists _, _. split; [reflexivity|].
    destruct (write_packet_env_ok (with_segmenter h st) pkt Hc) as (? & Hs & ? & ? & Hb).
    split_and!; try done. rewrite Hs. cbn. lia.
Qed.

(** C40: while the muxer and the disk work, the segments together with the one
    being written hold exactly the media packets of the configured codecs, each
    once and in arrival order; segments are numbered 0, 1, 2, ... without gap
    and none is shorter than the configured duration. *)
Theorem hls_segments_partition codecs cfg ws pkts :
  let h0 := segmenter_new codecs cfg ws in
  let '(segs, h) := hls_run h0 (map (pair env_ok) pkts) in
  segment_packets segs ++ buffered h = List.filter (routed h0) pkts
  /\ map (fun s => ts_sequence (fst s)) segs = seqZ 0 (Z.of_nat (length segs))
  /\ Forall (fun s => from_secs (sc_duration_secs cfg) <= ts_duration (fst s)) segs.
Proof.
  cbn zeta. set (h0 := segmenter_new codecs cfg ws).
  assert (forall h, hms_ctx (hs_muxer h) = true ->
    hs_codec_index h = hs_codec_index h0 -> hs_segment_duration h = hs_segment_duration h0 ->
    let '(segs, h') := hls_run h (map (pair env_ok) pkts) in
    segment_packets segs ++ buffered h' = buffered h ++ List.filter (routed h0) pkts
    /\ map (fun s => ts_sequence (fst s)) segs
       = seqZ (hms_next_sequence (hs_muxer h)) (Z.of_nat (length segs))
    /\ Forall (fun s => hs_segment_duration h0 <= ts_duration (fst s)) segs) as Hrun.
  { induction pkts as [|pkt pkts IH]; intros h Hc Hi Hd; cbn [map hls_run].
    { cbn. by rewrite app_nil_r. }
    destruct (hls_process_env_ok h pkt Hc) as (segs & h1 & -> & Hc1 & Hn1 & Hi1 & Hd1 & Hp & Hs).
    specialize (IH h1 Hc1 ltac:(congruence) ltac:(congruence)).
    destruct (hls_run h1 _) as [more h']. destruct IH as (Hpk & Hsq & Hdu).
    assert (routed h pkt = routed h0 pkt) as Hr by (unfold routed; by rewrite Hi). rewrite Hr in Hp, Hs.
    split_and!.
    - unfold segment_packets in *. rewrite map_app, concat_app, map_app, <- app_assoc, Hpk, app_assoc, Hp.
      cbn [List.filter]. destruct (routed h0 pkt); by rewrite <- app_assoc.
    - rewrite map_app, Hsq, Hn1, length_app. destruct segs as [|[seg f] [|]]; [|destruct Hs as (Hs & _)|done].
      + cbn [map app length]. f_equal; lia.
      + cbn [map app length fst]. rewrite Hs. rewrite (seqZ_cons _ (Z.of_nat (1 + length more))) by lia.
        f_equal. f_equal; lia.
    - apply Forall_app. split; [|done]. destruct segs as [|[seg f] [|]]; [constructor|..|done].
      destruct Hs as (_ & Hle & _). apply Forall_singleton. cbn [fst]. by rewrite <- Hd. }
  specialize (Hrun h0 eq_refl eq_refl eq_refl). destruct (hls_run h0 _) as [segs h]. exact Hrun.
Qed.
