(* ===== verification/HlsMux.v ===== *)
(** * The bytes of HLS segments
    [livestream-media/src/context/{mod, hls_output}.rs] and the muxer half of
    [livestream-pipeline/src/processor/hls_segment.rs]: FFmpeg's TS muxer writes
    through a callback into the one buffer that every output context of a
    segmenter shares. What the segmenter of [Hls] treats as a list of frames is
    here the contexts, their contract with FFmpeg and the bytes in that buffer.
    The muxer's output is a parameter. *)
From Stdlib Require Import Ascii String.
From stdpp Require Import strings list gmap.
From S2P Require Import Prelude Types Sanitize Config Hls.

(** ** The buffer and its callback *)

Definition EINVAL : Z := 22.

(** [HlsBuffer]: the box never moves, so its content is all there is to it. *)
Definition HlsBuffer_new : bytes := [].
Definition HlsBuffer_take (buffer : bytes) : bytes * bytes := (buffer, []).
Definition HlsBuffer_clear (buffer : bytes) : bytes := [].

(** The write callback: its return value and the buffer. *)
Definition ts_write_packet (buffer buf : bytes) : Z * bytes :=
  if Z.of_nat (length buf) <=? 0 then (- EINVAL, buffer)
  else (Z.of_nat (length buf), buffer ++ buf).

(** Some writes of the muxer. *)
Definition avio_write (buffer : bytes) (writes : list bytes) : bytes :=
  foldl (fun buffer buf => snd (ts_write_packet buffer buf)) buffer writes.

(** ** Output contexts *)

(** Where the C context is: only after a header may frames and the trailer be
    written, and nothing after the trailer, even a failed one. *)
Inductive CtxPhase := CtxAllocated | CtxOpen | CtxFinished.

#[export] Instance CtxPhase_eq_dec : EqDecision CtxPhase.
Proof. solve_decision. Defined.

Record TsContext := mkTsContext {
  tc_phase : CtxPhase;
  tc_header_written : bool;
  tc_frames : list MuxFrame;      (* what the muxer was given *)
}.

(** The outcomes of the calls, as in [Hls], and what a call that fails has written
    before. *)
Record MuxEnv := mkMuxEnv { me_env : HlsEnv; me_partial : list bytes }.

(** [HlsMuxerState], and how many calls broke FFmpeg's contract. *)
Record MuxerMem := mkMem {
  mx_ctx : option TsContext;
  mx_buffer : bytes;
  mx_next_sequence : Z;
  mx_last_dts : Z;
  mx_misuse : nat;
}.

Section Muxer.
(** What the TS muxer writes for the header, for a frame after some frames, and
    for the trailer. *)
Context (header : list bytes) (frame : list MuxFrame -> MuxFrame -> list bytes)
        (trailer : list MuxFrame -> list bytes).

Definition misused (c : TsContext) : nat := if decide (tc_phase c = CtxOpen) then 0%nat else 1%nat.

Definition context_create : TsContext := mkTsContext CtxAllocated false [].

Definition context_write_header (ok : bool) (partial : list bytes) (c : TsContext) (buffer : bytes) :
    bool * TsContext * bytes :=
  if ok then (true, mkTsContext CtxOpen true (tc_frames c), avio_write buffer header)
  else (false, c, avio_write buffer partial).

Definition disarm (c : TsContext) : TsContext := mkTsContext (tc_phase c) false (tc_frames c).

Definition write_frame (ok : bool) (partial : list bytes) (c : TsContext) (buffer : bytes) (f : MuxFrame) :
    bool * TsContext * bytes :=
  if ok then (true, mkTsContext (tc_phase c) (tc_header_written c) (tc_frames c ++ [f]),
              avio_write buffer (frame (tc_frames c) f))
  else (false, c, avio_write buffer partial).

Definition write_trailer (ok : bool) (partial : list bytes) (c : TsContext) (buffer : bytes) :
    bool * TsContext * bytes :=
  let c' := mkTsContext CtxFinished (tc_header_written c) (tc_frames c) in
  if ok then (true, c', avio_write buffer (trailer (tc_frames c))) else (false, c', avio_write buffer partial).

(** [Drop]: the safety-net trailer of a context that was not disarmed; how often
    that broke the contract, and the buffer. *)
Definition context_drop (c : option TsContext) (ok : bool) (partial : list bytes) (buffer : bytes) : nat * bytes :=
  match c with
  | Some c =>
      if tc_header_written c
      then let '(_, _, buffer) := write_trailer ok partial c buffer in (misused c, buffer)
      else (0%nat, buffer)
  | None => (0%nat, buffer)
  end.

(** [create] and [write_header]; [ok] is false when either fails. A context whose
    header failed is dropped unarmed. *)
Definition fresh_context (ok : bool) (partial : list bytes) (buffer : bytes) : option TsContext * bytes :=
  match context_write_header ok partial context_create buffer with
  | (true, c, buffer) => (Some c, buffer)
  | (false, _, buffer) => (None, buffer)
  end.

(** ** The segmenter's muxer *)

Definition mem_new : MuxerMem :=
  let '(c, buffer) := fresh_context true [] HlsBuffer_new in mkMem c buffer 0 0 0.

(** The muxer's part of [write_packet]. *)
Definition mem_write_packet (env : MuxEnv) (index : Codec -> option nat) (m : MuxerMem) (pkt : EncodedPacket) :
    result hls_error unit * MuxerMem :=
  if negb (he_packet (me_env env)) then (Err ToAvPacket, m)
  else match index (pk_codec pkt) with
       | None => (Ok tt, m)
       | Some muxer_idx =>
           let orig_pts := default 0 ((fun pts => pts * 90) <$> pk_pts_ms pkt) in
           let next := Z.max orig_pts (mx_last_dts m + 1) in
           match mx_ctx m with
           | None => (Err NoContext, mkMem None (mx_buffer m) (mx_next_sequence m) next (mx_misuse m))
           | Some c =>
               let '(ok, c', buffer) :=
                 write_frame (he_write (me_env env)) (me_partial env) c (mx_buffer m) (mkFrame muxer_idx next pkt) in
               (if ok then Ok tt else Err WriteFrame,
                mkMem (Some c') buffer (mx_next_sequence m) next (mx_misuse m + misused c))
           end
       end.

(** Phase 1 of [rollover]: the sequence number and the bytes taken. The old
    context is disarmed, and dropped when the new one takes its place; it stays
    when the new one cannot be made. *)
Definition mem_rollover (env : MuxEnv) (m : MuxerMem) : result hls_error (Z * bytes) * MuxerMem :=
  let '(ok, ctx, buffer, misuse) :=
    match mx_ctx m with
    | Some c =>
        let '(ok, c', buffer) := write_trailer (he_trailer (me_env env)) (me_partial env) c (mx_buffer m) in
        (ok, Some c', buffer, (mx_misuse m + misused c)%nat)
    | None => (true, None, mx_buffer m, mx_misuse m)
    end in
  if negb ok then (Err WriteTrailer, mkMem ctx buffer (mx_next_sequence m) (mx_last_dts m) misuse)
  else
    let seq := mx_next_sequence m in
    let '(ts_data, buffer) := HlsBuffer_take buffer in
    let ctx := disarm <$> ctx in
    match fresh_context (he_create (me_env env)) (me_partial env) buffer with
    | (None, buffer) => (Err CreateContext, mkMem ctx buffer (seq + 1) (mx_last_dts m) misuse)
    | (Some new_ctx, buffer) =>
        let '(more, buffer) := context_drop ctx true [] buffer in
        (Ok (seq, ts_data), mkMem (Some new_ctx) buffer (seq + 1) 0 (misuse + more))
    end.

(** The muxer's part of [reset_after_write_error] and [recreate_muxer_ctx]. *)
Definition mem_reset (env : MuxEnv) (m : MuxerMem) : MuxerMem :=
  let '(misuse, buffer) := context_drop (mx_ctx m) true [] (mx_buffer m) in
  let buffer := HlsBuffer_clear buffer in
  let '(ctx, buffer) := fresh_context (he_recreate (me_env env)) (me_partial env) buffer in
  mkMem ctx buffer (mx_next_sequence m) 0 (mx_misuse m + misuse).

Definition mem_write_or_reset (env : MuxEnv) (index : Codec -> option nat) (m : MuxerMem) (pkt : EncodedPacket) :
    bool * MuxerMem :=
  match mem_write_packet env index m pkt with
  | (Ok _, m) => (true, m)
  | (Err _, m) => (false, mem_reset env m)
  end.

(** ** The segmenter with its muxer *)

(** The segment of [rollover], after phase 2, and the bytes of its file. *)
Definition mem_segment (env : MuxEnv) (h : HlsSegmenter) (m : MuxerMem) (duration : Z) :
    result hls_error (TsSegment * bytes) * MuxerMem :=
  match mem_rollover env m with
  | (Err e, m) => (Err e, m)
  | (Ok (seq, ts_data), m) =>
      if negb (he_files (me_env env)) then (Err SegmentFiles, m)
      else
        let filename := segment_filename seq in
        (Ok (mkSegment (path_join (ws_upload_dir (hs_workspace h)) filename) filename seq duration false, ts_data), m)
  end.

(** [process], over the muxer as it is in memory; [h] is the rest of the segmenter. *)
Definition mem_process (env : MuxEnv) (h : HlsSegmenter) (m : MuxerMem) (pkt : EncodedPacket) :
    result hls_error (list (TsSegment * bytes)) * HlsSegmenter * MuxerMem :=
  if pk_is_sequence_header pkt then (Ok [], h, m)
  else
    let '(should_rollover, el, state) := observe h pkt in
    let h := with_segmenter h state in
    let write h m :=
      let '(ok, m) := mem_write_or_reset env (hs_codec_index h) m pkt in
      (if ok then h else with_segmenter h segment_reset, m) in
    if should_rollover then
      match mem_segment env h m el with
      | (Err e, m) => (Err e, h, m)
      | (Ok seg, m) =>
          let h := with_segmenter h (mkSegState (pk_pts_ms pkt) (pk_pts_ms pkt) (pk_is_keyframe pkt)) in
          let h := push_and_write (me_env env) h (fst seg) false in
          let '(h, m) := write h m in (Ok [seg], h, m)
      end
    else let '(h, m) := write h m in (Ok [], h, m).

Definition mem_close (env : MuxEnv) (h : HlsSegmenter) (m : MuxerMem) :
    result hls_error (TsSegment * bytes) * HlsSegmenter * MuxerMem :=
  let duration := default 0 (elapsed (hs_segmenter h)) in
  match mem_segment env h m duration with
  | (Err e, m) => (Err e, h, m)
  | (Ok (seg, ts_data), m) =>
      let seg := mkSegment (ts_path seg) (ts_filename seg) (ts_sequence seg) (ts_duration seg) true in
      (Ok (seg, ts_data), push_and_write (me_env env) h seg true, m)
  end.

Fixpoint mem_run (h : HlsSegmenter) (m : MuxerMem) (pkts : list (MuxEnv * EncodedPacket)) :
    list (TsSegment * bytes) * HlsSegmenter * MuxerMem :=
  match pkts with
  | [] => ([], h, m)
  | (env, pkt) :: pkts =>
      let '(r, h, m) := mem_process env h m pkt in
      let segs := match r with Ok segs => segs | Err _ => [] end in
      let '(more, h, m) := mem_run h m pkts in (segs ++ more, h, m)
  end.

(** ** Properties *)

Lemma avio_write_app buffer writes : avio_write buffer writes = buffer ++ concat writes.
Proof.
  revert buffer. induction writes as [|w writes IH]; intros buffer; [by rewrite app_nil_r|].
  change (avio_write (snd (ts_write_packet buffer w)) writes = buffer ++ w ++ concat writes).
  rewrite IH. unfold ts_write_packet. destruct (Z.leb_spec (Z.of_nat (length w)) 0).
  - by destruct w; [|cbn in *; lia].
  - cbn [snd]. by rewrite <- app_assoc.
Qed.

(** What a context has written when it was given some frames, and the whole file. *)
Fixpoint frames_out (before frames : list MuxFrame) : bytes :=
  match frames with
  | [] => []
  | f :: frames => concat (frame before f) ++ frames_out (before ++ [f]) frames
  end.

Definition written (frames : list MuxFrame) : bytes := concat header ++ frames_out [] frames.

Definition ts_file (frames : list MuxFrame) : bytes := written frames ++ concat (trailer frames).

Lemma frames_out_snoc frames f : forall before,
  frames_out before (frames ++ [f]) = frames_out before frames ++ concat (frame (before ++ frames) f).
Proof.
  induction frames as [|g frames IH]; intros before; cbn; [by rewrite !app_nil_r|].
  rewrite IH, <- !app_assoc. done.
Qed.

(** The frames of [Hls]: those of the open context. *)
Definition abs (m : MuxerMem) : HlsMuxerState :=
  mkMuxer (is_some (mx_ctx m)) (match mx_ctx m with Some c => tc_frames c | None => [] end)
    (mx_next_sequence m) (mx_last_dts m).

(** The context is open and armed, and the buffer is what it wrote. *)
Definition mem_ok (m : MuxerMem) : Prop :=
  mx_misuse m = 0%nat
  /\ match mx_ctx m with
     | Some c => tc_phase c = CtxOpen /\ tc_header_written c = true /\ mx_buffer m = written (tc_frames c)
     | None => True
     end.

Lemma fresh_context_spec ok partial : fresh_context ok partial []
  = if ok then (Some (mkTsContext CtxOpen true []), written []) else (None, concat partial).
Proof.
  unfold fresh_context, context_write_header. destruct ok; cbn; rewrite avio_write_app; [|done].
  unfold written. cbn. by rewrite app_nil_r.
Qed.

Lemma mem_new_ok : mem_ok mem_new /\ abs mem_new = mkMuxer true [] 0 0.
Proof. unfold mem_new, HlsBuffer_new. rewrite (fresh_context_spec true []). by repeat split. Qed.

(** A write refines the one on frames; it breaks nothing, and after a failure the
    context can still be dropped. *)
Lemma write_packet_refines env h m pkt : mem_ok m ->
  let '(r, m') := mem_write_packet env (hs_codec_index h) m pkt in
  write_packet (me_env env) (with_muxer h (abs m)) pkt = (r, with_muxer h (abs m'))
  /\ mx_misuse m' = 0%nat
  /\ match r with Ok _ => mem_ok m' | Err _ => forall c, mx_ctx m' = Some c -> tc_phase c = CtxOpen end.
Proof.
  intros [Hm Hc]. unfold mem_write_packet, write_packet. destruct (he_packet (me_env env)); cbn [negb].
  2: { split_and!; [done|done|]. intros c E. rewrite E in Hc. apply Hc. }
  cbn [hs_codec_index with_muxer hs_muxer]. destruct (hs_codec_index h (pk_codec pkt)) as [idx|]; [|done].
  destruct m as [[c|] buffer seq dts mis]; cbn in *.
  - destruct Hc as (Hp & Hh & Hb). unfold write_frame, misused. rewrite decide_True by done.
    destruct (he_write (me_env env)); cbn.
    + split; [done|]. split; [lia|]. split; [cbn; lia|]. cbn. split_and!; [done|done|].
      rewrite avio_write_app, Hb. unfold written. by rewrite frames_out_snoc, <- app_assoc.
    + split_and!; [done|lia|]. by intros c' [= <-].
  - split_and!; [done|done|]. by intros c E.
Qed.

Lemma reset_refines env h m : mx_misuse m = 0%nat ->
  (forall c, mx_ctx m = Some c -> tc_phase c = CtxOpen) ->
  mem_ok (mem_reset env m)
  /\ reset_after_write_error (me_env env) (with_muxer h (abs m))
     = with_muxer (with_segmenter h segment_reset) (abs (mem_reset env m)).
Proof.
  intros Hm Hc. unfold mem_reset.
  assert (fst (context_drop (mx_ctx m) true [] (mx_buffer m)) = 0%nat) as Hd.
  { unfold context_drop. destruct (mx_ctx m) as [c|]; [|done]. destruct (tc_header_written c); [|done].
    cbn. unfold misused. by rewrite decide_True by by apply Hc. }
  destruct (context_drop _ _ _ _) as [mis buffer]. cbn in Hd. subst mis. unfold HlsBuffer_clear.
  rewrite fresh_context_spec. unfold reset_after_write_error.
  destruct (he_recreate (me_env env)); cbn; (split; [split; [cbn; lia|done]|done]).
Qed.

Lemma write_or_reset_refines env h m pkt : mem_ok m ->
  let '(ok, m') := mem_write_or_reset env (hs_codec_index h) m pkt in
  write_packet_or_reset (me_env env) (with_muxer h (abs m)) pkt
    = with_muxer (if ok then h else with_segmenter h segment_reset) (abs m')
  /\ mem_ok m'.
Proof.
  intros Hm. pose proof (write_packet_refines env h m pkt Hm) as Hw.
  unfold mem_write_or_reset, write_packet_or_reset.
  destruct (mem_write_packet env (hs_codec_index h) m pkt) as [[[]|e] m'].
  - by destruct Hw as (-> & _ & Hok).
  - destruct Hw as (-> & Hmis & Hc). destruct (reset_refines env h m' Hmis Hc) as [Hok Hr].
    split; [exact Hr|exact Hok].
Qed.

(** A rollover that can write the trailer and make the next context takes exactly
    the file of the segment's frames, and leaves nothing of it in the buffer. *)
Lemma rollover_refines env m : mem_ok m -> he_trailer (me_env env) = true -> he_create (me_env env) = true ->
  exists data m', mem_rollover env m = (Ok (mx_next_sequence m, data), m') /\ mem_ok m'
  /\ abs m' = mkMuxer true [] (mx_next_sequence m + 1) 0
  /\ (hms_ctx (abs m) = true -> data = ts_file (hms_ts_buffer (abs m))).
Proof.
  intros [Hm Hc] Ht Hcr. unfold mem_rollover. destruct m as [[c|] buffer seq dts mis]; cbn in *.
  - destruct Hc as (Hp & Hh & Hb). unfold write_trailer, misused. rewrite Ht, decide_True by done. cbn.
    rewrite Hcr, fresh_context_spec. cbn. eexists _, _. split; [reflexivity|]. split_and!.
    + split; [cbn; lia|done].
    + done.
    + intros _. rewrite avio_write_app, Hb. done.
  - rewrite Hcr, fresh_context_spec. cbn. eexists _, _. split; [reflexivity|].
    split_and!; [split; [cbn; lia|done]|done|done].
Qed.

(** ** Refinement of the segmenter on frames *)

Definition same_segment (s : TsSegment * bytes) (a : TsSegment * list MuxFrame) : Prop :=
  fst s = fst a /\ (snd a <> [] -> snd s = ts_file (snd a)).

Lemma segment_refines env h m d : mem_ok m -> he_trailer (me_env env) = true -> he_create (me_env env) = true ->
  let '(r, m') := mem_segment env h m d in
  let '(r', h') := rollover (me_env env) (with_muxer h (abs m)) d in
  h' = with_muxer h (abs m') /\ mem_ok m'
  /\ match r, r' with Ok s, Ok a => same_segment s a | Err e, Err e' => e = e' | _, _ => False end.
Proof.
  intros Hm Ht Hc. destruct (rollover_refines env m Hm Ht Hc) as (data & m' & Er & Hm' & Ea & Hd).
  unfold mem_segment, rollover. rewrite Er. cbn [hs_muxer with_muxer hms_ctx abs]. rewrite Ht, andb_false_r, Hc. cbn [negb].
  destruct (he_files (me_env env)); cbn [negb].
  - split_and!; [by rewrite Ea|done|]. split; [done|]. cbn [snd hms_ts_buffer abs]. intros Hne. apply Hd.
    cbn. by destruct (mx_ctx m).
  - split_and!; [by rewrite Ea|done|done].
Qed.

Lemma mem_process_refines env h m pkt : mem_ok m -> he_trailer (me_env env) = true -> he_create (me_env env) = true ->
  let '(r, h', m') := mem_process env h m pkt in
  let '(r', g) := hls_process (me_env env) (with_muxer h (abs m)) pkt in
  g = with_muxer h' (abs m') /\ mem_ok m'
  /\ match r, r' with Ok s, Ok a => Forall2 same_segment s a | Err e, Err e' => e = e' | _, _ => False end.
Proof.
  intros Hm Ht Hc. unfold mem_process, hls_process. destruct (pk_is_sequence_header pkt); [by split_and!|].
  change (observe (with_muxer h (abs m)) pkt) with (observe h pkt). destruct (observe h pkt) as [[roll el] state].
  set (h1 := with_segmenter h state).
  change (with_segmenter (with_muxer h (abs m)) state) with (with_muxer h1 (abs m)).
  destruct roll.
  - pose proof (segment_refines env h1 m el Hm Ht Hc) as Hs.
    destruct (mem_segment env h1 m el) as [r m1], (rollover (me_env env) (with_muxer h1 (abs m)) el) as [r' g].
    destruct Hs as (-> & Hm1 & Hr). destruct r as [s|e], r' as [a|e']; try done.
    pose proof Hr as [Hfst _]. rewrite <- Hfst.
    set (h2 := push_and_write (me_env env)
      (with_segmenter h1 (mkSegState (pk_pts_ms pkt) (pk_pts_ms pkt) (pk_is_keyframe pkt))) (fst s) false).
    pose proof (write_or_reset_refines env h2 m1 pkt Hm1) as Hw.
    destruct (mem_write_or_reset env (hs_codec_index h2) m1 pkt) as [ok m2]. destruct Hw as [Hw Hm2].
    split_and!; [exact Hw|exact Hm2|constructor; [exact Hr|constructor]].
  - pose proof (write_or_reset_refines env h1 m pkt Hm) as Hw.
    destruct (mem_write_or_reset env (hs_codec_index h1) m pkt) as [ok m2]. destruct Hw as [Hw Hm2].
    split_and!; [exact Hw|exact Hm2|constructor].
Qed.

Lemma mem_run_refines pkts : Forall (fun p => he_trailer (me_env (fst p)) && he_create (me_env (fst p)) = true) pkts ->
  forall h m, mem_ok m ->
  let '(segs, h', m') := mem_run h m pkts in
  let '(asegs, g) := hls_run (with_muxer h (abs m)) (map (fun p => (me_env (fst p), snd p)) pkts) in
  Forall2 same_segment segs asegs /\ g = with_muxer h' (abs m') /\ mem_ok m'.
Proof.
  induction 1 as [|[env pkt] pkts [Ht Hc]%andb_true_iff _ IH]; intros h m Hm; [cbn; split_and!; [apply Forall2_nil_2|done|done]|].
  cbn. pose proof (mem_process_refines env h m pkt Hm Ht Hc) as Hp.
  destruct (mem_process env h m pkt) as [[r h1] m1], (hls_process (me_env env) (with_muxer h (abs m)) pkt) as [r' g].
  destruct Hp as (-> & Hm1 & Hr). specialize (IH h1 m1 Hm1).
  destruct (mem_run h1 m1 pkts) as [[more h2] m2], (hls_run (with_muxer h1 (abs m1)) _) as [amore g2].
  destruct IH as (Hmore & -> & Hm2). split_and!; [|done|done]. apply Forall2_app; [|exact Hmore].
  by destruct r, r'.
Qed.

(** C21: The bytes of the segments. Over the one buffer that all of a segmenter's
    muxer contexts write to, with any packets, any failing frame writes, header
    writes after them, file operations, and whatever a failing call wrote before
    it failed - while the trailer and the next context of a rollover succeed -
    the segmenter does with bytes exactly what [Hls] does with frames: the same
    segments in the same order, each segment of at least one frame holding one
    complete TS file of its frames, header to trailer, with nothing of a
    neighbour, of a broken context or of a context's trailer at its drop;
    FFmpeg's contract is never broken. And the final segment of [close] is of
    the same kind. Nothing is said of the bytes of a segment without a frame: a
    context made again after a failed write may leave part of a header there. *)
Theorem hls_bytes_refine codecs cfg ws env pkts :
  Forall (fun p => he_trailer (me_env (fst p)) && he_create (me_env (fst p)) = true) pkts ->
  he_trailer (me_env env) = true -> he_create (me_env env) = true ->
  let h0 := segmenter_new codecs cfg ws in
  let '(segs, h, m) := mem_run h0 mem_new pkts in
  let '(asegs, g) := hls_run h0 (map (fun p => (me_env (fst p), snd p)) pkts) in
  Forall2 same_segment segs asegs /\ hs_muxer g = abs m /\ mx_misuse m = 0%nat
  /\ match mem_close env h m, hls_close (me_env env) g with
     | (Ok s, _, m'), (Ok a, _) => same_segment s a /\ mx_misuse m' = 0%nat
     | (Err e, _, m'), (Err e', _) => e = e' /\ mx_misuse m' = 0%nat
     | _, _ => False
     end.
Proof.
  intros Hp Ht Hc h0. destruct mem_new_ok as [Hok Habs].
  pose proof (mem_run_refines pkts Hp h0 mem_new Hok) as Hr. rewrite Habs in Hr.
  change (with_muxer h0 (mkMuxer true [] 0 0)) with h0 in Hr.
  destruct (mem_run h0 mem_new pkts) as [[segs h] m], (hls_run h0 _) as [asegs g].
  destruct Hr as (Hs & -> & Hm). split_and!; [exact Hs|done|apply Hm|].
  unfold mem_close, hls_close. cbn [hs_segmenter with_muxer].
  pose proof (segment_refines env h m (default 0 (elapsed (hs_segmenter h))) Hm Ht Hc) as Hseg.
  destruct (mem_segment env h m _) as [r m1], (rollover (me_env env) (with_muxer h (abs m)) _) as [r' g1].
  destruct Hseg as (_ & [Hm1 _] & Hr). destruct r as [[s d]|e], r' as [[a fs]|e']; try done.
  destruct Hr as [Hf Hd]. cbn in Hf, Hd. subst a. by split_and!.
Qed.

(** The limit of that contract. When a rollover cannot write the trailer, or
    cannot make the next context after it, it reports the failure but keeps the
    context whose trailer was written or attempted; the next packet of a stream
    the muxer has is written into this finished context, which FFmpeg does not
    allow. *)
Theorem failed_rollover_misuses_context env env' h m pkt idx : mem_ok m -> mx_ctx m <> None ->
  he_trailer (me_env env) && he_create (me_env env) = false ->
  he_packet (me_env env') = true -> hs_codec_index h (pk_codec pkt) = Some idx ->
  let '(r, m') := mem_rollover env m in
  is_ok r = false /\ mx_misuse m' = 0%nat /\ mx_ctx m' <> None
  /\ mx_misuse (snd (mem_write_packet env' (hs_codec_index h) m' pkt)) = 1%nat.
Proof.
  intros [Hm Hc] Hne Hfail Hpk Hidx. unfold mem_rollover. destruct m as [[c|] buffer seq dts mis]; [|done]. cbn in *.
  destruct Hc as (Hp & _). unfold write_trailer, misused. rewrite decide_True by done.
  assert (forall b buffer n d, mx_misuse (snd (mem_write_packet env' (hs_codec_index h)
    (mkMem (Some (mkTsContext CtxFinished b (tc_frames c))) buffer n d 0) pkt)) = 1%nat) as Hnext.
  { intros b buf n d. unfold mem_write_packet. rewrite Hpk, Hidx. cbn.
    destruct (write_frame _ _ _ _ _) as [[ok c'] b']. done. }
  subst mis. destruct (he_trailer (me_env env)); cbn in *.
  - rewrite Hfail, fresh_context_spec. cbn. split_and!; [done..|apply Hnext].
  - split_and!; [done..|apply Hnext].
Qed.
End Muxer.

(** ** Examples *)

(** A muxer that marks what it writes. *)
Definition demo_header : list bytes := [[71; 0]; []].
Definition demo_frame (before : list MuxFrame) (f : MuxFrame) : list bytes := [[71; 1]; [Z.of_nat (length before)]].
Definition demo_trailer (frames : list MuxFrame) : list bytes := [[71; 255]].

Definition demo_key (ms : Z) : EncodedPacket :=
  mkPacket H264 0 (AnnexB [0; 0; 0; 1; 0x65]) (Some ms) (Some ms) true false false None.

Definition demo_env (write : bool) : MuxEnv := mkMuxEnv (mkEnv true write true true true true PlaylistWritten) [[9; 9]].

(** The second frame fails after it wrote some bytes: the segment is started over. *)
Lemma hls_bytes_refine_witness :
  let '(segs, _, m) := mem_run demo_header demo_frame demo_trailer
    (segmenter_new [H264] (mkSegmentConfig 2 "/c" 5 "hls" 100) (workspace_new "cam" "/c" "r"))
    (mem_new demo_header)
    [(demo_env true, demo_key 0); (demo_env false, demo_key 500); (demo_env true, demo_key 1000); (demo_env true, demo_key 1500);
     (demo_env true, demo_key 3500)] in
  map snd segs = [[71; 0; 71; 1; 0; 71; 1; 1; 71; 255]] /\ mx_misuse m = 0%nat.
Proof.
  pose proof (hls_bytes_refine demo_header demo_frame demo_trailer [H264] (mkSegmentConfig 2 "/c" 5 "hls" 100)
    (workspace_new "cam" "/c" "r") (demo_env true)
    [(demo_env true, demo_key 0); (demo_env false, demo_key 500); (demo_env true, demo_key 1000); (demo_env true, demo_key 1500);
     (demo_env true, demo_key 3500)]) as Hr.
  cbv zeta in Hr. specialize (Hr ltac:(by repeat constructor) eq_refl eq_refl).
  destruct (mem_run _ _ _ _ _ _) as [[segs h] m] eqn:E. destruct (hls_run _ _) as [asegs g].
  destruct Hr as (_ & _ & Hm & _). split; [|exact Hm].
  apply (f_equal (fun x => map snd (fst (fst x)))) in E. cbn [fst] in E. rewrite <- E. vm_compute. reflexivity.
Defined.

Lemma failed_rollover_misuses_context_witness :
  let m := mem_new demo_header in
  let env := mkMuxEnv (mkEnv true true true false true true PlaylistWritten) [] in
  let h := segmenter_new [H264] (mkSegmentConfig 2 "/c" 5 "hls" 100) (workspace_new "cam" "/c" "r") in
  mx_misuse (snd (mem_write_packet demo_frame (demo_env true) (hs_codec_index h)
    (snd (mem_rollover demo_header demo_trailer env m)) (demo_key 0))) = 1%nat.
Proof.
  intros m env h.
  pose proof (failed_rollover_misuses_context demo_header demo_frame demo_trailer env (demo_env true) h m (demo_key 0) 0
    (proj1 (mem_new_ok demo_header demo_frame)) ltac:(done) eq_refl eq_refl eq_refl) as Hr.
  destruct (mem_rollover demo_header demo_trailer env m) as [r m']. apply Hr.
Defined.
