(* ===== verification/Sinks.v ===== *)
(** * Sinks and storage
    [livestream-pipeline/src/sink/{minio,flv}.rs], the null uploader of
    [factory.rs], and the bucket check of [src/infra/persistence.rs]. The object
    store is the sequence of its answers; the local disk is the set of paths. *)
From Stdlib Require Import Ascii String.
From stdpp Require Import strings gmap.
From S2P Require Import Prelude Types Flv Tokio FlvHub Sanitize Config Hls.

(** ** MinIO sink *)

(** What one [consume] did: the uploads it asked for, in order, and how long it
    slept between them, in milliseconds. *)
Record Uploads := mkUploads { up_log : list (string * string); up_slept : Z }.

Definition object_key (cfg : SegmentConfig) (live_id filename : string) : string :=
  sc_minio_prefix cfg +:+ "/" +:+ sanitize_stream_id live_id +:+ "/" +:+ filename.

(** The retries after the first attempt; [answer i] is the [i]-th upload's outcome. *)
Fixpoint retry_upload (n : nat) (answer : nat -> bool) (i : nat) (delay : Z) (key path : string)
    (ok : bool) (u : Uploads) : bool * Uploads :=
  match n with
  | O => (ok, u)
  | S n =>
      if ok then (ok, u)
      else retry_upload n answer (S i) (delay * 2) key path (answer i)
             (mkUploads (up_log u ++ [(key, path)]) (up_slept u + delay))
  end.

Definition parent (path : string) : string :=
  let rev := rev (list_ascii_of_string path) in
  let fix drop_name (l : list ascii) :=
    match l with [] => [] | c :: l' => if decide (c = "/"%char) then l' else drop_name l' end in
  string_of_list_ascii (List.rev (drop_name rev)).

Definition upload_playlist (cfg : SegmentConfig) (live_id : string) (files : gset string)
    (segment_path : string) (u : Uploads) : Uploads :=
  let playlist := path_join (parent segment_path) "index.m3u8" in
  if decide (playlist ∈ files)
  then mkUploads (up_log u ++ [(object_key cfg live_id "index.m3u8", playlist)]) (up_slept u)
  else u.

(** [removed]: whether [remove_file] succeeds. *)
Definition minio_consume (cfg : SegmentConfig) (live_id : string) (answer : nat -> bool) (removed : bool)
    (files : gset string) (seg : TsSegment) : bool * Uploads * gset string :=
  let key := object_key cfg live_id (ts_filename seg) in
  let first := mkUploads [(key, ts_path seg)] 0 in
  let '(ok, u) := retry_upload 2 answer 1 200 key (ts_path seg) (answer 0%nat) first in
  let files := if removed then files ∖ {[ts_path seg]} else files in
  if ok then (true, upload_playlist cfg live_id files (ts_path seg) u, files)
  else (false, u, files).

(** The uploader used without MinIO: it removes the file, when it can, and reports success. *)
Definition null_upload (removed : bool) (files : gset string) (path : string) : bool * gset string :=
  (true, if removed then files ∖ {[path]} else files).

(** ** FLV sink *)

Definition flv_sink_consume {B} `{BroadcastChan FlvTag B} (hub : FlvEgressHub B) (live_id : string)
    (tag : FlvTag) : FlvEgressHub B := hub_broadcast hub live_id tag.

(** ** Bucket check *)

Inductive create_error := AlreadyOwnedByYou | OtherCode (code : string) | NotS3Error.

Definition lower (c : ascii) : ascii :=
  let n := nat_of_ascii c in
  if (65 <=? n)%nat && (n <=? 90)%nat then ascii_of_nat (n + 32) else c.

Definition eq_ignore_ascii_case (a b : string) : bool :=
  bool_decide (map lower (list_ascii_of_string a) = map lower (list_ascii_of_string b)).

Definition is_bucket_already_exists (e : create_error) : bool :=
  match e with
  | AlreadyOwnedByYou => true
  | OtherCode code => eq_ignore_ascii_case code "BucketAlreadyExists"
  | NotS3Error => false
  end.

(** One attempt: whether the check succeeded and found the bucket, and the
    outcome of its creation. *)
Record attempt := mkAttempt { at_exists : option bool; at_create : option create_error }.

Definition try_ensure_bucket (a : attempt) : bool :=
  match at_exists a with
  | None => false
  | Some true => true
  | Some false => match at_create a with None => true | Some e => is_bucket_already_exists e end
  end.

(** The loop over the attempts: success, and the milliseconds slept. *)
Fixpoint ensure_bucket_loop (n : nat) (attempts : nat -> attempt) (i : nat) (delay slept : Z) : bool * Z :=
  match n with
  | O => (false, slept)
  | S n =>
      if try_ensure_bucket (attempts i) then (true, slept)
      else if (i <? 2)%nat then ensure_bucket_loop n attempts (S i) (delay * 2) (slept + delay)
      else (false, slept)
  end.

Definition ensure_bucket (attempts : nat -> attempt) : bool * Z := ensure_bucket_loop 3 attempts 0 500 0.

(** ** Properties *)

(** Consuming a segment asks for its upload at most three times, with waits
    of 200 and 400 ms, succeeds exactly when one of the three attempts does, and
    removes the staged file in both cases, unless the removal fails, which is only
    logged; the live playlist next to it is uploaded after a success, when it
    exists, and never after a failure; no other file is touched and every object key stays under the stream's sanitized prefix. *)
Theorem minio_consume_outcome cfg live_id answer removed files seg :
  let '(ok, u, files') := minio_consume cfg live_id answer removed files seg in
  let key := object_key cfg live_id (ts_filename seg) in
  let playlist := path_join (parent (ts_path seg)) "index.m3u8" in
  let attempts := if answer 0%nat then 1%nat else if answer 1%nat then 2%nat else 3%nat in
  ok = answer 0%nat || answer 1%nat || answer 2%nat
  /\ files' = (if removed then files ∖ {[ts_path seg]} else files)
  /\ up_log u = replicate attempts (key, ts_path seg)
       ++ (if ok && bool_decide (playlist ∈ files')
           then [(object_key cfg live_id "index.m3u8", playlist)] else [])
  /\ up_slept u = (if answer 0%nat then 0 else if answer 1%nat then 200 else 600).
Proof.
  unfold minio_consume. cbn [retry_upload].
  set (files' := if removed then _ else _). unfold upload_playlist. set (playlist := path_join _ _).
  destruct (answer 0%nat) eqn:E0; cbn [retry_upload orb andb].
  - case_decide as Hp; [rewrite bool_decide_true by done|rewrite bool_decide_false by done]; done.
  - destruct (answer 1%nat) eqn:E1; cbn [retry_upload orb andb].
    + case_decide as Hp; [rewrite bool_decide_true by done|rewrite bool_decide_false by done]; done.
    + destruct (answer 2%nat) eqn:E2; [|done].
      case_decide as Hp; [rewrite bool_decide_true by done|rewrite bool_decide_false by done]; done.
Qed.

(** At startup the bucket is ensured with at most three attempts and 1.5 s of
    waiting: it succeeds exactly when one attempt finds the bucket or creates
    it, a creation that lost the race against another instance counting as a
    success. *)
Theorem ensure_bucket_outcome attempts :
  fst (ensure_bucket attempts)
    = try_ensure_bucket (attempts 0%nat) || try_ensure_bucket (attempts 1%nat)
      || try_ensure_bucket (attempts 2%nat)
  /\ 0 <= snd (ensure_bucket attempts) <= 1500
  /\ (forall e, e = AlreadyOwnedByYou \/ e = OtherCode "bucketalreadyexists" ->
      try_ensure_bucket (mkAttempt (Some false) (Some e)) = true).
Proof.
  unfold ensure_bucket. cbn [ensure_bucket_loop].
  change (0 <? 2)%nat with true. change (1 <? 2)%nat with true. change (2 <? 2)%nat with false.
  destruct (try_ensure_bucket (attempts 0%nat)), (try_ensure_bucket (attempts 1%nat)),
    (try_ensure_bucket (attempts 2%nat)); cbn; (split_and!; [done|lia|lia|]);
    by intros e [-> | ->].
Qed.
