(* ===== verification/Telemetry.v ===== *)
(** * Telemetry set-up
    [livestream-telemetry/src/{init.rs, lib.rs}] and the FFmpeg log bridge of
    [livestream-media/src/lib.rs]: when telemetry is exported, what is installed
    when some exporter cannot be built, how it is flushed, and how log levels are
    translated both ways. The OpenTelemetry SDK is what its builders answer and
    the calls made to it, in order. *)
From Stdlib Require Import Ascii String.
From stdpp Require Import strings gmap list.
From S2P Require Import Prelude Sinks.

(** ** When telemetry is exported *)

(** The value of an environment variable; [var] refuses one that is not Unicode. *)
Inductive env_value := Unicode (s : string) | NotUnicode.
Abbreviation Env := (gmap string env_value).

Definition OTEL_SERVICE_NAME : string := "OTEL_SERVICE_NAME".

Definition OTLP_ENDPOINT_ENV_VARS : list string :=
  ["OTEL_EXPORTER_OTLP_ENDPOINT"; "OTEL_EXPORTER_OTLP_TRACES_ENDPOINT"; "OTEL_EXPORTER_OTLP_METRICS_ENDPOINT";
   "OTEL_EXPORTER_OTLP_LOGS_ENDPOINT"]%string.

(** [str::trim], for the white space of ASCII. *)
Definition is_space (c : ascii) : bool :=
  let n := nat_of_ascii c in (n =? 32)%nat || (9 <=? n)%nat && (n <=? 13)%nat.
Fixpoint trim_start (l : list ascii) : list ascii :=
  match l with [] => [] | c :: l' => if is_space c then trim_start l' else l end.
Definition trim (s : string) : string :=
  string_of_list_ascii (rev (trim_start (rev (trim_start (list_ascii_of_string s))))).

Definition selects_otlp (v : option env_value) : bool :=
  match v with Some (Unicode s) => eq_ignore_ascii_case (trim s) "otlp" | _ => false end.

Definition otlp_exporter_selected (env : Env) : bool :=
  existsb (fun key => selects_otlp (env !! key))
    ["OTEL_TRACES_EXPORTER"; "OTEL_METRICS_EXPORTER"; "OTEL_LOGS_EXPORTER"]%string
  || is_some (env !! "OTEL_EXPORTER_OTLP_PROTOCOL"%string).

Definition otlp_enabled (env : Env) : bool :=
  existsb (fun key => is_some (env !! key)) OTLP_ENDPOINT_ENV_VARS || otlp_exporter_selected env.

(** [pkg]: the name of the package. *)
Definition resource_name (pkg : string) (env : Env) : string :=
  match env !! OTEL_SERVICE_NAME with Some (Unicode name) => name | _ => pkg end.

(** The resource is built once, by whoever asks first. *)
Definition resource (pkg : string) (env : Env) (cell : option string) : string * option string :=
  match cell with Some r => (r, cell) | None => (resource_name pkg env, Some (resource_name pkg env)) end.

(** ** Set-up *)

Inductive provider := Logger | Tracer | Meter.

#[export] Instance provider_eq_dec : EqDecision provider.
Proof. solve_decision. Defined.

Inductive telemetry_call :=
| SetPropagator                    (* set_text_map_propagator *)
| BuildProvider (p : provider) (resource : string)
| InstallConsole                   (* a subscriber with the console layer *)
| InstallExport                    (* a subscriber with the console and the OTLP layers *)
| SetTracerProvider
| SetMeterProvider
| Shutdown (p : provider).

Inductive telemetry_error := Disabled | ExporterFailed (p : provider).

(** Whether the exporter of a signal can be built, the resource built so far and
    the calls made. *)
Record TelemetryState := mkTelemetry { ty_resource : option string; ty_calls : list telemetry_call }.

Section Setup.
Context (pkg : string) (env : Env) (exporter : provider -> bool).

Definition log_call (s : TelemetryState) (c : telemetry_call) : TelemetryState :=
  mkTelemetry (ty_resource s) (ty_calls s ++ [c]).

(** [init_logs], [init_metrics], and [init_tracer] after the propagator is set. *)
Definition init_provider (s : TelemetryState) (p : provider) : result telemetry_error unit * TelemetryState :=
  let s := match p with Tracer => log_call s SetPropagator | _ => s end in
  if negb (exporter p) then (Err (ExporterFailed p), s)
  else
    let '(r, cell) := resource pkg env (ty_resource s) in
    (Ok tt, log_call (mkTelemetry cell (ty_calls s)) (BuildProvider p r)).

Definition init_otlp (s : TelemetryState) : result telemetry_error unit * TelemetryState :=
  if negb (otlp_enabled env) then (Err Disabled, s)
  else
    match init_provider s Logger with
    | (Err e, s) => (Err e, s)
    | (Ok _, s) =>
        match init_provider s Tracer with
        | (Err e, s) => (Err e, s)
        | (Ok _, s) => init_provider s Meter
        end
    end.

(** Whether a guard is returned; it never fails. *)
Definition setup_telemetry (s : TelemetryState) : result telemetry_error bool * TelemetryState :=
  if negb (otlp_enabled env) then (Ok false, log_call s InstallConsole)
  else
    match init_otlp s with
    | (Err _, s) => (Ok false, log_call s InstallConsole)
    | (Ok _, s) =>
        (Ok true, log_call (log_call (log_call s InstallExport) SetTracerProvider) SetMeterProvider)
    end.

(** [OtelGuard::shutdown], also its [Drop]. *)
Definition guard_shutdown (s : TelemetryState) : TelemetryState :=
  log_call (log_call (log_call s (Shutdown Logger)) (Shutdown Tracer)) (Shutdown Meter).
End Setup.

(** Without the feature there is only the console. *)
Definition setup_telemetry_disabled (s : TelemetryState) : result telemetry_error bool * TelemetryState :=
  (Ok false, log_call s InstallConsole).

(** ** FFmpeg's log *)

Definition AV_LOG_QUIET : Z := -8.
Definition AV_LOG_PANIC : Z := 0.
Definition AV_LOG_FATAL : Z := 8.
Definition AV_LOG_ERROR : Z := 16.
Definition AV_LOG_WARNING : Z := 24.
Definition AV_LOG_INFO : Z := 32.
Definition AV_LOG_VERBOSE : Z := 40.
Definition AV_LOG_DEBUG : Z := 48.
Definition AV_LOG_TRACE : Z := 56.

Inductive Level := ERROR | WARN | INFO | DEBUG | TRACE.

#[export] Instance Level_eq_dec : EqDecision Level.
Proof. solve_decision. Defined.

(** The level [set_log_level] asks FFmpeg for. *)
Definition c_level (level : Level) : Z :=
  match level with
  | ERROR => AV_LOG_ERROR
  | WARN => AV_LOG_WARNING
  | INFO => AV_LOG_INFO
  | DEBUG => AV_LOG_DEBUG
  | TRACE => AV_LOG_TRACE
  end.

(** The level [log_callback] reports a message with. *)
Definition callback_level (level : Z) : Level :=
  if (level =? AV_LOG_FATAL) || (level =? AV_LOG_PANIC) || (level =? AV_LOG_ERROR) then ERROR
  else if level =? AV_LOG_WARNING then WARN
  else if level =? AV_LOG_INFO then INFO
  else if level =? AV_LOG_DEBUG then DEBUG
  else if level =? AV_LOG_TRACE then TRACE
  else INFO.

(** [log_callback]: [formatted] is the line FFmpeg made, if it could; a message
    without format, or of nothing but white space at its end, is not reported. *)
Definition log_callback (fmt_null : bool) (level : Z) (formatted : option string) : option (Level * string) :=
  if fmt_null then None
  else match formatted with
       | None => None
       | Some line =>
           let message := string_of_list_ascii (rev (trim_start (rev (list_ascii_of_string line)))) in
           if bool_decide (message = EmptyString) then None else Some (callback_level level, message)
       end.

(** ** Properties *)

Definition is_install (c : telemetry_call) : bool := match c with InstallConsole | InstallExport => true | _ => false end.

(** Setting telemetry up never fails and never leaves the program without a log.
    From a fresh process exactly one subscriber is installed, as the last thing
    before the global providers; telemetry is exported exactly when the
    environment asks for OTLP and all three exporters can be built, and only then
    is there a guard; all providers carry one resource name; and a guard that is
    shut down and dropped has shut every provider down. A variable that only names
    the service does not turn the export on. *)
Theorem telemetry_setup pkg env exporter :
  let '(r, s) := setup_telemetry pkg env exporter (mkTelemetry None []) in
  r = Ok (otlp_enabled env && exporter Logger && exporter Tracer && exporter Meter)
  /\ countb is_install (ty_calls s) = 1%nat
  /\ (r = Ok true <-> InstallExport ∈ ty_calls s)
  /\ (forall p n, BuildProvider p n ∈ ty_calls s -> n = resource_name pkg env)
  /\ (r = Ok true -> forall p, BuildProvider p (resource_name pkg env) ∈ ty_calls s
      /\ Shutdown p ∈ ty_calls (guard_shutdown s))
  /\ otlp_enabled {[OTEL_SERVICE_NAME := Unicode "live"]} = false.
Proof.
  unfold setup_telemetry, init_otlp. destruct (otlp_enabled env); cbn [negb].
  2: { cbn. split_and!; try done; set_solver. }
  unfold init_provider. destruct (exporter Logger), (exporter Tracer), (exporter Meter); cbn;
    (split_and!; try done; try set_solver; intros ? [| |]; set_solver).
Qed.

(** Log levels survive the way to FFmpeg and back. A message of the level the
    program asked for is reported at that level; what FFmpeg lets through at a
    level it was asked for - a message of its own levels up to that one - is
    never reported as more severe than an error or less severe than asked, except
    that FFmpeg's verbose messages, which only the debug levels let through, are
    reported as information. *)
Theorem log_level_roundtrip l m :
  m ∈ [AV_LOG_PANIC; AV_LOG_FATAL; AV_LOG_ERROR; AV_LOG_WARNING; AV_LOG_INFO; AV_LOG_VERBOSE; AV_LOG_DEBUG; AV_LOG_TRACE] ->
  callback_level (c_level l) = l
  /\ (m <= c_level l -> c_level (callback_level m) <= c_level l)
  /\ (m <> AV_LOG_VERBOSE -> AV_LOG_ERROR <= m -> c_level (callback_level m) = m)
  /\ callback_level AV_LOG_VERBOSE = INFO.
Proof.
  intros Hm. repeat (apply elem_of_cons in Hm as [->|Hm]); [..|by apply elem_of_nil in Hm];
    destruct l; vm_compute; (split_and!; try done; intros H; try done; by destruct H).
Qed.

Lemma log_level_roundtrip_witness : callback_level (c_level WARN) = WARN /\ c_level (callback_level AV_LOG_FATAL) <= c_level WARN.
Proof.
  destruct (log_level_roundtrip WARN AV_LOG_FATAL) as (Hr & Hle & _); [set_solver|].
  split; [exact Hr|apply Hle; vm_compute; discriminate].
Defined.
