(* ===== verification/Transcode.v ===== *)
(** * MJPEG transcoder
    [livestream-pipeline/src/processor/transcode.rs]. The FFmpeg decoder, scaler
    and encoder are represented by their outcomes, read from an environment; what
    the processor decides (times, frame rate, encoder parameters, sequence
    header, error recovery) is computed. [None] is a panic. *)
From Stdlib Require Import Floats.SpecFloat Sorting.Sorted.
From stdpp Require Import strings.
From S2P Require Import Prelude Types Nal Config.

(** ** Doubles to integers *)

(** [x as i64]: truncation, saturating, NaN to 0. *)
Definition trunc_i64 (x : spec_float) : Z :=
  match x with
  | S754_finite s m e =>
      let n := if 0 <=? e then Zpos m * 2 ^ e else Zpos m / 2 ^ (- e) in
      if s then Z.max (- n) i64_min else Z.min n i64_max
  | S754_infinity s => if s then i64_min else i64_max
  | _ => 0
  end.

(** [x.round().max(1.0)], as an integer without bound; [None] for infinity. *)
Definition round_max_1 (x : spec_float) : option Z :=
  match x with
  | S754_finite false m e =>
      Some (Z.max 1 (if 0 <=? e then Zpos m * 2 ^ e else (2 * Zpos m + 2 ^ (- e)) / (2 * 2 ^ (- e))))
  | S754_infinity false => None
  | _ => Some 1
  end.

Definition saturate (hi : Z) (x : option Z) : Z := match x with Some n => Z.min n hi | None => hi end.
Definition i32_max : Z := 0x7FFFFFFF.

Definition f64_div (x y : spec_float) : spec_float := SFdiv f64_prec f64_emax x y.
Definition f64_mul (x y : spec_float) : spec_float := SFmul f64_prec f64_emax x y.
Definition f64_sub (x y : spec_float) : spec_float := SFsub f64_prec f64_emax x y.

(** [a as i32] of an [i64]: the low 32 bits, signed. *)
Definition wrap_i32 (z : Z) : Z := (z + 2 ^ 31) mod 2 ^ 32 - 2 ^ 31.

(** Euclid's loop; [b] decreases, so [b + 1] turns are enough. *)
Fixpoint gcd_loop (fuel : nat) (a b : Z) : Z :=
  match fuel with
  | O => a
  | S fuel => if b =? 0 then a else gcd_loop fuel b (Z.rem a b)
  end.

Definition rate_numerator (fps : spec_float) : Z :=
  saturate i64_max (round_max_1 (f64_mul fps (f64_of_Z 1000))).

Definition fps_to_rational (fps : spec_float) : Z * Z :=
  let num := rate_numerator fps in
  let a := gcd_loop 1001 num 1000 in
  (wrap_i32 (num ÷ a), wrap_i32 (1000 ÷ a)).

(** ** State *)

Record EncoderParams := mkEncoder {
  en_width : Z; en_height : Z; en_bit_rate : Z;
  en_gop_frames : Z;
  en_framerate : Z * Z;
}.

Record TranscodeState := mkTranscode {
  ts_decoder : bool;
  ts_encoder : option EncoderParams;
  ts_scaler : bool;
  ts_dst_frame : bool;
  ts_last_pts : Z;
  ts_frames_since_init : Z;
  ts_last_kept_slot : Z;
  ts_fps_assumed : spec_float;
  ts_min_delta_ms : option Z;
}.

Record TranscodeProcessor := mkTranscoder {
  tp_state : TranscodeState;
  tp_emitted_seq_header : bool;
  tp_output_params : option (list CodecParams);
}.

Definition transcode_new : TranscodeProcessor :=
  mkTranscoder (mkTranscode true None false false 0 0 i64_min (f64_of_Z 30) None) false None.

Record Frame := mkVideoFrame { fr_pts : option Z; fr_width : Z; fr_height : Z; fr_yuv420p : bool }.

(** A packet the encoder returns. *)
Record AvOut := mkAvOut { ao_data : bytes; ao_pts : option Z; ao_dts : option Z; ao_key : bool }.

(** Outcomes while one frame is encoded. *)
Record EncodeEnv := mkEncodeEnv {
  ee_libx264 : bool; ee_fallback : bool;   (* opening the two encoders *)
  ee_scaler : bool; ee_dst_frame : bool; ee_scale : bool;
  ee_send : bool;
  ee_packets : list AvOut;                  (* what receive_packet gave *)
  ee_receive : bool;                        (* and whether it then ended without error *)
}.

(** Outcomes while one packet is decoded. *)
Record DecodeEnv := mkDecodeEnv {
  de_reopen : bool;      (* rebuilding a missing decoder *)
  de_packet : bool;      (* to_av_packet *)
  de_send : bool;
  de_frames : list (Frame * EncodeEnv);   (* with the outcomes while each is encoded *)
  de_receive : bool;
  de_rebuild : bool;     (* rebuilding after a fatal error *)
}.

Section Transcoder.
Context (cfg : TranscodeConfig).

Definition set_decoder (s : TranscodeState) (d : bool) : TranscodeState :=
  mkTranscode d (ts_encoder s) (ts_scaler s) (ts_dst_frame s) (ts_last_pts s) (ts_frames_since_init s)
    (ts_last_kept_slot s) (ts_fps_assumed s) (ts_min_delta_ms s).
Definition set_encoder (s : TranscodeState) (e : EncoderParams) (fps : spec_float) : TranscodeState :=
  mkTranscode (ts_decoder s) (Some e) (ts_scaler s) (ts_dst_frame s) (ts_last_pts s) (ts_frames_since_init s)
    (ts_last_kept_slot s) fps (ts_min_delta_ms s).
Definition set_scaling (s : TranscodeState) (scaler dst : bool) : TranscodeState :=
  mkTranscode (ts_decoder s) (ts_encoder s) scaler dst (ts_last_pts s) (ts_frames_since_init s)
    (ts_last_kept_slot s) (ts_fps_assumed s) (ts_min_delta_ms s).
Definition set_last_pts (s : TranscodeState) (pts : Z) : TranscodeState :=
  mkTranscode (ts_decoder s) (ts_encoder s) (ts_scaler s) (ts_dst_frame s) pts (ts_frames_since_init s)
    (ts_last_kept_slot s) (ts_fps_assumed s) (ts_min_delta_ms s).
Definition set_frames (s : TranscodeState) (n : Z) : TranscodeState :=
  mkTranscode (ts_decoder s) (ts_encoder s) (ts_scaler s) (ts_dst_frame s) (ts_last_pts s) n
    (ts_last_kept_slot s) (ts_fps_assumed s) (ts_min_delta_ms s).
Definition set_slot (s : TranscodeState) (slot : Z) : TranscodeState :=
  mkTranscode (ts_decoder s) (ts_encoder s) (ts_scaler s) (ts_dst_frame s) (ts_last_pts s)
    (ts_frames_since_init s) slot (ts_fps_assumed s) (ts_min_delta_ms s).
Definition set_min_delta (s : TranscodeState) (d : option Z) : TranscodeState :=
  mkTranscode (ts_decoder s) (ts_encoder s) (ts_scaler s) (ts_dst_frame s) (ts_last_pts s)
    (ts_frames_since_init s) (ts_last_kept_slot s) (ts_fps_assumed s) d.

(** ** Frame rate filter *)

Definition interval_ms (fps : spec_float) : Z := trunc_i64 (f64_div (f64_of_Z 1000) fps).

Definition should_keep_frame (state : TranscodeState) (pts : Z) : option (bool * TranscodeState) :=
  match tc_fps cfg with
  | None => Some (true, state)
  | Some fps =>
      let interval := interval_ms fps in
      if interval =? 0 then None
      else
        let slot := pts ÷ interval in
        if (0 <? ts_frames_since_init state) && (slot <=? ts_last_kept_slot state)
        then Some (false, state)
        else Some (true, set_slot state slot)
  end.

(** ** Encoder *)

(** The fallback encoder is opened with the wrapper's own GOP size of 60. *)
Definition create_encoder (env : EncodeEnv) (ew eh : Z) (fps : spec_float) : option EncoderParams :=
  let raw := (tc_bitrate_kbps cfg * 1000) mod 2 ^ 64 in
  let bit_rate := if raw <=? i64_max then raw else raw - 2 ^ 64 in
  let framerate := fps_to_rational fps in
  let gop_frames := saturate i32_max (round_max_1 (f64_mul (tc_gop_secs cfg) fps)) in
  if ee_libx264 env then Some (mkEncoder ew eh bit_rate gop_frames framerate)
  else if ee_fallback env then Some (mkEncoder ew eh bit_rate 60 framerate) else None.

Definition maybe_recalibrate_encoder (env : EncodeEnv) (state : TranscodeState) (ew eh : Z) :
    option TranscodeState :=
  if is_some (tc_fps cfg) || (5 <? ts_frames_since_init state) then Some state
  else match ts_min_delta_ms state with
       | None => Some state
       | Some delta =>
           let derived := f64_div (f64_of_Z 1000) (f64_of_Z delta) in
           let drift := f64_div (SFabs (f64_sub derived (ts_fps_assumed state))) (ts_fps_assumed state) in
           if SFleb drift (f64_div (f64_of_Z 1) (f64_of_Z 10)) then Some state
           else match create_encoder env ew eh derived with
                | Some e => Some (set_encoder state e derived)
                | None => None
                end
       end.

Definition encoded (p : AvOut) : EncodedPacket :=
  mkPacket H264 0 (AnnexB (ao_data p)) (ao_pts p)
    (match ao_dts p with Some d => Some d | None => ao_pts p end) (ao_key p) false false None.

(** The outcome, the state, and the packets pushed to the output. *)
Definition encode_frame (env : EncodeEnv) (state : TranscodeState) (frame : Frame) :
    bool * TranscodeState * list EncodedPacket :=
  let w := fr_width frame in
  let h := fr_height frame in
  if (w <=? 0) || (h <=? 0) then (false, state, [])
  else
    let ew := Z.land w (Z.lnot 1) in
    let eh := Z.land h (Z.lnot 1) in
    let opened :=
      match ts_encoder state with
      | None =>
          let fps := default (f64_of_Z 30) (tc_fps cfg) in
          match create_encoder env ew eh fps with
          | Some e => Some (set_encoder state e fps)
          | None => None
          end
      | Some _ => maybe_recalibrate_encoder env state ew eh
      end in
    match opened with
    | None => (false, state, [])
    | Some state =>
        let direct := fr_yuv420p frame && (w =? ew) && (h =? eh) in
        let scaled :=
          if direct then (true, state)
          else if negb (ts_scaler state) && negb (ee_scaler env) then (false, state)
          else
            let state := set_scaling state true (ts_dst_frame state) in
            if negb (ts_dst_frame state) && negb (ee_dst_frame env) then (false, state)
            else (ee_scale env, set_scaling state true true) in
        let '(ok, state) := scaled in
        if negb ok || negb (ee_send env) then (false, state, [])
        else (ee_receive env, state, map encoded (ee_packets env))
    end.

(** One decoded frame: its time, whether it is kept, and its packets. *)
Definition process_frame (env : EncodeEnv) (state : TranscodeState) (frame : Frame)
    (out : list EncodedPacket) : option (TranscodeState * list EncodedPacket) :=
  let prev_pts := ts_last_pts state in
  let pts := match fr_pts frame with Some p => p | None => ts_last_pts state + 33 end in
  let state := set_last_pts state pts in
  match should_keep_frame state pts with
  | None => None
  | Some (false, state) => Some (state, out)
  | Some (true, state) =>
      let n := ts_frames_since_init state in
      let delta := pts - prev_pts in
      let state :=
        if negb (is_some (tc_fps cfg)) && (0 <? n) && (n <=? 5) && (5 <=? delta)
        then set_min_delta state (Some match ts_min_delta_ms state with Some m => Z.min m delta | None => delta end)
        else state in
      let '(ok, state, pkts) :=
        encode_frame env state (mkVideoFrame (Some pts) (fr_width frame) (fr_height frame) (fr_yuv420p frame)) in
      let state := if ok then set_frames state (ts_frames_since_init state + 1) else state in
      Some (state, out ++ pkts)
  end.

(** ** Decoder *)

Definition decode_frames (env : DecodeEnv) (state : TranscodeState) :
    option (list (Frame * EncodeEnv)) * TranscodeState :=
  let state := if negb (ts_decoder state) then set_decoder state (de_reopen env) else state in
  if negb (ts_decoder state) then (Some [], state)
  else if negb (de_packet env) then (None, state)
  else if negb (de_send env) then (Some [], set_decoder state (de_rebuild env))
  else if de_receive env then (Some (de_frames env), state)
  else (Some (de_frames env), set_decoder state (de_rebuild env)).

(** ** Sequence header *)

Definition is_media_keyframe (p : EncodedPacket) : bool :=
  pk_is_keyframe p && negb (pk_is_sequence_header p).

Definition avc_header (sps pps : bytes) : EncodedPacket :=
  mkPacket H264 0 (AnnexB []) None None true true false (Some (avcc_record sps pps)).

Definition maybe_emit_sequence_header (p : TranscodeProcessor) (out : list EncodedPacket) :
    TranscodeProcessor * list EncodedPacket :=
  if tp_emitted_seq_header p then (p, out)
  else match List.find is_media_keyframe out with
       | None => (p, out)
       | Some keyframe =>
           match extract_sps_pps (as_bytes (pk_data keyframe)) with
           | Some (sps, pps) =>
               let params := [new_video H264 90000 (Some (sps ++ pps))] in
               (mkTranscoder (tp_state p) true
                  (match tp_output_params p with Some ps => Some ps | None => Some params end),
                avc_header sps pps :: out)
           | None => (mkTranscoder (tp_state p) true (tp_output_params p), out)
           end
       end.

(** ** Process *)

Fixpoint process_frames (frames : list (Frame * EncodeEnv)) (state : TranscodeState)
    (out : list EncodedPacket) : option (TranscodeState * list EncodedPacket) :=
  match frames with
  | (frame, env) :: frames =>
      match process_frame env state frame out with
      | None => None
      | Some (state, out) => process_frames frames state out
      end
  | [] => Some (state, out)
  end.

(** The packets handed on, or [Err] when the packet could not be converted. *)
Definition transcode_process (denv : DecodeEnv) (p : TranscodeProcessor)
    (pkt : EncodedPacket) : option (result unit (list EncodedPacket) * TranscodeProcessor) :=
  if negb (bool_decide (pk_codec pkt = Mjpeg)) then Some (Ok [pkt], p)
  else if pk_is_sequence_header pkt then Some (Ok [], p)
  else
    let '(frames, state) := decode_frames denv (tp_state p) in
    let p := mkTranscoder state (tp_emitted_seq_header p) (tp_output_params p) in
    match frames with
    | None => Some (Err tt, p)
    | Some frames =>
        match process_frames frames (tp_state p) [] with
        | None => None
        | Some (state, out) =>
            let '(p, out) := maybe_emit_sequence_header
              (mkTranscoder state (tp_emitted_seq_header p) (tp_output_params p)) out in
            Some (Ok out, p)
        end
    end.

End Transcoder.

(** ** Frame rates as fractions *)

Lemma gcd_loop_gcd fuel : forall a b, 0 <= a -> 0 <= b < Z.of_nat fuel -> gcd_loop fuel a b = Z.gcd a b.
Proof.
  induction fuel as [|fuel IH]; intros a b Ha Hb; [lia|]. cbn [gcd_loop].
  destruct (Z.eqb_spec b 0) as [->|Hne].
  - rewrite Z.gcd_0_r. lia.
  - assert (0 <= Z.rem a b < b) as Hr by (apply Z.rem_bound_pos; lia). rewrite IH by lia.
    rewrite Z.rem_mod_nonneg by lia. rewrite Z.gcd_comm, Z.gcd_mod by lia. apply Z.gcd_comm.
Qed.

Lemma rate_numerator_pos fps : 1 <= rate_numerator fps <= i64_max.
Proof.
  unfold rate_numerator, saturate, round_max_1, i64_max.
  destruct (f64_mul fps (f64_of_Z 1000)) as [s|[]| |[] m e]; lia.
Qed.

(** The frame rate given to the encoder is the configured one rounded to
    thousandths, at least 1/1000, as a fraction in lowest terms with a
    denominator of at most 1000 (for rates a 32-bit numerator can hold). *)
Theorem fps_to_rational_reduced fps :
  rate_numerator fps <= i32_max ->
  let '(n, d) := fps_to_rational fps in
  n * 1000 = rate_numerator fps * d /\ 1 <= n /\ 1 <= d <= 1000 /\ Z.gcd n d = 1.
Proof.
  intros Hmax. pose proof (rate_numerator_pos fps) as Hnum. unfold fps_to_rational.
  set (num := rate_numerator fps) in *. unfold i32_max in Hmax.
  rewrite gcd_loop_gcd by lia. set (g := Z.gcd num 1000).
  assert (0 < g) as Hg by (pose proof (Z.gcd_nonneg num 1000);
    assert (g <> 0) by (intros E; apply Z.gcd_eq_0_l in E; lia); lia).
  destruct (Z.gcd_divide_l num 1000) as [n Hn], (Z.gcd_divide_r num 1000) as [d Hd].
  fold g in Hn, Hd.
  assert (num ÷ g = n) as -> by (rewrite Hn; apply Z.quot_mul; lia).
  assert (1000 ÷ g = d) as -> by (rewrite Hd; apply Z.quot_mul; lia).
  assert (1 <= n <= num) by nia. assert (1 <= d <= 1000) by nia.
  assert (forall z, 0 <= z < 2 ^ 31 -> wrap_i32 z = z) as Hw.
  { intros z Hz. unfold wrap_i32. rewrite Z.mod_small by lia. lia. }
  rewrite !Hw by lia. split_and!; try lia; [nia|].
  assert (g * Z.gcd n d = g * 1) as Hgg; [|nia].
  rewrite Z.mul_1_r, <- Z.gcd_mul_mono_l_nonneg by lia. rewrite (Z.mul_comm g n), (Z.mul_comm g d), <- Hn, <- Hd.
  done.
Qed.

(** ** The frame rate filter over a run *)

(** The times of the frames that pass the filter and are encoded; each frame
    comes with its time and whether its encoding succeeds. *)
Fixpoint filter_run (cfg : TranscodeConfig) (state : TranscodeState) (frames : list (Z * bool)) :
    option (list Z) :=
  match frames with
  | [] => Some []
  | (pts, ok) :: frames =>
      match should_keep_frame cfg state pts with
      | None => None
      | Some (false, state) => filter_run cfg state frames
      | Some (true, state) =>
          let state := if ok then set_frames state (ts_frames_since_init state + 1) else state in
          kept ← filter_run cfg state frames; Some (if ok then pts :: kept else kept)
      end
  end.

Lemma filter_run_increasing cfg fps frames : tc_fps cfg = Some fps -> interval_ms fps <> 0 ->
  forall state, 0 <= ts_frames_since_init state ->
  exists kept, filter_run cfg state frames = Some kept
    /\ StronglySorted Z.lt (map (fun p => p ÷ interval_ms fps) kept)
    /\ (0 < ts_frames_since_init state ->
        Forall (fun p => ts_last_kept_slot state < p ÷ interval_ms fps) kept).
Proof.
  intros Hf Hi. induction frames as [|[pts ok] frames IH]; intros state Hn; cbn [filter_run].
  { exists []. split_and!; [done|constructor|by constructor]. }
  unfold should_keep_frame. rewrite Hf. destruct (Z.eqb_spec (interval_ms fps) 0); [done|].
  set (slot := pts ÷ interval_ms fps).
  destruct ((0 <? ts_frames_since_init state) && (slot <=? ts_last_kept_slot state)) eqn:E; [by apply IH|].
  assert (0 < ts_frames_since_init state -> ts_last_kept_slot state < slot) as Hslot.
  { intros Hpos. apply andb_false_iff in E as [E%Z.ltb_ge|E%Z.leb_gt]; lia. }
  destruct ok.
  - destruct (IH (set_frames (set_slot state slot) (ts_frames_since_init (set_slot state slot) + 1)))
      as (kept & -> & Hs & Hb); [cbn; lia|]. cbn [mbind option_bind]. cbn in Hb. specialize (Hb ltac:(lia)).
    exists (pts :: kept). split_and!; [done| |].
    + cbn. constructor; [done|]. by apply List.Forall_map.
    + intros Hpos. constructor; [by apply Hslot|]. eapply Forall_impl; [exact Hb|]. cbn. intros x Hx.
      specialize (Hslot Hpos). lia.
  - destruct (IH (set_slot state slot)) as (kept & -> & Hs & Hb); [done|]. exists kept. split_and!; [done|done|].
    intros Hpos. eapply Forall_impl; [by apply Hb|]. cbn. intros x Hx. specialize (Hslot Hpos). lia.
Qed.

(** With a frame rate whose period rounds to at least one millisecond, the
    filter never fails, and of the encoded frames no two fall in the same period
    (their period numbers strictly increase); without a configured rate every
    frame is kept; but a rate above 1000 frames per second, which validation
    accepts, has a period of zero, and the first frame divides by it. *)
Theorem fps_filter_spec cfg state frames :
  0 <= ts_frames_since_init state ->
  (forall fps, tc_fps cfg = Some fps -> interval_ms fps <> 0 ->
    exists kept, filter_run cfg state frames = Some kept
      /\ StronglySorted Z.lt (map (fun p => p ÷ interval_ms fps) kept))
  /\ (tc_fps cfg = None -> filter_run cfg state frames = Some (map fst (List.filter snd frames)))
  /\ (let fast := mkTranscodeConfig 4096 "medium" (f64_of_Z 2) (Some (f64_of_Z 1001)) in
      TranscodeConfig_validate fast = Ok tt
      /\ forall pts s, should_keep_frame fast s pts = None).
Proof.
  intros Hn. split_and!.
  - intros fps Hf Hi. destruct (filter_run_increasing cfg fps frames Hf Hi state Hn) as (kept & ? & ? & _).
    by exists kept.
  - intros Hf. clear Hn. revert state. induction frames as [|[pts ok] frames IH]; intros state; [done|].
    cbn [filter_run]. unfold should_keep_frame. rewrite Hf. rewrite IH. by destruct ok.
  - split; [vm_compute; reflexivity|]. intros pts s. unfold should_keep_frame. cbn [tc_fps].
    assert (interval_ms (f64_of_Z 1001) = 0) as -> by (vm_compute; reflexivity). done.
Qed.

(** ** The sequence header of a run *)

(** Packets processed one after another: the output, or [None] if one panicked. *)
Fixpoint transcode_run (cfg : TranscodeConfig) (p : TranscodeProcessor)
    (ins : list (DecodeEnv * EncodedPacket)) (acc : list EncodedPacket) :
    option (TranscodeProcessor * list EncodedPacket) :=
  match ins with
  | [] => Some (p, acc)
  | (env, pkt) :: ins =>
      match transcode_process cfg env p pkt with
      | None => None
      | Some (r, p) => transcode_run cfg p ins (acc ++ match r with Ok out => out | Err _ => [] end)
      end
  end.

Definition is_h264 (p : EncodedPacket) : bool := bool_decide (pk_codec p = H264).

(** A packet the encoder made: H.264 and not a header. *)
Definition media_packet (p : EncodedPacket) : bool := is_h264 p && negb (pk_is_sequence_header p).

(** What stands before and after the header in a run's H.264 output. *)
Definition header_of (key : EncodedPacket) : list EncodedPacket :=
  match extract_sps_pps (as_bytes (pk_data key)) with
  | Some (sps, pps) => [avc_header sps pps]
  | None => []
  end.
Definition params_of (key : EncodedPacket) : option (list CodecParams) :=
  match extract_sps_pps (as_bytes (pk_data key)) with
  | Some (sps, pps) => Some [new_video H264 90000 (Some (sps ++ pps))]
  | None => None
  end.

Inductive header_inv (p : TranscodeProcessor) (v : list EncodedPacket) : Prop :=
| no_keyframe_yet : tp_emitted_seq_header p = false -> tp_output_params p = None ->
    Forall (fun q => media_packet q = true /\ pk_is_keyframe q = false) v -> header_inv p v
| header_emitted pre mid key post : tp_emitted_seq_header p = true -> tp_output_params p = params_of key ->
    v = pre ++ header_of key ++ mid ++ key :: post ->
    Forall (fun q => media_packet q = true /\ pk_is_keyframe q = false) (pre ++ mid) ->
    media_packet key = true -> pk_is_keyframe key = true ->
    Forall (fun q => media_packet q = true) post -> header_inv p v.

Lemma encode_frame_media cfg env state frame :
  Forall (fun q => media_packet q = true) (snd (encode_frame cfg env state frame)).
Proof.
  unfold encode_frame. repeat (case_match; cbn [snd]; try apply Forall_nil_2).
  all: apply List.Forall_map; by apply Forall_forall.
Qed.

Lemma process_frames_media cfg frames : forall state out state' out',
  process_frames cfg frames state out = Some (state', out') ->
  Forall (fun q => media_packet q = true) out -> Forall (fun q => media_packet q = true) out'.
Proof.
  induction frames as [|[frame env] frames IH]; intros state out state' out' H Hout; cbn in H; [by simplify_eq|].
  destruct (process_frame cfg env state frame out) as [[s o]|] eqn:E; [|done]. apply (IH _ _ _ _ H).
  revert E. unfold process_frame. repeat (case_match; try done); intros; simplify_eq; try done.
  all: apply Forall_app; split; [done|].
  all: match goal with E : encode_frame ?c ?e ?s ?f = _ |- _ => pose proof (encode_frame_media c e s f) as Hm; by rewrite E in Hm end.
Qed.

(** The first media keyframe of a batch and what stands around it. *)
Lemma find_keyframe_split out : Forall (fun q => media_packet q = true) out ->
  match List.find is_media_keyframe out with
  | Some key => exists mid post, out = mid ++ key :: post /\ pk_is_keyframe key = true
      /\ media_packet key = true
      /\ Forall (fun q => media_packet q = true /\ pk_is_keyframe q = false) mid
      /\ Forall (fun q => media_packet q = true) post
  | None => Forall (fun q => media_packet q = true /\ pk_is_keyframe q = false) out
  end.
Proof.
  induction 1 as [|q out Hq Hout IH]; cbn; [constructor|].
  assert (is_media_keyframe q = pk_is_keyframe q) as Hk.
  { unfold is_media_keyframe. unfold media_packet in Hq. apply andb_true_iff in Hq as [_ ->]. by rewrite andb_true_r. }
  rewrite Hk. destruct (pk_is_keyframe q) eqn:E.
  - exists [], out. split_and!; done || constructor.
  - destruct (List.find is_media_keyframe out) as [key|]; [|by constructor].
    destruct IH as (mid & post & -> & ? & ? & ? & ?). exists (q :: mid), post. split_and!; [done..| |done].
    by constructor.
Qed.

Lemma emit_inv p v out : header_inv p v -> Forall (fun q => media_packet q = true) out ->
  let '(p', out') := maybe_emit_sequence_header p out in header_inv p' (v ++ out').
Proof.
  intros Hinv Hout. unfold maybe_emit_sequence_header.
  destruct Hinv as [He Hp Hv|pre mid key post He Hp Hv Hpm Hkm Hk Hpost]; rewrite He.
  - pose proof (find_keyframe_split out Hout) as Hf.
    destruct (List.find is_media_keyframe out) as [key|].
    + destruct Hf as (mid & post & -> & Hk & Hm & Hmid & Hpost). rewrite Hp.
      destruct (extract_sps_pps (as_bytes (pk_data key))) as [[sps pps]|] eqn:Ee;
        apply header_emitted with (pre := v) (mid := mid) (key := key) (post := post);
        unfold params_of, header_of; rewrite ?Ee; try done; by apply Forall_app.
    + apply no_keyframe_yet; [done..|]. by apply Forall_app.
  - eapply header_emitted with (pre := pre) (mid := mid) (key := key) (post := post ++ out); try done.
    + by rewrite Hv, <- !app_assoc.
    + by apply Forall_app.
Qed.

Lemma emit_h264 p out : Forall (fun q => media_packet q = true) out ->
  let '(_, out') := maybe_emit_sequence_header p out in List.filter is_h264 out' = out'.
Proof.
  intros Hout. assert (List.filter is_h264 out = out) as Hf.
  { induction Hout as [|q l Hq Hl IH]; [done|]. cbn. apply andb_true_iff in Hq as [-> _]. by rewrite IH. }
  unfold maybe_emit_sequence_header. repeat (case_match; try done); simplify_eq; cbn; by rewrite ?Hf.
Qed.

Lemma transcode_process_inv cfg env p v pkt r p' : pk_codec pkt <> H264 -> header_inv p v ->
  transcode_process cfg env p pkt = Some (r, p') ->
  header_inv p' (v ++ List.filter is_h264 (match r with Ok out => out | Err _ => [] end)).
Proof.
  intros Hc Hinv H. unfold transcode_process in H.
  assert (forall s, header_inv (mkTranscoder s (tp_emitted_seq_header p) (tp_output_params p)) v) as Hs.
  { intros s. destruct Hinv; [by apply no_keyframe_yet|by eapply header_emitted]. }
  repeat (case_match; try done); simplify_eq; cbn [List.filter]; rewrite ?app_nil_r; try done; auto.
  - unfold is_h264. rewrite bool_decide_false by done. by rewrite app_nil_r.
  - match goal with E : process_frames _ _ _ _ = Some (?st, ?o) |- _ =>
      pose proof (process_frames_media _ _ _ _ _ _ E (Forall_nil_2 _)) as Hm;
      pose proof (emit_inv _ v o (Hs st) Hm) as He; pose proof (emit_h264 (mkTranscoder st
        (tp_emitted_seq_header p) (tp_output_params p)) o Hm) as Hf end.
    match goal with E : maybe_emit_sequence_header _ _ = _ |- _ => cbn [tp_state tp_emitted_seq_header tp_output_params] in E; rewrite E in He, Hf end.
    by rewrite Hf.
Qed.

Lemma transcode_run_inv cfg ins : Forall (fun i => pk_codec (snd i) <> H264) ins ->
  forall p acc p' v, header_inv p (List.filter is_h264 acc) -> transcode_run cfg p ins acc = Some (p', v) ->
  header_inv p' (List.filter is_h264 v).
Proof.
  induction 1 as [|[env pkt] ins Hc Hins IH]; intros p acc p' v Hinv H; cbn in H; [by simplify_eq|].
  destruct (transcode_process cfg env p pkt) as [[r q]|] eqn:E; [|done].
  apply (IH _ _ _ _) in H; [done|]. rewrite List.filter_app. by eapply transcode_process_inv.
Qed.

Lemma extract_sps_length data sps pps : extract_sps_pps data = Some (sps, pps) -> (4 <= length sps)%nat.
Proof. unfold extract_sps_pps. repeat (case_match; try done); intros; simplify_eq; by to_prop. Qed.

(** C37: in the H.264 output of a run of the transcoder whose input holds no
    H.264 packet (those pass through it, headers included), either no keyframe has
    been made yet and no header and no output parameters exist, or the header
    stands before the first keyframe: it is made from that keyframe's parameter
    sets, nothing else is a header, the recorded output parameters are these
    sets, and the HLS muxer decodes exactly these sets from the header when each
    is at most 65535 bytes long, the limit of its length fields; without both
    sets in the first keyframe no header is ever made. *)
Theorem transcode_sequence_header cfg ins p v :
  Forall (fun i => pk_codec (snd i) <> H264) ins ->
  transcode_run cfg transcode_new ins [] = Some (p, v) ->
  let plain := Forall (fun q => pk_is_sequence_header q = false /\ pk_is_keyframe q = false) in
  let out := List.filter is_h264 v in
  (plain out /\ tp_output_params p = None)
  \/ exists pre header mid key post, out = pre ++ header ++ mid ++ key :: post
     /\ plain (pre ++ mid) /\ is_media_keyframe key = true
     /\ Forall (fun q => pk_is_sequence_header q = false) post
     /\ match extract_sps_pps (as_bytes (pk_data key)) with
        | None => header = [] /\ tp_output_params p = None
        | Some (sps, pps) =>
            header = [avc_header sps pps]
            /\ tp_output_params p = Some [new_video H264 90000 (Some (sps ++ pps))]
            /\ (Z.of_nat (length sps) <= u16_max -> Z.of_nat (length pps) <= u16_max ->
                option_map (hls_extradata H264) (pk_extradata (avc_header sps pps)) = Some (sps ++ pps))
        end.
Proof.
  intros Hins Hrun plain out.
  assert (forall q, media_packet q = true -> pk_is_sequence_header q = false) as Hnh.
  { unfold media_packet. intros q Hq. by to_prop. }
  pose proof (transcode_run_inv cfg ins Hins _ [] _ _ (no_keyframe_yet transcode_new [] eq_refl eq_refl (Forall_nil_2 _)) Hrun)
    as [_ Hp Hv|pre mid key post _ Hp Hv Hpm Hkm Hk Hpost].
  - left. split; [|done]. eapply Forall_impl; [exact Hv|]. intros q [Hq ?]. split; [by apply Hnh|done].
  - right. exists pre, (header_of key), mid, key, post. split_and!; [done| | | |].
    + eapply Forall_impl; [exact Hpm|]. intros q [Hq ?]. split; [by apply Hnh|done].
    + unfold is_media_keyframe. by rewrite Hk, (Hnh key).
    + eapply Forall_impl; [exact Hpost|]. apply Hnh.
    + unfold header_of, params_of in *.
      destruct (extract_sps_pps (as_bytes (pk_data key))) as [[sps pps]|] eqn:E; [|done].
      split_and!; [done..|]. intros Hs Hpps. cbn [avc_header pk_extradata option_map].
      by rewrite hls_extradata_record by (done || by eapply extract_sps_length).
Qed.

Lemma transcode_sequence_header_witness :
  let cfg := mkTranscodeConfig 4096 "medium" (f64_of_Z 2) None in
  let frame := mkVideoFrame (Some 40) 640 480 true in
  let unit := mkAvOut [0; 0; 0; 1; 0x67; 66; 0; 30; 0; 0; 1; 0x68; 0xce; 0; 0; 1; 0x65; 9] (Some 40) None true in
  let eenv := mkEncodeEnv true true true true true true [unit] true in
  let denv := mkDecodeEnv true true true [(frame, eenv)] true true in
  let jpeg := mkPacket Mjpeg 0 (AnnexB [0xff; 0xd8]) (Some 40) None true false false None in
  exists p v, transcode_run cfg transcode_new [(denv, jpeg)] [] = Some (p, v)
    /\ exists pre header mid key post, List.filter is_h264 v = pre ++ header ++ mid ++ key :: post.
Proof.
  cbv zeta. eexists _, _. split; [vm_compute; reflexivity|].
  edestruct (transcode_sequence_header (mkTranscodeConfig 4096 "medium" (f64_of_Z 2) None)
    [(mkDecodeEnv true true true [(mkVideoFrame (Some 40) 640 480 true,
        mkEncodeEnv true true true true true true
          [mkAvOut [0; 0; 0; 1; 0x67; 66; 0; 30; 0; 0; 1; 0x68; 0xce; 0; 0; 1; 0x65; 9] (Some 40) None true] true)]
        true true, mkPacket Mjpeg 0 (AnnexB [0xff; 0xd8]) (Some 40) None true false false None)])
    as [[Hp _]|(pre & header & mid & key & post & Hout & _)].
  - repeat constructor; discriminate.
  - vm_compute. reflexivity.
  - exfalso. inversion Hp as [|? ? [Hh _]]. discriminate Hh.
  - exists pre, header, mid, key, post. exact Hout.
Defined.
