(* ===== verification/CodecIo.v ===== *)
(** * Sending to and receiving from codecs
    [livestream-media/src/{encoder, decoder, bsf}.rs] and the loops around them in
    [livestream-pipeline/src/processor/transcode.rs]: what FFmpeg's return codes
    become, and that sending one item and receiving until there is nothing left
    keeps to FFmpeg's contract. The codec is an interface. *)
From stdpp Require Import list.
From S2P Require Import Prelude Types Transcode.

(** ** FFmpeg's codec interface *)

Definition AVERROR_EAGAIN : Z := -11.
Definition AVERROR_EOF : Z := -541478725.

(** [cc_receive]: an output, or the error code of the call. *)
Class AvCodec (C I R : Type) := {
  cc_send : C -> I -> Z * C;
  cc_receive : C -> result Z R * C;
}.

(** What is documented: as long as there is output it is handed out one at a
    time; after a receive that answered EAGAIN, or that ended, there is none; and
    a codec without output to hand out never refuses its input with EAGAIN. *)
Class AvCodecLaws (C I R : Type) `{AvCodec C I R} := {
  cc_pending : C -> nat;
  cc_receive_ok c o c' : cc_receive c = (Ok o, c') -> cc_pending c = S (cc_pending c');
  cc_receive_err c e c' : cc_receive c = (Err e, c') -> e < 0;
  cc_receive_done c e c' : cc_receive c = (Err e, c') -> e = AVERROR_EAGAIN \/ e = AVERROR_EOF -> cc_pending c' = 0%nat;
  cc_send_accepts c i : cc_pending c = 0%nat -> fst (cc_send c i) <> AVERROR_EAGAIN;
}.

(** ** The wrappers *)

(** What the wrappers make of the code of a send; a refusal is an error like any other. *)
Definition sent (code : Z) : result Z unit := if code <? 0 then Err code else Ok tt.

(** What they make of a receive: [None] is [Ok(false)]. *)
Definition received {R} (r : result Z R) : result Z (option R) :=
  match r with
  | Ok o => Ok (Some o)
  | Err code => if (code =? AVERROR_EAGAIN) || (code =? AVERROR_EOF) then Ok None else Err code
  end.

Section Loops.
Context {C I R : Type} `{AvCodec C I R}.

(** The methods of [Encoder] and of [Decoder]. *)
Definition send_frame (c : C) (frame : I) : result Z unit * C := let '(code, c) := cc_send c frame in (sent code, c).
Definition send_packet (c : C) (packet : I) : result Z unit * C := let '(code, c) := cc_send c packet in (sent code, c).
Definition receive_packet (c : C) : result Z (option R) * C := let '(r, c) := cc_receive c in (received r, c).
Definition receive_frame (c : C) : result Z (option R) * C := let '(r, c) := cc_receive c in (received r, c).

(** The receive loops: the outputs until the codec had no more, or until a call
    failed; [None]: out of fuel. *)
Fixpoint drain (receive : C -> result Z (option R) * C) (fuel : nat) (c : C) (out : list R) :
    option (result Z unit * C * list R) :=
  match fuel with
  | O => None
  | S fuel =>
      let '(r, c) := receive c in
      match r with
      | Ok (Some o) => drain receive fuel c (out ++ [o])
      | Ok None => Some (Ok tt, c, out)
      | Err e => Some (Err e, c, out)
      end
  end.

(** [encode_frame] from [send_frame] on: the packets received before a failure
    stay in the output. *)
Definition encode (fuel : nat) (c : C) (frame : I) : option (result Z unit * C * list R) :=
  match send_frame c frame with
  | (Err e, c) => Some (Err e, c, [])
  | (Ok _, c) => drain receive_packet fuel c []
  end.

(** [decode_frames]: whether the decoder must be rebuilt, and the frames. *)
Definition decode (fuel : nat) (c : C) (packet : I) : option (bool * C * list R) :=
  match send_packet c packet with
  | (Err _, c) => Some (true, c, [])
  | (Ok _, c) => '(r, c, frames) ← drain receive_frame fuel c []; Some (negb (is_ok r), c, frames)
  end.

(** [H264Mp4ToAnnexb::filter], whose calls answer like those of an encoder: a
    failure drops what was received before it. *)
Definition filter (fuel : nat) (c : C) (packet : I) : option (result Z (list R) * C) :=
  let '(code, c) := cc_send c packet in
  match sent code with
  | Err e => Some (Err e, c)
  | Ok _ => '(r, c, out) ← drain receive_packet fuel c []; Some (match r with Ok _ => Ok out | Err e => Err e end, c)
  end.

(** Some frames in order: the outcome of each, with its packets. *)
Fixpoint encode_all (fuel : nat) (c : C) (frames : list I) : option (list (result Z unit * list R) * C) :=
  match frames with
  | [] => Some ([], c)
  | frame :: frames =>
      '(r, c, out) ← encode fuel c frame;
      '(rs, c) ← encode_all fuel c frames;
      Some ((r, out) :: rs, c)
  end.
End Loops.

(** ** Properties *)

Section Contract.
Context {C I R : Type} `{AvCodecLaws C I R}.

Lemma drain_spec fuel : forall c out, (cc_pending c < fuel)%nat ->
  exists r c' more, drain receive_packet fuel c out = Some (r, c', out ++ more)
  /\ (length more <= cc_pending c)%nat
  /\ (is_ok r = true -> cc_pending c' = 0%nat)
  /\ (forall e, r = Err e -> e < 0 /\ e <> AVERROR_EAGAIN /\ e <> AVERROR_EOF).
Proof.
  induction fuel as [|fuel IH]; intros c out Hf; [lia|]. cbn. unfold receive_packet at 1.
  destruct (cc_receive c) as [[o|e] c'] eqn:E; cbn.
  - pose proof (cc_receive_ok c o c' E) as Hp. destruct (IH c' (out ++ [o])) as (r & c2 & more & -> & Hl & Hr & He); [lia|].
    exists r, c2, (o :: more). rewrite <- app_assoc. split_and!; try done. cbn. lia.
  - assert (forall r, (if (e =? AVERROR_EAGAIN) || (e =? AVERROR_EOF) then Some (Ok tt, c', out) else Some (Err e, c', out))
      = Some (r, c', out) -> (is_ok r = true -> cc_pending c' = 0%nat)
        /\ (forall e', r = Err e' -> e' < 0 /\ e' <> AVERROR_EAGAIN /\ e' <> AVERROR_EOF)) as Hr.
    { intros r. destruct (Z.eqb_spec e AVERROR_EAGAIN), (Z.eqb_spec e AVERROR_EOF); cbn; intros [= <-];
        (split; [|intros e' [= <-] || done]); try done; try (intros _; by apply (cc_receive_done c e c' E); auto).
      split_and!; try done. by apply (cc_receive_err c e c'). }
    destruct ((e =? AVERROR_EAGAIN) || (e =? AVERROR_EOF)); cbn;
      eexists _, c', []; rewrite app_nil_r; (split; [reflexivity|]); (split; [cbn; lia|]); by apply Hr.
Qed.

Lemma drain_more fuel fuel' : (fuel <= fuel')%nat -> forall c out x,
  drain receive_packet fuel c out = Some x -> drain receive_packet fuel' c out = Some x.
Proof.
  intros Hle. revert fuel Hle. induction fuel' as [|fuel' IH]; intros [|fuel] Hle c out x; try done; [lia|]. cbn.
  destruct (receive_packet c) as [r c']. destruct r as [[o|]|e]; try done. apply IH. lia.
Qed.

Lemma encode_more fuel fuel' c i x : (fuel <= fuel')%nat -> encode fuel c i = Some x -> encode fuel' c i = Some x.
Proof.
  intros Hle. unfold encode. destruct (send_frame c i) as [[[]|e] c']; [|done].
  by apply drain_more.
Qed.

(** One frame, with enough turns. *)
Lemma encode_spec c i : exists fuel r c' out, encode fuel c i = Some (r, c', out)
  /\ (cc_pending c = 0%nat -> r <> Err AVERROR_EAGAIN) /\ (is_ok r = true -> cc_pending c' = 0%nat).
Proof.
  unfold encode, send_frame. pose proof (cc_send_accepts c i) as Ha. destruct (cc_send c i) as [code c1]. cbn in Ha. unfold sent.
  destruct (Z.ltb_spec code 0).
  - exists 1%nat, (Err code), c1, []. split_and!; [done| |done]. intros Hp [= E]. by apply Ha.
  - destruct (drain_spec (S (cc_pending c1)) c1 []) as (r & c' & more & E & _ & Hr & He); [lia|].
    exists (S (cc_pending c1)), r, c', more. split_and!; [exact E| |done]. intros _ Ee. destruct (He _ Ee) as (_ & Hn & _). by destruct Hn.
Qed.

(** C22: The transcoder keeps to FFmpeg's contract. Against any codec that behaves as
    documented, starting without output to hand out, any number of frames can be
    sent, each with its receive loop: the loops all end; as long as no earlier
    frame failed, none is refused because output was left unread; and when none
    failed nothing is left to receive. *)
Theorem codec_contract_kept c frames : cc_pending c = 0%nat ->
  exists enough, forall fuel, (enough <= fuel)%nat -> exists rs c', encode_all fuel c frames = Some (rs, c')
  /\ length rs = length frames
  /\ (forall k r out, rs !! k = Some (r, out) -> Forall (fun x => is_ok (fst x) = true) (take k rs) -> r <> Err AVERROR_EAGAIN)
  /\ (Forall (fun x => is_ok (fst x) = true) rs -> cc_pending c' = 0%nat).
Proof.
  (* the codec may be in any state after a failure *)
  intros Hp. enough (forall frames c, exists enough, forall fuel, (enough <= fuel)%nat ->
    exists rs c', encode_all fuel c frames = Some (rs, c') /\ length rs = length frames
    /\ (cc_pending c = 0%nat -> forall k r out, rs !! k = Some (r, out) ->
          Forall (fun x => is_ok (fst x) = true) (take k rs) -> r <> Err AVERROR_EAGAIN)
    /\ (cc_pending c = 0%nat -> Forall (fun x => is_ok (fst x) = true) rs -> cc_pending c' = 0%nat)) as Hall.
  { destruct (Hall frames c) as (n & Hn). exists n. intros fuel Hf. destruct (Hn fuel Hf) as (rs & c' & ? & ? & Hk & He).
    exists rs, c'. split_and!; [done|done|exact (Hk Hp)|exact (He Hp)]. }
  clear Hp frames c. induction frames as [|i frames IH]; intros c.
  { exists 0%nat. intros fuel _. exists [], c. by split_and!. }
  destruct (encode_spec c i) as (f1 & r & c1 & out & E1 & Hr & Hc1). destruct (IH c1) as (f2 & Hf2).
  exists (Nat.max f1 f2). intros fuel Hf. destruct (Hf2 fuel ltac:(lia)) as (rs & c' & E2 & Hl & Hk & Hend).
  exists ((r, out) :: rs), c'. cbn. rewrite (encode_more f1 fuel c i _ ltac:(lia) E1). cbn. rewrite E2. cbn.
  split_and!; [done|lia| |].
  - intros Hp [|k] r' out' Hlk Hfa; cbn in *; [injection Hlk as <- <-; by apply Hr|].
    inversion Hfa as [|? ? Hok Hfa']; subst. by apply (Hk (Hc1 Hok) k r' out').
  - intros Hp Hfa. inversion Hfa as [|? ? Hok Hfa']; subst. by apply (Hend (Hc1 Hok)).
Qed.

(** The decoder and the bitstream filter: with enough turns their loops end, and one
    that reports no failure has left nothing to receive; a decoder without output
    to hand out is thrown away only for a genuine error of a call, never because
    it had not been read. *)
Theorem decode_and_filter_drain c i : cc_pending c = 0%nat ->
  exists fuel rebuild c1 frames r c2, decode fuel c i = Some (rebuild, c1, frames) /\ filter fuel c i = Some (r, c2)
  /\ (rebuild = false -> cc_pending c1 = 0%nat) /\ (is_ok r = true -> cc_pending c2 = 0%nat)
  /\ rebuild = negb (is_ok r)
  /\ (forall e, r = Err e -> e < 0 /\ e <> AVERROR_EAGAIN).
Proof.
  intros Hp. unfold decode, filter, send_packet. change receive_frame with (receive_packet (C := C) (I := I)). pose proof (cc_send_accepts c i Hp) as Ha.
  destruct (cc_send c i) as [code c1]. cbn in Ha. unfold sent. destruct (Z.ltb_spec code 0).
  - exists 1%nat, true, c1, [], (Err code), c1. split_and!; try done. by intros e [= <-].
  - destruct (drain_spec (S (cc_pending c1)) c1 []) as (r & c' & more & E & _ & Hr & He); [lia|].
    exists (S (cc_pending c1)), (negb (is_ok r)), c', more, (match r with Ok _ => Ok more | Err e => Err e end), c'.
    rewrite E. cbn. split_and!; try done.
    + intros Hn. apply Hr. by destruct r.
    + intros Hok. apply Hr. by destruct r.
    + by destruct r.
    + intros e Ee. destruct r as [[]|e']; [done|]. injection Ee as <-. destruct (He e' eq_refl) as (? & ? & _). done.
Qed.
End Contract.

(** ** A codec with a delay *)

(** It hands out an item once [dc_delay] later ones were sent, and holds one output
    at most. *)
Record DelayCodec (I : Type) := mkDelay { dc_delay : nat; dc_held : list I; dc_output : list I }.
Arguments mkDelay {I}.
Arguments dc_delay {I}.
Arguments dc_held {I}.
Arguments dc_output {I}.

#[export] Instance DelayCodec_codec {I} : AvCodec (DelayCodec I) I I := {
  cc_send c i :=
    if (0 <? length (dc_output c))%nat then (AVERROR_EAGAIN, c)
    else let held := dc_held c ++ [i] in
         if (dc_delay c <? length held)%nat
         then (0, mkDelay (dc_delay c) (tail held) (take 1 held))
         else (0, mkDelay (dc_delay c) held []);
  cc_receive c :=
    match dc_output c with
    | [] => (Err AVERROR_EAGAIN, c)
    | i :: out => (Ok i, mkDelay (dc_delay c) (dc_held c) out)
    end;
}.

#[export] Instance DelayCodec_laws {I} : AvCodecLaws (DelayCodec I) I I.
Proof.
  refine {| cc_pending c := length (dc_output c) |}; cbn.
  - intros c i c'. destruct (dc_output c) eqn:E; intros [= <- <-]. by cbn.
  - intros c e c'. destruct (dc_output c); intros [= <- <-]. done.
  - intros c e c'. destruct (dc_output c) eqn:E; intros [= <- <-] _. by rewrite E.
  - intros c i Hp. rewrite Hp. change (0 <? 0)%nat with false. unfold AVERROR_EAGAIN. case_match; cbn; lia.
Defined.

Lemma codec_contract_kept_witness :
  let run := encode_all (C := DelayCodec Z) 2 (mkDelay 1 [] []) [10; 20; 30] in
  option_map (fun x => map fst (fst x)) run = Some [Ok tt; Ok tt; Ok tt]
  /\ exists enough, forall fuel, (enough <= fuel)%nat ->
       is_some (encode_all (C := DelayCodec Z) fuel (mkDelay 1 [] []) [10; 20; 30]) = true.
Proof.
  intros run. split; [reflexivity|].
  pose proof (codec_contract_kept (C := DelayCodec Z) (I := Z) (R := Z) (mkDelay 1 [] []) [10; 20; 30]) as Hk.
  destruct (Hk eq_refl) as (enough & Hen).
  exists enough. intros fuel Hf. destruct (Hen fuel Hf) as (rs & c' & -> & _). reflexivity.
Defined.

(** Nothing flushes an encoder: what a codec with a delay still holds at the end,
    or when it is replaced by one for another frame rate, comes out nowhere. The
    transcoder asks libx264 for no delay; its second choice of encoder gets no
    such option. *)
Example held_frames_are_lost :
  let run := encode_all (C := DelayCodec Z) 2 (mkDelay 1 [] []) [10; 20; 30] in
  option_map (fun x => concat (map snd (fst x))) run = Some [10; 20]
  /\ option_map (fun x => dc_held (snd x)) run = Some [30].
Proof. by split. Qed.
