(* ===== verification/TranscodeRes.v ===== *)
(** * The transcoder and its FFmpeg objects
    [livestream-pipeline/src/processor/transcode.rs] over the wrappers of [Ffmpeg]:
    the processor with the decoder, encoder, scaler and frames it owns, on every path
    of a run. It refines [Transcode], where the calls are only outcomes, and it
    leaves nothing behind. *)
From stdpp Require Import strings gmap list.
From S2P Require Import Prelude Types Config AvPacket Ffmpeg Transcode.

(** ** The processor *)

(** [TranscodeState]: the objects, and the numbers. The open encoder is its context
    as it was configured. *)
Record Impl := mkImpl {
  im_decoder : option nat;
  im_encoder : option Ffmpeg.Encoder;
  im_scaler : option nat;
  im_dst_frame : option Ffmpeg.Frame;
  im_last_pts : Z;
  im_frames_since_init : Z;
  im_last_kept_slot : Z;
  im_fps_assumed : SpecFloat.spec_float;
  im_min_delta_ms : option Z;
}.

Definition encoder_params (e : Ffmpeg.Encoder) : EncoderParams :=
  Transcode.mkEncoder (Ffmpeg.en_width e) (Ffmpeg.en_height e) (Ffmpeg.en_bit_rate e) (en_gop_size e) (Ffmpeg.en_framerate e).

(** What [Transcode] keeps of it. *)
Definition abs (i : Impl) : TranscodeState :=
  mkTranscode (is_some (im_decoder i)) (encoder_params <$> im_encoder i) (is_some (im_scaler i)) (is_some (im_dst_frame i))
    (im_last_pts i) (im_frames_since_init i) (im_last_kept_slot i) (im_fps_assumed i) (im_min_delta_ms i).

(** The numbers of a state. *)
Definition with_numbers (i : Impl) (s : TranscodeState) : Impl :=
  mkImpl (im_decoder i) (im_encoder i) (im_scaler i) (im_dst_frame i) (ts_last_pts s) (ts_frames_since_init s)
    (ts_last_kept_slot s) (ts_fps_assumed s) (ts_min_delta_ms s).

Definition with_decoder (i : Impl) (d : option nat) : Impl :=
  mkImpl d (im_encoder i) (im_scaler i) (im_dst_frame i) (im_last_pts i) (im_frames_since_init i)
    (im_last_kept_slot i) (im_fps_assumed i) (im_min_delta_ms i).
Definition with_encoder (i : Impl) (e : Ffmpeg.Encoder) (fps : SpecFloat.spec_float) : Impl :=
  mkImpl (im_decoder i) (Some e) (im_scaler i) (im_dst_frame i) (im_last_pts i) (im_frames_since_init i)
    (im_last_kept_slot i) fps (im_min_delta_ms i).
Definition with_scaling (i : Impl) (scaler : option nat) (dst : option Ffmpeg.Frame) : Impl :=
  mkImpl (im_decoder i) (im_encoder i) scaler dst (im_last_pts i) (im_frames_since_init i)
    (im_last_kept_slot i) (im_fps_assumed i) (im_min_delta_ms i).

(** What the encoder answers to one frame. *)
Abbreviation EncodeAnswers := (list AvOut).

Section Run.
Context {H : Type} `{HF : Ffmpeg H}.
Context (cfg : TranscodeConfig) (mjpeg_params : CodecParams).

(** [Result::or_else]. *)
Definition or_else {A} (m k : Ff (H := H) A) : Ff (H := H) A := fun h => match m h with (Err _, h) => k h | r => r end.

Definition drop_opt {A} (drop : A -> Ff (H := H) unit) (o : option A) (h : H) : H :=
  match o with Some a => snd (drop a h) | None => h end.

(** ** The encoder *)

Definition AV_PIX_FMT_YUV420P : Z := 0.
Definition time_base : AVRational := (1, 1000).

Definition bit_rate : Z :=
  let raw := (tc_bitrate_kbps cfg * 1000) mod 2 ^ 64 in if raw <=? i64_max then raw else raw - 2 ^ 64.
Definition gop_frames (fps : SpecFloat.spec_float) : Z := saturate i32_max (round_max_1 (f64_mul (tc_gop_secs cfg) fps)).
Definition x264_options : list (string * string) := [("preset", tc_preset cfg); ("tune", "zerolatency")]%string.

Definition open_libx264 (ew eh : Z) (fps : SpecFloat.spec_float) : Ff (H := H) Ffmpeg.Encoder :=
  Encoder_new_named_with_opts "libx264" ew eh AV_PIX_FMT_YUV420P time_base bit_rate (gop_frames fps) (fps_to_rational fps) x264_options.
Definition open_fallback (ew eh : Z) (fps : SpecFloat.spec_float) : Ff (H := H) Ffmpeg.Encoder :=
  Encoder_new ew eh AV_PIX_FMT_YUV420P time_base bit_rate (fps_to_rational fps).
Definition create_encoder (ew eh : Z) (fps : SpecFloat.spec_float) : Ff (H := H) Ffmpeg.Encoder :=
  or_else (open_libx264 ew eh fps) (open_fallback ew eh fps).

(** [state.encoder = Some(create_encoder(..)?)]: the old one is dropped when the new
    one is there, and kept when there is none. *)
Definition replace_encoder (i : Impl) (ew eh : Z) (fps : SpecFloat.spec_float) (h : H) : bool * Impl * H :=
  match create_encoder ew eh fps h with
  | (Ok e, h) => (true, with_encoder i e fps, drop_opt Encoder_drop (im_encoder i) h)
  | (Err _, h) => (false, i, h)
  end.

Definition maybe_recalibrate_encoder (i : Impl) (ew eh : Z) (h : H) : bool * Impl * H :=
  if is_some (tc_fps cfg) || (5 <? im_frames_since_init i) then (true, i, h)
  else match im_min_delta_ms i with
       | None => (true, i, h)
       | Some delta =>
           let derived := f64_div (f64_of_Z 1000) (f64_of_Z delta) in
           let drift := f64_div (SpecFloat.SFabs (f64_sub derived (im_fps_assumed i))) (im_fps_assumed i) in
           if SpecFloat.SFleb drift (f64_div (f64_of_Z 1) (f64_of_Z 10)) then (true, i, h)
           else replace_encoder i ew eh derived h
       end.

Definition ready_encoder (i : Impl) (ew eh : Z) (h : H) : bool * Impl * H :=
  match im_encoder i with
  | None => replace_encoder i ew eh (default (f64_of_Z 30) (tc_fps cfg)) h
  | Some _ => maybe_recalibrate_encoder i ew eh h
  end.

(** The scaler and its frame, made when they are first needed, and the scaling. *)
Definition ready_scaler (i : Impl) (h : H) : bool * Impl * H :=
  match im_scaler i with
  | Some _ => (true, i, h)
  | None => match Scaler_new h with
            | (Ok s, h) => (true, with_scaling i (Some s) (im_dst_frame i), h)
            | (Err _, h) => (false, i, h)
            end
  end.
Definition ready_dst (i : Impl) (h : H) : bool * Impl * H :=
  match im_dst_frame i with
  | Some _ => (true, i, h)
  | None => match Frame_new_with_format h with
            | (Ok f, h) => (true, with_scaling i (im_scaler i) (Some f), h)
            | (Err _, h) => (false, i, h)
            end
  end.
Definition scaled (i : Impl) (h : H) : bool * Impl * H :=
  match ready_scaler i h with
  | (false, i, h) => (false, i, h)
  | (true, i, h) =>
      match ready_dst i h with
      | (false, i, h) => (false, i, h)
      | (true, i, h) => let '(r, h) := call h in (is_ok r, i, h)
      end
  end.

(** The receive loop, a packet per turn; [outs]: what the encoder has. *)
Fixpoint receive_packets (outs taken : list AvOut) (h : H) : bool * list AvOut * H :=
  match Packet_alloc h with
  | (Err _, h) => (false, taken, h)
  | (Ok p, h) =>
      let '(r, h) := call h in
      let h := snd (Packet_drop p h) in
      match r, outs with
      | Err _, _ => (false, taken, h)
      | Ok _, [] => (true, taken, h)
      | Ok _, o :: outs => receive_packets outs (taken ++ [o]) h
      end
  end.

(** [encode_frame]: whether it succeeded, and the packets pushed. *)
Definition encode_frame (i : Impl) (frame : Transcode.Frame) (outs : list AvOut) (h : H) :
    bool * Impl * list EncodedPacket * H :=
  let w := fr_width frame in
  let he := fr_height frame in
  if (w <=? 0) || (he <=? 0) then (false, i, [], h)
  else
    let ew := Z.land w (Z.lnot 1) in
    let eh := Z.land he (Z.lnot 1) in
    match ready_encoder i ew eh h with
    | (false, i, h) => (false, i, [], h)
    | (true, i, h) =>
        let direct := fr_yuv420p frame && (w =? ew) && (he =? eh) in
        match (if direct then (true, i, h) else scaled i h) with
        | (false, i, h) => (false, i, [], h)
        | (true, i, h) =>
            match call h with
            | (Err _, h) => (false, i, [], h)
            | (Ok _, h) => let '(ok, taken, h) := receive_packets outs [] h in (ok, i, map encoded taken, h)
            end
        end
    end.

(** ** The decoder *)

(** A decoder that is opened for the stream. *)
Definition make_decoder : Ff (H := H) nat :=
  let! d := Decoder_new in
  let! c := OwnedCodecParams_from_codec_params mjpeg_params else! free d in
  Decoder_open else! (params_free c ;;! free d) ;;!
  params_free c ;;! ff_ret d.

Definition rebuild_decoder (i : Impl) (h : H) : Impl * H :=
  match make_decoder h with
  | (Ok d, h) => (with_decoder i (Some d), drop_opt free (im_decoder i) h)
  | (Err _, h) => (with_decoder i None, drop_opt free (im_decoder i) h)
  end.

(** A decoded frame and its object. *)
Abbreviation owned_frame := (Transcode.Frame * EncodeAnswers * Ffmpeg.Frame)%type.

Inductive receive_end := ReceiveDone | ReceiveFatal | ReceiveNoMemory.

Fixpoint receive_frames (frames : list (Transcode.Frame * EncodeAnswers)) (got : list owned_frame) (h : H) :
    receive_end * list owned_frame * H :=
  match Frame_new h with
  | (Err _, h) => (ReceiveNoMemory, got, h)
  | (Ok f, h) =>
      let '(r, h) := call h in
      match r, frames with
      | Err _, _ => (ReceiveFatal, got, snd (Frame_drop f h))
      | Ok _, [] => (ReceiveDone, got, snd (Frame_drop f h))
      | Ok _, frame :: frames => receive_frames frames (got ++ [(frame, f)]) h
      end
  end.

Fixpoint drop_frames (fs : list owned_frame) (h : H) : H :=
  match fs with [] => h | (_, f) :: fs => drop_frames fs (snd (Frame_drop f h)) end.

(** [decode_frames]; [None]: an error, after which the frames so far are dropped. *)
Definition decode_frames (i : Impl) (frames : list (Transcode.Frame * EncodeAnswers)) (h : H) :
    option (list owned_frame) * Impl * H :=
  let '(i, h) := match im_decoder i with None => rebuild_decoder i h | Some _ => (i, h) end in
  match im_decoder i with
  | None => (Some [], i, h)
  | Some _ =>
      match filled_packet h with
      | (Err _, h) => (None, i, h)
      | (Ok p, h) =>
          match call h with
          | (Err _, h) => let '(i, h) := rebuild_decoder i h in (Some [], i, snd (Packet_drop p h))
          | (Ok _, h) =>
              match receive_frames frames [] h with
              | (ReceiveNoMemory, got, h) => (None, i, snd (Packet_drop p (drop_frames got h)))
              | (ReceiveDone, got, h) => (Some got, i, snd (Packet_drop p h))
              | (ReceiveFatal, got, h) => let '(i, h) := rebuild_decoder i h in (Some got, i, snd (Packet_drop p h))
              end
          end
      end
  end.

(** ** A packet *)

(** [process_frame], with the frame dropped at its end; [None]: a panic. *)
Definition process_frame (i : Impl) (frame : Transcode.Frame) (outs : EncodeAnswers) (f : Ffmpeg.Frame)
    (out : list EncodedPacket) (h : H) : option (Impl * list EncodedPacket * H) :=
  let prev_pts := im_last_pts i in
  let pts := match fr_pts frame with Some p => p | None => im_last_pts i + 33 end in
  let s := set_last_pts (abs i) pts in
  match should_keep_frame cfg s pts with
  | None => None
  | Some (false, s) => Some (with_numbers i s, out, snd (Frame_drop f h))
  | Some (true, s) =>
      let n := ts_frames_since_init s in
      let delta := pts - prev_pts in
      let s :=
        if negb (is_some (tc_fps cfg)) && (0 <? n) && (n <=? 5) && (5 <=? delta)
        then set_min_delta s (Some match ts_min_delta_ms s with Some m => Z.min m delta | None => delta end)
        else s in
      let '(ok, i, pkts, h) := encode_frame (with_numbers i s)
        (mkVideoFrame (Some pts) (fr_width frame) (fr_height frame) (fr_yuv420p frame)) outs h in
      let i := if ok then with_numbers i (set_frames (abs i) (im_frames_since_init i + 1)) else i in
      Some (i, out ++ pkts, snd (Frame_drop f h))
  end.

Fixpoint process_frames (i : Impl) (fs : list owned_frame) (out : list EncodedPacket) (h : H) :
    option (Impl * list EncodedPacket * H) :=
  match fs with
  | [] => Some (i, out, h)
  | (frame, outs, f) :: fs =>
      '(i, out, h) ← process_frame i frame outs f out h;
      process_frames i fs out h
  end.

(** [process] of a motion JPEG picture, up to the sequence header: the packets, or
    that it could not be converted. *)
Definition process_picture (i : Impl) (frames : list (Transcode.Frame * EncodeAnswers)) (h : H) :
    option (result unit (list EncodedPacket) * Impl * H) :=
  match decode_frames i frames h with
  | (None, i, h) => Some (Err tt, i, h)
  | (Some fs, i, h) => '(i, out, h) ← process_frames i fs [] h; Some (Ok out, i, h)
  end.

(** ** The life of a transcoder *)

Definition transcoder_new (h : H) : result ff_error Impl * H :=
  match make_decoder h with
  | (Ok d, h) => (Ok (mkImpl (Some d) None None None 0 0 i64_min (f64_of_Z 30) None), h)
  | (Err e, h) => (Err e, h)
  end.

Definition transcoder_drop (i : Impl) (h : H) : H :=
  drop_opt Frame_drop (im_dst_frame i) (drop_opt free (im_scaler i)
    (drop_opt Encoder_drop (im_encoder i) (drop_opt free (im_decoder i) h))).

(** [process]: the packets handed on, or that a picture could not be converted; the
    header flag and the output parameters; [None]: a panic. [frames]: what the
    decoder has for the packet. *)
Record Processor := mkProcessor { pr_impl : Impl; pr_emitted : bool; pr_output : option (list CodecParams) }.

Definition abs_processor (p : Processor) : TranscodeProcessor := mkTranscoder (abs (pr_impl p)) (pr_emitted p) (pr_output p).

Definition process (p : Processor) (pkt : EncodedPacket) (frames : list (Transcode.Frame * EncodeAnswers)) (h : H) :
    option (result unit (list EncodedPacket) * Processor * H) :=
  if negb (bool_decide (pk_codec pkt = Mjpeg)) then Some (Ok [pkt], p, h)
  else if pk_is_sequence_header pkt then Some (Ok [], p, h)
  else
    '(r, i, h) ← process_picture (pr_impl p) frames h;
    match r with
    | Err e => Some (Err e, mkProcessor i (pr_emitted p) (pr_output p), h)
    | Ok out =>
        let '(t, out) := maybe_emit_sequence_header (mkTranscoder (abs i) (pr_emitted p) (pr_output p)) out in
        Some (Ok out, mkProcessor i (tp_emitted_seq_header t) (tp_output_params t), h)
    end.

(** Packets one after another, after [acc]. *)
Fixpoint run (p : Processor) (ins : list (EncodedPacket * list (Transcode.Frame * EncodeAnswers))) (acc : list EncodedPacket)
    (h : H) : option (Processor * list EncodedPacket * H) :=
  match ins with
  | [] => Some (p, acc, h)
  | (pkt, frames) :: ins =>
      '(r, p, h) ← process p pkt frames h;
      run p ins (acc ++ match r with Ok out => out | Err _ => [] end) h
  end.
End Run.

(** ** The objects it owns *)

Abbreviation objects := (list (nat * AvKind)).

Definition option_objects {A} (f : A -> objects) (o : option A) : objects := match o with Some a => f a | None => [] end.
Definition frame_objects (f : Ffmpeg.Frame) : objects :=
  (fr_ptr f, KFrame) :: option_objects (fun b => [(b, KBuffer)]) (fr_buf f).
Definition impl_objects (i : Impl) : objects :=
  option_objects (fun d => [(d, KCodecContext)]) (im_decoder i)
  ++ option_objects (fun e => [(en_ctx e, KCodecContext)]) (im_encoder i)
  ++ option_objects (fun s => [(s, KSws)]) (im_scaler i)
  ++ option_objects frame_objects (im_dst_frame i).

Section Ledger.
Context {H : Type} `{HF : Ffmpeg H} `{!FfmpegLaws H}.

(** The heap has these objects besides what others have, and no fault happened. *)
Definition holds (h : H) (l : objects) (F : ledger) (n : nat) : Prop :=
  live h = list_to_map l ∪ F /\ (list_to_map l : ledger) ##ₘ F /\ NoDup l.*1 /\ faults h = n.

Lemma holds_perm h l l' F n : l ≡ₚ l' -> holds h l F n -> holds h l' F n.
Proof.
  intros Hp (Hl & Hd & Hn & Hf). assert ((list_to_map l : ledger) = list_to_map l') as E by (by apply list_to_map_proper).
  rewrite E in Hl, Hd. split_and!; [done|done| |done]. by rewrite <- Hp.
Qed.

(** A constructor that makes one object. *)
Lemma holds_make {A} (m : Ff A) (f : A -> nat) k h l F n : triple ∅ m (fun a => <[f a := k]> ∅) ∅ -> holds h l F n ->
  match m h with (Ok a, h') => holds h' ((f a, k) :: l) F n | (Err _, h') => holds h' l F n end.
Proof.
  intros Hm (Hl & Hd & Hn & Hf). specialize (Hm h (list_to_map l ∪ F) n).
  destruct (m h) as [[a|e] h']; destruct Hm as (Hl' & Hd' & Hf');
    try (split_and!; [by rewrite map_empty_union|apply map_disjoint_empty_l|done]).
  - apply map_disjoint_insert_l in Hd' as [Hfr _]. apply lookup_union_None in Hfr as [Hfl HfF]. split_and!; [| | |done].
    + cbn. by rewrite Hl', <- insert_union_l, map_empty_union, insert_union_l.
    + cbn. by apply map_disjoint_insert_l_2.
    + cbn. constructor; [|done]. by apply not_elem_of_list_to_map_2.
  - split_and!; [by rewrite Hl', map_empty_union|done|done|done].
Qed.

Lemma holds_alloc k h l F n : holds h l F n ->
  match alloc k h with (Ok p, h') => holds h' ((p, k) :: l) F n | (Err _, h') => holds h' l F n end.
Proof. apply (holds_make (alloc k) (fun p => p) k). ff_steps. Qed.

Lemma holds_free p k h l F n : holds h ((p, k) :: l) F n -> holds (snd (free p h)) l F n.
Proof.
  intros (Hl & Hd & Hn & Hf). cbn in *. apply NoDup_cons in Hn as [Hp Hn].
  apply map_disjoint_insert_l in Hd as [HpF Hd]. apply not_elem_of_list_to_map_1 in Hp. split_and!; [|done|done|].
  - rewrite free_live, Hl, delete_union, delete_insert_id by done. f_equal. by apply delete_id.
  - rewrite free_faults, Hl. rewrite (lookup_union_Some_l _ _ _ k) by apply lookup_insert_eq. done.
Qed.

Lemma holds_call h l F n : holds h l F n -> holds (snd (call h)) l F n.
Proof.
  intros (Hl & Hd & Hn & Hf). unfold call. pose proof (call_live h) as Hc. pose proof (call_faults h) as Hcf.
  destruct (ff_call h) as [code h']. cbn in *. split_and!; congruence || done.
Qed.

Lemma holds_frame_drop f h l F n : holds h (frame_objects f ++ l) F n -> holds (snd (Frame_drop f h)) l F n.
Proof.
  unfold frame_objects, Frame_drop. destruct (fr_buf f) as [b|]; cbn; intros Hh.
  - apply (holds_free _ KFrame), (holds_free b KBuffer). eapply holds_perm; [apply perm_swap|exact Hh].
  - by apply (holds_free _ KFrame).
Qed.

Lemma holds_packet_drop p h l F n : holds h ((pkt_ptr p, KPacket) :: option_objects (fun b => [(b, KBuffer)]) (pkt_buf p) ++ l) F n ->
  holds (snd (Packet_drop p h)) l F n.
Proof.
  unfold Packet_drop. destruct (pkt_buf p) as [b|]; cbn; intros Hh.
  - apply (holds_free _ KPacket), (holds_free b KBuffer). eapply holds_perm; [apply perm_swap|exact Hh].
  - by apply (holds_free _ KPacket).
Qed.

Lemma holds_frame_new h l F n : holds h l F n ->
  match Frame_new h with (Ok f, h') => holds h' (frame_objects f ++ l) F n | (Err _, h') => holds h' l F n end.
Proof.
  intros Hh. unfold Frame_new, ff_bind. pose proof (holds_alloc KFrame h l F n Hh) as Ha.
  destruct (alloc KFrame h) as [[p|e] h']; exact Ha.
Qed.

Lemma holds_frame_with_format h l F n : holds h l F n ->
  match Frame_new_with_format h with (Ok f, h') => holds h' (frame_objects f ++ l) F n | (Err _, h') => holds h' l F n end.
Proof.
  intros Hh. unfold Frame_new_with_format, ff_bind, on_error. pose proof (holds_frame_new h l F n Hh) as Hf.
  destruct (Frame_new h) as [[f|e] h1] eqn:E; [|done].
  assert (fr_buf f = None) as Hb.
  { unfold Frame_new, ff_bind in E. destruct (alloc KFrame h) as [[p|e] h2]; [|done]. by injection E as <- _. }
  unfold frame_objects in Hf. rewrite Hb in Hf. cbn in Hf. pose proof (holds_alloc KBuffer h1 _ F n Hf) as Ha.
  destruct (alloc KBuffer h1) as [[b|e] h2].
  - cbn. eapply holds_perm; [apply perm_swap|exact Ha].
  - apply holds_frame_drop. unfold frame_objects. by rewrite Hb.
Qed.

Lemma holds_filled_packet h l F n : holds h l F n ->
  match filled_packet h with
  | (Ok p, h') => holds h' ((pkt_ptr p, KPacket) :: option_objects (fun b => [(b, KBuffer)]) (pkt_buf p) ++ l) F n
  | (Err _, h') => holds h' l F n
  end.
Proof.
  intros Hh. unfold filled_packet, Packet_alloc, Packet_set_data, ff_bind, on_error.
  pose proof (holds_alloc KPacket h l F n Hh) as Ha. destruct (alloc KPacket h) as [[p|e] h1]; [|done].
  cbn [ff_ret pkt_ptr pkt_buf free_opt]. pose proof (holds_alloc KBuffer h1 _ F n Ha) as Hb.
  destruct (alloc KBuffer h1) as [[b|e] h2].
  - cbn. eapply holds_perm; [apply perm_swap|exact Hb].
  - by apply holds_packet_drop.
Qed.

Lemma init_triple name_ok w he pf tb br gop fr options : Forall (fun o => has_nul (fst o) = false /\ has_nul (snd o) = false) options ->
  triple ∅ (if name_ok : bool then ff_fail NulInString else call ;;! Encoder_init w he pf tb br gop fr options)
    (fun e => <[en_ctx e := KCodecContext]> ∅) ∅.
Proof.
  intros Ho. unfold Encoder_init. destruct name_ok; ff_steps. eapply t_bind; [by apply options_ledger|]. intros []. ff_steps.
Qed.

Lemma t_or_else {A} P (m k : Ff A) Q E E' : triple P m Q E' -> triple E' k Q E -> triple P (or_else m k) Q E.
Proof.
  intros Hm Hk h F n Ho. unfold or_else. specialize (Hm h F n Ho). destruct (m h) as [[a|e] h']; [done|]. by apply Hk.
Qed.

Lemma create_encoder_triple cfg ew eh fps : has_nul (tc_preset cfg) = false ->
  triple ∅ (create_encoder (H := H) cfg ew eh fps) (fun e => <[en_ctx e := KCodecContext]> ∅) ∅.
Proof.
  intros Hp. apply (t_or_else _ _ _ _ _ ∅).
  - apply init_triple. repeat (constructor; [by split|]). constructor.
  - apply (init_triple false). constructor.
Qed.

Lemma make_decoder_triple params : cp_extradata params = None ->
  triple ∅ (make_decoder (H := H) params) (fun d => <[d := KCodecContext]> ∅) ∅.
Proof.
  intros He. unfold make_decoder, Decoder_new, OwnedCodecParams_from_codec_params, alloc_codec_params, params_free, Decoder_open.
  rewrite He. ff_steps.
Qed.
End Ledger.

Section Keeps.
Context {H : Type} `{HF : Ffmpeg H} `{!FfmpegLaws H}.
Context (cfg : TranscodeConfig) (params : CodecParams).
Context (Hpreset : has_nul (tc_preset cfg) = false) (Hparams : cp_extradata params = None).
Implicit Types (h : H).

Lemma replace_encoder_keeps i ew eh fps h r F n : holds h (impl_objects i ++ r) F n ->
  let '(_, i', h') := replace_encoder cfg i ew eh fps h in holds h' (impl_objects i' ++ r) F n.
Proof.
  intros Hh. unfold replace_encoder.
  pose proof (holds_make _ en_ctx KCodecContext h _ F n (create_encoder_triple cfg ew eh fps Hpreset) Hh) as Hc.
  destruct (create_encoder cfg ew eh fps h) as [[e|er] h1]; [|done].
  unfold impl_objects in *. cbn [with_encoder im_decoder im_encoder im_scaler im_dst_frame option_objects].
  destruct (im_encoder i) as [o|]; cbn [drop_opt option_objects] in *.
  - apply (holds_free _ KCodecContext). eapply holds_perm; [|exact Hc]. cbn [app]. solve_Permutation.
  - eapply holds_perm; [|exact Hc]. cbn [app]. solve_Permutation.
Qed.

Lemma recalibrate_keeps i ew eh h r F n : holds h (impl_objects i ++ r) F n ->
  let '(_, i', h') := maybe_recalibrate_encoder cfg i ew eh h in holds h' (impl_objects i' ++ r) F n.
Proof.
  intros Hh. unfold maybe_recalibrate_encoder. destruct (_ || _); [done|]. destruct (im_min_delta_ms i); [|done].
  cbv zeta. destruct (SpecFloat.SFleb _ _); [done|]. by apply replace_encoder_keeps.
Qed.

Lemma scaled_keeps i h r F n : holds h (impl_objects i ++ r) F n ->
  let '(_, i', h') := scaled i h in holds h' (impl_objects i' ++ r) F n.
Proof.
  intros Hh. unfold scaled.
  assert (let '(_, i', h') := ready_scaler i h in holds h' (impl_objects i' ++ r) F n) as Hs.
  { unfold ready_scaler. destruct (im_scaler i) as [s|] eqn:Es; [done|].
    pose proof (holds_make Scaler_new (fun s => s) KSws h _ F n ltac:(unfold Scaler_new; ff_steps) Hh) as Hm.
    destruct (Scaler_new h) as [[s|e] h1]; [|done]. unfold impl_objects in *. rewrite Es in Hm. cbn in *.
    eapply holds_perm; [|exact Hm]. solve_Permutation. }
  destruct (ready_scaler i h) as [[[] i1] h1]; [|done].
  assert (let '(_, i', h') := ready_dst i1 h1 in holds h' (impl_objects i' ++ r) F n) as Hd.
  { unfold ready_dst. destruct (im_dst_frame i1) as [f|] eqn:Ef; [done|].
    pose proof (holds_frame_with_format h1 _ F n Hs) as Hm.
    destruct (Frame_new_with_format h1) as [[f|e] h2]; [|done]. unfold impl_objects in *. rewrite Ef in Hm.
    cbn [with_scaling im_decoder im_encoder im_scaler im_dst_frame option_objects] in *.
    eapply holds_perm; [|exact Hm]. solve_Permutation. }
  destruct (ready_dst i1 h1) as [[[] i2] h2]; [|done].
  pose proof (holds_call h2 _ F n Hd) as Hc. by destruct (call h2) as [r' h3].
Qed.

Lemma receive_packets_keeps outs : forall taken h l F n, holds h l F n ->
  let '(_, _, h') := receive_packets outs taken h in holds h' l F n.
Proof.
  assert (forall h l F n, holds h l F n -> match Packet_alloc h with
    | (Ok p, h') => holds (snd (Packet_drop p (snd (call h')))) l F n | (Err _, h') => holds h' l F n end) as Hp.
  { intros h l F n Hh. unfold Packet_alloc, ff_bind. pose proof (holds_alloc KPacket h l F n Hh) as Ha.
    destruct (alloc KPacket h) as [[p|e] h1]; [|done]. cbn [ff_ret]. apply holds_packet_drop. by apply holds_call. }
  induction outs as [|o outs IH]; intros taken h l F n Hh; cbn [receive_packets];
    specialize (Hp h l F n Hh); destruct (Packet_alloc h) as [[p|e] h1]; try done;
    destruct (call h1) as [[[]|e] h2]; try done. by apply IH.
Qed.

Lemma encode_frame_keeps i frame outs h r F n : holds h (impl_objects i ++ r) F n ->
  let '(_, i', _, h') := encode_frame cfg i frame outs h in holds h' (impl_objects i' ++ r) F n.
Proof.
  intros Hh. unfold encode_frame. destruct (_ || _); [done|].
  assert (forall ew eh, let '(_, i', h') := ready_encoder cfg i ew eh h in holds h' (impl_objects i' ++ r) F n) as Hr.
  { intros ew eh. unfold ready_encoder. destruct (im_encoder i); [by apply recalibrate_keeps|by apply replace_encoder_keeps]. }
  specialize (Hr (Z.land (fr_width frame) (Z.lnot 1)) (Z.land (fr_height frame) (Z.lnot 1))).
  destruct (ready_encoder cfg i _ _ h) as [[[] i1] h1]; [|done]. set (direct := _ && _ && _).
  assert (let '(_, i', h') := (if direct then (true, i1, h1) else scaled i1 h1) in holds h' (impl_objects i' ++ r) F n) as Hs.
  { destruct direct; [done|by apply scaled_keeps]. }
  destruct (if direct then _ else _) as [[[] i2] h2]; [|done].
  pose proof (holds_call h2 _ F n Hs) as Hc. destruct (call h2) as [[[]|e] h3]; [|done].
  pose proof (receive_packets_keeps outs [] h3 _ F n Hc) as Hp. by destruct (receive_packets outs [] h3) as [[ok taken] h4].
Qed.

Definition got_objects (fs : list (Transcode.Frame * EncodeAnswers * Ffmpeg.Frame)) : objects := concat (map (fun f => frame_objects (snd f)) fs).

Lemma rebuild_keeps i h r F n : holds h (impl_objects i ++ r) F n ->
  let '(i', h') := rebuild_decoder params i h in holds h' (impl_objects i' ++ r) F n.
Proof.
  intros Hh. unfold rebuild_decoder.
  pose proof (holds_make _ (fun d => d) KCodecContext h _ F n (make_decoder_triple params Hparams) Hh) as Hc.
  destruct (make_decoder params h) as [[d|e] h1]; unfold impl_objects in *;
    cbn [with_decoder im_decoder im_encoder im_scaler im_dst_frame option_objects]; destruct (im_decoder i) as [o|];
    cbn [drop_opt option_objects app] in *; try exact Hc.
  - apply (holds_free _ KCodecContext). eapply holds_perm; [apply perm_swap|exact Hc].
  - by apply (holds_free _ KCodecContext).
Qed.

Lemma drop_frames_keeps fs : forall h l F n, holds h (got_objects fs ++ l) F n -> holds (drop_frames fs h) l F n.
Proof.
  induction fs as [|[fo f] fs IH]; intros h l F n Hh; [done|]. cbn [drop_frames]. apply IH, holds_frame_drop.
  unfold got_objects in Hh. cbn in Hh. by rewrite <- app_assoc in Hh.
Qed.

Lemma receive_frames_keeps frames : forall got h l F n, holds h (got_objects got ++ l) F n ->
  let '(_, got', h') := receive_frames frames got h in holds h' (got_objects got' ++ l) F n.
Proof.
  induction frames as [|fr frames IH]; intros got h l F n Hh; cbn [receive_frames];
    pose proof (holds_frame_new h _ F n Hh) as Hf; destruct (Frame_new h) as [[f|e] h1]; try done;
    pose proof (holds_call h1 _ F n Hf) as Hc; destruct (call h1) as [[[]|e] h2]; cbn [snd] in Hc; try (by apply holds_frame_drop).
  apply IH. unfold got_objects. rewrite map_app, concat_app. cbn. rewrite app_nil_r.
  eapply holds_perm; [|exact Hc]. fold (got_objects got). solve_Permutation.
Qed.

Lemma decode_keeps i frames h r F n : holds h (impl_objects i ++ r) F n ->
  let '(o, i', h') := decode_frames params i frames h in
  holds h' (impl_objects i' ++ got_objects (default [] o) ++ r) F n.
Proof.
  intros Hh. unfold decode_frames.
  assert (let '(i', h') := match im_decoder i with None => rebuild_decoder params i h | Some _ => (i, h) end in
    holds h' (impl_objects i' ++ r) F n) as H0 by (destruct (im_decoder i); [done|by apply rebuild_keeps]).
  destruct (match im_decoder i with None => _ | Some _ => _ end) as [i1 h1]. destruct (im_decoder i1); [|done].
  pose proof (holds_filled_packet h1 _ F n H0) as Hp. destruct (filled_packet h1) as [[p|e] h2]; [|done].
  pose proof (holds_call h2 _ F n Hp) as Hc. set (pk := (pkt_ptr p, KPacket) :: option_objects (fun b => [(b, KBuffer)]) (pkt_buf p)).
  change (holds (snd (call h2)) (pk ++ impl_objects i1 ++ r) F n) in Hc.
  assert (forall i h fs, holds h (impl_objects i ++ pk ++ got_objects fs ++ r) F n ->
    holds (snd (Packet_drop p h)) (impl_objects i ++ got_objects fs ++ r) F n) as Hdrop.
  { intros i' h' fs Hh'. apply holds_packet_drop. eapply holds_perm; [|exact Hh'].
    change ((pkt_ptr p, KPacket) :: option_objects (fun b => [(b, KBuffer)]) (pkt_buf p) ++ impl_objects i' ++ got_objects fs ++ r)
      with (pk ++ impl_objects i' ++ got_objects fs ++ r). solve_Permutation. }
  assert (forall h, holds h ((pk ++ impl_objects i1 ++ r)) F n -> holds h (impl_objects i1 ++ pk ++ r) F n) as Hsw.
  { intros h' Hh'. eapply holds_perm; [|exact Hh']. solve_Permutation. }
  destruct (call h2) as [[[]|e] h3]; cbn [snd] in Hc; apply Hsw in Hc.
  - pose proof (receive_frames_keeps frames [] h3 _ F n Hc) as Hr. destruct (receive_frames frames [] h3) as [[[] got] h4].
    + apply Hdrop. eapply holds_perm; [|exact Hr]. solve_Permutation.
    + assert (holds h4 (impl_objects i1 ++ pk ++ got_objects got ++ r) F n) as Hr'
        by (eapply holds_perm; [|exact Hr]; solve_Permutation).
      apply rebuild_keeps in Hr'. destruct (rebuild_decoder params i1 h4) as [i2 h5]. by apply Hdrop.
    + apply (Hdrop _ _ []), drop_frames_keeps, Hr.
  - apply rebuild_keeps in Hc. destruct (rebuild_decoder params i1 h3) as [i2 h4]. by apply (Hdrop _ _ []).
Qed.

Lemma process_frame_keeps i frame outs f out h r F n : holds h (impl_objects i ++ frame_objects f ++ r) F n ->
  match process_frame cfg i frame outs f out h with Some (i', _, h') => holds h' (impl_objects i' ++ r) F n | None => True end.
Proof.
  intros Hh. unfold process_frame. destruct (should_keep_frame cfg _ _) as [[[] s]|]; [| |done].
  - cbv zeta. match goal with |- context [with_numbers i ?x] => generalize x; intros s' end.
    assert (forall fr, let '(_, i', _, h') := encode_frame cfg (with_numbers i s') fr outs h in
      holds h' (impl_objects i' ++ frame_objects f ++ r) F n) as He by (intros fr; by apply encode_frame_keeps).
    match goal with |- context [encode_frame cfg (with_numbers i s') ?fr outs h] => specialize (He fr);
      destruct (encode_frame cfg (with_numbers i s') fr outs h) as [[[ok i'] pkts] h1] end.
    apply holds_frame_drop. eapply holds_perm; [|exact He]. destruct ok; cbn; solve_Permutation.
  - apply holds_frame_drop. eapply holds_perm; [|exact Hh]. solve_Permutation.
Qed.

Lemma process_frames_keeps fs : forall i out h r F n, holds h (impl_objects i ++ got_objects fs ++ r) F n ->
  match process_frames cfg i fs out h with Some (i', _, h') => holds h' (impl_objects i' ++ r) F n | None => True end.
Proof.
  induction fs as [|[[frame outs] f] fs IH]; intros i out h r F n Hh; [done|]. cbn [process_frames].
  unfold got_objects in Hh. cbn in Hh. rewrite <- app_assoc in Hh.
  pose proof (process_frame_keeps i frame outs f out h _ F n Hh) as Hp.
  destruct (process_frame cfg i frame outs f out h) as [[[i' out'] h']|]; [|done]. cbn. by apply IH.
Qed.

Lemma process_keeps p pkt frames h r F n : holds h (impl_objects (pr_impl p) ++ r) F n ->
  match process cfg params p pkt frames h with Some (_, p', h') => holds h' (impl_objects (pr_impl p') ++ r) F n | None => True end.
Proof.
  intros Hh. unfold process. destruct (negb _); [done|]. destruct (pk_is_sequence_header pkt); [done|]. unfold process_picture.
  pose proof (decode_keeps (pr_impl p) frames h r F n Hh) as Hd.
  destruct (decode_frames params (pr_impl p) frames h) as [[[fs|] i1] h1]; cbn in Hd; [|done].
  pose proof (process_frames_keeps fs i1 [] h1 r F n Hd) as Hp.
  destruct (process_frames cfg i1 fs [] h1) as [[[i2 out] h2]|]; [|done]. cbn. by destruct (maybe_emit_sequence_header _ out).
Qed.

Lemma run_keeps ins : forall p acc h r F n, holds h (impl_objects (pr_impl p) ++ r) F n ->
  match run cfg params p ins acc h with Some (p', _, h') => holds h' (impl_objects (pr_impl p') ++ r) F n | None => True end.
Proof.
  induction ins as [|[pkt frames] ins IH]; intros p acc h r F n Hh; [done|]. cbn [run].
  pose proof (process_keeps p pkt frames h r F n Hh) as Hp.
  destruct (process cfg params p pkt frames h) as [[[o p'] h']|]; [|done]. cbn. by apply IH.
Qed.

Lemma transcoder_drop_keeps i h r F n : holds h (impl_objects i ++ r) F n -> holds (transcoder_drop i h) r F n.
Proof.
  unfold impl_objects, transcoder_drop. rewrite <- !app_assoc. intros Hh.
  assert (forall {A} (drop : A -> Ff unit) (f : A -> objects) o h l, (forall a h, holds h (f a ++ l) F n -> holds (snd (drop a h)) l F n) ->
    holds h (option_objects f o ++ l) F n -> holds (drop_opt drop o h) l F n) as Ho.
  { intros A drop f [a|] h' l Hd Hh'; [by apply Hd|exact Hh']. }
  apply (Ho _ Frame_drop frame_objects); [intros a h'; apply holds_frame_drop|].
  apply (Ho _ free (fun s => [(s, KSws)])); [intros a h'; apply holds_free|].
  apply (Ho _ Encoder_drop (fun e => [(en_ctx e, KCodecContext)])); [intros a h'; apply holds_free|].
  apply (Ho _ free (fun d => [(d, KCodecContext)])); [intros a h'; apply holds_free|exact Hh].
Qed.
End Keeps.

(** ** It refines the transcoder of outcomes *)

Section Refines.
Context {H : Type} `{HF : Ffmpeg H}.
Context (cfg : TranscodeConfig) (params : CodecParams).
Implicit Types (h : H).

Lemma encoder_init_fields w he pf tb br gop fr options h e h' :
  Encoder_init w he pf tb br gop fr options h = (Ok e, h') -> encoder_params e = Transcode.mkEncoder w he br gop fr.
Proof.
  unfold Encoder_init, ff_bind, on_error. destruct (alloc KCodecContext h) as [[p|] h1]; [|done].
  destruct (apply_options options h1) as [[[]|] h2]; [|done]. destruct (call h2) as [[[]|] h3]; [|done]. by intros [= <- <-].
Qed.

(** Which of the two encoders could be opened. *)
Lemma create_encoder_refines ew eh fps h : exists x264 fallback, forall env,
  ee_libx264 env = x264 -> ee_fallback env = fallback ->
  Transcode.create_encoder cfg env ew eh fps
  = match create_encoder cfg ew eh fps h with (Ok e, _) => Some (encoder_params e) | (Err _, _) => None end.
Proof.
  unfold create_encoder, or_else. destruct (open_libx264 cfg ew eh fps h) as [[e|er] h1] eqn:E1.
  - exists true, true. intros env Hx _. unfold Transcode.create_encoder. rewrite Hx.
    unfold open_libx264, Encoder_new_named_with_opts in E1. cbn [has_nul] in E1.
    destruct (has_nul "libx264"); [done|]. unfold ff_bind at 1 in E1. destruct (call h) as [[[]|] h0]; [|done].
    by rewrite (encoder_init_fields _ _ _ _ _ _ _ _ _ _ _ E1).
  - destruct (open_fallback cfg ew eh fps h1) as [[e|er'] h2] eqn:E2.
    + exists false, true. intros env Hx Hf. unfold Transcode.create_encoder. rewrite Hx, Hf.
      unfold open_fallback, Encoder_new in E2. unfold ff_bind at 1 in E2. destruct (call h1) as [[[]|] h0]; [|done].
      by rewrite (encoder_init_fields _ _ _ _ _ _ _ _ _ _ _ E2).
    + exists false, false. intros env Hx Hf. unfold Transcode.create_encoder. by rewrite Hx, Hf.
Qed.

(** What [encode_frame] of [Transcode] does with the encoder. *)
Definition opened (env : EncodeEnv) (state : TranscodeState) (ew eh : Z) : option TranscodeState :=
  match ts_encoder state with
  | None =>
      let fps := default (f64_of_Z 30) (tc_fps cfg) in
      match Transcode.create_encoder cfg env ew eh fps with Some e => Some (set_encoder state e fps) | None => None end
  | Some _ => Transcode.maybe_recalibrate_encoder cfg env state ew eh
  end.

Lemma replace_encoder_refines i ew eh fps h : exists x264 fallback, forall env,
  ee_libx264 env = x264 -> ee_fallback env = fallback ->
  let '(ok, i', _) := replace_encoder cfg i ew eh fps h in
  match Transcode.create_encoder cfg env ew eh fps with Some e => Some (set_encoder (abs i) e fps) | None => None end
    = (if ok then Some (abs i') else None) /\ (ok = false -> i' = i).
Proof.
  destruct (create_encoder_refines ew eh fps h) as (x & f & Hc). exists x, f. intros env Hx Hf. rewrite (Hc env Hx Hf).
  unfold replace_encoder. destruct (create_encoder cfg ew eh fps h) as [[e|er] h1]; done.
Qed.

Lemma ready_encoder_refines i ew eh h : exists x264 fallback, forall env,
  ee_libx264 env = x264 -> ee_fallback env = fallback ->
  let '(ok, i', _) := ready_encoder cfg i ew eh h in
  opened env (abs i) ew eh = (if ok then Some (abs i') else None) /\ (ok = false -> i' = i).
Proof.
  unfold ready_encoder, opened, maybe_recalibrate_encoder, Transcode.maybe_recalibrate_encoder.
  change (ts_encoder (abs i)) with (encoder_params <$> im_encoder i).
  destruct (im_encoder i) as [e|] eqn:Ee; cbn [fmap option_fmap option_map]; [|apply replace_encoder_refines].
  change (ts_frames_since_init (abs i)) with (im_frames_since_init i). change (ts_min_delta_ms (abs i)) with (im_min_delta_ms i).
  change (ts_fps_assumed (abs i)) with (im_fps_assumed i).
  destruct (_ || _); [by exists true, true|]. destruct (im_min_delta_ms i) as [delta|] eqn:Ed; [|by exists true, true].
  cbv zeta. destruct (SpecFloat.SFleb _ _); [by exists true, true|].
  destruct (replace_encoder_refines i ew eh (f64_div (f64_of_Z 1000) (f64_of_Z delta)) h) as (x & f & Hr).
  exists x, f. intros env Hx Hf. specialize (Hr env Hx Hf). exact Hr.
Qed.

(** And with the scaler. *)
Definition scaling (env : EncodeEnv) (state : TranscodeState) : bool * TranscodeState :=
  if negb (ts_scaler state) && negb (ee_scaler env) then (false, state)
  else
    let state := set_scaling state true (ts_dst_frame state) in
    if negb (ts_dst_frame state) && negb (ee_dst_frame env) then (false, state)
    else (ee_scale env, set_scaling state true true).

Lemma scaled_refines i h : exists s d c, forall env,
  ee_scaler env = s -> ee_dst_frame env = d -> ee_scale env = c ->
  let '(ok, i', _) := scaled i h in scaling env (abs i) = (ok, abs i').
Proof.
  destruct i as [dec enc sws dst lp fr slot fps md]. unfold scaled, ready_scaler, ready_dst, scaling, abs, with_scaling, set_scaling.
  cbn [im_decoder im_encoder im_scaler im_dst_frame im_last_pts im_frames_since_init im_last_kept_slot im_fps_assumed im_min_delta_ms
    ts_decoder ts_encoder ts_scaler ts_dst_frame ts_last_pts ts_frames_since_init ts_last_kept_slot ts_fps_assumed ts_min_delta_ms].
  destruct sws as [sw|]; [|destruct (Scaler_new h) as [[sw|er] h1]; [|by exists false, true, true; intros env E1 E2 E3; rewrite ?E1, ?E2, ?E3]];
    cbn [is_some negb andb im_dst_frame im_scaler];
    (destruct dst as [df|]; [|match goal with |- context [Frame_new_with_format ?h] =>
        destruct (Frame_new_with_format h) as [[df|er'] h2]; [|by exists true, false, true; intros env E1 E2 E3; rewrite ?E1, ?E2, ?E3] end]);
    match goal with |- context [call ?h] => destruct (call h) as [[[]|er''] h3] end;
    cbn [is_ok]; (by exists true, true, true; intros env E1 E2 E3; rewrite ?E1, ?E2, ?E3) || (by exists true, true, false; intros env E1 E2 E3; rewrite ?E1, ?E2, ?E3).
Qed.

(** Every answer of the loop is one of the encoder's, in order. *)
Lemma receive_packets_prefix outs : forall taken h, exists more,
  snd (fst (receive_packets outs taken h)) = taken ++ more /\ more `prefix_of` outs.
Proof.
  induction outs as [|o outs IH]; intros taken h; cbn [receive_packets];
    (destruct (Packet_alloc h) as [[p|e] h1]; [|exists []; rewrite app_nil_r; split; [done|apply prefix_nil]]);
    destruct (call h1) as [[[]|e] h2]; try (exists []; rewrite app_nil_r; split; [done|apply prefix_nil]).
  destruct (IH (taken ++ [o]) (snd (Packet_drop p h2))) as (more & -> & Hp). exists (o :: more).
  rewrite <- app_assoc. split; [done|by apply prefix_cons].
Qed.

Lemma encode_frame_parts env state frame : Transcode.encode_frame cfg env state frame
  = if (fr_width frame <=? 0) || (fr_height frame <=? 0) then (false, state, [])
    else
      let ew := Z.land (fr_width frame) (Z.lnot 1) in
      let eh := Z.land (fr_height frame) (Z.lnot 1) in
      match opened env state ew eh with
      | None => (false, state, [])
      | Some state =>
          let '(ok, state) := if fr_yuv420p frame && (fr_width frame =? ew) && (fr_height frame =? eh) then (true, state)
                              else scaling env state in
          if negb ok || negb (ee_send env) then (false, state, []) else (ee_receive env, state, map encoded (ee_packets env))
      end.
Proof. reflexivity. Qed.

Lemma encode_frame_refines i frame outs h : exists env,
  let '(ok, i', pkts, _) := encode_frame cfg i frame outs h in
  Transcode.encode_frame cfg env (abs i) frame = (ok, abs i', pkts) /\ ee_packets env `prefix_of` outs.
Proof.
  unfold encode_frame. destruct (_ || _) eqn:Hdim.
  { exists (mkEncodeEnv true true true true true true [] true). rewrite encode_frame_parts, Hdim. split; [done|apply prefix_nil]. }
  cbv zeta. set (ew := Z.land _ _). set (eh := Z.land _ _). set (direct := _ && _ && _).
  destruct (ready_encoder_refines i ew eh h) as (x & f & Hr).
  destruct (ready_encoder cfg i ew eh h) as [[[] i1] h1].
  2: { exists (mkEncodeEnv x f true true true true [] true).
       destruct (Hr (mkEncodeEnv x f true true true true [] true) eq_refl eq_refl) as [Ho Hi]. rewrite Hi by done.
       rewrite encode_frame_parts, Hdim. cbv zeta. fold ew eh direct. rewrite Ho. split; [done|apply prefix_nil]. }
  assert (exists s d c, forall env, ee_scaler env = s -> ee_dst_frame env = d -> ee_scale env = c ->
    let '(ok, i', _) := (if direct then (true, i1, h1) else scaled i1 h1) in
    (if direct then (true, abs i1) else scaling env (abs i1)) = (ok, abs i')) as (s & d & c & Hs).
  { destruct direct; [by exists true, true, true|apply scaled_refines]. }
  destruct (if direct then (true, i1, h1) else scaled i1 h1) as [[ok2 i2] h2].
  assert (forall send receive pkts, let env := mkEncodeEnv x f s d c send pkts receive in
    match opened env (abs i) ew eh with
    | None => (false, abs i, [])
    | Some state => let '(ok, state) := if direct then (true, state) else scaling env state in
        if negb ok || negb (ee_send env) then (false, state, []) else (ee_receive env, state, map encoded (ee_packets env))
    end = if negb ok2 || negb send then (false, abs i2, []) else (receive, abs i2, map encoded pkts)) as He.
  { intros send receive pkts env. destruct (Hr env eq_refl eq_refl) as [-> _]. by rewrite (Hs env eq_refl eq_refl eq_refl). }
  destruct ok2.
  - destruct (call h2) as [[[]|e] h3].
    + destruct (receive_packets_prefix outs [] h3) as (more & Hm & Hpre).
      destruct (receive_packets outs [] h3) as [[ok taken] h4]. cbn in Hm. subst taken.
      exists (mkEncodeEnv x f s d c true more ok). split; [rewrite encode_frame_parts, Hdim; apply (He true)|exact Hpre].
    + exists (mkEncodeEnv x f s d c false [] true). split; [rewrite encode_frame_parts, Hdim; apply (He false)|apply prefix_nil].
  - exists (mkEncodeEnv x f s d c true [] true). split; [rewrite encode_frame_parts, Hdim; apply (He true)|apply prefix_nil].
Qed.

(** The numbers of a state that has the objects of [i]. *)
Lemma abs_with_numbers i s : ts_decoder s = ts_decoder (abs i) -> ts_encoder s = ts_encoder (abs i) ->
  ts_scaler s = ts_scaler (abs i) -> ts_dst_frame s = ts_dst_frame (abs i) -> abs (with_numbers i s) = s.
Proof. destruct s. cbn. by intros -> -> -> ->. Qed.

Lemma process_frame_refines i frame outs f out h : exists env,
  Transcode.process_frame cfg env (abs i) frame out
  = match process_frame cfg i frame outs f out h with Some (i', out', _) => Some (abs i', out') | None => None end.
Proof.
  unfold process_frame, Transcode.process_frame. change (ts_last_pts (abs i)) with (im_last_pts i).
  set (pts := match fr_pts frame with Some p => p | None => _ end).
  assert (forall b s, should_keep_frame cfg (set_last_pts (abs i) pts) pts = Some (b, s) -> exists slot, s = set_slot (set_last_pts (abs i) pts) slot) as Hk.
  { intros b s. unfold should_keep_frame. destruct (tc_fps cfg); [|intros [= _ <-]; by exists (im_last_kept_slot i)].
    destruct (_ =? _); [done|]. destruct (_ && _); intros [= _ <-]; [by exists (im_last_kept_slot i)|by eexists]. }
  destruct (should_keep_frame cfg _ _) as [[[] s]|]; [| |by exists (mkEncodeEnv true true true true true true [] true)].
  2: { exists (mkEncodeEnv true true true true true true [] true). destruct (Hk _ _ eq_refl) as [slot ->]. by rewrite abs_with_numbers. }
  destruct (Hk _ _ eq_refl) as [slot Hs]. cbv zeta.
  match goal with |- context [with_numbers i ?x] => set (s' := x) end.
  assert (abs (with_numbers i s') = s') as Hs' by (subst s' s; apply abs_with_numbers; by case_match).
  set (fr := mkVideoFrame _ _ _ _). destruct (encode_frame_refines (with_numbers i s') fr outs h) as (env & He). exists env.
  destruct (encode_frame cfg (with_numbers i s') fr outs h) as [[[ok i2] pkts] h2]. destruct He as [He _].
  rewrite Hs' in He. rewrite He. destruct ok; [|done]. by rewrite abs_with_numbers.
Qed.

Lemma process_frames_refines fs : forall i out h, exists envs, map fst envs = map (fun f => fst (fst f)) fs
  /\ Transcode.process_frames cfg envs (abs i) out
     = match process_frames cfg i fs out h with Some (i', out', _) => Some (abs i', out') | None => None end.
Proof.
  induction fs as [|[[frame outs] f] fs IH]; intros i out h; [by exists []|]. cbn [process_frames].
  destruct (process_frame_refines i frame outs f out h) as (env & He).
  destruct (process_frame cfg i frame outs f out h) as [[[i1 out1] h1]|].
  - destruct (IH i1 out1 h1) as (envs & Hm & Hr). exists ((frame, env) :: envs). cbn. by rewrite Hm, He.
  - exists ((frame, env) :: map (fun f => (fst (fst f), env)) fs). cbn. rewrite He, map_map. by split.
Qed.

Lemma rebuild_refines i h : abs (fst (rebuild_decoder params i h)) = set_decoder (abs i) (is_ok (fst (make_decoder params h))).
Proof. unfold rebuild_decoder. by destruct (make_decoder params h) as [[d|e] h1]. Qed.

(** What the decoder did for a picture, whatever becomes of its frames. *)
Lemma decode_frames_refines i frames h : exists reopen packet send receive rebuild,
  let '(o, i', _) := decode_frames params i frames h in
  forall envs, (forall fs, o = Some fs -> map fst envs = map (fun f => fst (fst f)) fs) ->
  exists envs', Transcode.decode_frames (mkDecodeEnv reopen packet send envs' receive rebuild) (abs i)
      = ((fun _ => envs) <$> o, abs i').
Proof.
  unfold decode_frames.
  set (reopen := is_ok (fst (make_decoder params h))).
  assert (let '(i1, _) := match im_decoder i with None => rebuild_decoder params i h | Some _ => (i, h) end in
    (if negb (ts_decoder (abs i)) then set_decoder (abs i) reopen else abs i) = abs i1) as H0.
  { change (ts_decoder (abs i)) with (is_some (im_decoder i)). destruct (im_decoder i); [done|]. cbn [is_some negb].
    pose proof (rebuild_refines i h) as Hr. by destruct (rebuild_decoder params i h). }
  destruct (match im_decoder i with None => _ | Some _ => _ end) as [i1 h1].
  assert (forall packet send receive rebuild envs, Transcode.decode_frames (mkDecodeEnv reopen packet send envs receive rebuild) (abs i)
    = if negb (ts_decoder (abs i1)) then (Some [], abs i1) else if negb packet then (None, abs i1)
      else if negb send then (Some [], set_decoder (abs i1) rebuild)
      else if receive then (Some envs, abs i1) else (Some envs, set_decoder (abs i1) rebuild)) as Hd.
  { intros packet send receive rebuild envs. unfold Transcode.decode_frames. cbn [de_reopen]. by rewrite H0. }
  change (ts_decoder (abs i1)) with (is_some (im_decoder i1)) in Hd. destruct (im_decoder i1) as [dec|]; cbn [is_some negb] in Hd.
  2: { exists reopen, true, true, true, true. intros envs He. exists []. rewrite Hd. specialize (He [] eq_refl). by destruct envs. }
  destruct (filled_packet h1) as [[p|e] h2].
  2: { exists reopen, false, true, true, true. intros envs He. exists []. by rewrite Hd. }
  destruct (call h2) as [[[]|e] h3].
  2: { pose proof (rebuild_refines i1 h3) as Hr. exists reopen, true, false, true, (is_ok (fst (make_decoder params h3))).
       destruct (rebuild_decoder params i1 h3) as [i2 h4]. intros envs He. exists []. rewrite Hd. cbn in *. rewrite Hr.
       specialize (He [] eq_refl). by destruct envs. }
  destruct (receive_frames frames [] h3) as [[[] got] h4].
  - exists reopen, true, true, true, true. intros envs He. exists envs. by rewrite Hd.
  - pose proof (rebuild_refines i1 h4) as Hr. exists reopen, true, true, false, (is_ok (fst (make_decoder params h4))).
    destruct (rebuild_decoder params i1 h4) as [i2 h5]. intros envs He. exists envs. rewrite Hd. cbn in *. by rewrite Hr.
  - exists reopen, false, true, true, true. intros envs He. exists []. by rewrite Hd.
Qed.

Lemma process_refines p pkt frames h : exists denv,
  transcode_process cfg denv (abs_processor p) pkt
  = match process cfg params p pkt frames h with Some (r, p', _) => Some (r, abs_processor p') | None => None end.
Proof.
  unfold transcode_process, process. destruct (negb _); [by exists (mkDecodeEnv true true true [] true true)|].
  destruct (pk_is_sequence_header pkt); [by exists (mkDecodeEnv true true true [] true true)|].
  unfold process_picture. cbn [abs_processor tp_state tp_emitted_seq_header tp_output_params].
  destruct (decode_frames_refines (pr_impl p) frames h) as (a & b & c & d & e & Hd).
  destruct (decode_frames params (pr_impl p) frames h) as [[o i1] h1]. destruct o as [fs|].
  - destruct (process_frames_refines fs i1 [] h1) as (envs & Hm & Hp).
    destruct (Hd envs) as (envs' & Hd'); [by intros fs' [= <-]|].
    exists (mkDecodeEnv a b c envs' d e). rewrite Hd'. cbn [fmap option_fmap option_map tp_state]. rewrite Hp.
    destruct (process_frames cfg i1 fs [] h1) as [[[i2 out] h2]|]; [|done]. cbn [mbind option_bind].
    assert (forall t, tp_state (fst (maybe_emit_sequence_header t out)) = tp_state t) as Hst.
    { intros t. unfold maybe_emit_sequence_header. by repeat case_match. }
    specialize (Hst (mkTranscoder (abs i2) (pr_emitted p) (pr_output p))).
    destruct (maybe_emit_sequence_header _ out) as [t out'] eqn:Et. cbn in Hst |- *. unfold abs_processor. cbn. rewrite <- Hst.
    by destruct t.
  - destruct (Hd []) as (envs' & Hd'); [done|]. exists (mkDecodeEnv a b c envs' d e). by rewrite Hd'.
Qed.

Lemma run_refines ins : forall p acc h, exists denvs, length denvs = length ins
  /\ transcode_run cfg (abs_processor p) (zip denvs (map fst ins)) acc
     = match run cfg params p ins acc h with Some (p', out, _) => Some (abs_processor p', out) | None => None end.
Proof.
  induction ins as [|[pkt frames] ins IH]; intros p acc h; [by exists []|]. cbn [run].
  destruct (process_refines p pkt frames h) as (denv & Hd).
  destruct (process cfg params p pkt frames h) as [[[r p'] h']|].
  - cbn [mbind option_bind]. destruct (IH p' (acc ++ match r with Ok out => out | Err _ => [] end) h') as (denvs & Hl & Hr).
    exists (denv :: denvs). cbn. by rewrite Hl, Hd.
  - exists (denv :: map (fun _ => denv) ins). cbn. by rewrite Hd, length_map.
Qed.
End Refines.

(** C36: The transcoder over FFmpeg's objects implements the transcoder of outcomes
    and leaves nothing behind. Whatever calls fail, whatever the packets, the frames
    the decoder finds in them and the packets the encoder makes of those: there are
    outcomes with which [Transcode] hands on the same packets, remembers the same
    numbers, parameters and header, and has a decoder, an encoder of the same
    configuration, a scaler and a scaled frame exactly when there are such objects;
    after every run they are all it owns, and when it is dropped, or cannot be made,
    FFmpeg is as it was before: nothing leaked, nothing freed twice. (The preset is
    free of NUL characters and the stream announced no extradata; the wrappers leak
    otherwise.) *)
Theorem transcoder_implements_and_frees {H} `{HF : Ffmpeg H} `{!FfmpegLaws H} cfg params ins (h : H) :
  has_nul (tc_preset cfg) = false -> cp_extradata params = None ->
  match transcoder_new params h with
  | (Err _, h') => live h' = live h /\ faults h' = faults h
  | (Ok i, h0) =>
      abs_processor (mkProcessor i false None) = transcode_new
      /\ exists denvs, length denvs = length ins
      /\ match run cfg params (mkProcessor i false None) ins [] h0 with
         | None => transcode_run cfg transcode_new (zip denvs (map fst ins)) [] = None
         | Some (p, out, h1) =>
             transcode_run cfg transcode_new (zip denvs (map fst ins)) [] = Some (abs_processor p, out)
             /\ live h1 = list_to_map (impl_objects (pr_impl p)) ∪ live h /\ NoDup (impl_objects (pr_impl p)).*1
             /\ live (transcoder_drop (pr_impl p) h1) = live h /\ faults (transcoder_drop (pr_impl p) h1) = faults h
         end
  end.
Proof.
  intros Hpre Hpar. assert (holds h [] (live h) (faults h)) as Hinit.
  { split_and!; [by rewrite list_to_map_nil, map_empty_union|apply map_disjoint_empty_l|constructor|done]. }
  unfold transcoder_new.
  pose proof (holds_make _ (fun d => d) KCodecContext h _ _ _ (make_decoder_triple params Hpar) Hinit) as Hm.
  destruct (make_decoder params h) as [[d|e] h0].
  - split; [done|]. set (p0 := mkProcessor _ false None).
    destruct (run_refines cfg params ins p0 [] h0) as (denvs & Hl & Hr). change (abs_processor p0) with transcode_new in Hr.
    exists denvs. split; [done|].
    pose proof (run_keeps cfg params Hpre Hpar ins p0 [] h0 [] (live h) (faults h) Hm) as Hk.
    destruct (run cfg params p0 ins [] h0) as [[[p out] h1]|]; [|done]. pose proof (transcoder_drop_keeps _ _ _ _ _ Hk) as Hd.
    rewrite app_nil_r in Hk. destruct Hk as (Hk1 & _ & Hk3 & _), Hd as (Hd1 & _ & _ & Hd4).
    split_and!; [done|done|done| |done]. by rewrite Hd1, list_to_map_nil, map_empty_union.
  - destruct Hm as (Hl & _ & _ & Hf). split; [|done]. by rewrite Hl, list_to_map_nil, map_empty_union.
Qed.

(** An odd-sized picture, so that there are all four objects; the decoder could be
    opened, libx264 could not. *)
Lemma transcoder_implements_and_frees_witness :
  let cfg := TranscodeConfig_default in
  let params := new_video Mjpeg 90000 None in
  let unit := mkAvOut [0; 0; 0; 1; 0x67; 66; 0; 30; 0; 0; 1; 0x68; 0xce; 0; 0; 1; 0x65; 9] (Some 40) None true in
  let jpeg := mkPacket Mjpeg 0 (AnnexB [0xff; 0xd8]) (Some 40) None true false false None in
  let ins := [(jpeg, [(mkVideoFrame (Some 40) 641 480 true, [unit])])] in
  let h := mkHeap ∅ 0 [0; 0; 0; 0; 0; 0; 0; 0; 0; 0; 0; 0; -1] in
  exists i h0 p out h1, transcoder_new params h = (Ok i, h0)
    /\ run cfg params (mkProcessor i false None) ins [] h0 = Some (p, out, h1)
    /\ length out = 2%nat /\ length (impl_objects (pr_impl p)) = 5%nat /\ live (transcoder_drop (pr_impl p) h1) = ∅.
Proof.
  intros cfg params unit jpeg ins h.
  pose proof (transcoder_implements_and_frees cfg params ins h) as Ht.
  specialize (Ht ltac:(vm_compute; reflexivity) ltac:(reflexivity)).
  destruct (transcoder_new params h) as [[i|e] h0] eqn:En; [|vm_compute in En; discriminate En].
  destruct Ht as (_ & denvs & _ & Ht).
  destruct (run cfg params (mkProcessor i false None) ins [] h0) as [[[p out] h1]|] eqn:Er.
  - destruct Ht as (_ & _ & _ & Hl & _). exists i, h0, p, out, h1.
    split; [reflexivity|]. split; [exact Er|]. vm_compute in En. injection En as <- <-. vm_compute in Er. injection Er as <- <- <-.
    split; [reflexivity|]. split; [reflexivity|]. exact Hl.
  - vm_compute in En. injection En as <- <-. vm_compute in Er. discriminate Er.
Defined.
