(* ===== verification/Pads.v ===== *)
(** * Pads, demand and the pipeline's task loops
    [livestream-core/src/pad.rs], [livestream-core/src/channel/mpsc.rs] and
    [livestream-pipeline/src/task.rs]. A pad is a bounded queue (crossfire's, an
    interface here) or a direct handler; the demand of a pad is a shared atomic
    counter; a processor runs in a loop that waits for packets, for the
    cancellation of its token, or for demand. *)
From stdpp Require Import list.
From S2P Require Import Prelude Types FlvMux Flv.

(** ** Bounded queues *)

Inductive TrySendError := TryFull | TryDisconnected.

(** [crossfire::mpsc], bounded. [mp_open]: the receiver lives. *)
Class MpscQueue (A C : Type) := {
  mp_new : nat -> C;
  mp_capacity : C -> nat;
  mp_open : C -> bool;
  mp_queue : C -> list A;
  mp_try_send : C -> A -> result TrySendError unit * C;
  mp_drop_rx : C -> C;
}.

Class MpscLaws (A C : Type) `{MpscQueue A C} := {
  mp_new_queue n : (0 < n)%nat -> mp_capacity (mp_new n) = n /\ mp_open (mp_new n) = true /\ mp_queue (mp_new n) = [];
  mp_send_result c a : fst (mp_try_send c a)
    = if negb (mp_open c) then Err TryDisconnected
      else if (mp_capacity c <=? length (mp_queue c))%nat then Err TryFull else Ok tt;
  mp_send_queue c a : mp_queue (snd (mp_try_send c a))
    = mp_queue c ++ match fst (mp_try_send c a) with Ok _ => [a] | Err _ => [] end;
  mp_send_open c a : mp_open (snd (mp_try_send c a)) = mp_open c;
  mp_send_capacity c a : mp_capacity (snd (mp_try_send c a)) = mp_capacity c;
  mp_drop_rx_open c : mp_open (mp_drop_rx c) = false;
}.

(** A queue as a list with its capacity and whether its receiver lives. *)
Abbreviation list_queue A := (nat * bool * list A)%type.

#[export] Instance list_queue_mpsc A : MpscQueue A (list_queue A) := {
  mp_new n := (n, true, []);
  mp_capacity c := fst (fst c);
  mp_open c := snd (fst c);
  mp_queue c := snd c;
  mp_try_send c a :=
    let '(n, open, q) := c in
    if negb open then (Err TryDisconnected, c)
    else if (n <=? length q)%nat then (Err TryFull, c) else (Ok tt, (n, open, q ++ [a]));
  mp_drop_rx c := (fst (fst c), false, snd c);
}.

#[export] Instance list_queue_laws A : MpscLaws A (list_queue A).
Proof.
  split; cbn; try done; intros [[n open] q] *; cbn; repeat (case_match; cbn); by rewrite ?app_nil_r.
Qed.

Inductive SendError := Closed | Full.

(** [MpscSender::send]. *)
Definition mpsc_send {A C} `{MpscQueue A C} (tx : C) (item : A) : result SendError unit * C :=
  match mp_try_send tx item with
  | (Ok _, tx) => (Ok tt, tx)
  | (Err TryFull, tx) => (Err Full, tx)
  | (Err TryDisconnected, tx) => (Err Closed, tx)
  end.

(** ** Pads *)

(** A direct pad calls its handler: the items it was given, in order. *)
Inductive PadSender (A C : Type) := Direct (handled : list A) | Channel (tx : C).
Arguments Direct {A C} handled.
Arguments Channel {A C} tx.

Section Pads.
Context {A C : Type} `{MpscQueue A C}.

Definition new_direct : PadSender A C := Direct [].
Definition new_channel (capacity : nat) : PadSender A C := Channel (mp_new capacity).

Definition pad_send (pad : PadSender A C) (item : A) : result SendError unit * PadSender A C :=
  match pad with
  | Direct handled => (Ok tt, Direct (handled ++ [item]))
  | Channel tx => let '(r, tx) := mpsc_send tx item in (r, Channel tx)
  end.

(** ** Task loops *)

Definition deliver_to_pad (out_pad : PadSender A C) (item : A) : bool * PadSender A C :=
  match pad_send out_pad item with
  | (Ok _, out_pad) => (true, out_pad)
  | (Err Full, out_pad) => (true, out_pad)
  | (Err Closed, out_pad) => (false, out_pad)
  end.

(** One item to the pads in order; a closed pad breaks off the loop. *)
Fixpoint fan_out_item (item : A) (pads : list (PadSender A C)) : list (PadSender A C) :=
  match pads with
  | [] => []
  | pad :: pads =>
      let '(go, pad) := deliver_to_pad pad item in
      pad :: (if go then fan_out_item item pads else pads)
  end.

Definition fan_out (pads : list (PadSender A C)) (results : list A) : list (PadSender A C) :=
  foldl (fun pads item => fan_out_item item pads) pads results.

End Pads.

(** The [Processor] trait: [process], [should_process] given whether each output
    is wanted, and [close]. *)
Class Processor (S I O : Type) := {
  process : S -> I -> result unit (list O) * S;
  should_process : S -> list bool -> bool;
  close : S -> S;
}.

(** The default of [should_process]. *)
Definition any_wanted (outputs : list bool) : bool := existsb id outputs.

Definition process_one {S I O C} `{Processor S I O} `{MpscQueue O C} (processor : S)
    (outputs : list (PadSender O C)) (pkt : I) : S * list (PadSender O C) :=
  match process processor pkt with
  | (Ok results, processor) => (processor, fan_out outputs results)
  | (Err _, processor) => (processor, outputs)
  end.

(** [run_processor] as a state machine. The input queue holds what upstream sent
    and is closed when every sender is gone; what the [select!] of an iteration
    wakes up for is given by the events. *)
Inductive LoopEvent (I : Type) :=
| Arrives (pkt : I)                       (* upstream: a packet enters the input queue *)
| SendersGone                             (* upstream: the last sender is dropped *)
| WakeRecv (wanted : list bool)           (* the receive branch is taken *)
| WakeCancelled (wanted : list bool)      (* the cancelled branch is taken *)
| WakeTick (wanted : list bool).          (* the 50 ms sleep elapses *)
Arguments Arrives {I} pkt.
Arguments SendersGone {I}.
Arguments WakeRecv {I} wanted.
Arguments WakeCancelled {I} wanted.
Arguments WakeTick {I} wanted.

Record Loop (S I O C : Type) := mkLoop {
  lp_node : S;
  lp_input : list I;
  lp_senders : bool;
  lp_outputs : list (PadSender O C);
  lp_ended : bool;
  lp_processed : list I;   (* the packets given to [process], for the statements *)
  lp_closes : nat;         (* the calls of [close], for the statements *)
}.
Arguments mkLoop {S I O C}.
Arguments lp_node {S I O C}.
Arguments lp_input {S I O C}.
Arguments lp_senders {S I O C}.
Arguments lp_outputs {S I O C}.
Arguments lp_ended {S I O C}.
Arguments lp_processed {S I O C}.
Arguments lp_closes {S I O C}.

Section Run.
Context {S I O C : Type} `{Processor S I O} `{MpscQueue O C}.
Local Abbreviation loop := (Loop S I O C).

Definition loop_new (node : S) (outputs : list (PadSender O C)) : loop :=
  mkLoop node [] true outputs false [] 0.

(** Leaving the loop: [close] runs once. *)
Definition loop_break (l : loop) : loop :=
  mkLoop (close (lp_node l)) (lp_input l) (lp_senders l) (lp_outputs l) true (lp_processed l) (Datatypes.S (lp_closes l)).

(** One event; a branch that cannot be taken leaves the loop waiting. *)
Definition run_processor_step (l : loop) (ev : LoopEvent I) : loop :=
  match ev with
  | Arrives pkt =>
      if lp_senders l && negb (lp_ended l)
      then mkLoop (lp_node l) (lp_input l ++ [pkt]) true (lp_outputs l) false (lp_processed l) (lp_closes l)
      else l
  | SendersGone =>
      mkLoop (lp_node l) (lp_input l) false (lp_outputs l) (lp_ended l) (lp_processed l) (lp_closes l)
  | WakeTick _ => l
  | WakeCancelled _ => if lp_ended l then l else loop_break l
  | WakeRecv wanted =>
      if lp_ended l || negb (should_process (lp_node l) wanted) then l
      else match lp_input l with
           | pkt :: rest =>
               let '(node, outputs) := process_one (lp_node l) (lp_outputs l) pkt in
               mkLoop node rest (lp_senders l) outputs false (lp_processed l ++ [pkt]) (lp_closes l)
           | [] => if lp_senders l then l else loop_break l
           end
  end.

Definition run_processor (l : loop) (evs : list (LoopEvent I)) : loop := foldl run_processor_step l evs.

(** The packets upstream sent, while it had senders. *)
Fixpoint arrived (senders : bool) (evs : list (LoopEvent I)) : list I :=
  match evs with
  | [] => []
  | Arrives pkt :: evs => if senders then pkt :: arrived senders evs else arrived senders evs
  | SendersGone :: evs => arrived false evs
  | _ :: evs => arrived senders evs
  end.

End Run.

(** ** Probes *)

(** [OTelProbe]: records metrics, changes nothing. *)
Definition OTelProbe : Type := unit.

#[export] Instance OTelProbe_processor : Processor OTelProbe EncodedPacket EncodedPacket := {
  process p pkt := (Ok [pkt], p);
  should_process _ _ := true;
  close p := p;
}.

Record SeqCacheProbe := mkSeqCache {
  sq_video_seq_header : option EncodedPacket;
  sq_audio_seq_header : option EncodedPacket;
  sq_last_keyframe : option EncodedPacket;
  sq_script_data : option EncodedPacket;
}.

Definition SeqCacheProbe_new : SeqCacheProbe := mkSeqCache None None None None.

Definition seq_cache_process (p : SeqCacheProbe) (pkt : EncodedPacket) : SeqCacheProbe :=
  if is_video pkt && pk_is_sequence_header pkt
  then mkSeqCache (Some pkt) (sq_audio_seq_header p) (sq_last_keyframe p) (sq_script_data p)
  else if is_audio pkt && pk_is_sequence_header pkt
  then mkSeqCache (sq_video_seq_header p) (Some pkt) (sq_last_keyframe p) (sq_script_data p)
  else if is_video pkt && pk_is_keyframe pkt
  then mkSeqCache (sq_video_seq_header p) (sq_audio_seq_header p) (Some pkt) (sq_script_data p)
  else if pk_is_script_data pkt
  then mkSeqCache (sq_video_seq_header p) (sq_audio_seq_header p) (sq_last_keyframe p) (Some pkt)
  else p.

Definition snapshot (p : SeqCacheProbe) : list EncodedPacket :=
  option_list (sq_script_data p) ++ option_list (sq_video_seq_header p)
  ++ option_list (sq_audio_seq_header p) ++ option_list (sq_last_keyframe p).

#[export] Instance SeqCacheProbe_processor : Processor SeqCacheProbe EncodedPacket EncodedPacket := {
  process p pkt := (Ok [pkt], seq_cache_process p pkt);
  should_process _ _ := true;
  close p := p;
}.

#[export] Instance FlvMux_processor : Processor FlvMux EncodedPacket FlvTag := {
  process m pkt := let '(tags, m) := flv_mux_process m pkt in (Ok tags, m);
  should_process _ wanted := any_wanted wanted;
  close m := m;
}.

(** ** Demand *)

(** [DemandSignal] and [DemandHandle] share atomic counters, named by their index. *)
Record DemandSignal := mkSignal { ds_count : nat; ds_always_wanted : bool }.
Record DemandHandle := mkHandle { dh_count : nat; dh_detached : bool }.

Definition atomic_add (counters : list Z) (i : nat) (n : Z) : list Z :=
  alter (fun v => (v + n) mod 2 ^ 64) i counters.

Definition signal_new (counters : list Z) (always_wanted : bool) : DemandSignal * list Z :=
  (mkSignal (length counters) always_wanted, counters ++ [if always_wanted then 1 else 0]).

Definition is_wanted (counters : list Z) (s : DemandSignal) : bool :=
  ds_always_wanted s || (0 <? default 0 (counters !! ds_count s)).

Definition new_handle (counters : list Z) (s : DemandSignal) : DemandHandle * list Z :=
  (mkHandle (ds_count s) false, atomic_add counters (ds_count s) 1).

Definition empty_handle (counters : list Z) : DemandHandle * list Z :=
  (mkHandle (length counters) true, counters ++ [0]).

Definition handle_clone (counters : list Z) (h : DemandHandle) : DemandHandle * list Z :=
  (h, if dh_detached h then counters else atomic_add counters (dh_count h) 1).

Definition handle_drop (counters : list Z) (h : DemandHandle) : list Z :=
  if dh_detached h then counters else atomic_add counters (dh_count h) (-1).

(** The program as a whole: the counters, the signals ever made and the live handles. *)
Record Demands := mkDemands { dm_counters : list Z; dm_signals : list DemandSignal; dm_handles : list DemandHandle }.

Inductive demand_step : Demands -> Demands -> Prop :=
| st_signal c ss hs always :
    demand_step (mkDemands c ss hs)
      (mkDemands (snd (signal_new c always)) (fst (signal_new c always) :: ss) hs)
| st_signal_clone c ss hs s : s ∈ ss -> demand_step (mkDemands c ss hs) (mkDemands c (s :: ss) hs)
| st_handle c ss hs s : s ∈ ss ->
    demand_step (mkDemands c ss hs) (mkDemands (snd (new_handle c s)) ss (fst (new_handle c s) :: hs))
| st_empty c ss hs :
    demand_step (mkDemands c ss hs) (mkDemands (snd (empty_handle c)) ss (fst (empty_handle c) :: hs))
| st_clone c ss hs h : h ∈ hs ->
    demand_step (mkDemands c ss hs) (mkDemands (snd (handle_clone c h)) ss (fst (handle_clone c h) :: hs))
| st_drop c ss hs1 h hs2 :
    demand_step (mkDemands c ss (hs1 ++ h :: hs2)) (mkDemands (handle_drop c h) ss (hs1 ++ hs2)).

(** ** Fan-out *)

Section FanOut.
Context {A C : Type} `{MpscLaws A C}.

Definition pad_open (p : PadSender A C) : bool :=
  match p with Direct _ => true | Channel tx => mp_open tx end.
Definition pad_contents (p : PadSender A C) : list A :=
  match p with Direct handled => handled | Channel tx => mp_queue tx end.
(** What a pad accepts of a batch: a queue, as much as fits. *)
Definition accepts (p : PadSender A C) (items : list A) : list A :=
  match p with Direct _ => items | Channel tx => take (mp_capacity tx - length (mp_queue tx)) items end.

Lemma deliver_open p item : pad_open p = true ->
  exists p', deliver_to_pad p item = (true, p') /\ pad_open p' = true
    /\ pad_contents p' = pad_contents p ++ accepts p [item]
    /\ forall items, accepts p (item :: items) = accepts p [item] ++ accepts p' items.
Proof.
  destruct p as [handled|tx]; cbn; intros Ho; [by eexists|].
  unfold deliver_to_pad, pad_send, mpsc_send.
  pose proof (mp_send_result tx item) as Hr. pose proof (mp_send_queue tx item) as Hq.
  pose proof (mp_send_open tx item) as Hop. pose proof (mp_send_capacity tx item) as Hc.
  destruct (mp_try_send tx item) as [r tx']. cbn in *. rewrite Ho in Hr. cbn in Hr.
  destruct (Nat.leb_spec (mp_capacity tx) (length (mp_queue tx))) as [Hle|Hlt]; subst r; eexists;
    (split; [done|]); cbn; rewrite ?Hop, ?Hc, ?Hq.
  - rewrite app_nil_r. replace (mp_capacity tx - length (mp_queue tx))%nat with 0%nat by lia.
    cbn. by rewrite app_nil_r.
  - destruct (mp_capacity tx - length (mp_queue tx))%nat as [|n] eqn:E; [lia|].
    assert ((mp_capacity tx - length (mp_queue tx ++ [item]))%nat = n) as -> by (rewrite length_app; cbn; lia).
    cbn. by rewrite firstn_nil.
Qed.

Lemma deliver_closed p item : pad_open p = false ->
  exists p', deliver_to_pad p item = (false, p') /\ pad_open p' = false /\ pad_contents p' = pad_contents p.
Proof.
  destruct p as [handled|tx]; cbn; intros Ho; [done|].
  unfold deliver_to_pad, pad_send, mpsc_send.
  pose proof (mp_send_result tx item) as Hr. pose proof (mp_send_queue tx item) as Hq.
  pose proof (mp_send_open tx item) as Hop.
  destruct (mp_try_send tx item) as [r tx']. cbn in *. rewrite Ho in Hr. cbn in Hr. subst r.
  eexists. split; [done|]. cbn. by rewrite Hop, Hq, app_nil_r.
Qed.

(** One item, to open pads and to what follows the first closed one. *)
Lemma fan_out_item_open item ps : Forall (fun p => pad_open p = true) ps ->
  exists ps', (forall qs, fan_out_item item (ps ++ qs) = ps' ++ fan_out_item item qs)
    /\ Forall (fun p => pad_open p = true) ps'
    /\ map pad_contents ps' = map (fun p => pad_contents p ++ accepts p [item]) ps
    /\ forall items, map (fun p => pad_contents p ++ accepts p items) ps'
        = map (fun p => pad_contents p ++ accepts p (item :: items)) ps.
Proof.
  induction 1 as [|p ps Hp Hps (ps' & IH1 & IH2 & IH3 & IH4)].
  { exists []. by split_and!. }
  destruct (deliver_open p item Hp) as (p' & Hd & Ho & Hc & Ha). exists (p' :: ps'). split_and!.
  - intros qs. cbn. by rewrite Hd, IH1.
  - by constructor.
  - cbn. by rewrite Hc, IH3.
  - intros items. specialize (IH4 items). cbn in *. rewrite Hc, (Ha items), <- app_assoc. f_equal. exact IH4.
Qed.

Lemma fan_out_item_closed item q qs : pad_open q = false ->
  exists q', fan_out_item item (q :: qs) = q' :: qs /\ pad_open q' = false /\ pad_contents q' = pad_contents q.
Proof.
  intros Hq. destruct (deliver_closed q item Hq) as (q' & Hd & ? & ?). exists q'. cbn. by rewrite Hd.
Qed.

(** A batch of results reaches every open pad that stands before the first
    closed one, up to the room its queue has (a full pad drops its copies
    without affecting the others); but a closed pad breaks off the loop, so the
    pads after it, open or not, receive nothing of the batch. *)
Theorem fan_out_outcome ps q qs items :
  Forall (fun p => pad_open p = true) ps -> pad_open q = false ->
  map pad_contents (fan_out ps items) = map (fun p => pad_contents p ++ accepts p items) ps
  /\ map pad_contents (fan_out (ps ++ q :: qs) items)
    = map (fun p => pad_contents p ++ accepts p items) ps ++ pad_contents q :: map pad_contents qs.
Proof.
  assert (forall ps : list (PadSender A C), Forall (fun p => pad_open p = true) ps ->
    map (fun p => pad_contents p ++ accepts p []) ps = map pad_contents ps) as Hnil.
  { induction 1 as [|[h|tx] l _ _ IH]; cbn; [done|by rewrite IH, app_nil_r|by rewrite IH, firstn_nil, app_nil_r]. }
  intros Ho Hq. split.
  - revert ps Ho. induction items as [|i items IH]; intros ps Ho; [by rewrite Hnil|].
    destruct (fan_out_item_open i ps Ho) as (ps' & He & Ho' & _ & Ha). cbn.
    specialize (He []). rewrite app_nil_r in He. rewrite He. cbn. rewrite app_nil_r.
    fold (fan_out ps' items). by rewrite IH, Ha.
  - revert ps q Ho Hq. induction items as [|i items IH]; intros ps q Ho Hq.
    { cbn. by rewrite map_app, Hnil. }
    destruct (fan_out_item_open i ps Ho) as (ps' & He & Ho' & _ & Ha).
    destruct (fan_out_item_closed i q qs Hq) as (q' & Hi & Hq' & Hc). cbn. rewrite He, Hi.
    fold (fan_out (ps' ++ q' :: qs) items). by rewrite IH, Ha, Hc.
Qed.

End FanOut.

(** ** The loop processes what arrived, in order, and closes once *)

Section RunProps.
Context {S I O C : Type} `{Processor S I O} `{MpscQueue O C}.

(** What the loop has done of the packets [sent], which are still to come being
    [later]: nothing is lost while it runs. *)
Definition loop_ok (node : S) (outputs : list (PadSender O C)) (sent : list I) (l : Loop S I O C) : Prop :=
  let done := foldl (fun '(node, outputs) pkt => process_one node outputs pkt) (node, outputs) (lp_processed l) in
  (exists rest, sent = lp_processed l ++ lp_input l ++ rest /\ (lp_ended l = true \/ rest = []))
  /\ lp_outputs l = snd done
  /\ lp_node l = (if lp_ended l then close (fst done) else fst done)
  /\ lp_closes l = Nat.b2n (lp_ended l).

Lemma run_processor_ok node outputs evs : forall sent l, loop_ok node outputs sent l ->
  loop_ok node outputs (sent ++ arrived (lp_senders l) evs) (run_processor l evs).
Proof.
  induction evs as [|ev evs IH]; intros sent l Hl; [by rewrite app_nil_r|].
  change (run_processor l (ev :: evs)) with (run_processor (run_processor_step l ev) evs).
  destruct Hl as ((rest & Hs & Hr) & Ho & Hn & Hc).
  assert (loop_ok node outputs sent l) as Hl by (split_and!; eauto).
  destruct l as [nd input senders outs ended processed closes]. cbn in *.
  destruct ev as [pkt| |wanted|wanted|wanted]; cbn -[should_process process_one run_processor loop_ok]; [| | | |exact (IH _ _ Hl)].
  - destruct senders; cbn [andb]; [|exact (IH _ _ Hl)]. destruct ended; cbn [negb].
    + rewrite cons_middle, app_assoc. apply (IH _ (mkLoop nd input true outs true processed closes)).
      split_and!; try done. exists (rest ++ [pkt]). cbn. split; [|by left]. by rewrite Hs, <- !app_assoc.
    + destruct Hr as [?| ->]; [done|]. rewrite cons_middle, app_assoc.
      apply (IH _ (mkLoop nd (input ++ [pkt]) true outs false processed closes)). split_and!; try done.
      exists []. cbn. split; [|by right]. by rewrite Hs, !app_nil_r, <- !app_assoc.
  - apply (IH sent (mkLoop nd input false outs ended processed closes)). split_and!; try done. by exists rest.
  - destruct ended; cbn [orb]; [exact (IH _ _ Hl)|].
    destruct (should_process nd wanted); cbn [negb]; [|exact (IH _ _ Hl)].
    destruct input as [|pkt input].
    + destruct senders; [exact (IH _ _ Hl)|]. apply (IH sent (loop_break (mkLoop nd [] false outs false processed closes))). split_and!; cbn; try done;
        [exists rest; cbn; eauto|by rewrite Hn|by rewrite Hc].
    + destruct (process_one nd outs pkt) as [nd' outs'] eqn:E.
      apply (IH sent (mkLoop nd' input senders outs' false (processed ++ [pkt]) closes)).
      assert (process_one nd outs pkt = foldl (fun '(node, outputs) p => process_one node outputs p)
        (node, outputs) (processed ++ [pkt])) as Hf.
      { rewrite foldl_snoc. destruct (foldl _ _ _) as [n1 o1]. cbn in *. by subst. }
      split_and!; cbn [lp_outputs lp_processed lp_node lp_ended lp_closes lp_input].
      * exists rest. split; [|done]. by rewrite Hs, <- !app_assoc.
      * by rewrite <- Hf, E.
      * by rewrite <- Hf, E.
      * done.
  - destruct ended; [exact (IH _ _ Hl)|]. apply (IH sent (loop_break (mkLoop nd input senders outs false processed closes))). split_and!; cbn; try done;
      [exists rest; cbn; eauto|by rewrite Hn|by rewrite Hc].
Qed.

(** Whatever the order in which packets arrive, demand comes and goes,
    senders vanish and the token is cancelled, a processor's loop processes a
    prefix of the packets sent to it, in order and each once, and its outputs
    are those of processing exactly this prefix; while the loop runs no packet
    is lost (what is not processed waits in the queue, also while nothing
    downstream wants it); and [close] has run exactly once when the loop has
    ended, and not before. *)
Theorem run_processor_outcome (node : S) (outputs : list (PadSender O C)) (evs : list (LoopEvent I)) :
  let l := run_processor (loop_new node outputs) evs in
  let processed := foldl (fun '(node, outputs) pkt => process_one node outputs pkt) (node, outputs) (lp_processed l) in
  (exists rest, arrived true evs = lp_processed l ++ lp_input l ++ rest /\ (lp_ended l = true \/ rest = []))
  /\ lp_outputs l = snd processed
  /\ lp_node l = (if lp_ended l then close (fst processed) else fst processed)
  /\ lp_closes l = Nat.b2n (lp_ended l).
Proof.
  apply (run_processor_ok node outputs evs [] (loop_new node outputs)). split_and!; try done.
  exists []. cbn. auto.
Qed.

End RunProps.

(** ** The sequence header cache *)

(** After any packets, the snapshot holds the last script data, video header,
    audio header and keyframe that were not taken for one of the others. *)
Definition last_of {A} (f : A -> bool) (l : list A) : option A := last (List.filter f l).

Lemma last_of_snoc {A} (f : A -> bool) l x : last_of f (l ++ [x]) = if f x then Some x else last_of f l.
Proof.
  unfold last_of. rewrite List.filter_app. cbn. destruct (f x); [by rewrite last_snoc|by rewrite app_nil_r].
Qed.

Lemma seq_cache_last pkts : foldl seq_cache_process SeqCacheProbe_new pkts
  = mkSeqCache (last_of (fun p => is_video p && pk_is_sequence_header p) pkts)
      (last_of (fun p => is_audio p && pk_is_sequence_header p) pkts)
      (last_of (fun p => is_video p && pk_is_keyframe p && negb (pk_is_sequence_header p)) pkts)
      (last_of (fun p => pk_is_script_data p && negb (pk_is_sequence_header p)
                         && negb (is_video p && pk_is_keyframe p)) pkts).
Proof.
  induction pkts as [|x pkts IH] using rev_ind; [done|]. rewrite foldl_snoc, IH, !last_of_snoc.
  unfold seq_cache_process. pose proof (is_video_is_audio x) as Hv. destruct (is_video x), (is_audio x);
    cbn in Hv; try done; destruct (pk_is_sequence_header x), (pk_is_keyframe x), (pk_is_script_data x); done.
Qed.

(** ** Demand counts live handles *)

Definition holds (i : nat) (h : DemandHandle) : bool := negb (dh_detached h) && (dh_count h =? i)%nat.

(** Each counter holds its number of attached live handles, modulo the width,
    plus one if it belongs to a signal that is always wanted. *)
Definition demand_ok (base : nat -> Z) (d : Demands) : Prop :=
  (forall i v, dm_counters d !! i = Some v -> v = (base i + Z.of_nat (countb (holds i) (dm_handles d))) mod 2 ^ 64)
  /\ Forall (fun s => (ds_count s < length (dm_counters d))%nat
       /\ base (ds_count s) = if ds_always_wanted s then 1 else 0) (dm_signals d)
  /\ Forall (fun h => (dh_count h < length (dm_counters d))%nat) (dm_handles d).

Lemma length_atomic_add c i n : length (atomic_add c i n) = length c.
Proof. apply length_alter. Qed.

Lemma atomic_add_lookup c i n j v : atomic_add c i n !! j = Some v ->
  exists v0, c !! j = Some v0 /\ v = if decide (i = j) then (v0 + n) mod 2 ^ 64 else v0.
Proof.
  unfold atomic_add. case_decide as E; [subst j; rewrite list_lookup_alter_eq|rewrite list_lookup_alter_ne by done].
  - destruct (c !! i) as [v0|]; cbn; [|done]. intros [= <-]. by exists v0.
  - intros ->. by exists v.
Qed.

Lemma counters_add c i n (f g : nat -> Z) :
  (forall j v, c !! j = Some v -> v = f j mod 2 ^ 64) ->
  (forall j, g j = f j + if decide (i = j) then n else 0) ->
  forall j v, atomic_add c i n !! j = Some v -> v = g j mod 2 ^ 64.
Proof.
  intros Hc Hg j v Hv. destruct (atomic_add_lookup c i n j v Hv) as (v0 & H0 & ->).
  rewrite Hg, (Hc _ _ H0). case_decide; [by rewrite Zplus_mod_idemp_l|by rewrite Z.add_0_r].
Qed.

Lemma holds_clone i h : Nat.b2n (holds i h)
  = if dh_detached h then 0%nat else if decide (dh_count h = i) then 1%nat else 0%nat.
Proof.
  unfold holds. destruct (dh_detached h); cbn; [done|].
  destruct (Nat.eqb_spec (dh_count h) i); case_decide; done.
Qed.

#[local] Arguments countb : simpl never.

Lemma fresh_unheld n hs : Forall (fun h => (dh_count h < n)%nat) hs -> countb (holds n) hs = 0%nat.
Proof.
  induction 1 as [|h hs Hlt _ IH]; [done|]. rewrite countb_cons, IH. unfold holds.
  destruct (Nat.eqb_spec (dh_count h) n); [lia|]. by rewrite andb_false_r.
Qed.

Lemma demand_step_ok base d d' : demand_ok base d -> demand_step d d' -> exists base', demand_ok base' d'.
Proof.
  intros (Hc & Hs & Hh) Hstep.
  destruct Hstep as [c ss hs always|c ss hs s Hin|c ss hs s Hin|c ss hs|c ss hs h Hin|c ss hs1 h hs2];
    cbn in *.
  - exists (fun i => if decide (i = length c) then (if always then 1 else 0) else base i). split_and!; cbn.
    + intros i v. destruct (decide (i = length c)) as [->|Hne].
      * rewrite list_lookup_middle by done. intros [= <-]. rewrite fresh_unheld by done. by destruct always.
      * intros Hv. apply Hc. rewrite lookup_app_l in Hv; [done|]. apply lookup_lt_Some in Hv.
        rewrite length_app in Hv. cbn in Hv. lia.
    + rewrite length_app. cbn. constructor; cbn; [split; [lia|by rewrite decide_True]|].
      eapply Forall_impl; [exact Hs|]. cbn. intros s [Hlt Hb]. split; [lia|]. rewrite decide_False by lia. done.
    + rewrite length_app. cbn. eapply Forall_impl; [exact Hh|]. cbn. intros; lia.
  - exists base. split_and!; cbn; try done. constructor; [|done]. by apply (proj1 (Forall_forall _ _) Hs).
  - exists base. assert (ds_count s < length c)%nat by by apply (proj1 (Forall_forall _ _) Hs).
    split_and!; cbn; rewrite ?length_atomic_add; try done; [|by constructor].
    eapply counters_add; [exact Hc|]. intros j. cbn. rewrite countb_cons.
    change (Nat.b2n (holds j _)) with (Nat.b2n (ds_count s =? j)%nat).
    destruct (Nat.eqb_spec (ds_count s) j); case_decide; cbn; lia.
  - exists (fun i => if decide (i = length c) then 0 else base i). split_and!; cbn.
    + intros i v. rewrite countb_cons. destruct (decide (i = length c)) as [->|Hne].
      * rewrite list_lookup_middle by done. intros [= <-]. rewrite fresh_unheld by done. done.
      * intros Hv. cbn. apply Hc. rewrite lookup_app_l in Hv; [done|]. apply lookup_lt_Some in Hv.
        rewrite length_app in Hv. cbn in Hv. lia.
    + rewrite length_app. cbn. eapply Forall_impl; [exact Hs|]. cbn. intros s [Hlt Hb].
      split; [lia|]. rewrite decide_False by lia. done.
    + rewrite length_app. cbn. constructor; cbn; [lia|]. eapply Forall_impl; [exact Hh|]. cbn. intros; lia.
  - exists base. assert (dh_count h < length c)%nat by by apply (proj1 (Forall_forall _ _) Hh).
    unfold handle_clone. cbn. destruct (dh_detached h) eqn:Ed; split_and!; cbn; rewrite ?length_atomic_add;
      try done; try by constructor.
    + intros i v Hv. rewrite countb_cons, holds_clone, Ed. by apply Hc.
    + eapply counters_add; [exact Hc|]. intros j. cbn. rewrite countb_cons, holds_clone, Ed.
      case_decide; lia.
  - exists base. apply Forall_app in Hh as [H1 [Hlt H2]%Forall_cons].
    unfold handle_drop. destruct (dh_detached h) eqn:Ed; split_and!; cbn; rewrite ?length_atomic_add; try done;
      try by apply Forall_app.
    + intros i v Hv. rewrite (Hc _ _ Hv), !countb_app, countb_cons, holds_clone, Ed. done.
    + eapply counters_add; [exact Hc|]. intros j. cbn.
      rewrite !countb_app, countb_cons, holds_clone, Ed. case_decide; lia.
Qed.

(** At any point of the program, a signal is wanted exactly when it was made
    always wanted or some live, attached handle was made (directly or by
    cloning) from it; detached handles never count, and no handle of another
    signal does. *)
Theorem demand_is_live_handles d s :
  rtc demand_step (mkDemands [] [] []) d -> s ∈ dm_signals d -> Z.of_nat (length (dm_handles d)) < 2 ^ 63 ->
  is_wanted (dm_counters d) s = ds_always_wanted s || existsb (holds (ds_count s)) (dm_handles d).
Proof.
  intros Hr Hin Hlen.
  assert (exists base, demand_ok base d) as (base & Hc & Hs & _).
  { refine (rtc_invariant demand_step (fun d => exists base, demand_ok base d) _ _ _ _ Hr).
    - intros d1 d2 [base Hd] Hstep. by eapply demand_step_ok.
    - exists (fun _ => 0). by split_and!; [|constructor|constructor]. }
  destruct (proj1 (Forall_forall _ _) Hs s Hin) as [Hlt Hb]. unfold is_wanted.
  destruct (lookup_lt_is_Some_2 _ _ Hlt) as [v Hv]. rewrite Hv. cbn. rewrite (Hc _ _ Hv), Hb.
  destruct (ds_always_wanted s); [done|]. cbn. set (n := countb _ _).
  assert (n <= length (dm_handles d))%nat by apply List.filter_length_le.
  rewrite Z.mod_small by lia. unfold n, countb. clear. induction (dm_handles d) as [|h hs IH]; [done|].
  cbn. destruct (holds (ds_count s) h); cbn; [|by rewrite <- IH]. by apply Z.ltb_lt; lia.
Qed.
