(* ===== verification/HlsPath.v ===== *)
(** * The HLS branch, from packets to the object store
    [livestream-pipeline/src/{processor/hls_segment.rs, sink/minio.rs, task.rs}],
    as [factory.rs] joins them in [try_build_hls]: the segmenter stages its
    files and sends the segments through a bounded pad to the MinIO sink, which
    uploads and removes them. The two loops run in different tasks: every await
    of the sink is a step of its own, with the segmenter running in between. A
    write of a file is one step, which may fail and leave a part of it. *)
From Stdlib Require Import Ascii String.
From stdpp Require Import strings pretty gmap list.
From S2P Require Import Prelude Types Tokio Sanitize Config Hls Pads Sinks.

(** ** Files *)

(** What a file holds: the frames of a segment, the text [render playlist is_final]
    of a playlist, or its first [n] bytes, or the first [n] bytes of a segment. *)
Inductive FileData :=
| TsData (frames : list MuxFrame)
| PlaylistData (playlist : PlaylistState) (is_final : bool)
| CutPlaylist (playlist : PlaylistState) (is_final : bool) (n : nat)
| CutTs (frames : list MuxFrame) (n : nat).

Abbreviation Files := (gmap string FileData).

#[export] Instance TsSegment_eq_dec : EqDecision TsSegment.
Proof. solve_decision. Defined.

(** ** The branch *)

(** Where [consume] is: before an attempt to upload the segment (with the number
    of failed ones), before looking for the playlist, during its upload. *)
Inductive UploadState :=
| Idle
| Uploading (seg : TsSegment) (failed : nat)
| FindPlaylist (seg : TsSegment)
| SendPlaylist (data : FileData).

Record Branch := mkBranch {
  br_segmenter : HlsSegmenter;
  br_running : bool;                                   (* the segmenter's loop *)
  br_pad : PadSender TsSegment (list_queue TsSegment);
  br_upload : UploadState;
  br_sinking : bool;                                   (* the sink's loop *)
  br_disk : Files;
  br_store : Files;
  (* what became of the segments, for the statements *)
  br_produced : list (TsSegment * list MuxFrame);
  br_uploaded : list TsSegment;
  br_failed : list TsSegment;
  br_dropped : list TsSegment;
  br_kept : list TsSegment;      (* settled, their [remove_file] failed *)
}.

(** [process] and [close] write the staged file and then the playlist. *)
Definition stage (env : HlsEnv) (h : HlsSegmenter) (is_final : bool) (disk : Files)
    (segs : list (TsSegment * list MuxFrame)) : Files :=
  foldl (fun disk '(seg, frames) =>
    let disk := <[ts_path seg := TsData frames]> disk in
    match he_playlist env with
    | PlaylistWritten => <[playlist_path (hs_workspace h) := PlaylistData (hs_playlist h) is_final]> disk
    | PlaylistUntouched => disk
    | PlaylistCut n => <[playlist_path (hs_workspace h) := CutPlaylist (hs_playlist h) is_final n]> disk
    end) disk segs.

(** What a failing [stage_segment] leaves under the staged name of a segment:
    nothing new, no file, or (a part of) the copy. *)
Inductive leftover := LeftAlone | LeftRemoved | LeftCopy (n : option nat).

Definition left_at (path : string) (frames : list MuxFrame) (l : leftover) (disk : Files) : Files :=
  match l with
  | LeftAlone => disk
  | LeftRemoved => delete path disk
  | LeftCopy None => <[path := TsData frames]> disk
  | LeftCopy (Some n) => <[path := CutTs frames n]> disk
  end.

(** The disk after a step of [h] that hands nothing over. *)
Definition unstaged (h : HlsSegmenter) (e : hls_error) (l : leftover) (disk : Files) : Files :=
  match e with
  | SegmentFiles =>
      let muxer := hs_muxer h in
      left_at (path_join (ws_upload_dir (hs_workspace h)) (segment_filename (hms_next_sequence muxer)))
        (hms_ts_buffer muxer) l disk
  | _ => disk
  end.

(** Sending to the one output pad: the segments that did not enter it. *)
Definition send_all (pad : PadSender TsSegment (list_queue TsSegment)) (segs : list TsSegment) :
    list TsSegment * PadSender TsSegment (list_queue TsSegment) :=
  foldl (fun '(dropped, pad) seg =>
    match pad_send pad seg with
    | (Ok _, pad) => (dropped, pad)
    | (Err _, pad) => (dropped ++ [seg], pad)
    end) ([], pad) segs.

Definition emit (env : HlsEnv) (is_final : bool) (h : HlsSegmenter) (running : bool)
    (segs : list (TsSegment * list MuxFrame)) (b : Branch) : Branch :=
  let '(dropped, pad) := send_all (br_pad b) (map fst segs) in
  mkBranch h running pad (br_upload b) (br_sinking b) (stage env h is_final (br_disk b) segs) (br_store b)
    (br_produced b ++ segs) (br_uploaded b) (br_failed b) (br_dropped b ++ dropped) (br_kept b).

(** A [process] or [close] that fails hands nothing over. *)
Definition fail_step (e : hls_error) (l : leftover) (h : HlsSegmenter) (running : bool) (b : Branch) : Branch :=
  mkBranch h running (br_pad b) (br_upload b) (br_sinking b) (unstaged (br_segmenter b) e l (br_disk b)) (br_store b)
    (br_produced b) (br_uploaded b) (br_failed b) (br_dropped b) (br_kept b).

Definition with_upload (b : Branch) (u : UploadState) : Branch :=
  mkBranch (br_segmenter b) (br_running b) (br_pad b) u (br_sinking b) (br_disk b) (br_store b)
    (br_produced b) (br_uploaded b) (br_failed b) (br_dropped b) (br_kept b).

Definition with_pad (b : Branch) (pad : PadSender TsSegment (list_queue TsSegment)) (u : UploadState)
    (sinking : bool) : Branch :=
  mkBranch (br_segmenter b) (br_running b) pad u sinking (br_disk b) (br_store b)
    (br_produced b) (br_uploaded b) (br_failed b) (br_dropped b) (br_kept b).

Definition with_store (b : Branch) (u : UploadState) (store : Files) : Branch :=
  mkBranch (br_segmenter b) (br_running b) (br_pad b) u (br_sinking b) (br_disk b) store
    (br_produced b) (br_uploaded b) (br_failed b) (br_dropped b) (br_kept b).

(** [remove_file] at the end of the attempts, which may fail. *)
Definition settle (b : Branch) (seg : TsSegment) (ok removed : bool) : Branch :=
  mkBranch (br_segmenter b) (br_running b) (br_pad b) (if ok then FindPlaylist seg else Idle) (br_sinking b)
    (if removed then delete (ts_path seg) (br_disk b) else br_disk b) (br_store b) (br_produced b)
    (if ok then br_uploaded b ++ [seg] else br_uploaded b)
    (if ok then br_failed b else br_failed b ++ [seg]) (br_dropped b)
    (if removed then br_kept b else br_kept b ++ [seg]).

Inductive BranchEvent :=
| EvPacket (env : HlsEnv) (l : leftover) (pkt : EncodedPacket)   (* the segmenter takes a packet *)
| EvClose (env : HlsEnv) (l : leftover)           (* its loop breaks: [close] *)
| EvRecv                                          (* the sink takes a segment, or finds its input ended *)
| EvAttempt (stored ok removed : bool)            (* an upload of the segment ends; its file is removed if it was the last *)
| EvFindPlaylist                                  (* the sink opens the playlist *)
| EvPlaylistSent (stored : bool)                  (* its upload ends *)
| EvSinkCancelled.                                (* the sink's cancelled branch is taken *)

Section Branch.
Context (cfg : SegmentConfig) (live_id : string).

Definition segment_key (seg : TsSegment) : string := object_key cfg live_id (ts_filename seg).
Definition playlist_key : string := object_key cfg live_id "index.m3u8".

(** The pad holds 256 segments. The disk and the store may hold what earlier
    sessions of this id left there. *)
Definition try_build_hls (codecs : list Codec) (ws : SegmentWorkspace) (disk store : Files) : Branch :=
  mkBranch (segmenter_new codecs cfg ws) true (new_channel 256) Idle true disk store [] [] [] [] [].

(** The end of the sink drops its receiver. *)
Definition end_sink (b : Branch) : Branch :=
  with_pad b (match br_pad b with Channel c => Channel (mp_drop_rx c) | pad => pad end) Idle false.

(** An upload reads the file; it fails without one. An upload that reports a
    failure may have stored the object all the same. *)
Definition attempt_upload (b : Branch) (seg : TsSegment) (failed : nat) (stored ok removed : bool) : Branch :=
  let give_up_or_retry b := if (failed <? 2)%nat then with_upload b (Uploading seg (S failed)) else settle b seg false removed in
  match br_disk b !! ts_path seg with
  | None => give_up_or_retry b
  | Some data =>
      let b' := with_store b (br_upload b)
                  (if stored || ok then <[segment_key seg := data]> (br_store b) else br_store b) in
      if ok then settle b' seg true removed else give_up_or_retry b'
  end.

Definition branch_step (b : Branch) (ev : BranchEvent) : Branch :=
  match ev with
  | EvPacket env l pkt =>
      if br_running b then
        match hls_process env (br_segmenter b) pkt with
        | (Ok segs, h) => emit env false h true segs b
        | (Err e, h) => fail_step e l h true b
        end
      else b
  | EvClose env l =>
      if br_running b then
        match hls_close env (br_segmenter b) with
        | (Ok seg, h) => emit env true h false [seg] b
        | (Err e, h) => fail_step e l h false b
        end
      else b
  | EvRecv =>
      match br_sinking b, br_upload b, br_pad b with
      | true, Idle, Channel (n, open, seg :: q) => with_pad b (Channel (n, open, q)) (Uploading seg 0) true
      | true, Idle, Channel (_, _, []) => if br_running b then b else end_sink b
      | _, _, _ => b
      end
  | EvAttempt stored ok removed =>
      match br_upload b with Uploading seg failed => attempt_upload b seg failed stored ok removed | _ => b end
  | EvFindPlaylist =>
      match br_upload b with
      | FindPlaylist seg =>
          match br_disk b !! path_join (parent (ts_path seg)) "index.m3u8" with
          | None => with_upload b Idle
          | Some data => with_upload b (SendPlaylist data)
          end
      | _ => b
      end
  | EvPlaylistSent stored =>
      match br_upload b with
      | SendPlaylist data =>
          with_store b Idle (if stored then <[playlist_key := data]> (br_store b) else br_store b)
      | _ => b
      end
  | EvSinkCancelled =>
      match br_sinking b, br_upload b with true, Idle => end_sink b | _, _ => b end
  end.

Definition branch_run (b : Branch) (evs : list BranchEvent) : Branch := foldl branch_step b evs.
End Branch.

(** The sink's steps without the segmenter in between are [consume]: the same
    outcome, and the same files left. *)
Fixpoint attempts (cfg : SegmentConfig) (live_id : string) (removed : bool) (answers : list bool) (b : Branch) : Branch :=
  match answers with
  | [] => b
  | ok :: answers => attempts cfg live_id removed answers (branch_step cfg live_id b (EvAttempt ok ok removed))
  end.

Lemma consume_steps cfg live_id b seg answer removed data :
  br_upload b = Uploading seg 0 -> br_disk b !! ts_path seg = Some data ->
  let '(ok, _, files) := minio_consume cfg live_id answer removed (dom (br_disk b)) seg in
  let b' := attempts cfg live_id removed [answer 0%nat; answer 1%nat; answer 2%nat] b in
  br_upload b' = (if ok then FindPlaylist seg else Idle) /\ dom (br_disk b') = files
  /\ br_uploaded b' = br_uploaded b ++ (if ok then [seg] else [])
  /\ br_failed b' = br_failed b ++ (if ok then [] else [seg]).
Proof.
  intros Hu Hd. pose proof (minio_consume_outcome cfg live_id answer removed (dom (br_disk b)) seg) as Hc.
  destruct (minio_consume _ _ _ _ _ _) as [[ok u] files]. destruct Hc as (-> & -> & _).
  destruct b as [h run pad up snk disk store prod upl fld drp kept]. cbn in Hu, Hd. subst up.
  unfold attempts, branch_step, attempt_upload.
  destruct (answer 0%nat), (answer 1%nat), (answer 2%nat); cbn;
    repeat (rewrite Hd; cbn; change (1 <? 2)%nat with true; change (2 <? 2)%nat with false; change (0 <? 2)%nat with true; cbn);
    destruct removed; by rewrite ?dom_delete_L, ?app_nil_r.
Qed.

(** ** Names *)

(** The number a string of digits adds to [acc]: any characters are folded in,
    which only has to be injective in [acc]. *)
Fixpoint digits_value (acc : Z) (s : string) : Z :=
  match s with
  | EmptyString => acc
  | String c s => digits_value (acc * 10 + (Z.of_N (N_of_ascii c) - 48)) s
  end.

Lemma digits_value_inj s : forall a b, digits_value a s = digits_value b s -> a = b.
Proof. induction s as [|c s IH]; cbn; intros a b H; [done|]. apply IH in H. lia. Qed.

Lemma digits_value_app s1 s2 : forall a, digits_value a (s1 +:+ s2) = digits_value (digits_value a s1) s2.
Proof. induction s1; cbn; intros; [done|]. apply IHs1. Qed.

Lemma digit_value n : (n < 10)%N -> Z.of_N (N_of_ascii (pretty_N_char n)) - 48 = Z.of_N n.
Proof.
  intros H. destruct n as [|p]; [done|]. do 4 (destruct p as [p|p|]; try done; try lia).
Qed.

Lemma digits_value_pretty_go n : forall s, digits_value 0 (pretty_N_go n s) = digits_value (Z.of_N n) s.
Proof.
  induction (N.lt_wf_0 n) as [n _ IH]. intros s. destruct (decide (n = 0%N)) as [->|Hn]; [done|].
  rewrite pretty_N_go_step by lia. rewrite IH by (apply N.div_lt; lia). cbn [digits_value].
  rewrite digit_value by (apply N.mod_lt; lia).
  f_equal. rewrite N2Z.inj_div, N2Z.inj_mod. lia_div.
Qed.

Lemma digits_value_pretty n : digits_value 0 (pretty n) = Z.of_N n.
Proof.
  unfold pretty, pretty_N. case_decide as E; [by rewrite E|]. by rewrite digits_value_pretty_go.
Qed.

Lemma digits_value_zeros n s : digits_value 0 (string_of_list_ascii (replicate n "0"%char) +:+ s) = digits_value 0 s.
Proof. induction n; [done|]. cbn. apply IHn. Qed.

Lemma segment_filename_inj i j : 0 <= i -> 0 <= j -> segment_filename i = segment_filename j -> i = j.
Proof.
  intros Hi Hj H. apply (inj (String.append "segment_")) in H.
  assert (forall k, 0 <= k -> digits_value 0 (pad_zeros 4 (pretty (Z.to_N k)) +:+ ".ts") = digits_value k ".ts") as Hd.
  { intros k Hk. unfold pad_zeros. by rewrite digits_value_app, digits_value_zeros, digits_value_pretty, Z2N.id. }
  apply (f_equal (digits_value 0)) in H. rewrite !Hd in H by done. by apply digits_value_inj in H.
Qed.

(** Names without a slash: the parent of a file of a directory is the directory. *)
Definition no_slash (s : string) : Prop := Forall (fun c => c <> "/"%char) (list_ascii_of_string s).

Lemma list_ascii_app s1 s2 : list_ascii_of_string (s1 +:+ s2) = list_ascii_of_string s1 ++ list_ascii_of_string s2.
Proof. induction s1 as [|c s1 IH]; [done|]. cbn. by rewrite <- IH. Qed.

Lemma no_slash_app s1 s2 : no_slash s1 -> no_slash s2 -> no_slash (s1 +:+ s2).
Proof. unfold no_slash. rewrite list_ascii_app. apply Forall_app_2. Qed.

Lemma no_slash_pretty_go n : forall s, no_slash s -> no_slash (pretty_N_go n s).
Proof.
  induction (N.lt_wf_0 n) as [n _ IH]. intros s Hs. destruct (decide (n = 0%N)) as [->|Hn]; [done|].
  rewrite pretty_N_go_step by lia. apply IH; [apply N.div_lt; lia|]. constructor; [|done].
  intros Hc. pose proof (digit_value (n mod 10)%N ltac:(apply N.mod_lt; lia)) as Hd. rewrite Hc in Hd.
  by destruct (n mod 10)%N.
Qed.

Lemma no_slash_filename i : no_slash (segment_filename i).
Proof.
  unfold segment_filename, pad_zeros. repeat apply no_slash_app; try (by repeat constructor).
  - unfold no_slash. rewrite list_ascii_of_string_of_list_ascii. by apply Forall_replicate.
  - unfold pretty, pretty_N. case_decide; [by repeat constructor|]. apply no_slash_pretty_go. constructor.
Qed.

Lemma parent_join dir name : no_slash name -> parent (path_join dir name) = dir.
Proof.
  intros Hn. unfold parent, path_join. rewrite !list_ascii_app, !rev_app_distr.
  set (drop_name := fix drop_name (l : list ascii) :=
    match l with [] => [] | c :: l' => if decide (c = "/"%char) then l' else drop_name l' end).
  assert (forall l r, Forall (fun c => c <> "/"%char) l -> drop_name (l ++ "/"%char :: r) = r) as Hl.
  { induction 1 as [|c l Hc _ IH]; cbn; [by rewrite decide_True|]. by rewrite decide_False. }
  change (rev (list_ascii_of_string "/")) with ["/"%char].
  rewrite <- app_assoc. cbn [app]. rewrite Hl by by apply Forall_rev.
  by rewrite rev_involutive, string_of_list_ascii_of_string.
Qed.

(** ** What the segmenter hands over *)

(** The playlist after some segments. *)
Definition playlist_after (pl : PlaylistState) (segs : list (TsSegment * list MuxFrame)) : PlaylistState :=
  foldl (fun pl s => push_segment pl (ts_filename (fst s)) (ts_duration (fst s))) pl segs.

Definition well_named (ws : SegmentWorkspace) (seg : TsSegment) : Prop :=
  0 <= ts_sequence seg /\ ts_filename seg = segment_filename (ts_sequence seg)
  /\ ts_path seg = path_join (ws_upload_dir ws) (ts_filename seg).

(** A step of the segmenter that hands over [segs], at most one. *)
Definition emits (h : HlsSegmenter) (segs : list (TsSegment * list MuxFrame)) (h' : HlsSegmenter) : Prop :=
  hs_workspace h' = hs_workspace h
  /\ hms_next_sequence (hs_muxer h) <= hms_next_sequence (hs_muxer h')
  /\ hs_playlist h' = playlist_after (hs_playlist h) segs
  /\ match segs with
     | [] => True
     | [(seg, _)] => ts_sequence seg = hms_next_sequence (hs_muxer h)
         /\ ts_sequence seg < hms_next_sequence (hs_muxer h') /\ well_named (hs_workspace h) seg
     | _ => False
     end.

Lemma write_or_reset_keeps env h pkt : let h' := write_packet_or_reset env h pkt in
  hs_workspace h' = hs_workspace h /\ hs_playlist h' = hs_playlist h
  /\ hms_next_sequence (hs_muxer h') = hms_next_sequence (hs_muxer h).
Proof. unfold write_packet_or_reset, write_packet. repeat (case_match; simplify_eq); done. Qed.

Lemma rollover_emits env h d : 0 <= hms_next_sequence (hs_muxer h) ->
  match rollover env h d with
  | (Err _, h') => emits h [] h'
  | (Ok (seg, _), h') => hs_workspace h' = hs_workspace h /\ hs_playlist h' = hs_playlist h
      /\ ts_sequence seg = hms_next_sequence (hs_muxer h)
      /\ hms_next_sequence (hs_muxer h') = hms_next_sequence (hs_muxer h) + 1 /\ well_named (hs_workspace h) seg
  end.
Proof.
  intros H0. unfold rollover, emits. destruct (_ && _); [split_and!; try done; lia|].
  destruct (negb (he_create env)); [cbn; split_and!; try done; lia|].
  destruct (negb (he_files env)); cbn; split_and!; try done; lia.
Qed.

Lemma process_emits env h pkt : 0 <= hms_next_sequence (hs_muxer h) ->
  match hls_process env h pkt with (Ok segs, h') => emits h segs h' | (Err _, h') => emits h [] h' end.
Proof.
  intros H0. unfold hls_process. destruct (pk_is_sequence_header pkt); [by split_and!|].
  destruct (observe h pkt) as [[ro el] st]. destruct ro.
  - pose proof (rollover_emits env (with_segmenter h st) el H0) as Hr.
    destruct (rollover _ _ _) as [[[seg frames]|e] h']; [|exact Hr].
    destruct Hr as (Hw & Hp & Hs & Hn & Hok).
    match goal with |- context [write_packet_or_reset env ?h1 pkt] =>
      destruct (write_or_reset_keeps env h1 pkt) as (Hw' & Hp' & Hn') end.
    unfold emits. rewrite Hw', Hp', Hn'. cbn in *. rewrite Hn, Hp. split_and!; try done; lia.
  - destruct (write_or_reset_keeps env (with_segmenter h st) pkt) as (Hw & Hp & Hn).
    unfold emits. rewrite Hw, Hp, Hn. by split_and!.
Qed.

Lemma close_emits env h : 0 <= hms_next_sequence (hs_muxer h) ->
  match hls_close env h with (Ok seg, h') => emits h [seg] h' | (Err _, h') => emits h [] h' end.
Proof.
  intros H0. unfold hls_close. set (d := default _ _).
  pose proof (rollover_emits env h d H0) as Hr. destruct (rollover env h d) as [[[seg frames]|e] h']; [|exact Hr].
  destruct Hr as (Hw & Hp & Hs & Hn & Hok). unfold emits. cbn. rewrite Hw, Hp, Hn. split_and!; try done; lia.
Qed.

(** The sends are those of the loop's [fan_out]. *)
Lemma send_all_fan_out pad segs : fan_out [pad] segs = [snd (send_all pad segs)].
Proof.
  unfold fan_out, send_all. generalize (@nil TsSegment) at 2 as dropped. revert pad.
  induction segs as [|seg segs IH]; intros pad dropped; [done|]. cbn [foldl fan_out_item].
  unfold deliver_to_pad. destruct (pad_send pad seg) as [[[]|[]] pad']; apply IH.
Qed.

(** ** The invariant *)

Definition uploading (b : Branch) : list TsSegment :=
  match br_upload b with Uploading seg _ => [seg] | _ => [] end.

(** The segments the sink has not settled. *)
Definition waiting (b : Branch) : list TsSegment := uploading b ++ pad_contents (br_pad b).

Lemma path_join_inj dir f g : path_join dir f = path_join dir g -> f = g.
Proof. unfold path_join. intros H. apply (inj (String.append dir)) in H. by apply (inj (String.append "/")) in H. Qed.

Lemma object_key_inj cfg live_id f g : object_key cfg live_id f = object_key cfg live_id g -> f = g.
Proof.
  unfold object_key. intros H. apply (inj (String.append _)) in H. apply (inj (String.append "/")) in H.
  apply (inj (String.append _)) in H. by apply (inj (String.append "/")) in H.
Qed.

Lemma well_named_inj ws s1 s2 : well_named ws s1 -> well_named ws s2 ->
  ts_filename s1 = ts_filename s2 -> ts_sequence s1 = ts_sequence s2.
Proof. intros (H1 & E1 & _) (H2 & E2 & _). rewrite E1, E2. by apply segment_filename_inj. Qed.

Lemma well_named_paths ws s1 s2 : well_named ws s1 -> well_named ws s2 ->
  ts_path s1 = ts_path s2 -> ts_filename s1 = ts_filename s2.
Proof. intros (_ & _ & E1) (_ & _ & E2). rewrite E1, E2. apply path_join_inj. Qed.

Lemma well_named_not_index ws s : well_named ws s -> ts_filename s <> "index.m3u8".
Proof. intros (_ & -> & _). done. Qed.

Lemma well_named_not_playlist ws s : well_named ws s -> ts_path s <> playlist_path ws.
Proof. intros Hw H. destruct Hw as (_ & E & Hp). rewrite Hp, E in H. by apply path_join_inj in H. Qed.

Lemma well_named_parent ws s : well_named ws s ->
  path_join (parent (ts_path s)) "index.m3u8" = playlist_path ws.
Proof. intros (_ & E & Hp). rewrite Hp, parent_join by (rewrite E; apply no_slash_filename). done. Qed.

Lemma send_all_split pad segs : let '(dropped, pad') := send_all pad segs in
  exists accepted, segs ≡ₚ accepted ++ dropped /\ pad_contents pad' = pad_contents pad ++ accepted.
Proof.
  induction segs as [|seg segs IH] using rev_ind; [by exists []; split; [|symmetry; apply app_nil_r]|].
  unfold send_all in *. rewrite foldl_snoc. destruct (foldl _ _ _) as [dropped pad'].
  destruct IH as (acc & Hs & Hp).
  assert (pad_contents (snd (pad_send pad' seg))
    = pad_contents pad' ++ match fst (pad_send pad' seg) with Ok _ => [seg] | Err _ => [] end) as Hc.
  { destruct pad' as [l|[[n []] q]]; unfold pad_send, mpsc_send; cbn; [done| |by rewrite app_nil_r].
    destruct (n <=? length q)%nat; cbn; by rewrite ?app_nil_r. }
  destruct (pad_send pad' seg) as [[[]|e] pad2]; cbn in Hc.
  - exists (acc ++ [seg]). split; [|by rewrite Hc, Hp, <- app_assoc].
    rewrite Hs, <- !app_assoc. f_equiv. apply Permutation_app_comm.
  - exists acc. rewrite app_nil_r in Hc. split; [by rewrite Hs, app_assoc|congruence].
Qed.

Lemma fates_shuffle {A} (u f d w x a : list A) : (u ++ f ++ d ++ w) ++ a ++ x ≡ₚ u ++ f ++ (d ++ x) ++ w ++ a.
Proof.
  rewrite <- !app_assoc. do 3 f_equiv. rewrite (app_assoc w a x). apply Permutation_app_comm.
Qed.

(** A playlist file holds the text of a playlist, or a first part of it. *)
Definition playlist_text (pl : PlaylistState) (is_final : bool) (data : FileData) : Prop :=
  data = PlaylistData pl is_final \/ exists n, data = CutPlaylist pl is_final n.

(** What staging one segment changes on the disk. *)
Lemma stage_spec env h fin (disk : Files) segs : (length segs <= 1)%nat ->
  (forall q, q ∈ segs -> ts_path (fst q) <> playlist_path (hs_workspace h)) ->
  let disk' := stage env h fin disk segs in
  (forall path, path <> playlist_path (hs_workspace h) -> (forall q, q ∈ segs -> path <> ts_path (fst q)) ->
     disk' !! path = disk !! path)
  /\ (forall q, q ∈ segs -> disk' !! ts_path (fst q) = Some (TsData (snd q)))
  /\ (forall data, disk' !! playlist_path (hs_workspace h) = Some data ->
       playlist_text (hs_playlist h) fin data \/ disk !! playlist_path (hs_workspace h) = Some data).
Proof.
  intros Hl Hne. destruct segs as [|[seg fr] [|]]; cbn in *; [|clear Hl|lia].
  { split_and!; [done|by intros q ?%elem_of_nil|by right]. }
  pose proof (Hne (seg, fr) ltac:(by apply list_elem_of_singleton)) as Hn. cbn in Hn.
  split_and!.
  - intros path Hp Hq. pose proof (Hq (seg, fr) ltac:(by apply list_elem_of_singleton)). cbn in *.
    destruct (he_playlist env); by rewrite ?lookup_insert_ne by done.
  - intros q ->%list_elem_of_singleton. cbn. destruct (he_playlist env);
      rewrite ?(lookup_insert_ne _ (playlist_path _)) by done; by rewrite lookup_insert_eq.
  - intros data. unfold playlist_text. destruct (he_playlist env) as [| |n].
    + rewrite lookup_insert_eq. intros [= <-]. left. by left.
    + rewrite lookup_insert_ne by done. by right.
    + rewrite lookup_insert_eq. intros [= <-]. left. right. by exists n.
Qed.

(** What a failing step changes: at most the staged name of its own segment. *)
Lemma unstaged_spec h e l (disk : Files) path :
  path <> path_join (ws_upload_dir (hs_workspace h)) (segment_filename (hms_next_sequence (hs_muxer h))) ->
  unstaged h e l disk !! path = disk !! path.
Proof.
  intros Hp. destruct e; try done. destruct l as [| |[n|]]; cbn; [done|apply lookup_delete_ne|apply lookup_insert_ne..]; done.
Qed.

Section Accounts.
Context (cfg : SegmentConfig) (live_id : string) (ws : SegmentWorkspace) (disk0 store0 : Files).

(** The playlist of the first segments produced, for some number of them. *)
Definition playlist_of (produced : list (TsSegment * list MuxFrame)) (data : FileData) : Prop :=
  exists k is_final, playlist_text (playlist_after (playlist_new cfg) (take k produced)) is_final data.

Record branch_ok (b : Branch) : Prop := {
  ok_workspace : hs_workspace (br_segmenter b) = ws;
  ok_next : 0 <= hms_next_sequence (hs_muxer (br_segmenter b));
  ok_fates : map fst (br_produced b) ≡ₚ br_uploaded b ++ br_failed b ++ br_dropped b ++ waiting b;
  ok_named p : p ∈ br_produced b ->
    well_named ws (fst p) /\ ts_sequence (fst p) < hms_next_sequence (hs_muxer (br_segmenter b));
  ok_distinct : NoDup (map (fun p => ts_sequence (fst p)) (br_produced b));
  ok_playlist : hs_playlist (br_segmenter b) = playlist_after (playlist_new cfg) (br_produced b);
  ok_staged p : p ∈ br_produced b -> fst p ∈ br_dropped b ++ waiting b ->
    br_disk b !! ts_path (fst p) = Some (TsData (snd p));
  ok_removed p : p ∈ br_produced b -> fst p ∈ br_uploaded b ++ br_failed b ->
    br_disk b !! ts_path (fst p) = if decide (fst p ∈ br_kept b) then Some (TsData (snd p)) else None;
  ok_kept : br_kept b ⊆ br_uploaded b ++ br_failed b;
  ok_uploaded p : p ∈ br_produced b -> fst p ∈ br_uploaded b ->
    br_store b !! segment_key cfg live_id (fst p) = Some (TsData (snd p));
  ok_store key : key <> playlist_key cfg live_id ->
    br_store b !! key = store0 !! key
    \/ exists p, p ∈ br_produced b /\ key = segment_key cfg live_id (fst p)
         /\ br_store b !! key = Some (TsData (snd p)) /\ fst p ∈ br_uploaded b ++ br_failed b ++ uploading b;
  ok_disk_playlist data : br_disk b !! playlist_path ws = Some data ->
    playlist_of (br_produced b) data \/ disk0 !! playlist_path ws = Some data;
  ok_store_playlist data : br_store b !! playlist_key cfg live_id = Some data ->
    playlist_of (br_produced b) data \/ disk0 !! playlist_path ws = Some data
    \/ store0 !! playlist_key cfg live_id = Some data;
  ok_upload : match br_upload b with
    | FindPlaylist seg => well_named ws seg
    | SendPlaylist data => playlist_of (br_produced b) data \/ disk0 !! playlist_path ws = Some data
    | _ => True
    end;
}.

(** Names tell the segments apart. *)
Lemma same_sequence b p q : branch_ok b -> p ∈ br_produced b -> q ∈ br_produced b ->
  ts_sequence (fst p) = ts_sequence (fst q) -> p = q.
Proof.
  intros Hb [i Hi]%list_elem_of_lookup [j Hj]%list_elem_of_lookup Hs.
  assert (i = j) as ->; [|congruence].
  eapply (NoDup_lookup _ _ _ _ (ok_distinct b Hb)); rewrite list_lookup_fmap; [by rewrite Hi|].
  rewrite Hj. cbn. by rewrite Hs.
Qed.

Lemma same_filename b p q : branch_ok b -> p ∈ br_produced b -> q ∈ br_produced b ->
  ts_filename (fst p) = ts_filename (fst q) -> p = q.
Proof.
  intros Hb Hp Hq Hf. apply (same_sequence b); try done.
  by apply (well_named_inj ws); [apply (ok_named b Hb)..|].
Qed.

Lemma produced_segment b seg : branch_ok b ->
  seg ∈ br_uploaded b ++ br_failed b ++ br_dropped b ++ waiting b -> exists frames, (seg, frames) ∈ br_produced b.
Proof.
  intros Hb Hin. rewrite <- (ok_fates b Hb) in Hin. apply list_elem_of_fmap in Hin as ([s fr] & -> & Hp). by exists fr.
Qed.

Lemma same_path b s1 s2 : branch_ok b ->
  s1 ∈ br_uploaded b ++ br_failed b ++ br_dropped b ++ waiting b ->
  s2 ∈ br_uploaded b ++ br_failed b ++ br_dropped b ++ waiting b -> ts_path s1 = ts_path s2 -> s1 = s2.
Proof.
  intros Hb [f1 H1]%(produced_segment b _ Hb) [f2 H2]%(produced_segment b _ Hb) Hp.
  assert ((s1, f1) = (s2, f2)) as E; [|congruence]. apply (same_filename b); try done.
  by apply (well_named_paths ws); [apply (ok_named b Hb _ H1)|apply (ok_named b Hb _ H2)|].
Qed.

Lemma fates_distinct b : branch_ok b -> NoDup (br_uploaded b ++ br_failed b ++ br_dropped b ++ waiting b).
Proof.
  intros Hb. rewrite <- (ok_fates b Hb). pose proof (ok_distinct b Hb) as Hd.
  rewrite <- (map_map fst ts_sequence) in Hd. by apply NoDup_fmap_1 in Hd.
Qed.

Lemma playlist_of_app produced more data : playlist_of produced data -> playlist_of (produced ++ more) data.
Proof.
  intros (k & fin & Hd). exists (Nat.min k (length produced)), fin. revert Hd.
  rewrite take_app_le by lia. destruct (Nat.le_ge_cases k (length produced)); [by rewrite Nat.min_l|].
  by rewrite Nat.min_r, !take_ge by lia.
Qed.

Lemma playlist_of_all produced fin data :
  playlist_text (playlist_after (playlist_new cfg) produced) fin data -> playlist_of produced data.
Proof. exists (length produced), fin. by rewrite firstn_all. Qed.

(** A step of the segmenter that hands nothing over. *)
Lemma fail_step_ok e l running b h : branch_ok b -> emits (br_segmenter b) [] h ->
  branch_ok (fail_step e l h running b).
Proof.
  intros Hb (Hw & Hn & Hpl & _). pose proof (ok_next b Hb) as H0.
  set (file := segment_filename (hms_next_sequence (hs_muxer (br_segmenter b)))).
  assert (forall p, p ∈ br_produced b ->
    unstaged (br_segmenter b) e l (br_disk b) !! ts_path (fst p) = br_disk b !! ts_path (fst p)) as Hkeep.
  { intros p Hp. destruct (ok_named b Hb p Hp) as [(Hs & Hf & Hpp) Hlt]. apply unstaged_spec.
    rewrite Hpp, (ok_workspace b Hb). intros E%path_join_inj. rewrite Hf in E. apply segment_filename_inj in E; lia. }
  assert (unstaged (br_segmenter b) e l (br_disk b) !! playlist_path ws = br_disk b !! playlist_path ws) as Hlist.
  { apply unstaged_spec. rewrite (ok_workspace b Hb). by intros E%path_join_inj. }
  destruct Hb as [Hws Hnx Hft Hnm Hdi Hpp Hst Hrm Hkp Hup Hso Hdp Hsp Huo]. constructor; cbn; try done.
  - by rewrite Hw.
  - lia.
  - intros p [? ?]%Hnm. split; [done|lia].
  - by rewrite Hpl.
  - intros p Hp Hin. rewrite Hkeep by done. by apply Hst.
  - intros p Hp Hin. rewrite Hkeep by done. by apply Hrm.
  - intros d. rewrite Hlist. apply Hdp.
Qed.

(** The segments a step hands over are new. *)
Lemma emitted_fresh b segs h : branch_ok b -> emits (br_segmenter b) segs h ->
  (forall q, q ∈ segs -> well_named ws (fst q)
     /\ hms_next_sequence (hs_muxer (br_segmenter b)) <= ts_sequence (fst q) < hms_next_sequence (hs_muxer h))
  /\ (forall seg q, seg ∈ map fst (br_produced b) -> q ∈ segs -> ts_path seg <> ts_path (fst q))
  /\ (forall p q, p ∈ br_produced b -> q ∈ segs -> ts_sequence (fst p) < ts_sequence (fst q)).
Proof.
  intros Hb (Hw & Hn & Hpl & Hs).
  assert (forall q, q ∈ segs -> well_named ws (fst q)
    /\ hms_next_sequence (hs_muxer (br_segmenter b)) <= ts_sequence (fst q) < hms_next_sequence (hs_muxer h)) as Hnew.
  { intros q Hq. rewrite <- (ok_workspace b Hb).
    destruct segs as [|[seg fr] [|]]; [by apply elem_of_nil in Hq| |done].
    apply list_elem_of_singleton in Hq as ->. destruct Hs as (? & ? & ?). cbn. split_and!; done || lia. }
  assert (forall p q, p ∈ br_produced b -> q ∈ segs -> ts_sequence (fst p) < ts_sequence (fst q)) as Hlt.
  { intros p q [_ Hp]%(ok_named b Hb) (_ & Hq & _)%Hnew. lia. }
  split_and!; try done. intros seg q (p & -> & Hp)%list_elem_of_fmap Hq E.
  pose proof (Hlt p q Hp Hq). destruct (Hnew q Hq) as [Hwq _], (ok_named b Hb _ Hp) as [Hwp _].
  pose proof (well_named_inj ws _ _ Hwp Hwq (well_named_paths ws _ _ Hwp Hwq E)). lia.
Qed.

(** A step of the segmenter. *)
Lemma emit_ok env fin running b h segs : branch_ok b -> emits (br_segmenter b) segs h ->
  branch_ok (emit env fin h running segs b).
Proof.
  intros Hb Hem. destruct (emitted_fresh b segs h Hb Hem) as (Hnew & Hpath & Hlt).
  destruct Hem as (Hw & Hn & Hpl & Hs). unfold emit.
  pose proof (send_all_split (br_pad b) (map fst segs)) as Hsend.
  destruct (send_all _ _) as [dropped pad]. destruct Hsend as (acc & Hperm & Hpad).
  assert (length segs <= 1)%nat as Hlen by (destruct segs as [|[? ?] [|]]; cbn; lia || done).
  destruct (stage_spec env h fin (br_disk b) segs Hlen) as (Hframe & Hfile & Hlist).
  { intros q Hq. rewrite Hw, (ok_workspace b Hb). by apply well_named_not_playlist, Hnew. }
  rewrite Hw, (ok_workspace b Hb) in Hframe, Hlist.
  set (disk' := stage _ _ _ _ _) in *. set (b' := mkBranch _ _ _ _ _ _ _ _ _ _ _ _).
  assert (waiting b' = waiting b ++ acc) as Hwait.
  { unfold waiting, b'. cbn. by rewrite Hpad, app_assoc. }
  assert (forall seg, seg ∈ br_uploaded b ++ br_failed b ++ br_dropped b ++ waiting b ->
    seg ∈ map fst (br_produced b)) as Hsub by (intros seg; by rewrite (ok_fates b Hb)).
  assert (forall seg, seg ∈ map fst (br_produced b) -> disk' !! ts_path seg = br_disk b !! ts_path seg) as Hkeep.
  { intros seg Hin. apply Hframe; [|by intros q; apply Hpath]. apply list_elem_of_fmap in Hin as (p & -> & Hp).
    by apply well_named_not_playlist, (ok_named b Hb). }
  assert (forall p, p ∈ br_produced b -> p.1 ∉ acc ++ dropped) as Hfresh.
  { intros p Hp. rewrite <- Hperm. intros (q & E & Hq)%list_elem_of_fmap.
    pose proof (Hlt p q Hp Hq) as Hpq. rewrite E in Hpq. lia. }
  assert (forall q, q ∈ segs -> q.1 ∉ br_uploaded b ++ br_failed b ++ br_dropped b ++ waiting b) as Hunseen.
  { intros q Hq Hin. by apply (Hpath _ q (Hsub _ Hin) Hq). }
  constructor; cbn.
  - by rewrite Hw, (ok_workspace b Hb).
  - pose proof (ok_next b Hb). lia.
  - by rewrite Hwait, map_app, (ok_fates b Hb), Hperm, fates_shuffle.
  - intros p [Hp|Hp]%elem_of_app; [destruct (ok_named b Hb _ Hp); split; [done|lia]|].
    destruct (Hnew p Hp) as (? & ?). split; [done|lia].
  - rewrite map_app. apply NoDup_app. split_and!; [apply (ok_distinct b Hb)| |].
    + intros x (p & -> & Hp)%list_elem_of_fmap (q & E & Hq)%list_elem_of_fmap.
      pose proof (Hlt p q Hp Hq). lia.
    + destruct segs as [|? [|]]; cbn in *; [constructor|apply NoDup_singleton|lia].
  - rewrite Hpl, (ok_playlist b Hb). unfold playlist_after. by rewrite foldl_app.
  - intros p Hp Hin. apply elem_of_app in Hp as [Hp|Hp]; [|by apply Hfile].
    rewrite Hkeep by by apply list_elem_of_fmap_2. apply (ok_staged b Hb _ Hp).
    pose proof (Hfresh p Hp) as Hf. rewrite Hwait in Hin. set_solver.
  - intros p Hp Hin. apply elem_of_app in Hp as [Hp|Hp]; [|destruct (Hunseen p Hp); set_solver].
    rewrite Hkeep by by apply list_elem_of_fmap_2. by apply (ok_removed b Hb).
  - apply (ok_kept b Hb).
  - intros p [Hp|Hp]%elem_of_app Hu; [by apply (ok_uploaded b Hb)|]. destruct (Hunseen p Hp). set_solver.
  - intros key Hk. destruct (ok_store b Hb key Hk) as [?|(p & Hp & ? & ? & ?)]; [by left|right].
    exists p. by split_and!; [apply elem_of_app; left|..].
  - intros data [Hd|Hd]%Hlist; [left|].
    + rewrite Hpl, (ok_playlist b Hb) in Hd. unfold playlist_after in Hd. rewrite <- foldl_app in Hd.
      by apply playlist_of_all in Hd.
    + destruct (ok_disk_playlist b Hb _ Hd); [left; by apply playlist_of_app|by right].
  - intros data Hd. destruct (ok_store_playlist b Hb _ Hd); [left; by apply playlist_of_app|by right].
  - pose proof (ok_upload b Hb) as Hu. destruct (br_upload b); try done.
    destruct Hu; [left; by apply playlist_of_app|by right].
Qed.

(** The sink's bookkeeping steps, which settle nothing and write nothing. *)
Lemma with_pad_ok b pad u sinking : branch_ok b ->
  waiting (with_pad b pad u sinking) = waiting b -> uploading b ⊆ uploading (with_pad b pad u sinking) ->
  match u with
  | FindPlaylist seg => well_named ws seg
  | SendPlaylist data => playlist_of (br_produced b) data \/ disk0 !! playlist_path ws = Some data
  | _ => True
  end -> branch_ok (with_pad b pad u sinking).
Proof.
  intros [] Hw Hu Hok. constructor; rewrite ?Hw; try done. intros key Hk.
  destruct (ok_store0 key Hk) as [?|(p & ? & ? & ? & Hin)]; [by left|right]. exists p. split_and!; try done.
  cbn in *. set_solver.
Qed.

Lemma end_sink_ok b : branch_ok b -> br_upload b = Idle -> branch_ok (end_sink b).
Proof.
  intros Hb Hu. apply with_pad_ok; try done; unfold waiting, uploading; rewrite Hu; [|done].
  cbn. by destruct (br_pad b) as [|[[? ?] ?]].
Qed.

Lemma with_upload_pad b u : with_upload b u = with_pad b (br_pad b) u (br_sinking b).
Proof. done. Qed.

(** Storing the segment being uploaded. *)
Lemma store_segment_ok b seg n data : branch_ok b -> br_upload b = Uploading seg n ->
  br_disk b !! ts_path seg = Some data ->
  let b' := with_store b (br_upload b) (<[segment_key cfg live_id seg := data]> (br_store b)) in
  branch_ok b' /\ forall fr, (seg, fr) ∈ br_produced b' ->
    br_store b' !! segment_key cfg live_id seg = Some (TsData fr).
Proof.
  intros Hb Hu Hd. assert (seg ∈ waiting b) as Hw by (unfold waiting, uploading; rewrite Hu; set_solver).
  destruct (produced_segment b seg Hb ltac:(set_solver)) as [fr Hp].
  pose proof (ok_staged b Hb (seg, fr) Hp ltac:(cbn; set_solver)) as Hs. cbn in Hs.
  assert (data = TsData fr) as -> by congruence.
  assert (forall p, p ∈ br_produced b -> segment_key cfg live_id (fst p) = segment_key cfg live_id seg ->
    p = (seg, fr)) as Hkey.
  { intros p Hin Hk%object_key_inj. by apply (same_filename b). }
  split.
  - destruct Hb as [? ? ? Hnm ? ? ? ? ? Hup Hst ? Hsp ?]. constructor; try done; cbn.
    + intros p Hin Hq. destruct (decide (segment_key cfg live_id (fst p) = segment_key cfg live_id seg)) as [E|E].
      * rewrite (Hkey p Hin E) in *. apply lookup_insert_eq.
      * rewrite lookup_insert_ne by done. by apply Hup.
    + intros key Hk. destruct (decide (key = segment_key cfg live_id seg)) as [->|E].
      * right. exists (seg, fr). rewrite lookup_insert_eq. split_and!; try done.
        unfold uploading. cbn. rewrite Hu. set_solver.
      * rewrite lookup_insert_ne by done. by apply Hst.
    + intros d. rewrite lookup_insert_ne; [apply Hsp|]. intros E%object_key_inj.
      by apply (well_named_not_index ws seg (proj1 (Hnm _ Hp))).
  - cbn. intros fr' Hp'. rewrite lookup_insert_eq. by injection (Hkey _ Hp' eq_refl) as ->.
Qed.

(** Settling it. *)
Lemma settle_ok b seg n ok removed : branch_ok b -> br_upload b = Uploading seg n ->
  (ok = true -> forall fr, (seg, fr) ∈ br_produced b -> br_store b !! segment_key cfg live_id seg = Some (TsData fr)) ->
  branch_ok (settle b seg ok removed).
Proof.
  intros Hb Hu Hstored. pose proof (fates_distinct b Hb) as Hnd.
  assert (waiting b = seg :: waiting (settle b seg ok removed)) as Hw.
  { unfold waiting, uploading. rewrite Hu. cbn. by destruct ok. }
  assert (seg ∈ waiting b) as Hin by (rewrite Hw; set_solver).
  destruct (produced_segment b seg Hb ltac:(set_solver)) as [fr Hp].
  assert (forall s, s ∈ br_uploaded b ++ br_failed b ++ br_dropped b ++ waiting b -> s <> seg ->
    (if removed then delete (ts_path seg) (br_disk b) else br_disk b) !! ts_path s = br_disk b !! ts_path s) as Hne.
  { intros s Hs Hn. destruct removed; [|done]. apply lookup_delete_ne. intros E. apply Hn.
    apply (same_path b); try done. set_solver. }
  assert (seg ∉ br_uploaded b ++ br_failed b /\ forall s, s ∈ br_dropped b ++ waiting (settle b seg ok removed) -> s <> seg) as [Hnew Hother].
  { rewrite Hw in Hnd. apply NoDup_app in Hnd as (_ & Hu1 & Hnd). apply NoDup_app in Hnd as (_ & Hf1 & Hnd).
    apply NoDup_app in Hnd as (_ & Hd1 & Hnd). apply NoDup_cons in Hnd as [Hnd _]. split.
    - intros [Hx|Hx]%elem_of_app; [apply (Hu1 _ Hx)|apply (Hf1 _ Hx)]; set_solver.
    - intros s [Hx|Hx]%elem_of_app ->; [apply (Hd1 _ Hx); set_solver|done]. }
  assert (br_disk b !! ts_path seg = Some (TsData fr)) as Hfile by (apply (ok_staged b Hb (seg, fr) Hp); set_solver).
  assert (forall f, (seg, f) ∈ br_produced b -> f = fr) as Hsame.
  { intros f Hf. by injection (same_filename b (seg, f) (seg, fr) Hb Hf Hp eq_refl) as ->. }
  clear Hin.
  destruct Hb as [Hws Hnx Hft Hnm Hdi Hpl Hst Hrm Hkp Hup Hso Hdp Hsp Huo]. rewrite Hw in *.
  constructor; try done; cbn.
  - rewrite Hft. destruct ok; rewrite <- ?app_assoc; f_equiv; cbn.
    + rewrite !(app_assoc (br_failed b)). symmetry. apply Permutation_middle.
    + f_equiv. symmetry. apply Permutation_middle.
  - intros p Hin Hq. rewrite Hne; [apply Hst; set_solver|set_solver|by apply Hother].
  - intros [s f] Hin Hs. cbn in *. destruct (decide (s = seg)) as [->|Hn].
    + rewrite (Hsame f Hin). destruct removed.
      * rewrite lookup_delete_eq, decide_False; [done|]. by intros Hk%Hkp.
      * rewrite Hfile, decide_True; [done|]. set_solver.
    + assert (s ∈ br_uploaded b ++ br_failed b) as Hold by (destruct ok; set_solver).
      rewrite Hne by set_solver. pose proof (Hrm (s, f) Hin Hold) as Hx. cbn in Hx. rewrite Hx. destruct removed; [done|].
      destruct (decide (s ∈ br_kept b)); [rewrite decide_True by set_solver|rewrite decide_False by set_solver]; done.
  - destruct ok, removed; set_solver.
  - intros p Hin Hq. destruct ok; [|by apply Hup].
    apply elem_of_app in Hq as [Hq|Hq%list_elem_of_singleton]; [by apply Hup|].
    destruct p as [s f]. cbn in *. subst s. by apply Hstored.
  - intros key Hk. destruct (Hso key Hk) as [?|(p & ? & ? & ? & Hin)]; [by left|right]. exists p.
    split_and!; try done. unfold uploading in Hin. rewrite Hu in Hin. destruct ok; set_solver.
  - intros d Hd. apply Hdp. destruct removed; [|done]. rewrite lookup_delete_ne in Hd; [done|].
    apply well_named_not_playlist, (Hnm (seg, fr)). done.
  - destruct ok; [|done]. apply (Hnm (seg, fr)). done.
Qed.

Lemma attempt_ok b seg n stored ok removed : branch_ok b -> br_upload b = Uploading seg n ->
  branch_ok (attempt_upload cfg live_id b seg n stored ok removed).
Proof.
  intros Hb Hu.
  assert (forall b', branch_ok b' -> br_upload b' = Uploading seg n ->
    branch_ok (if (n <? 2)%nat then with_upload b' (Uploading seg (S n)) else settle b' seg false removed)) as Hfail.
  { intros b' Hb' Hu'. destruct (n <? 2)%nat; [|by apply (settle_ok b' seg n)].
    rewrite with_upload_pad. apply with_pad_ok; try done; unfold waiting, uploading; cbn; by rewrite Hu'. }
  unfold attempt_upload. destruct (br_disk b !! ts_path seg) as [data|] eqn:Hd; [|by apply Hfail].
  destruct (store_segment_ok b seg n data Hb Hu Hd) as [Hs Hk].
  destruct ok; [rewrite orb_true_r; by apply (settle_ok _ seg n)|rewrite orb_false_r].
  destruct stored; apply Hfail; try done. by destruct b.
Qed.

Lemma branch_step_ok b ev : branch_ok b -> branch_ok (branch_step cfg live_id b ev).
Proof.
  intros Hb. destruct ev as [env l pkt|env l| |stored ok removed| |stored|]; cbn [branch_step].
  - destruct (br_running b); [|done]. pose proof (process_emits env _ pkt (ok_next b Hb)) as He.
    destruct (hls_process _ _ _) as [[segs|e] h]; [by apply emit_ok|by apply fail_step_ok].
  - destruct (br_running b); [|done]. pose proof (close_emits env _ (ok_next b Hb)) as He.
    destruct (hls_close _ _) as [[seg|e] h]; [by apply emit_ok|by apply fail_step_ok].
  - destruct (br_sinking b) eqn:Es; [|done]. destruct (br_upload b) eqn:Eu; try done.
    destruct (br_pad b) as [|[[cap open] [|seg q]]] eqn:Ep; [done| |].
    + destruct (br_running b); [done|]. by apply end_sink_ok.
    + apply with_pad_ok; try done; unfold waiting, uploading; rewrite Eu, ?Ep; [done|]. cbn. set_solver.
  - destruct (br_upload b) eqn:Eu; try done. by apply attempt_ok.
  - pose proof (ok_upload b Hb) as Ho. destruct (br_upload b) as [| |seg|] eqn:Eu; try done.
    rewrite (well_named_parent ws) by done.
    destruct (br_disk b !! playlist_path ws) as [data|] eqn:Ed; rewrite with_upload_pad;
      apply with_pad_ok; try done; unfold waiting, uploading; rewrite ?Eu; try done.
    by apply (ok_disk_playlist b Hb).
  - pose proof (ok_upload b Hb) as Ho. destruct (br_upload b) as [| | |data] eqn:Eu; try done.
    assert (branch_ok (with_upload b Idle)) as Hi.
    { rewrite with_upload_pad. apply with_pad_ok; try done; unfold waiting, uploading; by rewrite Eu. }
    destruct Hi as [? ? ? ? ? ? ? ? ? Hup Hso ? Hsp ?]. destruct stored; [|by constructor].
    constructor; try done; cbn in *.
    + intros p Hin Hq. rewrite lookup_insert_ne; [by apply Hup|]. intros E%object_key_inj.
      by apply (well_named_not_index ws (fst p)); [apply (ok_named b Hb)|].
    + intros key Hk. rewrite lookup_insert_ne by done. by apply Hso.
    + intros d. rewrite lookup_insert_eq. intros [= <-]. tauto.
  - destruct (br_sinking b), (br_upload b) eqn:Eu; try done. by apply end_sink_ok.
Qed.

Lemma branch_run_ok evs : forall b, branch_ok b -> branch_ok (branch_run cfg live_id b evs).
Proof. induction evs as [|ev evs IH]; intros b Hb; [done|]. by apply IH, branch_step_ok. Qed.

Lemma try_build_hls_ok codecs : branch_ok (try_build_hls cfg codecs ws disk0 store0).
Proof.
  constructor; cbn; try done.
  - by intros p ?%elem_of_nil.
  - constructor.
  - by intros p ?%elem_of_nil.
  - by intros p ?%elem_of_nil.
  - by intros p ?%elem_of_nil.
  - by left.
  - by right.
  - by right; right.
Qed.

(** ** Draining *)

(** One segment uploaded, its file removed or not, then the playlist as it is. *)
Definition upload_one (removed : bool) : list BranchEvent :=
  [EvRecv; EvAttempt true true removed; EvFindPlaylist; EvPlaylistSent true].

Definition upload_all (removals : list bool) : list BranchEvent := concat (map upload_one removals).

Lemma upload_one_spec removed b cap open seg q data : branch_ok b -> br_sinking b = true -> br_upload b = Idle ->
  br_pad b = Channel (cap, open, seg :: q) -> br_disk b !! playlist_path ws = Some data ->
  let b' := branch_run cfg live_id b (upload_one removed) in
  branch_ok b' /\ br_sinking b' = true /\ br_upload b' = Idle /\ br_pad b' = Channel (cap, open, q)
  /\ br_running b' = br_running b /\ br_uploaded b' = br_uploaded b ++ [seg]
  /\ br_disk b' !! playlist_path ws = Some data /\ br_store b' !! playlist_key cfg live_id = Some data
  /\ br_produced b' = br_produced b.
Proof.
  intros Hb Hs Hu Hp Hd. split; [by apply branch_run_ok|].
  destruct (produced_segment b seg Hb) as [fr Hpr].
  { unfold waiting. rewrite Hp. cbn. set_solver. }
  pose proof (ok_staged b Hb (seg, fr) Hpr) as Hst. cbn in Hst.
  specialize (Hst ltac:(unfold waiting; rewrite Hp; cbn; set_solver)).
  destruct (ok_named b Hb _ Hpr) as [Hwn _]. cbn in Hwn.
  pose proof (well_named_not_playlist ws seg Hwn) as Hne.
  destruct b as [h run pad up snk disk store prod upl fld drp kept]. cbn in Hs, Hu, Hp, Hd, Hst, Hpr. subst.
  unfold upload_one, branch_run. cbn [foldl branch_step br_sinking br_upload br_pad].
  unfold attempt_upload. cbn. rewrite Hst. cbn. rewrite (well_named_parent ws) by done.
  assert ((if removed then delete (ts_path seg) disk else disk) !! playlist_path ws = Some data) as Hd'.
  { destruct removed; [by rewrite lookup_delete_ne|done]. }
  rewrite Hd'. cbn. rewrite Hd', lookup_insert_eq. done.
Qed.

Lemma upload_all_spec cap open data q : forall removals b, length removals = length q -> branch_ok b -> br_sinking b = true -> br_upload b = Idle ->
  br_pad b = Channel (cap, open, q) -> br_disk b !! playlist_path ws = Some data ->
  let b' := branch_run cfg live_id b (upload_all removals) in
  branch_ok b' /\ br_sinking b' = true /\ br_upload b' = Idle /\ br_pad b' = Channel (cap, open, [])
  /\ br_running b' = br_running b /\ br_uploaded b' = br_uploaded b ++ q /\ br_produced b' = br_produced b
  /\ (q = [] \/ br_store b' !! playlist_key cfg live_id = Some data).
Proof.
  induction q as [|seg q IH]; intros [|removed removals] b Hl Hb Hs Hu Hp Hd; try done.
  { cbn. rewrite app_nil_r. split_and!; try done. by left. }
  unfold upload_all. cbn [map concat]. unfold branch_run. rewrite foldl_app.
  destruct (upload_one_spec removed b cap open seg q data Hb Hs Hu Hp Hd) as (Hb1 & Hs1 & Hu1 & Hp1 & Hr1 & Hup1 & Hd1 & Hst1 & Hpr1).
  destruct (IH removals _ (Nat.succ_inj _ _ Hl) Hb1 Hs1 Hu1 Hp1 Hd1) as (Hb2 & Hs2 & Hu2 & Hp2 & Hr2 & Hup2 & Hpr2 & Hst2).
  split_and!; try done; [by etransitivity; [exact Hr2|]| |by etransitivity; [exact Hpr2|]|].
  - etransitivity; [exact Hup2|]. rewrite Hup1. by rewrite <- app_assoc.
  - right. destruct Hst2 as [Hq|Hst2]; [|exact Hst2]. subst q. destruct removals; [exact Hst1|done].
Qed.
End Accounts.

(** ** Without failures *)

(** Events whose removal, and whose write of the playlist, does not go wrong. *)
Definition removal_works (ev : BranchEvent) : Prop :=
  match ev with EvAttempt _ _ removed => removed = true | _ => True end.

Definition playlist_whole (ev : BranchEvent) : Prop :=
  match ev with
  | EvPacket env _ _ | EvClose env _ => match he_playlist env with PlaylistCut _ => False | _ => True end
  | _ => True
  end.

Lemma kept_run cfg live_id evs : forall b, br_kept b = [] -> Forall removal_works evs ->
  br_kept (branch_run cfg live_id b evs) = [].
Proof.
  induction evs as [|ev evs IH]; intros b Hb Hev; [done|]. apply Forall_cons in Hev as [Hev Hevs].
  apply IH; [|done]. destruct ev; cbn in *; unfold emit, end_sink, attempt_upload, settle;
    repeat (case_match; simplify_eq; cbn); try done.
Qed.

(** A cut text was there before. *)
Definition cut_from (P : FileData -> Prop) (o : option FileData) : Prop :=
  forall pl fin n, o = Some (CutPlaylist pl fin n) -> P (CutPlaylist pl fin n).

Lemma stage_cut P env h fin path segs : match he_playlist env with PlaylistCut _ => False | _ => True end ->
  forall disk, cut_from P (disk !! path) -> cut_from P (stage env h fin disk segs !! path).
Proof.
  intros Hw. induction segs as [|[seg frames] segs IH]; intros disk Hd; [done|]. apply IH. clear IH.
  intros pl f n. destruct (he_playlist env); [| |done];
    (destruct (decide (path = ts_path seg)) as [->|]; [|rewrite ?(lookup_insert_ne _ (ts_path seg)) by done]);
    rewrite ?lookup_insert; repeat case_decide; rewrite ?lookup_insert_eq, ?lookup_insert_ne by done;
    try (intros [=]); by eauto.
Qed.

Lemma unstaged_cut P h e l path disk : cut_from P (disk !! path) -> cut_from P (unstaged h e l disk !! path).
Proof.
  intros Hd pl f n. unfold unstaged. destruct e; try apply Hd. destruct l as [| |[k|]]; cbn; [apply Hd|..].
  - rewrite lookup_delete. case_decide; [done|apply Hd].
  - rewrite lookup_insert. case_decide; [intros [=]|apply Hd].
  - rewrite lookup_insert. case_decide; [intros [=]|apply Hd].
Qed.

Definition whole (P : FileData -> Prop) live_id cfg ws (b : Branch) : Prop :=
  cut_from P (br_disk b !! playlist_path ws) /\ cut_from P (br_store b !! playlist_key cfg live_id)
  /\ cut_from P (match br_upload b with SendPlaylist data => Some data | _ => None end).

Lemma whole_step cfg live_id ws disk0 store0 P b ev : branch_ok cfg live_id ws disk0 store0 b ->
  whole P live_id cfg ws b -> playlist_whole ev -> whole P live_id cfg ws (branch_step cfg live_id b ev).
Proof.
  intros Hb Hw Hev. pose proof Hw as (Hd & Hs & Hu). destruct ev as [env l pkt|env l| |stored ok removed| |stored|]; cbn [branch_step].
  - destruct (br_running b); [|done]. destruct (hls_process _ _ _) as [[segs|e] h]; unfold emit.
    + destruct (send_all _ _). split_and!; [by apply stage_cut|done..].
    + split_and!; [by apply unstaged_cut|done..].
  - destruct (br_running b); [|done]. destruct (hls_close _ _) as [[seg|e] h]; unfold emit.
    + destruct (send_all _ _). split_and!; [by apply stage_cut|done..].
    + split_and!; [by apply unstaged_cut|done..].
  - destruct (br_sinking b); [|done]. destruct (br_upload b) eqn:Eu; [|exact Hw..].
    destruct (br_pad b) as [|[[? ?] [|? ?]]]; [exact Hw| |done]. by destruct (br_running b).
  - destruct (br_upload b) as [|seg n| |] eqn:Eu; [exact Hw| |exact Hw..].
    destruct (produced_segment _ _ _ _ _ b seg Hb) as [fr Hp].
    { unfold waiting, uploading. rewrite Eu. set_solver. }
    assert (playlist_key cfg live_id <> segment_key cfg live_id seg) as Hk.
    { intros E%object_key_inj. by apply (well_named_not_index ws seg (proj1 (ok_named _ _ _ _ _ b Hb _ Hp))). }
    assert (forall (D : Files), cut_from P (D !! playlist_path ws) -> cut_from P (delete (ts_path seg) D !! playlist_path ws)) as Hdel.
    { intros D HD pl f k. rewrite lookup_delete. case_decide; [done|apply HD]. }
    unfold attempt_upload. destruct (br_disk b !! ts_path seg) as [data|];
      destruct (n <? 2)%nat, ok, stored, removed; unfold whole, settle; cbn;
      rewrite ?(lookup_insert_ne _ (segment_key cfg live_id seg)) by done; split_and!; auto; done.
  - destruct (br_upload b) as [| |seg|] eqn:Eu; [exact Hw..| |exact Hw].
    pose proof (ok_upload _ _ _ _ _ b Hb) as Hn. rewrite Eu in Hn. rewrite (well_named_parent ws seg Hn).
    destruct (br_disk b !! playlist_path ws) as [data|] eqn:Ed; split_and!; try done; cbn; by rewrite Ed.
  - destruct (br_upload b) as [| | |data] eqn:Eu; [exact Hw..|]. split_and!; [done| |done].
    destruct stored; [|done]. cbn. by rewrite lookup_insert_eq.
  - destruct (br_sinking b); [|done]. destruct (br_upload b) eqn:Eu; [done|exact Hw..].
Qed.

Lemma whole_run cfg live_id ws disk0 store0 P evs : forall b, branch_ok cfg live_id ws disk0 store0 b ->
  whole P live_id cfg ws b -> Forall playlist_whole evs -> whole P live_id cfg ws (branch_run cfg live_id b evs).
Proof.
  induction evs as [|ev evs IH]; intros b Hb Hw Hev; [done|]. apply Forall_cons in Hev as [Hev Hevs].
  apply IH; [by apply branch_step_ok|by eapply whole_step|done].
Qed.

(** ** Properties *)

(** C6: Whatever order the segmenter, the sink and the cancellation take, and
    whatever files, encoder and store answer, failed writes that leave a part of a
    file and failed removals included: every segment produced is in exactly one
    place - uploaded, given up after its attempts, refused by the pad, or still
    waiting for the sink; a waiting or refused one has its staged file on the disk
    with exactly its frames (so a refused one is never cleaned up); a settled one
    has none, except that a file whose removal failed stays with its frames, which
    is not tried again; an uploaded one is in the store with exactly its frames,
    and a refused one never is; names are never reused within a session; and the
    playlist in the store is always that of the first segments produced (with
    those that are not in the store), or a first part of such a text that a failed
    write left, or one an earlier session of the id left. When no removal fails no
    settled segment keeps a file, and when every write of the playlist succeeds or
    leaves the file alone its text is never cut. *)
Theorem hls_branch_accounts cfg live_id codecs ws disk store evs :
  let b := branch_run cfg live_id (try_build_hls cfg codecs ws disk store) evs in
  let fates := br_uploaded b ++ br_failed b ++ br_dropped b ++ waiting b in
  map fst (br_produced b) ≡ₚ fates /\ NoDup fates /\ NoDup (map (fun p => ts_filename (fst p)) (br_produced b))
  /\ (forall seg frames, (seg, frames) ∈ br_produced b ->
       let key := segment_key cfg live_id seg in
       (seg ∈ br_dropped b ++ waiting b -> br_disk b !! ts_path seg = Some (TsData frames))
       /\ (seg ∈ br_uploaded b ++ br_failed b ->
            br_disk b !! ts_path seg = if decide (seg ∈ br_kept b) then Some (TsData frames) else None)
       /\ (seg ∈ br_uploaded b -> br_store b !! key = Some (TsData frames))
       /\ (seg ∈ br_dropped b -> br_store b !! key = store !! key)
       /\ (br_store b !! key = Some (TsData frames) \/ br_store b !! key = store !! key))
  /\ (forall data, br_store b !! playlist_key cfg live_id = Some data ->
       (exists k is_final, playlist_text (playlist_after (playlist_new cfg) (take k (br_produced b))) is_final data)
       \/ disk !! playlist_path ws = Some data \/ store !! playlist_key cfg live_id = Some data)
  /\ br_kept b ⊆ br_uploaded b ++ br_failed b
  /\ (Forall removal_works evs -> br_kept b = [])
  /\ (Forall playlist_whole evs -> forall pl is_final n, br_store b !! playlist_key cfg live_id = Some (CutPlaylist pl is_final n) ->
       disk !! playlist_path ws = Some (CutPlaylist pl is_final n)
       \/ store !! playlist_key cfg live_id = Some (CutPlaylist pl is_final n)).
Proof.
  intros b fates.
  assert (branch_ok cfg live_id ws disk store b) as Hb by apply branch_run_ok, try_build_hls_ok.
  pose proof (fates_distinct cfg live_id ws disk store b Hb) as Hnd.
  split_and!; [apply Hb|done| | |apply Hb|apply Hb| |].
  3: { intros Hr. by apply kept_run. }
  3: { intros Hw. eapply (whole_run cfg live_id ws disk store
         (fun d => disk !! playlist_path ws = Some d \/ store !! playlist_key cfg live_id = Some d)); [apply try_build_hls_ok| |exact Hw].
       split_and!; intros pl fin n E; [by left|by right|done]. }
  - apply NoDup_alt. intros i j x Hi Hj.
    apply list_lookup_fmap_Some in Hi as (p & -> & Hi), Hj as (q & E & Hj).
    assert (p = q) as ->.
    { apply (same_filename cfg live_id ws disk store b); try done; by eapply list_elem_of_lookup_2. }
    apply (NoDup_lookup _ _ _ (ts_sequence (fst q)) (ok_distinct _ _ _ _ _ b Hb));
      rewrite list_lookup_fmap; rewrite Hi || rewrite Hj; done.
  - intros seg frames Hp key.
    assert (key <> playlist_key cfg live_id) as Hk.
    { intros E%object_key_inj.
      exact (well_named_not_index ws seg (proj1 (ok_named _ _ _ _ _ b Hb _ Hp)) E). }
    split_and!.
    + exact (ok_staged _ _ _ _ _ b Hb _ Hp).
    + exact (ok_removed _ _ _ _ _ b Hb _ Hp).
    + exact (ok_uploaded _ _ _ _ _ b Hb _ Hp).
    + intros Hd. destruct (ok_store _ _ _ _ _ b Hb key Hk) as [?|(p & Hp' & E%object_key_inj & _ & Hin)]; [done|].
      assert ((seg, frames) = p) as <- by by apply (same_filename cfg live_id ws disk store b).
      cbn in Hin. unfold waiting in Hnd. rewrite !NoDup_app in Hnd. set_solver.
    + destruct (ok_store _ _ _ _ _ b Hb key Hk) as [?|(p & Hp' & E%object_key_inj & Hs & _)]; [by right|left].
      by assert ((seg, frames) = p) as <- by by apply (same_filename cfg live_id ws disk store b).
Qed.

(** C18: A session that ends by its packets ends well, when the calls of [close]
    succeed (the trailer, the new context, the segment's files and the final
    playlist), the pad has room left, the sink is idle and the store accepts,
    whether or not the staged files can be removed: [close] hands over the final
    segment, the sink uploads every waiting segment and then it, in order, stops by
    itself with nothing waiting, and leaves in the store the final playlist of all
    the segments of the session. *)
Theorem hls_branch_finishes cfg live_id codecs ws disk store evs cap q l removals :
  let b := branch_run cfg live_id (try_build_hls cfg codecs ws disk store) evs in
  br_running b = true -> br_sinking b = true -> br_upload b = Idle ->
  br_pad b = Channel (cap, true, q) -> (length q < cap)%nat -> length removals = S (length q) ->
  let b' := branch_run cfg live_id b (EvClose env_ok l :: upload_all removals ++ [EvRecv]) in
  exists seg frames, ts_is_final seg = true /\ br_produced b' = br_produced b ++ [(seg, frames)]
  /\ br_uploaded b' = br_uploaded b ++ q ++ [seg] /\ br_sinking b' = false /\ waiting b' = []
  /\ br_store b' !! segment_key cfg live_id seg = Some (TsData frames)
  /\ br_store b' !! playlist_key cfg live_id
     = Some (PlaylistData (playlist_after (playlist_new cfg) (br_produced b')) true).
Proof.
  intros b Hr Hs Hu Hp Hq Hrl b'.
  assert (branch_ok cfg live_id ws disk store b) as Hb by apply branch_run_ok, try_build_hls_ok.
  destruct (hls_close env_ok (br_segmenter b)) as [[[seg frames]|e] h] eqn:Ec.
  2: { unfold hls_close, rollover in Ec. cbn in Ec. rewrite andb_false_r in Ec. done. }
  assert (ts_is_final seg = true) as Hf.
  { unfold hls_close, rollover in Ec. cbn in Ec. rewrite andb_false_r in Ec. by injection Ec as <-. }
  set (b1 := branch_step cfg live_id b (EvClose env_ok l)).
  assert (b1 = mkBranch h false (Channel (cap, true, q ++ [seg])) Idle true
    (stage env_ok h true (br_disk b) [(seg, frames)]) (br_store b)
    (br_produced b ++ [(seg, frames)]) (br_uploaded b) (br_failed b) (br_dropped b) (br_kept b)) as E1.
  { unfold b1. cbn [branch_step]. rewrite Hr, Ec. unfold emit, send_all. rewrite Hp. cbn.
    unfold pad_send, mpsc_send. cbn. destruct (Nat.leb_spec cap (length q)); [lia|]. cbn.
    by rewrite Hu, Hs, app_nil_r. }
  assert (branch_ok cfg live_id ws disk store b1) as Hb1 by by apply branch_step_ok.
  pose proof (upload_all_spec cfg live_id ws disk store cap true
    (PlaylistData (playlist_after (playlist_new cfg) (br_produced b1)) true) (q ++ [seg]) removals b1) as Hup.
  rewrite length_app, Nat.add_1_r in Hup. specialize (Hup Hrl Hb1).
  destruct Hup as (Hb2 & Hs2 & Hu2 & Hp2 & Hr2 & Hup2 & Hpr2 & Hst2); try by rewrite E1.
  { rewrite <- (ok_playlist _ _ _ _ _ b1 Hb1), <- (ok_workspace _ _ _ _ _ b1 Hb1). rewrite E1.
    cbn. by rewrite lookup_insert_eq. }
  set (b2 := branch_run cfg live_id b1 _) in *.
  assert (b' = end_sink b2) as E2.
  { unfold b'. unfold branch_run. cbn [foldl]. rewrite foldl_app. fold b1.
    change (foldl (branch_step cfg live_id) b1 (upload_all removals)) with b2.
    cbn [foldl branch_step]. rewrite Hs2, Hu2, Hp2, Hr2, E1. done. }
  clearbody b' b2 b1. subst b'. unfold end_sink, waiting, uploading. rewrite Hp2. cbn. rewrite Hpr2, Hup2.
  exists seg, frames. split_and!; try done; try by rewrite E1.
  - apply (ok_uploaded _ _ _ _ _ b2 Hb2 (seg, frames)); [rewrite Hpr2, E1|rewrite Hup2, E1]; cbn; set_solver.
  - destruct Hst2 as [Hnil|Hst2]; [by apply app_eq_nil in Hnil as [_ ?]|exact Hst2].
Qed.

(** A session: a keyframe every two seconds. *)
Definition example_cfg : SegmentConfig := mkSegmentConfig 2 "/c" 5 "hls" 100.
Definition example_ws : SegmentWorkspace := workspace_new "cam" "/c" "r".
Definition example_key (ms : Z) : BranchEvent :=
  EvPacket env_ok LeftAlone (mkPacket H264 0 (AnnexB [0; 0; 0; 1; 0x65]) (Some ms) (Some ms) true false false None).
Definition example_run (evs : list BranchEvent) : Branch :=
  branch_run example_cfg "cam" (try_build_hls example_cfg [H264] example_ws ∅ ∅) evs.

Lemma hls_branch_finishes_witness :
  let b := example_run (map example_key [0; 2000; 4000]) in
  exists b', b' = branch_run example_cfg "cam" b (EvClose env_ok LeftAlone :: upload_all [true; false; true] ++ [EvRecv])
  /\ map ts_filename (br_uploaded b') = ["segment_0000.ts"; "segment_0001.ts"; "segment_0002.ts"].
Proof.
  cbv zeta.
  destruct (hls_branch_finishes example_cfg "cam" [H264] example_ws ∅ ∅ (map example_key [0; 2000; 4000]) 256
    (snd (match br_pad (example_run (map example_key [0; 2000; 4000])) with Channel c => c | _ => (0%nat, true, []) end))
    LeftAlone [true; false; true])
    as (seg & frames & _); [vm_compute; reflexivity..|apply Nat.ltb_lt; vm_compute; reflexivity|vm_compute; reflexivity|].
  eexists. split; [reflexivity|]. vm_compute. reflexivity.
Defined.

(** A segment given up stays in the playlist: the next one is uploaded with a
    playlist that lists both, and the store has the second only. *)
Example given_up_segment_listed :
  let b := example_run (map example_key [0; 2000; 4000]
    ++ [EvRecv; EvAttempt false false true; EvAttempt false false true; EvAttempt false false true] ++ upload_one true) in
  option_map (fun d => match d with PlaylistData pl _ => map pe_filename (pl_entries pl) | _ => [] end)
    (br_store b !! playlist_key example_cfg "cam") = Some ["segment_0000.ts"; "segment_0001.ts"]
  /\ br_store b !! object_key example_cfg "cam" "segment_0000.ts" = None
  /\ is_some (br_store b !! object_key example_cfg "cam" "segment_0001.ts") = true.
Proof. vm_compute. done. Qed.

(** Cancelled together, the sink may stop before [close] hands over the final
    segment: it is refused, its staged file stays, and the store keeps a
    playlist without an end. *)
Example cancelled_session_keeps_its_last_file :
  let b := example_run (map example_key [0; 2000] ++ upload_one true ++ [EvSinkCancelled; EvClose env_ok LeftAlone]) in
  map ts_filename (br_dropped b) = ["segment_0001.ts"]
  /\ is_some (br_disk b !! path_join (ws_upload_dir example_ws) "segment_0001.ts") = true
  /\ option_map (fun d => match d with PlaylistData _ fin => fin | _ => true end)
       (br_store b !! playlist_key example_cfg "cam") = Some false.
Proof. vm_compute. done. Qed.
