(* ===== verification/SegmentFs.v ===== *)
(** * The files of a stream
    [livestream-pipeline/src/processor/hls_segment.rs] (SegmentWorkspace),
    [src/infra/persistence.rs]: the directories of a workspace, how the bytes of a
    segment become a file and are staged for upload, and the client that uploads
    it. [HlsPath] takes these as one step; here every call of the file system is
    its outcome. *)
From Stdlib Require Import Ascii String.
From stdpp Require Import strings pretty gmap list.
From S2P Require Import Prelude Types Tokio Sanitize Config Hls Sinks HlsPath.

Inductive fs_error := CreateDir | CreateTempDir | WriteFailed | InvalidFilename | RemoveFailed | CopyFailed.

(** ** The directories *)

(** [Path::file_name]: the last component, when it is a name. *)
Definition file_name (path : string) : option string :=
  match last (filter (fun c => c <> [] /\ c <> ["."%char]) (split_char "/" (list_ascii_of_string path))) with
  | Some c => if decide (c = ["."; "."]%char) then None else Some (string_of_list_ascii c)
  | None => None
  end.

(** [SegmentWorkspace::new]: the cache directory, or the system's temporary one;
    [random]: the suffix of the temporary directory, when it could be made. *)
Definition cache_root (cfg : SegmentConfig) (temp_dir : string) : string :=
  if bool_decide (trim (bytes_of (sc_cache_dir cfg)) = []) then temp_dir else sc_cache_dir cfg.

Definition SegmentWorkspace_new (stream_id : string) (cfg : SegmentConfig) (temp_dir : string) (root_made : bool)
    (random : option string) (upload_made : bool) : result fs_error SegmentWorkspace :=
  if negb root_made then Err CreateDir
  else match random with
       | None => Err CreateTempDir
       | Some random =>
           if negb upload_made then Err CreateDir else Ok (workspace_new stream_id (cache_root cfg temp_dir) random)
       end.

Section Files.
(** What a file holds. *)
Context {D : Type}.

(** A write of a file: done, or failed, with what it may have left there. *)
Inductive write_outcome := Written | WriteError (partial : option D).

Definition left_behind (path : string) (partial : option D) (disk : gmap string D) : gmap string D :=
  match partial with Some d => <[path := d]> disk | None => disk end.

Definition write_ts_file (ws : SegmentWorkspace) (disk : gmap string D) (outcome : write_outcome) (data : D) (sequence : Z) :
    result fs_error string * gmap string D :=
  let path := path_join (ws_segment_dir ws) (segment_filename sequence) in
  match outcome with
  | Written => (Ok path, <[path := data]> disk)
  | WriteError partial => (Err WriteFailed, left_behind path partial disk)
  end.

(** The outcomes of the calls of [stage_segment]: a look, a removal, the rename, and
    what is tried when it fails. *)
Record StageEnv := mkStageEnv {
  sg_exists : bool;
  sg_remove : bool;
  sg_rename : bool;
  sg_copy : write_outcome;
  sg_remove_source : bool;
}.

Definition stage_segment (env : StageEnv) (ws : SegmentWorkspace) (disk : gmap string D) (segment_path : string) :
    result fs_error string * gmap string D :=
  match file_name segment_path with
  | None => (Err InvalidFilename, disk)
  | Some filename =>
      let staged_path := path_join (ws_upload_dir ws) filename in
      let present := sg_exists env && bool_decide (is_Some (disk !! staged_path)) in
      if present && negb (sg_remove env) then (Err RemoveFailed, disk)
      else
        let disk := if present then delete staged_path disk else disk in
        match disk !! segment_path with
        | None => (Err CopyFailed, disk)
        | Some d =>
            if sg_rename env then (Ok staged_path, <[staged_path := d]> (delete segment_path disk))
            else match sg_copy env with
                 | WriteError partial => (Err CopyFailed, left_behind staged_path partial disk)
                 | Written =>
                     let disk := <[staged_path := d]> disk in
                     if sg_remove_source env then (Ok staged_path, delete segment_path disk) else (Err RemoveFailed, disk)
                 end
        end
  end.

(** What [rollover] does with the bytes of a segment. *)
Definition store_segment (ws : SegmentWorkspace) (disk : gmap string D) (outcome : write_outcome) (env : StageEnv)
    (data : D) (sequence : Z) : result fs_error string * gmap string D :=
  match write_ts_file ws disk outcome data sequence with
  | (Err e, disk) => (Err e, disk)
  | (Ok ts_path, disk) => stage_segment env ws disk ts_path
  end.

(** Dropping the workspace removes its temporary directory. *)
Definition workspace_drop (ws : SegmentWorkspace) (disk : gmap string D) : gmap string D :=
  filter (fun '(path, _) => String.prefix (ws_segment_dir ws +:+ "/") path = false) disk.
End Files.
#[global] Arguments write_outcome D : clear implicits.
#[global] Arguments StageEnv D : clear implicits.

(** ** Paths *)

Lemma file_name_join dir name : no_slash name -> name <> "" -> name <> "." -> name <> ".." ->
  file_name (path_join dir name) = Some name.
Proof.
  intros Hn H0 H1 H2. unfold file_name, path_join. rewrite !list_ascii_app.
  change (list_ascii_of_string "/") with ["/"%char]. cbn [app]. rewrite split_char_join, (split_char_segment _ _ Hn).
  assert (forall s, list_ascii_of_string name = list_ascii_of_string s -> name = s) as Hinj.
  { intros s E. apply (f_equal string_of_list_ascii) in E. by rewrite !string_of_list_ascii_of_string in E. }
  rewrite filter_app, filter_cons_True by (split; [intros E; apply H0, Hinj, E|intros E; apply H1, Hinj, E]).
  rewrite filter_nil, last_snoc. rewrite decide_False by (intros E; apply H2, Hinj, E).
  by rewrite string_of_list_ascii_of_string.
Qed.

Lemma segment_file_name dir i : file_name (path_join dir (segment_filename i)) = Some (segment_filename i).
Proof. apply file_name_join; [apply no_slash_filename|done..]. Qed.

(** The segments of a workspace are under the directory it drops, the staged ones
    and the playlist are not. *)
Lemma dropped_segment ws i : String.prefix (ws_segment_dir ws +:+ "/") (path_join (ws_segment_dir ws) (segment_filename i)) = true.
Proof. unfold path_join. rewrite string_app_assoc. apply prefix_append. Qed.

Lemma kept_staged id root random name : let ws := workspace_new id root random in
  String.prefix (ws_segment_dir ws +:+ "/") (path_join (ws_upload_dir ws) name) = false.
Proof. cbn. unfold path_join. rewrite <- !string_app_assoc. rewrite !prefix_common. reflexivity. Qed.

Lemma staged_under_artifacts a b root ra rb i name :
  path_join (ws_upload_dir (workspace_new a root ra)) name
  <> path_join (ws_segment_dir (workspace_new b root rb)) (segment_filename i).
Proof.
  intros E. assert (String.prefix (root +:+ "/" +:+ "livestream-rs-s") (path_join (ws_upload_dir (workspace_new a root ra)) name) = true) as Hp.
  { rewrite E. cbn. unfold path_join. rewrite <- !string_app_assoc, !prefix_common. reflexivity. }
  cbn in Hp. unfold path_join in Hp. rewrite <- !string_app_assoc, !prefix_common in Hp. discriminate Hp.
Qed.

Lemma staged_not_segment id root random i name : let ws := workspace_new id root random in
  path_join (ws_upload_dir ws) name <> path_join (ws_segment_dir ws) (segment_filename i).
Proof.
  apply staged_under_artifacts.
Qed.

(** ** A segment on its way *)

Section Staging.
Context {D : Type}.
Implicit Types (disk : gmap string D).

(** Whether the staged copy of an earlier segment of this name is out of the way. *)
Definition way_free (env : StageEnv D) disk (staged : string) : bool :=
  negb (sg_exists env && bool_decide (is_Some (disk !! staged))) || sg_remove env.

Definition moved (env : StageEnv D) : bool :=
  sg_rename env || (match sg_copy env with Written => true | WriteError _ => false end && sg_remove_source env).

Lemma stage_segment_outcome env ws disk i d : let src := path_join (ws_segment_dir ws) (segment_filename i) in
  let dst := path_join (ws_upload_dir ws) (segment_filename i) in
  dst <> src -> disk !! src = Some d ->
  let '(r, disk') := stage_segment env ws disk src in
  (forall p, p <> src -> p <> dst -> disk' !! p = disk !! p)
  /\ (is_ok r = way_free env disk dst && moved env)
  /\ match r with
     | Ok path => path = dst /\ disk' !! dst = Some d /\ disk' !! src = None
     | Err e => e <> WriteFailed /\ disk' !! src = Some d
     end.
Proof.
  intros src dst Hne Hd. unfold stage_segment, src. rewrite segment_file_name. fold src dst.
  unfold way_free, moved, left_behind. set (present := sg_exists env && _). destruct present; cbn [negb orb andb].
  - destruct (sg_remove env); cbn; [|split_and!; done]. rewrite lookup_delete_ne, Hd by done.
    repeat case_match; cbn; split_and!; try done; try (intros p ??; by simplify_map_eq); by simplify_map_eq.
  - rewrite Hd. repeat case_match; cbn; split_and!; try done; try (intros p ??; by simplify_map_eq); by simplify_map_eq.
Qed.
End Staging.

Lemma workspace_drop_lookup {D} (ws : SegmentWorkspace) (disk : gmap string D) p :
  workspace_drop ws disk !! p = if String.prefix (ws_segment_dir ws +:+ "/") p then None else disk !! p.
Proof.
  unfold workspace_drop. destruct (String.prefix _ p) eqn:E.
  - apply map_lookup_filter_None. right. intros x _. by rewrite E.
  - destruct (disk !! p) as [x|] eqn:Ex; [by apply map_lookup_filter_Some|]. apply map_lookup_filter_None. by left.
Qed.

Lemma store_segment_outcome {D} id root random (disk : gmap string D) outcome env data i :
  let ws := workspace_new id root random in
  let src := path_join (ws_segment_dir ws) (segment_filename i) in
  let dst := path_join (ws_upload_dir ws) (segment_filename i) in
  let '(r, disk') := store_segment ws disk outcome env data i in
  (forall p, p <> src -> p <> dst -> disk' !! p = disk !! p)
  /\ is_ok r = match outcome with Written => way_free env disk dst && moved env | WriteError _ => false end
  /\ match r with
     | Ok path => path = dst /\ disk' !! dst = Some data /\ disk' !! src = None
     | Err WriteFailed => outcome <> Written /\ disk' !! dst = disk !! dst
     | Err _ => disk' !! src = Some data
     end.
Proof.
  intros ws src dst. assert (dst <> src) as Hne by apply staged_not_segment.
  unfold store_segment, write_ts_file. fold src. destruct outcome as [|partial].
  - pose proof (stage_segment_outcome env ws (<[src := data]> disk) i data Hne) as Hs. fold src dst in Hs.
    specialize (Hs ltac:(by rewrite lookup_insert_eq)). destruct (stage_segment env ws _ src) as [r disk'].
    destruct Hs as (Hp & Hok & Hr). split_and!.
    + intros p H1 H2. rewrite Hp by done. by rewrite lookup_insert_ne.
    + rewrite Hok. unfold way_free. by rewrite lookup_insert_ne.
    + destruct r as [path|e]; [done|]. destruct Hr as [Hw Hs]. by destruct e.
  - unfold left_behind. split_and!; try done; destruct partial; try done; [intros p ??|]; by rewrite lookup_insert_ne.
Qed.

Lemma store_segment_done {D} id root random (disk : gmap string D) outcome env data i :
  let ws := workspace_new id root random in
  match store_segment ws disk outcome env data i with
  | (Ok path, disk') => path = path_join (ws_upload_dir ws) (segment_filename i) /\ disk' !! path = Some data
      /\ forall p, p <> path_join (ws_segment_dir ws) (segment_filename i) -> p <> path -> disk' !! p = disk !! p
  | _ => True
  end.
Proof.
  intros ws. pose proof (store_segment_outcome id root random disk outcome env data i) as Ho. fold ws in Ho. cbv zeta in Ho.
  destruct (store_segment ws disk outcome env data i) as [[path|e] disk']; [|done].
  destruct Ho as (Hp & _ & -> & Hd & _). done.
Qed.

(** C20: A segment reaches its staged file or is reported as failed. Whatever the
    outcomes of the calls: no other file changes; it succeeds exactly when the
    segment was written, an earlier staged file of its name could be removed, and it
    could be renamed, or copied and removed; then the staged file, whose path is
    returned, holds exactly its bytes, is the only copy, and outlives the workspace.
    After a failure the bytes, once written, are still in the temporary directory,
    until the workspace is dropped. *)
Theorem segment_reaches_staging {D} id root random (disk : gmap string D) outcome env data i :
  let ws := workspace_new id root random in
  let src := path_join (ws_segment_dir ws) (segment_filename i) in
  let dst := path_join (ws_upload_dir ws) (segment_filename i) in
  let '(r, disk') := store_segment ws disk outcome env data i in
  (forall p, p <> src -> p <> dst -> disk' !! p = disk !! p)
  /\ is_ok r = match outcome with Written => way_free env disk dst && moved env | WriteError _ => false end
  /\ match r with
     | Ok path => path = dst /\ disk' !! dst = Some data /\ disk' !! src = None /\ workspace_drop ws disk' !! dst = Some data
     | Err WriteFailed => outcome <> Written /\ disk' !! dst = disk !! dst
     | Err _ => disk' !! src = Some data /\ workspace_drop ws disk' !! src = None
     end.
Proof.
  intros ws src dst. pose proof (store_segment_outcome id root random disk outcome env data i) as Ho.
  cbv zeta in Ho. fold ws in Ho. fold src dst in Ho. destruct (store_segment ws disk outcome env data i) as [r disk'].
  destruct Ho as (Hp & Hok & Hr). assert (workspace_drop ws disk' !! dst = disk' !! dst /\ workspace_drop ws disk' !! src = None) as [Hd1 Hd2].
  { rewrite !workspace_drop_lookup. unfold src, dst, ws. by rewrite dropped_segment, kept_staged. }
  split_and!; [done|done|]. destruct r as [path|e]; [destruct Hr as (? & ? & ?); by rewrite Hd1|]. by destruct e.
Qed.

(** What [HlsPath] takes for it. *)
Lemma store_segment_stages id root random (disk : gmap string FileData) outcome env frames i path disk' h he fin seg :
  let ws := workspace_new id root random in
  store_segment ws disk outcome env (TsData frames) i = (Ok path, disk') -> ts_path seg = path -> he_playlist he = PlaylistUntouched ->
  let src := path_join (ws_segment_dir ws) (segment_filename i) in
  delete src disk' = delete src (stage he h fin disk [(seg, frames)]).
Proof.
  intros ws Hs Hp Hpl src. pose proof (store_segment_outcome id root random disk outcome env (TsData frames) i) as Ho.
  cbv zeta in Ho. fold ws in Ho. fold src in Ho. rewrite Hs in Ho. destruct Ho as (Hother & _ & -> & Hdst & Hsrc).
  unfold stage. cbn [foldl]. rewrite Hpl, Hp. apply map_eq. intros p. destruct (decide (p = src)) as [->|H1];
    [by rewrite !lookup_delete_eq|]. rewrite !lookup_delete_ne by done.
  destruct (decide (p = path_join (ws_upload_dir ws) (segment_filename i))) as [->|H2]; [by rewrite Hdst, lookup_insert_eq|].
  rewrite Hother by done. by rewrite !lookup_insert_ne.
Qed.

(** What it takes for a failure: a step that hands nothing over. *)
Lemma store_segment_unstaged id root random (disk : gmap string FileData) outcome env frames i e disk' p :
  let ws := workspace_new id root random in
  store_segment ws disk outcome env (TsData frames) i = (Err e, disk') ->
  (forall d, sg_copy env = WriteError (Some d) -> d = TsData frames \/ exists n, d = CutTs frames n) ->
  p <> path_join (ws_segment_dir ws) (segment_filename i) ->
  exists l, disk' !! p = left_at (path_join (ws_upload_dir ws) (segment_filename i)) frames l disk !! p.
Proof.
  intros ws Hs Hcopy Hp. set (dst := path_join (ws_upload_dir ws) _).
  unfold store_segment, write_ts_file in Hs. destruct outcome as [|partial].
  2: { injection Hs as <- <-. exists LeftAlone. destruct partial; [|done]. by apply lookup_insert_ne. }
  unfold stage_segment in Hs. rewrite segment_file_name in Hs. fold dst in Hs.
  set (src := path_join (ws_segment_dir ws) _) in *.
  assert (dst <> src) as Hne by apply staged_not_segment.
  assert (forall D : Files, <[src := TsData frames]> D !! p = D !! p) as Hsrc by (intros D; by apply lookup_insert_ne).
  assert (forall l : leftover, left_at dst frames l (<[src := TsData frames]> disk) !! p = left_at dst frames l disk !! p) as Hl.
  { intros [| |[n|]]; cbn; [done|rewrite !lookup_delete; case_decide; [done|apply Hsrc]|
      rewrite !lookup_insert; case_decide; [done|by case_decide].. ]. }
  destruct (sg_exists env && _) eqn:Epres; cbn [andb] in Hs;
    [destruct (sg_remove env); cbn [negb] in Hs; [|injection Hs as <- <-; by exists LeftAlone; rewrite <- Hl]|].
  - rewrite lookup_delete_ne, lookup_insert_eq in Hs by done.
    destruct (sg_rename env); [done|]. destruct (sg_copy env) as [|partial] eqn:Ec.
    + destruct (sg_remove_source env); [done|]. injection Hs as <- <-. exists (LeftCopy None). rewrite <- Hl. cbn.
      rewrite !lookup_insert. by repeat case_decide; rewrite ?lookup_delete_ne.
    + injection Hs as <- <-. destruct partial as [d|]; [|by exists LeftRemoved; rewrite <- Hl].
      destruct (Hcopy d eq_refl) as [->|[n ->]]; [exists (LeftCopy None)|exists (LeftCopy (Some n))]; rewrite <- Hl; cbn;
        rewrite !lookup_insert; by repeat case_decide; rewrite ?lookup_delete_ne.
  - rewrite lookup_insert_eq in Hs.
    destruct (sg_rename env); [done|]. destruct (sg_copy env) as [|partial] eqn:Ec.
    + destruct (sg_remove_source env); [done|]. injection Hs as <- <-. exists (LeftCopy None). by rewrite <- Hl.
    + injection Hs as <- <-. destruct partial as [d|]; [|by exists LeftAlone; rewrite <- Hl].
      destruct (Hcopy d eq_refl) as [->|[n ->]]; [exists (LeftCopy None)|exists (LeftCopy (Some n))]; by rewrite <- Hl.
Qed.

(** ** Two streams *)

(** The sanitized id is one component of a path. *)
Lemma sanitized_no_slash id : no_slash (sanitize_stream_id id).
Proof.
  destruct (sanitize_is_safe id) as (_ & Hs & _). unfold no_slash. eapply Forall_impl; [exact Hs|]. by intros c (_ & ? & _).
Qed.

Lemma no_slash_segments a b x y : no_slash a -> no_slash b -> a +:+ "/" +:+ x = b +:+ "/" +:+ y -> a = b /\ x = y.
Proof.
  intros Ha Hb E. apply (f_equal list_ascii_of_string) in E. rewrite !list_ascii_app in E.
  change (list_ascii_of_string "/") with ["/"%char] in E. cbn [app] in E.
  assert (list_ascii_of_string a = list_ascii_of_string b /\ list_ascii_of_string x = list_ascii_of_string y) as [E1 E2].
  { revert E. generalize (list_ascii_of_string x) (list_ascii_of_string y). unfold no_slash in Ha, Hb.
    revert Ha Hb. generalize (list_ascii_of_string a) (list_ascii_of_string b). clear.
    induction l as [|c l IH]; intros [|c' l'] Ha Hb u v E; cbn in E.
    - by injection E as ->.
    - injection E as <- _. by apply Forall_cons in Hb as [? _].
    - injection E as -> _. by apply Forall_cons in Ha as [? _].
    - injection E as -> E. apply Forall_cons in Ha as [_ Ha], Hb as [_ Hb]. by destruct (IH l' Ha Hb u v E) as [-> ->]. }
  apply (f_equal string_of_list_ascii) in E1, E2. by rewrite !string_of_list_ascii_of_string in E1, E2.
Qed.

(** C19: Which streams share their files. Two streams of the service stage segments
    at the same path, write the same playlist, and upload under the same key,
    exactly when their ids are equal after sanitizing, which ids that are accepted
    as different streams can be. Then the segment that is staged second replaces the
    one of the other stream that waits for its upload. *)
Theorem streams_share_files {D} a b root ra rb cfg i j (disk d1 d2 : gmap string D) o1 o2 e1 e2 data1 data2 p1 p2 :
  let wa := workspace_new a root ra in let wb := workspace_new b root rb in
  let same := sanitize_stream_id a = sanitize_stream_id b in
  0 <= i -> 0 <= j ->
  (path_join (ws_upload_dir wa) (segment_filename i) = path_join (ws_upload_dir wb) (segment_filename j) <-> same /\ i = j)
  /\ (object_key cfg a (segment_filename i) = object_key cfg b (segment_filename j) <-> same /\ i = j)
  /\ (playlist_path wa = playlist_path wb <-> same)
  /\ (store_segment wa disk o1 e1 data1 i = (Ok p1, d1) -> store_segment wb d1 o2 e2 data2 j = (Ok p2, d2) ->
      d1 !! p1 = Some data1
      /\ (same -> i = j -> d2 !! p1 = Some data2) /\ (~ (same /\ i = j) -> d2 !! p1 = Some data1)).
Proof.
  intros wa wb same Hi Hj.
  assert (forall x y, path_join (ws_upload_dir wa) x = path_join (ws_upload_dir wb) y <-> same /\ x = y) as Hpath.
  { intros x y. unfold wa, wb, workspace_new, path_join. cbn [ws_upload_dir]. rewrite <- !string_app_assoc. split.
    - intros E. do 4 apply (inj (String.append _)) in E. by destruct (no_slash_segments _ _ _ _ (sanitized_no_slash a) (sanitized_no_slash b) E).
    - intros [E ->]. unfold same in E. by rewrite E. }
  assert (segment_filename i = segment_filename j <-> i = j) as Hname.
  { split; [by apply segment_filename_inj|by intros ->]. }
  split_and!.
  - by rewrite Hpath, Hname.
  - rewrite <- Hname. unfold object_key. split.
    + intros E. do 2 apply (inj (String.append _)) in E. by destruct (no_slash_segments _ _ _ _ (sanitized_no_slash a) (sanitized_no_slash b) E).
    + intros [E ->]. unfold same in E. by rewrite E.
  - unfold playlist_path. rewrite Hpath. by split; [intros [? _]|].
  - intros H1 H2.
    pose proof (store_segment_done a root ra disk o1 e1 data1 i) as S1. cbv zeta in S1. fold wa in S1. rewrite H1 in S1.
    pose proof (store_segment_done b root rb d1 o2 e2 data2 j) as S2. cbv zeta in S2. fold wb in S2. rewrite H2 in S2.
    destruct S1 as (-> & Hd1 & _), S2 as (-> & Hd2 & Hother). split_and!; [done| |].
    + intros Hs Hij. by rewrite (proj2 (Hpath _ _) (conj Hs (proj2 Hname Hij))).
    + intros Hn. rewrite Hother; [done|apply (staged_under_artifacts a b)|]. rewrite Hpath, Hname. exact Hn.
Qed.

(** Two cameras. *)
Lemma streams_share_files_witness :
  let a := workspace_new "cam.1" "/c" "x" in let b := workspace_new "cam_1" "/c" "y" in
  let env := mkStageEnv (D := string) true true true Written true in
  let '(r1, d1) := store_segment a ∅ Written env "first" 0 in
  let '(r2, d2) := store_segment b d1 Written env "second" 0 in
  object_key SegmentConfig_default "cam.1" (segment_filename 0) = object_key SegmentConfig_default "cam_1" (segment_filename 0)
  /\ r1 = r2 /\ d2 !! "/c/livestream-rs-artifacts/cam_1/segment_0000.ts" = Some "second".
Proof.
  intros a b env.
  destruct (store_segment a ∅ Written env "first" 0) as [r1 d1] eqn:E1.
  destruct (store_segment b d1 Written env "second" 0) as [r2 d2] eqn:E2.
  assert (r1 = Ok "/c/livestream-rs-artifacts/cam_1/segment_0000.ts") as -> by (vm_compute in E1; by injection E1 as <- _).
  assert (r2 = Ok "/c/livestream-rs-artifacts/cam_1/segment_0000.ts") as ->.
  { vm_compute in E1. injection E1 as <-. vm_compute in E2. by injection E2 as <- _. }
  destruct (streams_share_files "cam.1" "cam_1" "/c" "x" "y" SegmentConfig_default 0 0 ∅ d1 d2 Written Written env env
    "first" "second" "/c/livestream-rs-artifacts/cam_1/segment_0000.ts" "/c/livestream-rs-artifacts/cam_1/segment_0000.ts"
    ltac:(lia) ltac:(lia)) as (_ & Hkey & _ & Hboth).
  destruct (Hboth E1 E2) as (_ & Hsame & _).
  split; [apply Hkey; by split|]. split; [reflexivity|]. by apply Hsame.
Defined.

(** ** The store client *)

Section Persistence.
Context {D : Type}.

Record PersistenceClient := mkPersistence { pc_bucket : string; pc_endpoint : string }.

Inductive persistence_error := InvalidUri | ClientFailed | BucketFailed | UploadFailed (filename : string).

(** [create]; [base_url]: whether the address parses; the attempts are those of the
    bucket check. *)
Definition PersistenceClient_create (base_url : string -> bool) (client_built : bool) (attempts : nat -> attempt)
    (config : MinioConfig) : result persistence_error PersistenceClient :=
  if negb (base_url (mc_uri config)) then Err InvalidUri
  else if negb client_built then Err ClientFailed
  else if negb (fst (ensure_bucket attempts)) then Err BucketFailed
  else Ok (mkPersistence (mc_bucket config) (mc_uri config)).

(** [upload_file]: the object under its bucket and key. An upload without a file
    fails, and one that reports a failure may have [stored] the object. *)
Definition upload_file (c : PersistenceClient) (disk : gmap string D) (store : gmap (string * string) D)
    (stored ok : bool) (filename path : string) : result persistence_error unit * gmap (string * string) D :=
  match disk !! path with
  | None => (Err (UploadFailed filename), store)
  | Some data =>
      (if ok then Ok tt else Err (UploadFailed filename),
       if stored || ok then <[(pc_bucket c, filename) := data]> store else store)
  end.
End Persistence.

(** The objects of a bucket. *)
Definition bucket_of {D} (c : PersistenceClient) (store : gmap (string * string) D) (key : string) : option D :=
  store !! (pc_bucket c, key).

(** An upload attempt of [HlsPath] is one call of the client. *)
Lemma attempt_upload_client (cfg : SegmentConfig) (live_id : string) (b : Branch) (seg : TsSegment) (n : nat) (stored ok removed : bool) (c : PersistenceClient) (store : gmap (string * string) FileData) :
  (forall key, bucket_of c store key = br_store b !! key) ->
  let '(r, store') := upload_file c (br_disk b) store stored ok (segment_key cfg live_id seg) (ts_path seg) in
  let b' := attempt_upload cfg live_id b seg n stored ok removed in
  (forall key, bucket_of c store' key = br_store b' !! key)
  /\ (is_ok r = true <-> br_uploaded b' = br_uploaded b ++ [seg]).
Proof.
  intros Hs. unfold upload_file, attempt_upload.
  assert (forall A (l : list A) x, l <> l ++ [x]) as Hne.
  { intros A l x E. apply (f_equal length) in E. rewrite length_app in E. cbn in E. lia. }
  destruct (br_disk b !! ts_path seg) as [data|].
  - destruct ok; cbn [is_ok].
    + rewrite orb_true_r. cbn. split; [|done]. intros key. unfold bucket_of in *.
      destruct (decide (key = segment_key cfg live_id seg)) as [->|Hk]; [by rewrite !lookup_insert_eq|].
      rewrite !lookup_insert_ne by (congruence || done). apply Hs.
    + rewrite orb_false_r. split.
      * intros key. unfold bucket_of in *. destruct (n <? 2)%nat; cbn; destruct stored; try apply Hs.
        all: destruct (decide (key = segment_key cfg live_id seg)) as [->|Hk]; [by rewrite !lookup_insert_eq|].
        all: rewrite !lookup_insert_ne by (congruence || done); apply Hs.
      * split; [done|]. intros E. exfalso. revert E. destruct (n <? 2)%nat; cbn; apply Hne.
  - cbn. split; [|split; [done|]].
    + intros key. destruct (n <? 2)%nat; apply Hs.
    + intros E. exfalso. revert E. destruct (n <? 2)%nat; cbn; apply Hne.
Qed.
