(* ===== verification/Factory.v ===== *)
(** * Pipeline construction
    [livestream-pipeline/src/factory.rs]: the parameters a stream's pipeline starts
    with, and the deferred start of the HLS branch from in-band sequence headers:
    what becomes of the packets its pad is given. The tasks and the pads between
    them are in [Chain] and [RtspChain]. *)
From stdpp Require Import list.
From S2P Require Import Prelude Types Flv Nal FlvMux Config Hls.

(** ** Sequence headers *)

Definition codec_params_from_sequence_header (pkt : EncodedPacket) : option (MediaType * CodecParams) :=
  let extradata :=
    match pk_extradata pkt, as_bytes (pk_data pkt) with
    | Some ((_ :: _) as ext), _ => Some ext
    | _, ((_ :: _) as data) => Some data
    | _, _ => None
    end in
  match extradata with
  | None => None
  | Some extradata =>
      let media_type := media_type_of_codec (pk_codec pkt) in
      Some (media_type,
            mkCodecParams (pk_codec pkt) media_type 90000 (Some (hls_extradata (pk_codec pkt) extradata)))
  end.

(** [Option::get_or_insert]. *)
Definition get_or_insert {A} (o : option A) (a : A) : option A :=
  match o with Some x => Some x | None => Some a end.

Definition record_sequence_header (pkt : EncodedPacket) (video_params audio_params : option CodecParams) :
    bool * option CodecParams * option CodecParams :=
  match codec_params_from_sequence_header pkt with
  | None => (false, video_params, audio_params)
  | Some (media_type, params) =>
      let '(v, a) :=
        match media_type with
        | Video => (get_or_insert video_params params, audio_params)
        | Audio => (video_params, get_or_insert audio_params params)
        end in
      (is_some v && is_some a, v, a)
  end.

(** ** Deferred start *)

Definition collected (video_params audio_params : option CodecParams) : list CodecParams :=
  option_list video_params ++ option_list audio_params.

(** The loop over the packets of the HLS pad: the parameters the branch is built
    with, and the packets then left in the pad for it; [None] when the pad closes
    (or the token is cancelled) before. *)
Fixpoint deferred_hls_init (pkts : list EncodedPacket) (video_params audio_params : option CodecParams) :
    option (list CodecParams * list EncodedPacket) :=
  match pkts with
  | [] => None
  | pkt :: hls_rx =>
      if pk_is_sequence_header pkt then
        let '(complete, v, a) := record_sequence_header pkt video_params audio_params in
        if complete then Some (collected v a, hls_rx) else deferred_hls_init hls_rx v a
      else if is_some video_params || is_some audio_params
      then Some (collected video_params audio_params, hls_rx)
      else deferred_hls_init hls_rx video_params audio_params
  end.

(** ** Branches *)

(** [try_build_hls]; [ok]: the workspace and the muxer could be set up. *)
Definition try_build_hls (ok : bool) (codec_params : list CodecParams) (segment_cfg : SegmentConfig)
    (ws : SegmentWorkspace) : option HlsSegmenter :=
  if ok then Some (segmenter_new (map cp_codec codec_params) segment_cfg ws) else None.

Definition spawn_deferred_hls (ok : bool) (params : list CodecParams) (segment_cfg : SegmentConfig)
    (ws : SegmentWorkspace) : option HlsSegmenter :=
  match params with [] => None | _ => try_build_hls ok params segment_cfg ws end.

(** The HLS branch of [build_encoded_chain]: the segmenter and the packets that
    reach it, of those the sequence header probe puts on its HLS pad. *)
Definition hls_branch (ok : bool) (codec_params : list CodecParams) (segment_cfg : SegmentConfig)
    (ws : SegmentWorkspace) (pkts : list EncodedPacket) : option (HlsSegmenter * list EncodedPacket) :=
  match codec_params with
  | [] =>
      '(params, rest) ← deferred_hls_init pkts None None;
      segmenter ← spawn_deferred_hls ok params segment_cfg ws;
      Some (segmenter, rest)
  | _ => segmenter ← try_build_hls ok codec_params segment_cfg ws; Some (segmenter, pkts)
  end.

(** [build_rtsp_pipeline]: an MJPEG source is transcoded first, and its chain
    starts without parameters. *)
Definition has_mjpeg (codec_params : list CodecParams) : bool :=
  existsb (fun p => bool_decide (cp_codec p = Mjpeg)) codec_params.

Definition chain_params (codec_params : list CodecParams) : list CodecParams :=
  if has_mjpeg codec_params then [] else codec_params.

(** ** When the deferred branch starts *)

(** The first parameters of a kind among the sequence headers of some packets. *)
Definition header_params (kind : MediaType) (pkt : EncodedPacket) : option CodecParams :=
  if pk_is_sequence_header pkt then
    match codec_params_from_sequence_header pkt with
    | Some (mt, params) => if decide (mt = kind) then Some params else None
    | None => None
    end
  else None.

Definition first_params (kind : MediaType) (pkts : list EncodedPacket) : option CodecParams :=
  head (omap (header_params kind) pkts).

Definition known (pkts : list EncodedPacket) : list CodecParams :=
  collected (first_params Video pkts) (first_params Audio pkts).

(** The packet after [pre] starts the branch: the header that completes both
    kinds, or a media packet when some kind is known. *)
Definition starts_at (pre : list EncodedPacket) (pkt : EncodedPacket) : Prop :=
  if pk_is_sequence_header pkt then length (known (pre ++ [pkt])) = 2%nat else known pre <> [].

Lemma first_params_snoc kind pkts pkt : first_params kind (pkts ++ [pkt])
  = match first_params kind pkts with Some p => Some p | None => header_params kind pkt end.
Proof.
  unfold first_params. rewrite omap_app. cbn. destruct (omap _ pkts); [|done]. by destruct (header_params kind pkt).
Qed.

(** What the loop knows is what the headers so far say. *)
Lemma record_known pre pkt : pk_is_sequence_header pkt = true ->
  let '(complete, v, a) := record_sequence_header pkt (first_params Video pre) (first_params Audio pre) in
  v = first_params Video (pre ++ [pkt]) /\ a = first_params Audio (pre ++ [pkt])
  /\ (length (known pre) <> 2%nat -> complete = true <-> length (known (pre ++ [pkt])) = 2%nat).
Proof.
  intros Hh. unfold record_sequence_header, known. rewrite !first_params_snoc. unfold header_params. rewrite Hh.
  destruct (codec_params_from_sequence_header pkt) as [[[] params]|]; cbn [decide];
    destruct (first_params Video pre), (first_params Audio pre); cbn; done.
Qed.

Lemma deferred_start pkts : forall pre, length (known pre) <> 2%nat ->
  match deferred_hls_init pkts (first_params Video pre) (first_params Audio pre) with
  | Some (params, rest) => exists mid pkt, pkts = mid ++ pkt :: rest /\ starts_at (pre ++ mid) pkt
      /\ params = known (pre ++ mid ++ [pkt])
      /\ forall m p post, mid = m ++ p :: post -> ~ starts_at (pre ++ m) p
  | None => forall m p post, pkts = m ++ p :: post -> ~ starts_at (pre ++ m) p
  end.
Proof.
  induction pkts as [|pkt pkts IH]; intros pre Hk; cbn [deferred_hls_init]; [by intros [|??] p post|].
  assert (forall b : bool, (b = true <-> starts_at pre pkt) -> b = false -> forall m p post rest,
    pkt :: rest = m ++ p :: post ->
    (forall m' p' post', rest = m' ++ p' :: post' -> ~ starts_at ((pre ++ [pkt]) ++ m') p') -> ~ starts_at (pre ++ m) p)
    as Hcons.
  { intros b Hb -> [|x m] p post rest [= <- ->] Hrest; [rewrite app_nil_r; by intros ?%Hb|].
    specialize (Hrest m p post eq_refl). by rewrite <- app_assoc in Hrest. }
  destruct (pk_is_sequence_header pkt) eqn:Eh.
  - pose proof (record_known pre pkt Eh) as Hr.
    destruct (record_sequence_header _ _ _) as [[complete v] a]. destruct Hr as (-> & -> & Hc).
    specialize (Hc Hk). assert (complete = true <-> starts_at pre pkt) as Hs by by unfold starts_at; rewrite Eh.
    destruct complete.
    + exists [], pkt. rewrite app_nil_r. split_and!; [done|by apply Hs|done|by intros [|??] ??].
    + assert (length (known (pre ++ [pkt])) <> 2%nat) as Hk' by (intros E; by apply Hc in E).
      specialize (IH (pre ++ [pkt]) Hk').
      destruct (deferred_hls_init _ _ _) as [[params rest]|].
      * destruct IH as (mid & p & -> & Hst & Hp & Hno). exists (pkt :: mid), p.
        rewrite <- !app_assoc in *. split_and!; [done..|]. intros m q post Hm. by apply (Hcons false Hs eq_refl m q post mid).
      * intros m p post Hm. by apply (Hcons false Hs eq_refl m p post pkts).
  - assert (is_some (first_params Video pre) || is_some (first_params Audio pre) = true <-> starts_at pre pkt) as Hs.
    { unfold starts_at, known. rewrite Eh. by destruct (first_params Video pre), (first_params Audio pre). }
    assert (forall k, first_params k (pre ++ [pkt]) = first_params k pre) as Hf.
    { intros k. rewrite first_params_snoc. unfold header_params. rewrite Eh. by destruct (first_params k pre). }
    assert (known (pre ++ [pkt]) = known pre) as Hkn by (unfold known; by rewrite !Hf).
    destruct (is_some _ || is_some _).
    + exists [], pkt. rewrite app_nil_r. split_and!; [done|by apply Hs|cbn [app]; by rewrite Hkn|by intros [|??] ??].
    + specialize (IH (pre ++ [pkt])). rewrite Hkn, !Hf in IH. specialize (IH Hk).
      destruct (deferred_hls_init _ _ _) as [[params rest]|].
      * destruct IH as (mid & p & -> & Hst & Hp & Hno). exists (pkt :: mid), p.
        rewrite <- !app_assoc in *. split_and!; [done..|]. intros m q post Hm. by apply (Hcons false Hs eq_refl m q post mid).
      * intros m p post Hm. by apply (Hcons false Hs eq_refl m p post pkts).
Qed.

(** C38: the deferred HLS branch of a stream starts at the first packet that is a
    header completing the parameters of both kinds, or a media packet after a
    usable header of one kind, and never starts otherwise; it is built with the
    first parameters of each kind, video before audio, and receives exactly the
    packets after the one it starts at. So when both headers precede the media
    every media packet reaches the segmenter, while on a stream of one kind the
    media packet that triggers the start, normally the first keyframe, is
    consumed and never segmented. *)
Theorem deferred_hls_start pkts :
  match deferred_hls_init pkts None None with
  | Some (params, rest) => exists mid pkt, pkts = mid ++ pkt :: rest /\ starts_at mid pkt
      /\ params = known (mid ++ [pkt]) /\ ~ (exists m p post, mid = m ++ p :: post /\ starts_at m p)
  | None => ~ (exists m p post, pkts = m ++ p :: post /\ starts_at m p)
  end
  /\ (forall vh v x media, header_params Video vh = Some v ->
      (forall a, header_params Audio x = Some a -> deferred_hls_init (vh :: x :: media) None None = Some ([v; a], media))
      /\ (pk_is_sequence_header x = false -> deferred_hls_init (vh :: x :: media) None None = Some ([v], media))).
Proof.
  split.
  - pose proof (deferred_start pkts [] ltac:(done)) as Hd.
    change (first_params Video []) with (@None CodecParams) in Hd.
    change (first_params Audio []) with (@None CodecParams) in Hd.
    destruct (deferred_hls_init pkts None None) as [[params rest]|].
    + destruct Hd as (mid & pkt & Hp & Hs & Hk & Hno). exists mid, pkt. split_and!; [done..|].
      intros (m & p & post & Hm & Hst). by apply (Hno m p post Hm).
    + intros (m & p & post & Hm & Hst). by apply (Hd m p post Hm).
  - intros vh v x media Hv. unfold header_params in *. cbn [deferred_hls_init].
    destruct (pk_is_sequence_header vh); [|done]. unfold record_sequence_header.
    destruct (codec_params_from_sequence_header vh) as [[mt p]|]; [|done]. case_decide; [|done].
    simplify_eq. cbn. split.
    + intros a Ha. destruct (pk_is_sequence_header x); [|done].
      destruct (codec_params_from_sequence_header x) as [[mt q]|]; [|done]. case_decide; [|done]. by simplify_eq.
    + by intros ->.
Qed.

Lemma deferred_hls_start_witness :
  let vh := mkPacket H264 0 (AnnexB []) (Some 0) (Some 0) true true false (Some [1; 0x64; 0; 0x1f]) in
  let key := mkPacket H264 0 (AnnexB [0; 0; 0; 1; 0x65]) (Some 0) (Some 0) true false false None in
  deferred_hls_init [vh; key; key] None None
  = Some ([mkCodecParams H264 Video 90000 (Some [1; 0x64; 0; 0x1f])], [key]).
Proof.
  cbv zeta.
  refine (proj2 (proj2 (deferred_hls_start [])
    (mkPacket H264 0 (AnnexB []) (Some 0) (Some 0) true true false (Some [1; 0x64; 0; 0x1f]))
    (mkCodecParams H264 Video 90000 (Some [1; 0x64; 0; 0x1f]))
    (mkPacket H264 0 (AnnexB [0; 0; 0; 1; 0x65]) (Some 0) (Some 0) true false false None)
    [mkPacket H264 0 (AnnexB [0; 0; 0; 1; 0x65]) (Some 0) (Some 0) true false false None] _) _).
  - vm_compute. reflexivity.
  - reflexivity.
Defined.
