(* ===== verification/Chain.v ===== *)
(** * The running pipeline
    [livestream-pipeline/src/{factory.rs, task.rs}]: the tasks [build_encoded_chain]
    spawns and the bounded pads between them. A task takes one packet from its
    input at a time and fans its results out; a full pad drops its copy, a closed
    one breaks the fan-out off; a task ends when its input does, when its token is
    cancelled or when it panics, and then drops its receiver and its senders. The
    interleaving is the list of events. *)
From stdpp Require Import list strings.
From S2P Require Import Prelude Types Flv FlvMux Nal RtmpSource Config Hls Pads Factory.

(** ** A pad with one receiver *)

Section Queue.
Context {I : Type}.
Implicit Types q : list_queue I.

Definition q_open q : bool := snd (fst q).
Definition q_items q : list I := snd q.
Definition has_room q : bool := (length (q_items q) <? fst (fst q))%nat.

(** Fanning results out to one pad, and to two in their order. *)
Definition send1 q (outs : list I) : list_queue I :=
  match fan_out [Channel q] outs with [Channel q] => q | _ => q end.

Definition send2 q1 q2 (outs : list I) : list_queue I * list_queue I :=
  match fan_out [Channel q1; Channel q2] outs with [Channel q1; Channel q2] => (q1, q2) | _ => (q1, q2) end.

(** One item; a full or closed pad does not take it. *)
Definition push q (x : I) : list_queue I := snd (mpsc_send q x).

Lemma push_spec q x : push q x = (fst q, if q_open q && has_room q then q_items q ++ [x] else q_items q).
Proof.
  destruct q as [[n open] items]. unfold push, mpsc_send, q_open, has_room, q_items. cbn.
  destruct open; [|done]. cbn. destruct (Nat.leb_spec n (length items)), (Nat.ltb_spec (length items) n); done || lia.
Qed.

Lemma deliver_push q x : deliver_to_pad (Channel q) x = (q_open q, Channel (push q x)).
Proof.
  destruct q as [[n open] items]. unfold deliver_to_pad, pad_send, push, mpsc_send, q_open. cbn.
  destruct open; [|done]. cbn. by destruct (n <=? length items)%nat.
Qed.

Lemma push_open q x : q_open (push q x) = q_open q.
Proof. by rewrite push_spec. Qed.

Lemma send1_push q outs : send1 q outs = foldl push q outs.
Proof.
  assert (forall p, fan_out [Channel p] outs = [Channel (foldl push p outs)]) as Hf; [|unfold send1; by rewrite Hf].
  unfold fan_out. induction outs as [|x outs IH]; intros p; [done|]. cbn [foldl fan_out_item].
  rewrite deliver_push. destruct (q_open p); apply IH.
Qed.

Lemma send2_push q1 q2 outs : send2 q1 q2 outs = (foldl push q1 outs, if q_open q1 then foldl push q2 outs else q2).
Proof.
  assert (forall p1 p2, fan_out [Channel p1; Channel p2] outs
    = [Channel (foldl push p1 outs); Channel (if q_open p1 then foldl push p2 outs else p2)]) as Hf;
    [|unfold send2; by rewrite Hf].
  unfold fan_out. induction outs as [|x outs IH]; intros p1 p2; [by destruct (q_open p1)|]. cbn [foldl fan_out_item].
  rewrite deliver_push. destruct (q_open p1) eqn:E; [rewrite deliver_push; destruct (q_open p2)|];
    rewrite IH, push_open, E; done.
Qed.

(** What a batch adds to a pad. *)
Lemma pushes outs : forall q, exists taken, foldl push q outs = (fst q, q_items q ++ taken) /\ taken `sublist_of` outs
  /\ (q_open q = false -> taken = []) /\ (q_open q = true -> has_room (foldl push q outs) = true -> taken = outs).
Proof.
  induction outs as [|x outs IH]; intros q; cbn [foldl].
  { exists []. rewrite app_nil_r. by destruct q. }
  destruct (IH (push q x)) as (taken & E & Hs & Hc & Ho). rewrite push_open in Hc, Ho. rewrite push_spec in E at 2.
  cbn [fst q_items snd] in E. rewrite E in *. rewrite push_spec in Ho |- *. cbn [fst q_items snd] in *.
  destruct (q_open q && has_room q) eqn:Er.
  - exists (x :: taken). rewrite <- app_assoc in *. apply andb_true_iff in Er as [Eo _]. rewrite Eo in *.
    split_and!; [done|by apply sublist_skip|done|]. intros _ Hr. f_equal. by apply Ho.
  - exists taken. split_and!; [done|by apply sublist_cons|done|]. intros Eo Hr. rewrite Eo in *. cbn in Er.
    unfold has_room, q_items in *. cbn in *. rewrite length_app in Hr.
    apply Nat.ltb_lt in Hr. apply Nat.ltb_ge in Er. lia.
Qed.
End Queue.

(** ** A task *)

(** The task of one processor: its state, its receiver, and the packets it has
    processed, each with what the outside answered meanwhile. *)
Record Node (S A I : Type) := mkNode {
  nd_state : S;
  nd_input : list_queue I;
  nd_ended : bool;
  nd_cut : bool;            (* it ended before its input did *)
  nd_done : list (A * I);
}.
Arguments mkNode {S A I}.
Arguments nd_state {S A I}.
Arguments nd_input {S A I}.
Arguments nd_ended {S A I}.
Arguments nd_cut {S A I}.
Arguments nd_done {S A I}.

Section Node.
Context {S A I O : Type}.
Local Abbreviation node := (Node S A I).
Implicit Types n : node.

Definition node_new (capacity : nat) (s : S) : node := mkNode s (mp_new capacity) false false [].

(** Its upstream's senders fill its input. *)
Definition with_input n (q : list_queue I) : node := mkNode (nd_state n) q (nd_ended n) (nd_cut n) (nd_done n).

(** The future ends and is dropped, with its receiver. *)
Definition node_end (cut : bool) n : node := mkNode (nd_state n) (mp_drop_rx (nd_input n)) true cut (nd_done n).

Definition node_cancelled n : node := if nd_ended n then n else node_end true n.

(** The packets that entered the task's pad, and those it processed. *)
Definition processed n : list I := map snd (nd_done n).
Definition fed n : list I := processed n ++ q_items (nd_input n).

Section Process.
(** One call of [process]; [None]: it panics. *)
Context (process : S -> A -> I -> option (result unit (list O) * S)).

Definition results (r : result unit (list O)) : list O := match r with Ok outs => outs | Err _ => [] end.

(** The receive branch: the results to fan out. [senders]: some sender of the input
    lives. A panic ends the task, with the packet. *)
Definition node_recv (senders : bool) (a : A) n : list O * node :=
  if nd_ended n then ([], n)
  else match q_items (nd_input n) with
       | i :: rest =>
           match process (nd_state n) a i with
           | Some (r, s) => (results r, mkNode s (fst (nd_input n), rest) false false (nd_done n ++ [(a, i)]))
           | None => ([], node_end true n)
           end
       | [] => ([], if senders then n else node_end false n)
       end.

(** The results and the state after some packets. *)
Fixpoint node_run (s : S) (inputs : list (A * I)) : option (list O * S) :=
  match inputs with
  | [] => Some ([], s)
  | (a, i) :: inputs =>
      match process s a i with
      | None => None
      | Some (r, s) => '(outs, s) ← node_run s inputs; Some (results r ++ outs, s)
      end
  end.

Lemma node_run_snoc inputs a i : forall s, node_run s (inputs ++ [(a, i)])
  = '(outs, s) ← node_run s inputs; '(r, s) ← process s a i; Some (outs ++ results r, s).
Proof.
  induction inputs as [|[b j] inputs IH]; intros s; cbn.
  - destruct (process s a i) as [[r s']|]; [|done]. cbn. by rewrite app_nil_r.
  - destruct (process s b j) as [[r s']|]; [|done]. rewrite IH.
    destruct (node_run s' inputs) as [[outs s'']|]; [|done]. cbn.
    destruct (process s'' a i) as [[r' s3]|]; [|done]. cbn. by rewrite app_assoc.
Qed.

(** *** Invariants *)

(** What the task fanned out so far. *)
Definition fanned (s0 : S) n (outs : list O) : Prop := node_run s0 (nd_done n) = Some (outs, nd_state n).

Lemma fanned_recv s0 senders a n outs : fanned s0 n outs ->
  let '(more, n') := node_recv senders a n in fanned s0 n' (outs ++ more).
Proof.
  unfold fanned, node_recv. intros Hf. destruct (nd_ended n); [by rewrite app_nil_r|].
  destruct (q_items (nd_input n)) as [|i rest]; [destruct senders; by rewrite app_nil_r|].
  destruct (process (nd_state n) a i) as [[r s]|] eqn:E; cbn; [|by rewrite app_nil_r].
  rewrite node_run_snoc, Hf. cbn. by rewrite E.
Qed.
End Process.

(** It ended with its input: every sender is gone, and nothing is left. *)
Definition finished n : bool := nd_ended n && negb (nd_cut n).

(** The pad is open while the task runs. *)
Record node_ok n : Prop := {
  no_open : q_open (nd_input n) = negb (nd_ended n);
  no_cut : nd_cut n = true -> nd_ended n = true;
  no_finished : finished n = true -> q_items (nd_input n) = [];
}.

(** What entered a pad of what was sent to it: a sublist, the rest was dropped;
    when the pad was never full ([whole]), a prefix, and everything unless its
    task, or one before it in the fan-out ([live]), was cut. *)
Record link (sent : list I) n (whole live : bool) : Prop := {
  lk_ok : node_ok n;
  lk_sub : fed n `sublist_of` sent;
  lk_prefix : whole = true -> fed n `prefix_of` sent;
  lk_all : whole = true -> live = true -> nd_cut n = false -> fed n = sent;
}.

Lemma link_new capacity s whole live : link [] (node_new capacity s) whole live.
Proof. constructor; [by constructor|apply (sublist_nil_l [])|done|done]. Qed.

Lemma link_weaken sent n whole whole' live live' : link sent n whole live -> (whole' = true -> whole = true) ->
  (live' = true -> live = true) -> link sent n whole' live'.
Proof. intros [Ho Hs Hp Ha] Hw Hl. constructor; auto. Qed.

Lemma link_end cut sent n whole live : link sent n whole live -> (cut = false -> q_items (nd_input n) = []) -> (nd_ended n = false) ->
  link sent (node_end cut n) whole live.
Proof.
  intros [[Ho Hc Hf] Hs Hp Ha] Hq He.
  constructor; [|done|done|].
  - constructor; cbn; [done|done|]. unfold finished. cbn. intros H%negb_true_iff. by apply Hq.
  - intros Hw Hl _. apply Ha; [done..|]. destruct (nd_cut n); [|done]. by rewrite Hc in He.
Qed.

Lemma link_cancelled sent n whole live : link sent n whole live -> link sent (node_cancelled n) whole live.
Proof. intros Hl. unfold node_cancelled. destruct (nd_ended n) eqn:E; [done|by apply link_end]. Qed.

Lemma link_recv process sent n senders a whole live : link sent n whole live ->
  link sent (snd (node_recv process senders a n)) whole live.
Proof.
  intros Hl. unfold node_recv. destruct (nd_ended n) eqn:Ee; [done|].
  destruct (q_items (nd_input n)) as [|i rest] eqn:Eq; [destruct senders; [done|by apply link_end]|].
  destruct (process (nd_state n) a i) as [[r s]|]; [|by apply link_end].
  destruct Hl as [[Ho Hc Hf] Hs Hp Ha]. unfold fed, processed in *. rewrite Ee, Eq in *.
  assert (nd_cut n = false) as Hcut by (destruct (nd_cut n); [by specialize (Hc eq_refl)|done]).
  constructor; [by constructor|..]; unfold fed, processed; cbn [snd nd_input nd_done nd_ended nd_cut];
    rewrite map_app, <- app_assoc; cbn [map snd app q_items q_open fst]; auto.
Qed.

(** A turn moves a packet from the input to the processed ones. *)
Lemma fed_recv process senders a n : forall o n', node_recv process senders a n = (o, n') -> fed n' = fed n.
Proof.
  intros o n'. unfold node_recv. destruct (nd_ended n); [by intros [= _ <-]|].
  destruct (q_items (nd_input n)) as [|i rest] eqn:Eq; [by destruct senders; intros [= _ <-]|].
  destruct (process (nd_state n) a i) as [[r s]|]; intros [= _ <-]; [|done].
  unfold fed, processed. cbn. rewrite Eq, map_app, <- app_assoc. done.
Qed.

Lemma fed_cancelled n : fed (node_cancelled n) = fed n.
Proof. unfold node_cancelled. by destruct (nd_ended n). Qed.

(** A batch arrives, which is empty when every sender was gone. *)
Lemma link_send sent n whole outs : link sent n whole true -> (finished n = true -> outs = []) ->
  let q := foldl push (nd_input n) outs in
  link (sent ++ outs) (with_input n q) (whole && has_room q) true.
Proof.
  intros [[Ho Hc Hf] Hs Hp Ha] Hfin. destruct (pushes outs (nd_input n)) as (taken & E & Ht & Hcl & Hall). cbv zeta.
  rewrite E in *. rewrite Ho in *.
  assert (fed (with_input n (fst (nd_input n), q_items (nd_input n) ++ taken)) = fed n ++ taken) as Hfed.
  { unfold fed, processed. cbn. by rewrite app_assoc. }
  constructor; rewrite ?Hfed; cbn [with_input nd_cut].
  - constructor; [done|done|]. cbn. intros Hn. rewrite Hf by done. specialize (Hfin Hn). subst outs.
    destruct taken; [done|]. by apply sublist_nil_r in Ht.
  - by apply sublist_app.
  - intros [Hw Hr]%andb_true_iff. destruct (nd_ended n) eqn:Ee; cbn in *.
    + rewrite (Hcl eq_refl), app_nil_r. apply prefix_app_r. by apply Hp.
    + rewrite (Hall eq_refl Hr), (Ha Hw eq_refl); [done|]. destruct (nd_cut n); [by specialize (Hc eq_refl)|done].
  - intros [Hw Hr]%andb_true_iff _ Hcut. rewrite (Ha Hw eq_refl Hcut). f_equal.
    destruct (nd_ended n) eqn:Ee; cbn in *; [|by apply Hall].
    rewrite (Hcl eq_refl). symmetry. apply Hfin. unfold finished. by rewrite Ee, Hcut.
Qed.

(** The fan-out broke off before. *)
Lemma link_skip sent n whole live outs : link sent n whole live -> link (sent ++ outs) n whole false.
Proof. intros [Ho Hs Hp Ha]. constructor; [done|by apply sublist_inserts_r|intros H; by apply prefix_app_r, Hp|done]. Qed.
End Node.

(** A processor of [Pads] asks nothing from the outside. *)
Definition processor_call {S I O} `{Processor S I O} (s : S) (_ : unit) (i : I) : option (result unit (list O) * S) :=
  Some (process s i).

(** One turn of its loop: it pulls only while [should_process]. *)
Definition processor_turn {S I O} `{Processor S I O} (senders : bool) (wanted : list bool) (n : Node S unit I) :
    list O * Node S unit I :=
  if should_process (nd_state n) wanted then node_recv processor_call senders tt n else ([], n).

(** A task whose work on an item is another component's: what it was given. *)
Definition given_call {I : Type} (s : unit) (_ : unit) (_ : I) : option (result unit (list I) * unit) := Some (Ok [], s).

(** ** The encoded chain *)

Definition OTelProbe_new : OTelProbe := tt.

(** The tasks of [build_encoded_chain]. What [ec_sink] does with its tags is the
    FLV sink of [FlvPath]; [ec_hls] is the receiver of the HLS pad, held by
    [deferred_hls_init] or by the segmenter. *)
Record EncodedChain := mkChain {
  ec_senders : bool;                            (* what feeds the chain holds its pad *)
  ec_otel : Node OTelProbe unit EncodedPacket;
  ec_seq : Node SeqCacheProbe unit EncodedPacket;
  ec_mux : Node FlvMux unit EncodedPacket;
  ec_sink : Node unit unit FlvTag;
  ec_hls : Node unit unit EncodedPacket;
}.

Inductive ChainTask := OTelTask | SeqCacheTask | FlvMuxTask | FlvSinkTask | HlsTask.

Inductive ChainEvent :=
| ChainTurn (t : ChainTask)        (* a task's select sees its input *)
| ChainCancelled (t : ChainTask)   (* or its token *)
| SenderGone.                      (* what feeds the chain drops its pad *)

Definition with_seq (c : EncodedChain) (n : Node SeqCacheProbe unit EncodedPacket) : EncodedChain :=
  mkChain (ec_senders c) (ec_otel c) n (ec_mux c) (ec_sink c) (ec_hls c).
Definition with_otel (c : EncodedChain) (n : Node OTelProbe unit EncodedPacket) : EncodedChain :=
  mkChain (ec_senders c) n (ec_seq c) (ec_mux c) (ec_sink c) (ec_hls c).
Definition with_mux (c : EncodedChain) (n : Node FlvMux unit EncodedPacket) : EncodedChain :=
  mkChain (ec_senders c) (ec_otel c) (ec_seq c) n (ec_sink c) (ec_hls c).
Definition with_sink (c : EncodedChain) (n : Node unit unit FlvTag) : EncodedChain :=
  mkChain (ec_senders c) (ec_otel c) (ec_seq c) (ec_mux c) n (ec_hls c).
Definition with_hls (c : EncodedChain) (n : Node unit unit EncodedPacket) : EncodedChain :=
  mkChain (ec_senders c) (ec_otel c) (ec_seq c) (ec_mux c) (ec_sink c) n.

Section EncodedChain.
(** Whether the HLS branch can be built, and the parameters known beforehand. *)
Context (hls_ok : bool) (codec_params : list CodecParams).

(** The HLS pad's receiver is dropped where the branch could not be built, at once
    or when the headers are there. *)
Definition hls_failed (given : list EncodedPacket) : bool :=
  negb hls_ok && match codec_params with [] => is_some (deferred_hls_init given None None) | _ => true end.

Definition settle_hls (n : Node unit unit EncodedPacket) : Node unit unit EncodedPacket :=
  if hls_failed (processed n) then node_cancelled n else n.

(** The pad of the source, then four pads of 256 items. *)
Definition build_encoded_chain (src_rx : nat) : EncodedChain :=
  mkChain true (node_new src_rx OTelProbe_new) (node_new 256 SeqCacheProbe_new) (node_new 256 FlvMux_new) (node_new 256 tt)
    (settle_hls (node_new 256 tt)).

(** What feeds the chain sends it one packet. *)
Definition chain_send (c : EncodedChain) (pkt : EncodedPacket) : send_result * EncodedChain :=
  match mpsc_send (nd_input (ec_otel c)) pkt with
  | (Ok _, q) => (SendOk, with_otel c (with_input (ec_otel c) q))
  | (Err Full, q) => (SendFull, with_otel c (with_input (ec_otel c) q))
  | (Err Closed, q) => (SendClosed, with_otel c (with_input (ec_otel c) q))
  end.

(** A task's turn. The mux is wanted while the FLV sink lives; the sequence header
    probe sends to the FLV pad first. *)
Definition chain_turn (c : EncodedChain) (t : ChainTask) : EncodedChain :=
  match t with
  | OTelTask =>
      let '(outs, otel) := processor_turn (ec_senders c) [] (ec_otel c) in
      with_seq (with_otel c otel) (with_input (ec_seq c) (send1 (nd_input (ec_seq c)) outs))
  | SeqCacheTask =>
      let '(outs, seq) := processor_turn (negb (nd_ended (ec_otel c))) [] (ec_seq c) in
      let '(flv, hls) := send2 (nd_input (ec_mux c)) (nd_input (ec_hls c)) outs in
      with_hls (with_mux (with_seq c seq) (with_input (ec_mux c) flv)) (with_input (ec_hls c) hls)
  | FlvMuxTask =>
      let '(tags, mux) := processor_turn (negb (nd_ended (ec_seq c))) [negb (nd_ended (ec_sink c))] (ec_mux c) in
      with_sink (with_mux c mux) (with_input (ec_sink c) (send1 (nd_input (ec_sink c)) tags))
  | FlvSinkTask =>
      with_sink c (snd (node_recv given_call (negb (nd_ended (ec_mux c))) tt (ec_sink c)))
  | HlsTask =>
      with_hls c (settle_hls (snd (node_recv given_call (negb (nd_ended (ec_seq c))) tt (ec_hls c))))
  end.

Definition chain_step (c : EncodedChain) (ev : ChainEvent) : EncodedChain :=
  match ev with
  | ChainTurn t => chain_turn c t
  | ChainCancelled OTelTask => with_otel c (node_cancelled (ec_otel c))
  | ChainCancelled SeqCacheTask => with_seq c (node_cancelled (ec_seq c))
  | ChainCancelled FlvMuxTask => with_mux c (node_cancelled (ec_mux c))
  | ChainCancelled FlvSinkTask => with_sink c (node_cancelled (ec_sink c))
  | ChainCancelled HlsTask => with_hls c (node_cancelled (ec_hls c))
  | SenderGone => mkChain false (ec_otel c) (ec_seq c) (ec_mux c) (ec_sink c) (ec_hls c)
  end.

(** ** What it guarantees *)

(** The pads on the way to the FLV sink, and the HLS pad, have room left. *)
Definition flv_room (c : EncodedChain) : bool :=
  has_room (nd_input (ec_seq c)) && has_room (nd_input (ec_mux c)) && has_room (nd_input (ec_sink c)).

Definition hls_room (c : EncodedChain) : bool := has_room (nd_input (ec_seq c)) && has_room (nd_input (ec_hls c)).

(** Nothing waits on the way to the FLV sink, none of whose tasks was cut. *)
Definition drained {S A I} (n : Node S A I) : bool := negb (nd_cut n) && bool_decide (q_items (nd_input n) = []).

Definition flv_settled (c : EncodedChain) : bool :=
  drained (ec_otel c) && drained (ec_seq c) && drained (ec_mux c) && drained (ec_sink c).

Definition hls_settled (c : EncodedChain) : bool :=
  drained (ec_otel c) && drained (ec_seq c) && drained (ec_hls c) && negb (nd_cut (ec_mux c)).

(** The state of the chain after [sent] was sent to it through a first pad that is
    whole when [first] says so; [flv], [hls]: the pads after it never were full. *)
Record chain_links (sent : list EncodedPacket) (first flv hls : bool) (c : EncodedChain)
    (o1 o2 : list EncodedPacket) (tags : list FlvTag) : Prop := {
  cl_otel : fanned (S := OTelProbe) processor_call OTelProbe_new (ec_otel c) o1;
  cl_seq : fanned processor_call SeqCacheProbe_new (ec_seq c) o2;
  cl_mux : fanned processor_call FlvMux_new (ec_mux c) tags;
  cl_to_otel : link sent (ec_otel c) first true;
  cl_to_seq : link o1 (ec_seq c) (flv || hls) true;
  cl_to_mux : link o2 (ec_mux c) flv true;
  cl_to_sink : link tags (ec_sink c) flv true;
  cl_to_hls : link o2 (ec_hls c) hls (negb (nd_cut (ec_mux c)));
  (* a task that finished finished after those before it *)
  cl_senders : finished (ec_otel c) = true -> ec_senders c = false;
  cl_seq_after : finished (ec_seq c) = true -> nd_ended (ec_otel c) = true;
  cl_mux_after : finished (ec_mux c) = true -> nd_ended (ec_seq c) = true;
  cl_sink_after : finished (ec_sink c) = true -> nd_ended (ec_mux c) = true;
  cl_hls_after : finished (ec_hls c) = true -> nd_ended (ec_seq c) = true;
}.

Definition chain_ok (sent : list EncodedPacket) (first flv hls : bool) (c : EncodedChain) : Prop :=
  exists o1 o2 tags, chain_links sent first flv hls c o1 o2 tags.

Lemma link_settle sent n whole live : link sent n whole live -> link sent (settle_hls n) whole live.
Proof. unfold settle_hls. destruct (hls_failed _); [apply link_cancelled|done]. Qed.

Lemma fanned_cancelled {S A I O} (f : S -> A -> I -> option (result unit (list O) * S)) s0 n outs :
  fanned f s0 n outs -> fanned f s0 (node_cancelled n) outs.
Proof. unfold node_cancelled. by destruct (nd_ended n). Qed.

(** A processor's turn. *)
Lemma turn_fanned {S I O} `{Processor S I O} s0 senders wanted (n : Node S unit I) outs :
  fanned processor_call s0 n outs ->
  let '(more, n') := processor_turn senders wanted n in fanned processor_call s0 n' (outs ++ more).
Proof.
  intros Hf. unfold processor_turn. destruct (should_process _ _); [|by rewrite app_nil_r].
  by apply (fanned_recv processor_call).
Qed.

Lemma turn_link {S I O} `{Processor S I O} senders wanted sent (n : Node S unit I) whole live : link sent n whole live ->
  link sent (snd (processor_turn (O := O) senders wanted n)) whole live.
Proof. intros Hl. unfold processor_turn. destruct (should_process _ _); [by apply link_recv|done]. Qed.

(** An ended task does nothing any more, and one finishes when its senders are gone. *)
Lemma turn_ended {S I O} `{Processor S I O} senders wanted (n : Node S unit I) : nd_ended n = true ->
  processor_turn (O := O) senders wanted n = ([], n).
Proof. intros He. unfold processor_turn, node_recv. rewrite He. by destruct (should_process _ _). Qed.

Lemma recv_finishes {S A I O} (f : S -> A -> I -> option (result unit (list O) * S)) senders a n :
  finished (snd (node_recv f senders a n)) = true -> finished n = true \/ senders = false.
Proof.
  unfold node_recv. destruct (nd_ended n) eqn:Ee; [by left|]. destruct (q_items _) as [|i rest].
  - destruct senders; [by left|by right].
  - destruct (f _ _ _) as [[r s]|]; unfold finished; cbn; done.
Qed.

Lemma turn_finishes {S I O} `{Processor S I O} senders wanted (n : Node S unit I) :
  finished (snd (processor_turn (O := O) senders wanted n)) = true -> finished n = true \/ senders = false.
Proof. unfold processor_turn. destruct (should_process _ _); [apply recv_finishes|by left]. Qed.

Lemma finished_cancelled {S A I} (n : Node S A I) : finished (node_cancelled n) = finished n.
Proof. unfold node_cancelled, finished. by destruct (nd_ended n) eqn:E; cbn; rewrite ?E. Qed.

Lemma ended_cancelled {S A I} (n : Node S A I) : nd_ended n = true -> node_cancelled n = n.
Proof. intros He. unfold node_cancelled. by rewrite He. Qed.

Lemma finished_settle n : finished (settle_hls n) = finished n.
Proof. unfold settle_hls. destruct (hls_failed _); [apply finished_cancelled|done]. Qed.

Lemma build_encoded_chain_ok cap first flv hls : chain_ok [] first flv hls (build_encoded_chain cap).
Proof.
  exists [], [], []. cbn [build_encoded_chain ec_otel ec_seq ec_mux ec_sink ec_hls].
  constructor; cbn; try done; try apply link_new; [apply link_settle, link_new|].
  by rewrite finished_settle.
Qed.

Lemma finished_ended {S A I} (n : Node S A I) : finished n = true -> nd_ended n = true.
Proof. unfold finished. by intros [? _]%andb_true_iff. Qed.

Lemma either_room (f h r a b e : bool) : f && (r && a && b) || h && (r && e) = true -> (f || h) && r = true.
Proof. by destruct f, h, r. Qed.

Lemma mux_room (f r a b : bool) : f && (r && a && b) = true -> f && a = true.
Proof. by destruct f, r, a. Qed.

Lemma last_room (f r e : bool) : f && (r && e) = true -> f && e = true.
Proof. by destruct f, r. Qed.

Lemma link_or {S A I} (sent : list I) (n : Node S A I) a a' b b' live : link sent n (a || b) live ->
  link sent n ((a && a') || (b && b')) live.
Proof. intros Hl. eapply link_weaken; [exact Hl| |done]. by destruct a, b. Qed.

Lemma link_and {S A I} (sent : list I) (n : Node S A I) a a' live : link sent n a live -> link sent n (a && a') live.
Proof. intros Hl. eapply link_weaken; [exact Hl| |done]. by intros [? _]%andb_true_iff. Qed.

#[local] Hint Resolve link_or link_and : core.

Lemma turn_otel_ok sent first flv hls c : chain_ok sent first flv hls c ->
  let c' := chain_turn c OTelTask in chain_ok sent first (flv && flv_room c') (hls && hls_room c') c'.
Proof.
  intros (o1 & o2 & tags & [F1 F2 F3 L1 L2 L3 L4 L5 E1 E2 E3 E4 E5]). cbn [chain_turn].
  pose proof (turn_fanned (S := OTelProbe) OTelProbe_new (ec_senders c) [] (ec_otel c) o1 F1) as Hf.
  pose proof (turn_link (S := OTelProbe) (O := EncodedPacket) (ec_senders c) [] sent (ec_otel c) first true L1) as Hl.
  pose proof (turn_finishes (S := OTelProbe) (O := EncodedPacket) (ec_senders c) [] (ec_otel c)) as Hfin.
  pose proof (turn_ended (S := OTelProbe) (O := EncodedPacket) (ec_senders c) [] (ec_otel c)) as He.
  destruct (processor_turn (ec_senders c) [] (ec_otel c)) as [outs otel]. cbn [Datatypes.snd] in *. rewrite send1_push.
  assert (finished (ec_seq c) = true -> outs = []) as Hnone by (intros H%E2%He; by injection H).
  pose proof (link_send o1 (ec_seq c) _ outs L2 Hnone) as Hs. cbv zeta in Hs.
  exists (o1 ++ outs), o2, tags. unfold flv_room, hls_room. constructor; cbn; auto.
  - eapply link_weaken; [exact Hs| |done]. apply either_room.
  - intros [?|?]%Hfin; auto.
  - intros H%E2. by injection (He H) as _ ->.
Qed.

Lemma turn_seq_ok sent first flv hls c : chain_ok sent first flv hls c ->
  let c' := chain_turn c SeqCacheTask in chain_ok sent first (flv && flv_room c') (hls && hls_room c') c'.
Proof.
  intros (o1 & o2 & tags & [F1 F2 F3 L1 L2 L3 L4 L5 E1 E2 E3 E4 E5]). cbn [chain_turn].
  pose proof (turn_fanned SeqCacheProbe_new (negb (nd_ended (ec_otel c))) [] (ec_seq c) o2 F2) as Hf.
  pose proof (turn_link (O := EncodedPacket) (negb (nd_ended (ec_otel c))) [] o1 (ec_seq c) _ true L2) as Hl.
  pose proof (turn_finishes (O := EncodedPacket) (negb (nd_ended (ec_otel c))) [] (ec_seq c)) as Hfin.
  pose proof (turn_ended (O := EncodedPacket) (negb (nd_ended (ec_otel c))) [] (ec_seq c)) as He.
  destruct (processor_turn _ [] (ec_seq c)) as [outs seq]. cbn [Datatypes.snd] in *. rewrite send2_push.
  assert (nd_ended (ec_seq c) = true -> outs = [] /\ seq = ec_seq c) as Hnone by (intros H%He; by injection H).
  pose proof (link_send o2 (ec_mux c) _ outs L3 (fun H => proj1 (Hnone (E3 H)))) as Hm. cbv zeta in Hm.
  exists o1, (o2 ++ outs), tags. unfold flv_room, hls_room. constructor; cbn; auto.
  - eapply link_weaken; [exact Hm| |done]. apply mux_room.
  - rewrite (no_open _ (lk_ok _ _ _ _ L3)). destruct (nd_ended (ec_mux c)) eqn:Em; cbn [negb].
    + destruct (nd_cut (ec_mux c)) eqn:Ec; [eapply link_skip, link_and; by destruct (ec_hls c)|].
      destruct (Hnone (E3 ltac:(unfold finished; by rewrite Em, Ec))) as [-> _]. rewrite app_nil_r.
      apply link_and. by destruct (ec_hls c).
    + assert (nd_cut (ec_mux c) = false) as Ec.
      { destruct (nd_cut (ec_mux c)) eqn:Ec; [|done]. by rewrite (no_cut _ (lk_ok _ _ _ _ L3) Ec) in Em. }
      rewrite Ec in *. eapply link_weaken; [apply link_send; [exact L5|intros H; apply (Hnone (E5 H))]| |done]. apply last_room.
  - intros [?|Hn%negb_false_iff]%Hfin; auto.
  - intros H%E3. by destruct (Hnone H) as [_ ->].
  - intros H. assert (finished (ec_hls c) = true) as H' by (by destruct (ec_hls c), (q_open _)). apply E5 in H'.
    by destruct (Hnone H') as [_ ->].
Qed.

Lemma turn_mux_ok sent first flv hls c : chain_ok sent first flv hls c ->
  let c' := chain_turn c FlvMuxTask in chain_ok sent first (flv && flv_room c') (hls && hls_room c') c'.
Proof.
  intros (o1 & o2 & tags & [F1 F2 F3 L1 L2 L3 L4 L5 E1 E2 E3 E4 E5]). cbn [chain_turn].
  set (up := negb (nd_ended (ec_seq c))). set (w := [negb (nd_ended (ec_sink c))]).
  pose proof (turn_fanned FlvMux_new up w (ec_mux c) tags F3) as Hf.
  pose proof (turn_link (O := FlvTag) up w o2 (ec_mux c) _ true L3) as Hl.
  pose proof (turn_finishes (O := FlvTag) up w (ec_mux c)) as Hfin.
  pose proof (turn_ended (O := FlvTag) up w (ec_mux c)) as He.
  destruct (processor_turn _ _ (ec_mux c)) as [outs mux]. rewrite send1_push. cbn [Datatypes.snd] in *.
  assert (nd_ended (ec_mux c) = true -> outs = [] /\ mux = ec_mux c) as Hnone by (intros H%He; by injection H).
  pose proof (link_send tags (ec_sink c) _ outs L4 (fun H => proj1 (Hnone (E4 H)))) as Hs. cbv zeta in Hs.
  exists o1, o2, (tags ++ outs). unfold flv_room, hls_room. constructor; cbn; auto.
  - eapply link_weaken; [exact Hs| |done]. apply last_room.
  - eapply link_weaken; [exact L5|by intros [? _]%andb_true_iff|]. intros Hc. apply negb_true_iff.
    destruct (nd_cut (ec_mux c)) eqn:Ec; [|done].
    by rewrite (proj2 (Hnone (no_cut _ (lk_ok _ _ _ _ L3) Ec))), Ec in Hc.
  - intros [?|Hn%negb_false_iff]%Hfin; auto.
  - intros H%E4. by destruct (Hnone H) as [_ ->].
Qed.

Lemma chain_turn_ok sent first flv hls c t : chain_ok sent first flv hls c ->
  let c' := chain_turn c t in
  chain_ok sent first (flv && flv_room c') (hls && hls_room c') c'.
Proof.
  destruct t; [apply turn_otel_ok|apply turn_seq_ok|apply turn_mux_ok|..];
    intros (o1 & o2 & tags & [F1 F2 F3 L1 L2 L3 L4 L5 E1 E2 E3 E4 E5]); exists o1, o2, tags; cbn [chain_turn]; constructor; cbn; auto.
  - by apply link_and, link_recv.
  - intros [?|Hn%negb_false_iff]%recv_finishes; auto.
  - by apply link_and, link_settle, link_recv.
  - rewrite finished_settle. intros [?|Hn%negb_false_iff]%recv_finishes; auto.
Qed.

Lemma chain_step_ok sent first flv hls c ev : chain_ok sent first flv hls c ->
  let c' := chain_step c ev in
  chain_ok sent first (flv && flv_room c') (hls && hls_room c') c'.
Proof.
  intros Hc. destruct ev as [t|t|]; [by apply chain_turn_ok|..];
    destruct Hc as (o1 & o2 & tags & [F1 F2 F3 L1 L2 L3 L4 L5 E1 E2 E3 E4 E5]); exists o1, o2, tags.
  - destruct t; constructor; cbn; try apply fanned_cancelled; try apply link_and, link_cancelled; try apply link_or, link_cancelled;
      try apply link_cancelled; rewrite ?finished_cancelled; auto; try (intros H; rewrite ended_cancelled; by auto).
    eapply link_weaken; [exact L5|by intros [? _]%andb_true_iff|].
    unfold node_cancelled. by destruct (nd_ended (ec_mux c)).
  - constructor; cbn; auto.
Qed.

Lemma chain_ok_weaken sent first flv hls first' flv' hls' c : chain_ok sent first flv hls c ->
  (first' = true -> first = true) -> (flv' = true -> flv = true) -> (hls' = true -> hls = true) ->
  chain_ok sent first' flv' hls' c.
Proof.
  intros (o1 & o2 & tags & [F1 F2 F3 L1 L2 L3 L4 L5 E1 E2 E3 E4 E5]) Hi Hf Hh. exists o1, o2, tags.
  constructor; try done; eapply link_weaken; try done. intros [?|?]%orb_true_iff; apply orb_true_iff; auto.
Qed.

(** A task before the chain feeds it a batch; it holds the pad while it runs. *)
Definition chain_feed (c : EncodedChain) (outs : list EncodedPacket) (senders : bool) : EncodedChain :=
  mkChain senders (with_input (ec_otel c) (send1 (nd_input (ec_otel c)) outs)) (ec_seq c) (ec_mux c) (ec_sink c) (ec_hls c).

Lemma chain_feed_ok sent first flv hls c outs senders : chain_ok sent first flv hls c ->
  (ec_senders c = false -> outs = [] /\ senders = false) ->
  let c' := chain_feed c outs senders in
  chain_ok (sent ++ outs) (first && has_room (nd_input (ec_otel c'))) flv hls c'.
Proof.
  intros (o1 & o2 & tags & [F1 F2 F3 L1 L2 L3 L4 L5 E1 E2 E3 E4 E5]) Hs. exists o1, o2, tags. unfold chain_feed.
  rewrite send1_push. constructor; cbn; try done.
  - apply link_send; [done|]. intros H. by apply Hs, E1.
  - intros H. by apply Hs, E1.
Qed.

(** A packet that is sent enters the first pad, or does not. *)
Lemma chain_send_ok sent flv hls c pkt : chain_ok sent true flv hls c -> fed (ec_otel c) = sent -> ec_senders c = true ->
  let '(answer, c') := chain_send c pkt in
  let sent' := match answer with SendOk => sent ++ [pkt] | _ => sent end in
  chain_ok sent' true flv hls c' /\ fed (ec_otel c') = sent'.
Proof.
  intros (o1 & o2 & tags & [F1 F2 F3 [[Ho Hcut Hfin] Hsub Hp Ha] L2 L3 L4 L5 E1 E2 E3 E4 E5]) Hfed Hsnd. unfold chain_send. unfold q_open in Ho.
  destruct c as [snd [s [[cap open] items] ended cut dn] seq mux sink hls_node]. unfold fed, processed in *.
  cbn [ec_senders ec_otel ec_seq ec_mux ec_sink ec_hls nd_input nd_ended nd_cut nd_done nd_state q_items Datatypes.snd fst] in *. unfold mpsc_send.
  cbn [mp_try_send list_queue_mpsc]. subst open.
  destruct ended; [|destruct (cap <=? length items)%nat]; cbn [negb Datatypes.snd fst]; cbn; split; try done.
  all: try (exists o1, o2, tags; constructor; cbn; try done; constructor; unfold fed, processed; cbn; try done; by rewrite Hfed).
  - exists o1, o2, tags. constructor; cbn; try done. constructor; unfold fed, processed; cbn; rewrite ?app_assoc, ?Hfed; done.
  - by rewrite app_assoc, Hfed.
Qed.

(** ** A source and its chain *)

Inductive PipelineEvent := SourceSends (pkt : EncodedPacket) | ChainMoves (ev : ChainEvent).

Definition pipeline_step (c : EncodedChain) (ev : PipelineEvent) : EncodedChain :=
  match ev with
  | SourceSends pkt => if ec_senders c then snd (chain_send c pkt) else c
  | ChainMoves ev => chain_step c ev
  end.

Definition pipeline_run (c : EncodedChain) (evs : list PipelineEvent) : EncodedChain := foldl pipeline_step c evs.

(** What the source sent, and what its pad answered. *)
Fixpoint offers (c : EncodedChain) (evs : list PipelineEvent) : list (EncodedPacket * send_result) :=
  match evs with
  | [] => []
  | ev :: evs =>
      match ev with
      | SourceSends pkt => if ec_senders c then [(pkt, fst (chain_send c pkt))] else []
      | ChainMoves _ => []
      end ++ offers (pipeline_step c ev) evs
  end.

Definition taken {A} (os : list (A * send_result)) : list A :=
  omap (fun o => match snd o with SendOk => Some (fst o) | _ => None end) os.

(** Whether the pads have room after every step. *)
Fixpoint always (room : EncodedChain -> bool) (c : EncodedChain) (evs : list PipelineEvent) : bool :=
  match evs with
  | [] => true
  | ev :: evs => let c := pipeline_step c ev in room c && always room c evs
  end.

Lemma pipeline_run_ok evs : forall sent flv hls c, chain_ok sent true flv hls c -> fed (ec_otel c) = sent ->
  chain_ok (sent ++ taken (offers c evs)) true (flv && always flv_room c evs) (hls && always hls_room c evs) (pipeline_run c evs)
  /\ fed (ec_otel (pipeline_run c evs)) = sent ++ taken (offers c evs).
Proof.
  induction evs as [|ev evs IH]; intros sent flv hls c Hc Hfed; cbn [offers always pipeline_run foldl].
  { rewrite !andb_true_r. cbn. by rewrite app_nil_r. }
  assert (exists more, taken (match ev with
      | SourceSends pkt => if ec_senders c then [(pkt, fst (chain_send c pkt))] else [] | ChainMoves _ => [] end) = more
    /\ chain_ok (sent ++ more) true (flv && flv_room (pipeline_step c ev)) (hls && hls_room (pipeline_step c ev)) (pipeline_step c ev)
    /\ fed (ec_otel (pipeline_step c ev)) = sent ++ more) as (more & Hm & Hc' & Hfed').
  { destruct ev as [pkt|ev]; cbn [pipeline_step].
    - destruct (ec_senders c) eqn:Esnd; [|exists []; rewrite app_nil_r; split_and!; [done| |done]].
      2: { eapply chain_ok_weaken; [exact Hc|done|by intros [? _]%andb_true_iff..]. }
      pose proof (chain_send_ok sent flv hls c pkt Hc Hfed Esnd) as Hs. destruct (chain_send c pkt) as [answer c'].
      destruct Hs as (Hok & Hf). cbn [Datatypes.snd fst]. eexists. split_and!; [reflexivity| |].
      + destruct answer; cbn; rewrite ?app_nil_r; (eapply chain_ok_weaken; [exact Hok|done|by intros [? _]%andb_true_iff..]).
      + destruct answer; cbn; rewrite ?app_nil_r; exact Hf.
    - exists []. rewrite app_nil_r. split_and!; [done|by apply chain_step_ok|].
      rewrite <- Hfed. destruct ev as [[]|[]|]; cbn [chain_step chain_turn]; try done.
      + destruct (processor_turn _ _ (ec_otel c)) as [outs otel] eqn:E. cbn. exact (fed_recv processor_call (ec_senders c) tt (ec_otel c) outs otel E).
      + destruct (processor_turn _ _ _), (send2 _ _ _). done.
      + by destruct (processor_turn _ _ _).
      + apply fed_cancelled. }
  unfold taken in *. rewrite omap_app, Hm, !andb_assoc, app_assoc. by apply IH.
Qed.

(** A pad that answered [Closed] once answers it from then on. *)
Lemma otel_stays_ended c ev : nd_ended (ec_otel c) = true -> nd_ended (ec_otel (pipeline_step c ev)) = true.
Proof.
  intros He. destruct ev as [pkt|[[]|[]|]]; cbn [pipeline_step chain_step chain_turn]; try done.
  - destruct (ec_senders c); [|done]. unfold chain_send. by destruct (mpsc_send _ _) as [[|[]] q].
  - pose proof (turn_ended (O := EncodedPacket) (ec_senders c) [] (ec_otel c) He) as Ht.
    by rewrite Ht.
  - by destruct (processor_turn _ _ _), (send2 _ _ _).
  - by destruct (processor_turn _ _ _).
  - cbn. unfold node_cancelled. by rewrite He.
Qed.

Lemma chain_send_closed c pkt : node_ok (ec_otel c) -> fst (chain_send c pkt) = SendClosed <-> nd_ended (ec_otel c) = true.
Proof.
  intros [Ho _ _]. revert Ho. unfold q_open, chain_send, mpsc_send. destruct (nd_input (ec_otel c)) as [[cap open] q]. cbn. intros ->.
  destruct (nd_ended (ec_otel c)); [done|]. cbn. by destruct (cap <=? length q)%nat.
Qed.

Lemma otel_node_ok sent flv hls c : chain_ok sent true flv hls c -> node_ok (ec_otel c).
Proof. intros (? & ? & ? & [? ? ? [? ? ? ?]]). done. Qed.

Lemma closed_answers evs : forall sent flv hls c, chain_ok sent true flv hls c -> fed (ec_otel c) = sent ->
  nd_ended (ec_otel c) = true -> map snd (offers c evs) = replicate (length (offers c evs)) SendClosed.
Proof.
  induction evs as [|ev evs IH]; intros sent flv hls c Hc Hfed He; [done|]. cbn [offers].
  pose proof (pipeline_run_ok [ev] sent flv hls c Hc Hfed) as [Hc' Hfed'].
  specialize (IH _ _ _ _ Hc' Hfed' (otel_stays_ended c ev He)). cbn [pipeline_run foldl] in IH.
  destruct ev as [pkt|ev]; [|exact IH]. destruct (ec_senders c) eqn:Es; [|exact IH]. cbn [app map length replicate Datatypes.snd].
  f_equal; [|exact IH]. by apply (chain_send_closed c pkt); [eapply otel_node_ok|].
Qed.

Lemma answers_shape evs : forall sent flv hls c, chain_ok sent true flv hls c -> fed (ec_otel c) = sent ->
  exists op n, map snd (offers c evs) = op ++ replicate n SendClosed /\ SendClosed ∉ op.
Proof.
  induction evs as [|ev evs IH]; intros sent flv hls c Hc Hfed; [exists [], 0%nat; split; [done|by apply not_elem_of_nil]|].
  destruct (nd_ended (ec_otel c)) eqn:He.
  { exists [], (length (offers c (ev :: evs))). split; [by eapply closed_answers|apply not_elem_of_nil]. }
  pose proof (pipeline_run_ok [ev] sent flv hls c Hc Hfed) as [Hc' Hfed'].
  destruct (IH _ _ _ _ Hc' Hfed') as (op & n & E & Hop). cbn [pipeline_run foldl] in E. cbn [offers].
  rewrite map_app, E. destruct ev as [pkt|ev]; [|by exists op, n]. destruct (ec_senders c); [|by exists op, n].
  exists (fst (chain_send c pkt) :: op), n. split; [done|]. apply not_elem_of_cons. split; [|done].
  intros H. symmetry in H. apply chain_send_closed in H; [congruence|by eapply otel_node_ok].
Qed.

End EncodedChain.

(** [build_pipeline] (RTMP) is the chain with the parameters the session knows. *)
Definition build_pipeline (hls_ok : bool) (codec_params : list CodecParams) (src_rx : nat) : EncodedChain :=
  build_encoded_chain hls_ok codec_params src_rx.

(** A source that retries a packet while its pad is full, and drops it when the pad
    is closed: what it sends, given the answers. *)
Fixpoint offered {A} (pkts : list A) (answers : list send_result) : list A :=
  match answers with
  | [] => []
  | answer :: answers =>
      match pkts with
      | [] => []
      | pkt :: more => pkt :: offered (match answer with SendFull => pkts | _ => more end) answers
      end
  end.

(** The packets such a source gets rid of. *)
Fixpoint delivered {A} (pkts : list A) (answers : list send_result) : list A :=
  match answers with
  | [] => []
  | SendFull :: answers => delivered pkts answers
  | SendOk :: answers => match pkts with [] => [] | pkt :: pkts => pkt :: delivered pkts answers end
  | SendClosed :: answers => match pkts with [] => [] | _ :: pkts => delivered pkts answers end
  end.

Lemma delivered_nil {A} answers : delivered (@nil A) answers = [].
Proof. by induction answers as [|[] answers IH]. Qed.

Lemma taken_offered {A} (os : list (A * send_result)) : forall pkts : list A, map fst os = offered pkts (map snd os) -> taken os = delivered pkts (map snd os).
Proof.
  induction os as [|[p []] os IH]; intros pkts H; [done|..]; destruct pkts as [|pkt pkts]; try done; injection H as -> H;
    specialize (IH _ H); unfold taken in *; cbn; by rewrite IH.
Qed.

Lemma delivered_closed {A} n : forall pkts : list A, delivered pkts (replicate n SendClosed) = [].
Proof. induction n as [|n IH]; intros pkts; [done|]. cbn. by destruct pkts. Qed.

(** A pad that closes for good takes the first packets. *)
Lemma delivered_prefix {A} op n : SendClosed ∉ op -> forall pkts : list A,
  delivered pkts (op ++ replicate n SendClosed) `prefix_of` pkts.
Proof.
  induction op as [|a op IH]; intros Ho pkts; cbn [app].
  { rewrite delivered_closed. by exists pkts. }
  apply not_elem_of_cons in Ho as [Ha Ho]. destruct a; [|by apply IH|done]. cbn.
  destruct pkts as [|pkt pkts]; [done|]. by apply prefix_cons, IH.
Qed.

(** ** What comes out *)

(** The probes pass everything on; the mux makes its tags. *)
Lemma probe_run {S} `{Processor S EncodedPacket EncodedPacket} (ins : list (unit * EncodedPacket)) :
  (forall (s : S) i, fst (process s i) = Ok [i]) -> forall s outs s',
  node_run processor_call s ins = Some (outs, s') -> outs = map snd ins.
Proof.
  intros Hp. induction ins as [|[[] i] ins IH]; intros s outs s'; cbn; [by intros [= <- _]|].
  specialize (Hp s i). destruct (process s i) as [r s1]. cbn in Hp. subst r.
  destruct (node_run processor_call s1 ins) as [[o s2]|] eqn:E; [|done]. cbn. intros [= <- _].
  by rewrite (IH _ _ _ E).
Qed.

Lemma mux_node_run (ins : list (unit * EncodedPacket)) : forall m outs m',
  node_run processor_call m ins = Some (outs, m') -> outs = fst (flv_mux_run m (map snd ins)).
Proof.
  induction ins as [|[[] i] ins IH]; intros m outs m'; [by intros [= <- _]|]. cbn [node_run map flv_mux_run Datatypes.snd].
  unfold processor_call. cbn [process FlvMux_processor]. destruct (flv_mux_process m i) as [tags m1].
  destruct (node_run _ m1 ins) as [[o m2]|] eqn:E; [|done]. cbn. intros [= <- _]. apply IH in E. subst o.
  by destruct (flv_mux_run m1 _).
Qed.

Lemma flv_mux_run_app a b : forall m, fst (flv_mux_run m (a ++ b))
  = fst (flv_mux_run m a) ++ fst (flv_mux_run (snd (flv_mux_run m a)) b).
Proof.
  induction a as [|p a IH]; intros m; [done|]. cbn. destruct (flv_mux_process m p) as [tags m1].
  specialize (IH m1). destruct (flv_mux_run m1 a) as [ta m2], (flv_mux_run m1 (a ++ b)) as [tab m3].
  cbn in *. by rewrite IH, app_assoc.
Qed.

Lemma flv_mux_run_prefix m a b : a `prefix_of` b -> fst (flv_mux_run m a) `prefix_of` fst (flv_mux_run m b).
Proof. intros [k ->]. rewrite flv_mux_run_app. by apply prefix_app_r. Qed.

Lemma processed_prefix {S A I} (n : Node S A I) : processed n `prefix_of` fed n.
Proof. by exists (q_items (nd_input n)). Qed.

Lemma drained_processed {S A I} (n : Node S A I) : drained n = true -> nd_cut n = false /\ fed n = processed n.
Proof.
  unfold drained, fed. intros [He Hq%bool_decide_eq_true]%andb_true_iff. rewrite Hq, app_nil_r.
  split; [by apply negb_true_iff in He|done].
Qed.

(** What a task has processed of what was sent to it. *)
Lemma link_processed {S A I} sent (n : Node S A I) whole live : link sent n whole live ->
  processed n `sublist_of` sent /\ (whole = true -> processed n `prefix_of` sent)
  /\ (whole = true -> live = true -> drained n = true -> processed n = sent).
Proof.
  intros [_ Hs Hp Ha]. split_and!.
  - etrans; [|exact Hs]. destruct (processed_prefix n) as [k ->]. by apply sublist_inserts_r.
  - intros H. by etrans; [apply processed_prefix|apply Hp].
  - intros H -> [He Hd]%drained_processed. rewrite <- Hd. by apply Ha.
Qed.

(** What the chain did with what was sent to it. *)
Lemma chain_ok_delivers sent first flv hls c : chain_ok sent first flv hls c ->
  let muxed := processed (ec_mux c) in let tags := processed (ec_sink c) in let segmented := processed (ec_hls c) in
  muxed `sublist_of` sent /\ tags `sublist_of` fst (flv_mux_run FlvMux_new muxed) /\ segmented `sublist_of` sent
  /\ (first && flv = true -> muxed `prefix_of` sent /\ tags `prefix_of` fst (flv_mux_run FlvMux_new sent)
      /\ (flv_settled c = true -> tags = fst (flv_mux_run FlvMux_new sent)))
  /\ (first && hls = true -> segmented `prefix_of` sent /\ (hls_settled c = true -> segmented = sent)).
Proof.
  intros (o1 & o2 & tags & [F1 F2 F3 L1 L2 L3 L4 L5 _ _ _ _ _]) muxed tags' segmented.
  apply (probe_run (S := OTelProbe)) in F1; [|done]. apply probe_run in F2; [|done]. apply mux_node_run in F3.
  fold (processed (ec_otel c)) in F1. fold (processed (ec_seq c)) in F2. fold (processed (ec_mux c)) muxed in F3. subst o1 o2 tags.
  apply link_processed in L1 as (S1 & P1 & E1), L2 as (S2 & P2 & E2), L3 as (S3 & P3 & E3), L4 as (S4 & P4 & E4), L5 as (S5 & P5 & E5).
  fold muxed in S3, P3, E3. fold tags' in S4, P4, E4. fold segmented in S5, P5, E5.
  split_and!.
  - by etrans; [exact S3|etrans; [exact S2|]].
  - done.
  - by etrans; [exact S5|etrans; [exact S2|]].
  - intros [Hf Hv]%andb_true_iff. rewrite Hv in *. specialize (P2 eq_refl). specialize (E2 eq_refl eq_refl).
    assert (muxed `prefix_of` sent) as Hm by (by etrans; [apply P3|etrans; [exact P2|apply P1]]).
    split_and!; [done|by etrans; [apply P4|apply flv_mux_run_prefix]|].
    intros [[[D1 D2]%andb_true_iff D3]%andb_true_iff D4]%andb_true_iff. by rewrite E4, E3, E2, E1.
  - intros [Hf Hv]%andb_true_iff. rewrite Hv, orb_true_r in *. split.
    + by etrans; [apply P5|etrans; [by apply P2|apply P1]].
    + intros [[[D1 D2]%andb_true_iff D3]%andb_true_iff D4]%andb_true_iff. by rewrite E5, E2, E1.
Qed.

(** ** What waits gets out *)

Definition waiting_in {S A I} (n : Node S A I) : nat := length (q_items (nd_input n)).

Definition uncut (c : EncodedChain) : Prop :=
  nd_cut (ec_otel c) = false /\ nd_cut (ec_seq c) = false /\ nd_cut (ec_mux c) = false /\ nd_cut (ec_sink c) = false.

Section Turns.
Context {S A I O : Type} (f : S -> A -> I -> option (result unit (list O) * S)).
Hypothesis (Hf : forall s a i, exists r s', f s a i = Some (r, s') /\ (length (results r) <= 1)%nat).

(** A task that was not cut takes the next packet of its input, if any. *)
Lemma recv_takes senders a n : node_ok n -> nd_cut n = false ->
  let '(outs, n') := node_recv f senders a n in
  nd_cut n' = false /\ waiting_in n' = pred (waiting_in n) /\ fst (fst (nd_input n')) = fst (fst (nd_input n))
  /\ (length outs <= min 1 (waiting_in n))%nat.
Proof.
  intros [Ho Hc Hfin] Hcut. unfold node_recv, waiting_in. destruct (nd_ended n) eqn:Ee.
  { rewrite Hfin by (unfold finished; by rewrite Ee, Hcut). done. }
  destruct (q_items (nd_input n)) as [|i rest] eqn:Eq.
  - destruct senders; cbn; rewrite ?Eq; split_and!; try done. change (snd (nd_input n)) with (q_items (nd_input n)). by rewrite Eq.
  - destruct (Hf (nd_state n) a i) as (r & s' & -> & Hr). cbn. split_and!; done || lia.
Qed.
End Turns.

Lemma turn_takes {S I O} `{Processor S I O} senders wanted (n : Node S unit I) :
  (forall s i, (length (results (fst (process s i))) <= 1)%nat) -> node_ok n -> nd_cut n = false ->
  (waiting_in n <> 0%nat -> should_process (nd_state n) wanted = true) ->
  let '(outs, n') := processor_turn (O := O) senders wanted n in
  nd_cut n' = false /\ waiting_in n' = pred (waiting_in n) /\ fst (fst (nd_input n')) = fst (fst (nd_input n))
  /\ (length outs <= min 1 (waiting_in n))%nat.
Proof.
  intros Hp Hn Hc Hw. unfold processor_turn. destruct (should_process _ _).
  - apply recv_takes; [|done..]. intros s [] i. unfold processor_call. pose proof (Hp s i).
    destruct (process s i) as [r s']. by exists r, s'.
  - assert (waiting_in n = 0%nat) as E by (destruct (waiting_in n); [done|by specialize (Hw ltac:(done))]).
    rewrite E. done.
Qed.

(** At most one item more. *)
Lemma push_waiting {S A I} (n : Node S A I) outs : let n' := with_input n (foldl push (nd_input n) outs) in
  nd_cut n' = nd_cut n /\ (waiting_in n' <= waiting_in n + length outs)%nat
  /\ fst (fst (nd_input n')) = fst (fst (nd_input n)).
Proof.
  destruct (pushes outs (nd_input n)) as (taken & E & Ht & _). cbv zeta. rewrite E. unfold waiting_in. cbn.
  apply sublist_length in Ht. rewrite length_app. change (snd (nd_input n)) with (q_items (nd_input n)). split_and!; done || lia.
Qed.

Lemma has_room_lt {S A I} (n : Node S A I) : has_room (nd_input n) = true <-> (waiting_in n < fst (fst (nd_input n)))%nat.
Proof. apply Nat.ltb_lt. Qed.

(** A turn of each task, the last first. *)
Definition flv_round : list PipelineEvent :=
  map (fun t => ChainMoves (ChainTurn t)) [FlvSinkTask; FlvMuxTask; SeqCacheTask; OTelTask].

Definition flv_waiting (c : EncodedChain) : nat :=
  (4 * waiting_in (ec_otel c) + 3 * waiting_in (ec_seq c) + 2 * waiting_in (ec_mux c) + waiting_in (ec_sink c))%nat.

Section Draining.
Context (hls_ok : bool) (codec_params : list CodecParams).

(** The capacities, and the lengths, of the pads on the way to the FLV sink. *)
Definition caps (c : EncodedChain) : nat * nat * nat :=
  (fst (fst (nd_input (ec_seq c))), fst (fst (nd_input (ec_mux c))), fst (fst (nd_input (ec_sink c)))).

Definition waits (c : EncodedChain) : nat * nat * nat * nat :=
  (waiting_in (ec_otel c), waiting_in (ec_seq c), waiting_in (ec_mux c), waiting_in (ec_sink c)).

Definition chain_reached (c : EncodedChain) : Prop := exists sent first flv hls, chain_ok sent first flv hls c.

Lemma flv_room_spec c : flv_room c = true <->
  (waiting_in (ec_seq c) < fst (fst (nd_input (ec_seq c))))%nat /\ (waiting_in (ec_mux c) < fst (fst (nd_input (ec_mux c))))%nat
  /\ (waiting_in (ec_sink c) < fst (fst (nd_input (ec_sink c))))%nat.
Proof. unfold flv_room. rewrite !andb_true_iff, !has_room_lt. tauto. Qed.


Lemma sink_turn c : chain_reached c -> uncut c ->
  let c' := chain_step hls_ok codec_params c (ChainTurn FlvSinkTask) in
  uncut c' /\ caps c' = caps c
  /\ waits c' = (waiting_in (ec_otel c), waiting_in (ec_seq c), waiting_in (ec_mux c), pred (waiting_in (ec_sink c))).
Proof.
  intros (sent & first & flv & hls & o1 & o2 & tags & [_ _ _ _ _ _ [Ho _ _ _] _ _ _ _ _ _]) (U1 & U2 & U3 & U4).
  pose proof (recv_takes (given_call (I := FlvTag)) ltac:(intros [] [] i; by exists (Ok []), tt; split; [|cbn; lia])
    (negb (nd_ended (ec_mux c))) tt (ec_sink c) Ho U4) as Ht.
  cbn [chain_step chain_turn]. destruct (node_recv _ _ _ (ec_sink c)) as [outs sink]. destruct Ht as (? & ? & Hcap & _).
  unfold uncut, caps, waits. cbn [with_sink ec_otel ec_seq ec_mux ec_sink Datatypes.snd]. split_and!; congruence.
Qed.

Lemma mux_turn c : chain_reached c -> uncut c ->
  let c' := chain_step hls_ok codec_params c (ChainTurn FlvMuxTask) in
  uncut c' /\ caps c' = caps c
  /\ exists k, waits c' = (waiting_in (ec_otel c), waiting_in (ec_seq c), pred (waiting_in (ec_mux c)), k)
      /\ (k <= waiting_in (ec_sink c) + min 1 (waiting_in (ec_mux c)))%nat.
Proof.
  intros (sent & first & flv & hls & o1 & o2 & tags & [_ _ _ _ _ [Ho _ _ _] [Hs _ _ _] _ _ _ _ E4 _]) (U1 & U2 & U3 & U4).
  pose proof (turn_takes (negb (nd_ended (ec_seq c))) [negb (nd_ended (ec_sink c))] (ec_mux c)) as Ht.
  specialize (Ht ltac:(intros s i; cbn; unfold flv_mux_process; destruct (pk_codec i); cbn; try lia; destruct (mux_video s i); cbn; lia) Ho U3).
  assert (waiting_in (ec_mux c) <> 0%nat -> should_process (ec_mux c).(nd_state) [negb (nd_ended (ec_sink c))] = true) as Hw.
  { intros Hn. cbn. destruct (nd_ended (ec_sink c)) eqn:Es; [|done]. exfalso. apply Hn.
    unfold waiting_in. rewrite (no_finished _ Ho); [done|]. unfold finished. rewrite U3, E4; [done|].
    unfold finished. by rewrite Es, U4. }
  specialize (Ht Hw). cbn [chain_step chain_turn]. destruct (processor_turn _ _ (ec_mux c)) as [outs mux].
  destruct Ht as (? & Hwm & Hcap & Hlen). rewrite send1_push. destruct (push_waiting (ec_sink c) outs) as (? & ? & ?).
  unfold uncut, caps, waits. cbn [with_sink with_mux ec_otel ec_seq ec_mux ec_sink]. split_and!; try congruence.
  eexists. split; [by rewrite Hwm|]. lia.
Qed.

Lemma seq_turn c : chain_reached c -> uncut c ->
  let c' := chain_step hls_ok codec_params c (ChainTurn SeqCacheTask) in
  uncut c' /\ caps c' = caps c
  /\ exists k, waits c' = (waiting_in (ec_otel c), pred (waiting_in (ec_seq c)), k, waiting_in (ec_sink c))
      /\ (k <= waiting_in (ec_mux c) + min 1 (waiting_in (ec_seq c)))%nat.
Proof.
  intros (sent & first & flv & hls & o1 & o2 & tags & [_ _ _ _ [Ho _ _ _] _ _ _ _ _ _ _ _]) (U1 & U2 & U3 & U4).
  pose proof (turn_takes (O := EncodedPacket) (negb (nd_ended (ec_otel c))) [] (ec_seq c) (fun s i => le_n 1) Ho U2 (fun _ => eq_refl)) as Ht.
  cbn [chain_step chain_turn]. destruct (processor_turn _ _ (ec_seq c)) as [outs seq].
  destruct Ht as (? & Hws & Hcap & Hlen). rewrite send2_push. destruct (push_waiting (ec_mux c) outs) as (? & ? & ?).
  unfold uncut, caps, waits. cbn [with_seq with_hls with_mux ec_otel ec_seq ec_mux ec_sink]. split_and!; try congruence.
  eexists. split; [by rewrite Hws|]. lia.
Qed.

Lemma otel_turn c : chain_reached c -> uncut c ->
  let c' := chain_step hls_ok codec_params c (ChainTurn OTelTask) in
  uncut c' /\ caps c' = caps c
  /\ exists k, waits c' = (pred (waiting_in (ec_otel c)), k, waiting_in (ec_mux c), waiting_in (ec_sink c))
      /\ (k <= waiting_in (ec_seq c) + min 1 (waiting_in (ec_otel c)))%nat.
Proof.
  intros (sent & first & flv & hls & o1 & o2 & tags & [_ _ _ [Ho _ _ _] _ _ _ _ _ _ _ _ _]) (U1 & U2 & U3 & U4).
  pose proof (turn_takes (S := OTelProbe) (O := EncodedPacket) (ec_senders c) [] (ec_otel c) (fun s i => le_n 1) Ho U1 (fun _ => eq_refl)) as Ht.
  cbn [chain_step chain_turn]. destruct (processor_turn _ _ (ec_otel c)) as [outs otel].
  destruct Ht as (? & Hws & Hcap & Hlen). rewrite send1_push. destruct (push_waiting (ec_seq c) outs) as (? & ? & ?).
  unfold uncut, caps, waits. cbn [with_seq with_otel ec_otel ec_seq ec_mux ec_sink]. split_and!; try congruence.
  eexists. split; [by rewrite Hws|]. lia.
Qed.

Lemma reached_step c ev : chain_reached c -> chain_reached (chain_step hls_ok codec_params c ev).
Proof. intros (sent & first & flv & hls & Hc). eexists _, _, _, _. by apply chain_step_ok. Qed.

Lemma round_drains c : chain_reached c -> uncut c -> flv_room c = true ->
  let '(k1, k2, k3) := caps c in (1 < k1)%nat -> (1 < k2)%nat -> (1 < k3)%nat ->
  let c' := pipeline_run hls_ok codec_params c flv_round in
  chain_reached c' /\ uncut c' /\ caps c' = caps c /\ always hls_ok codec_params flv_room c flv_round = true
  /\ flv_room c' = true /\ (flv_waiting c' = 0%nat \/ (flv_waiting c' < flv_waiting c)%nat).
Proof.
  intros Hc Hu Hr. unfold caps at 1. intros K1 K2 K3.
  unfold flv_round, pipeline_run. cbn [map foldl pipeline_step always].
  set (c1 := chain_step _ _ c _). set (c2 := chain_step _ _ c1 _). set (c3 := chain_step _ _ c2 _). set (c4 := chain_step _ _ c3 _).
  pose proof (reached_step c (ChainTurn FlvSinkTask) Hc) as H1. fold c1 in H1.
  pose proof (reached_step c1 (ChainTurn FlvMuxTask) H1) as H2. fold c2 in H2.
  pose proof (reached_step c2 (ChainTurn SeqCacheTask) H2) as H3. fold c3 in H3.
  pose proof (reached_step c3 (ChainTurn OTelTask) H3) as H4. fold c4 in H4.
  destruct (sink_turn c Hc Hu) as (U1 & C1 & W1). fold c1 in U1, C1, W1.
  destruct (mux_turn c1 H1 U1) as (U2 & C2 & k2 & W2 & B2). fold c2 in U2, C2, W2.
  destruct (seq_turn c2 H2 U2) as (U3 & C3 & k3 & W3 & B3). fold c3 in U3, C3, W3.
  destruct (otel_turn c3 H3 U3) as (U4 & C4 & k4 & W4 & B4). fold c4 in U4, C4, W4.
  clearbody c1 c2 c3 c4. apply flv_room_spec in Hr as (R1 & R2 & R3).
  unfold waits, caps in *. injection W1 as ? ? ? ?. injection W2 as ? ? ? ?. injection W3 as ? ? ? ?. injection W4 as ? ? ? ?.
  injection C1 as ? ? ?. injection C2 as ? ? ?. injection C3 as ? ? ?. injection C4 as ? ? ?.
  assert (flv_room c1 = true /\ flv_room c2 = true /\ flv_room c3 = true /\ flv_room c4 = true) as (-> & -> & -> & ->).
  { rewrite !flv_room_spec. lia. }
  split_and!; try done; [congruence|]. unfold flv_waiting. lia.
Qed.

Lemma always_app room evs1 evs2 : forall b, always hls_ok codec_params room b (evs1 ++ evs2)
  = always hls_ok codec_params room b evs1 && always hls_ok codec_params room (pipeline_run hls_ok codec_params b evs1) evs2.
Proof. induction evs1 as [|ev evs1 IH]; intros b; [done|]. cbn. by rewrite IH, andb_assoc. Qed.

Lemma offers_app evs1 evs2 : forall b, offers hls_ok codec_params b (evs1 ++ evs2)
  = offers hls_ok codec_params b evs1 ++ offers hls_ok codec_params (pipeline_run hls_ok codec_params b evs1) evs2.
Proof. induction evs1 as [|ev evs1 IH]; intros b; [done|]. cbn. by rewrite IH, app_assoc. Qed.

Lemma rounds_offer_nothing rounds : forall c, offers hls_ok codec_params c (concat (replicate rounds flv_round)) = [].
Proof. induction rounds as [|rounds IH]; intros c; [done|]. cbn [replicate concat]. rewrite offers_app, IH. done. Qed.

Lemma always_last room evs : forall c, room c = true -> always hls_ok codec_params room c evs = true ->
  room (pipeline_run hls_ok codec_params c evs) = true.
Proof. induction evs as [|ev evs IH]; intros c Hc; [done|]. cbn. intros [? ?]%andb_true_iff. by apply IH. Qed.

(** Pads keep their capacity. *)
Lemma recv_capacity {S A I O} (f : S -> A -> I -> option (result unit (list O) * S)) senders a n :
  fst (fst (nd_input (snd (node_recv f senders a n)))) = fst (fst (nd_input n)).
Proof.
  unfold node_recv. destruct (nd_ended n); [done|]. destruct (q_items _); [by destruct senders|]. by destruct (f _ _ _) as [[? ?]|].
Qed.

Lemma turn_capacity {S I O} `{Processor S I O} senders wanted (n : Node S unit I) :
  fst (fst (nd_input (snd (processor_turn (O := O) senders wanted n)))) = fst (fst (nd_input n)).
Proof. unfold processor_turn. destruct (should_process _ _); [apply recv_capacity|done]. Qed.

Lemma cancelled_capacity {S A I} (n : Node S A I) : fst (fst (nd_input (node_cancelled n))) = fst (fst (nd_input n)).
Proof. unfold node_cancelled. by destruct (nd_ended n). Qed.

Lemma push_capacity {I} (q : list_queue I) outs : fst (fst (foldl push q outs)) = fst (fst q).
Proof. destruct (pushes outs q) as (taken & -> & _). done. Qed.

Lemma step_capacities c ev : caps (pipeline_step hls_ok codec_params c ev) = caps c.
Proof.
  unfold caps. destruct ev as [pkt|[[]|[]|]]; cbn [pipeline_step chain_step chain_turn];
    try (cbn; rewrite ?cancelled_capacity; done).
  - destruct (ec_senders c); [|done]. unfold chain_send. by destruct (mpsc_send _ _) as [[|[]] q].
  - destruct (processor_turn _ _ (ec_otel c)). cbn. by rewrite send1_push, push_capacity.
  - pose proof (turn_capacity (O := EncodedPacket) (negb (nd_ended (ec_otel c))) [] (ec_seq c)) as Ht.
    destruct (processor_turn _ _ (ec_seq c)). rewrite send2_push. cbn in *. by rewrite Ht, push_capacity.
  - pose proof (turn_capacity (O := FlvTag) (negb (nd_ended (ec_seq c))) [negb (nd_ended (ec_sink c))] (ec_mux c)) as Ht.
    destruct (processor_turn _ _ (ec_mux c)). cbn in *. by rewrite Ht, send1_push, push_capacity.
  - cbn. by rewrite recv_capacity.
Qed.

Lemma run_capacities evs : forall c, caps (pipeline_run hls_ok codec_params c evs) = caps c.
Proof.
  induction evs as [|ev evs IH]; intros c; [done|]. unfold pipeline_run in *. cbn [foldl]. by rewrite IH, step_capacities.
Qed.

(** Turns alone get everything out that waits, and fill no pad. *)
Lemma chain_drains c : chain_reached c -> uncut c -> flv_room c = true ->
  let '(k1, k2, k3) := caps c in (1 < k1)%nat -> (1 < k2)%nat -> (1 < k3)%nat ->
  exists rounds, let turns := concat (replicate rounds flv_round) in
    flv_settled (pipeline_run hls_ok codec_params c turns) = true /\ always hls_ok codec_params flv_room c turns = true.
Proof.
  remember (flv_waiting c) as w eqn:Ew. revert c Ew. induction (Nat.lt_wf_0 w) as [w _ IH]. intros c -> Hc Hu Hr.
  pose proof (round_drains c Hc Hu Hr) as Hround. destruct (caps c) as [[k1 k2] k3] eqn:Ecaps. intros K1 K2 K3.
  destruct (decide (flv_waiting c = 0%nat)) as [E|E].
  { exists 0%nat. cbn. split; [|done]. unfold flv_waiting, waiting_in in E. destruct Hu as (U1 & U2 & U3 & U4).
    unfold flv_settled, drained. rewrite U1, U2, U3, U4. cbn [negb andb].
    destruct (q_items (nd_input (ec_otel c))), (q_items (nd_input (ec_seq c))), (q_items (nd_input (ec_mux c))),
      (q_items (nd_input (ec_sink c))); cbn in E; done || lia. }
  destruct (Hround K1 K2 K3) as (Hc' & Hu' & Hcap & Ha & Hr' & Hw). set (c' := pipeline_run _ _ c flv_round) in *.
  assert (flv_waiting c' < flv_waiting c)%nat as Hlt by lia.
  specialize (IH _ Hlt c' eq_refl Hc' Hu' Hr'). rewrite Hcap in IH. destruct (IH K1 K2 K3) as (rounds & Hset & Hal).
  exists (S rounds). cbn [replicate concat]. unfold pipeline_run in *. rewrite foldl_app. split; [exact Hset|].
  rewrite always_app, Ha. exact Hal.
Qed.
End Draining.

(** C5: What the running pipeline does with the packets its source hands it,
    whatever the interleaving of its tasks, the ends of its source and the
    cancellations. The FLV sink is given tags the mux made of packets that were
    accepted, and the HLS branch accepted packets, in order and each once; where the
    256 entries of an inner pad run out the packet or the tag is dropped for good.
    While no inner pad is full the sink is given the first tags of what the mux
    makes of all the accepted packets, and the HLS branch the first of them; and
    unless a task of the way is cut off, which only a cancellation does, nothing is
    lost: once nothing waits the sink has been given every tag, also when the source
    is gone and the tasks have ended one after the other, and turns of the tasks
    alone lead there. *)
Theorem chain_delivers hls_ok codec_params src_rx evs :
  let c0 := build_encoded_chain hls_ok codec_params src_rx in
  let run := pipeline_run hls_ok codec_params in
  let c := run c0 evs in
  let accepted := taken (offers hls_ok codec_params c0 evs) in
  let muxed := processed (ec_mux c) in let tags := processed (ec_sink c) in let segmented := processed (ec_hls c) in
  let all_tags := fst (flv_mux_run FlvMux_new accepted) in
  muxed `sublist_of` accepted /\ tags `sublist_of` fst (flv_mux_run FlvMux_new muxed) /\ segmented `sublist_of` accepted
  /\ (always hls_ok codec_params flv_room c0 evs = true ->
       tags `prefix_of` all_tags
       /\ (flv_settled c = true -> tags = all_tags)
       /\ (uncut c -> exists rounds,
             processed (ec_sink (run c (concat (replicate rounds flv_round)))) = all_tags))
  /\ (always hls_ok codec_params hls_room c0 evs = true ->
       segmented `prefix_of` accepted /\ (hls_settled c = true -> segmented = accepted)).
Proof.
  intros c0 run c accepted muxed tags segmented all_tags.
  assert (chain_ok [] true true true c0) as H0 by apply build_encoded_chain_ok.
  assert (forall more, chain_ok (taken (offers hls_ok codec_params c0 (evs ++ more))) true
    (always hls_ok codec_params flv_room c0 (evs ++ more)) (always hls_ok codec_params hls_room c0 (evs ++ more)) (run c0 (evs ++ more))) as Hrun.
  { intros more. exact (proj1 (pipeline_run_ok hls_ok codec_params (evs ++ more) [] true true c0 H0 eq_refl)). }
  pose proof (Hrun []) as Hc. rewrite app_nil_r in Hc. fold accepted c in Hc.
  destruct (chain_ok_delivers _ _ _ _ _ Hc) as (S1 & S2 & S3 & Hflv & Hhls).
  split_and!; [done..| |].
  - intros Hr. destruct (Hflv Hr) as (_ & Hp & Hall). split_and!; [done..|]. intros Hu.
    assert (flv_room c = true) as Hroom by by apply always_last.
    pose proof (chain_drains hls_ok codec_params c ltac:(by eexists _, _, _, _) Hu Hroom) as Hd.
    assert (caps c = (256%nat, 256%nat, 256%nat)) as Ec by by apply run_capacities.
    rewrite Ec in Hd. destruct (Hd ltac:(cbn; lia) ltac:(cbn; lia) ltac:(cbn; lia)) as (rounds & Hset & Hal).
    exists rounds. pose proof (Hrun (concat (replicate rounds flv_round))) as Hc'.
    rewrite always_app, offers_app, rounds_offer_nothing, app_nil_r in Hc'. fold accepted in Hc'.
    unfold run, pipeline_run in Hc'. rewrite foldl_app in Hc'. fold (pipeline_run hls_ok codec_params c0 evs) in Hc'.
    change (pipeline_run hls_ok codec_params c0 evs) with c in Hc'. rewrite Hr, Hal in Hc'.
    destruct (chain_ok_delivers _ _ _ _ _ Hc') as (_ & _ & _ & Hflv' & _).
    by apply Hflv'.
  - intros Hr. by apply Hhls.
Qed.

(** Two packets through four tasks; and an FLV pad that is full drops the third. *)
Example chain_delivers_example :
  let key ms := mkPacket H264 0 (AnnexB [0; 0; 0; 1; 0x65]) (Some ms) (Some ms) true false false None in
  let c0 := build_encoded_chain true [] 512 in
  let evs := [SourceSends (key 0); SourceSends (key 40)] ++ concat (replicate 8 flv_round) in
  let c := pipeline_run true [] c0 evs in
  flv_settled c = true /\ processed (ec_sink c) = fst (flv_mux_run FlvMux_new [key 0; key 40])
  /\ length (processed (ec_sink c)) = 2%nat.
Proof. vm_compute. done. Qed.

(** The mux waits for its sink, and the pad before it holds 256 packets: the ones
    after are gone, though the source was told they were taken. *)
Example full_inner_pad_drops :
  let key ms := mkPacket H264 0 (AnnexB [0; 0; 0; 1; 0x65]) (Some ms) (Some ms) true false false None in
  let c0 := build_encoded_chain true [] 512 in
  let offer i := [SourceSends (key (Z.of_nat i)); ChainMoves (ChainTurn OTelTask); ChainMoves (ChainTurn SeqCacheTask)] in
  let evs := concat (map offer (seq 0 258)) ++ concat (replicate 300 flv_round) in
  let c := pipeline_run true [] c0 evs in
  length (taken (offers true [] c0 evs)) = 258%nat /\ length (processed (ec_sink c)) = 256%nat /\ flv_settled c = true.
Proof. vm_compute. done. Qed.
