(* ===== verification/Engine.v ===== *)
(** * Pipeline execution
    [livestream-pipeline/src/engine.rs] and the pipeline handle of
    [livestream-core/src/traits/pipeline.rs]. Tasks are represented by the time
    they end; times are in nanoseconds. *)
From stdpp Require Import list.
From S2P Require Import Prelude Types.

Inductive PipelineState := Initializing | Running | Draining | Terminated.

#[export] Instance PipelineState_eq_dec : EqDecision PipelineState.
Proof. solve_decision. Defined.

(** The discriminants stored in the atomic byte. *)
Definition discriminant (s : PipelineState) : Z :=
  match s with Initializing => 0 | Running => 1 | Draining => 2 | Terminated => 3 end.

(** [PipelineHandle::state]; [None] is the unreachable branch. *)
Definition load_state (b : Z) : option PipelineState :=
  if b =? 0 then Some Initializing else if b =? 1 then Some Running
  else if b =? 2 then Some Draining else if b =? 3 then Some Terminated else None.

(** [PipelineHandle]: the shared byte and whether the token is cancelled. *)
Record PipelineHandle := mkPipelineHandle { ph_state : Z; ph_cancelled : bool }.

Definition PipelineHandle_new (cancelled : bool) : PipelineHandle :=
  mkPipelineHandle (discriminant Initializing) cancelled.
Definition state (h : PipelineHandle) : option PipelineState := load_state (ph_state h).
Definition set_state (h : PipelineHandle) (s : PipelineState) : PipelineHandle :=
  mkPipelineHandle (discriminant s) (ph_cancelled h).

(** A spawned task: when it ends by itself once the token is cancelled, if it
    does, and whether it panics then. *)
Record Task := mkTask { tk_ends : option Z; tk_panics : bool }.

Inductive Fate := Finished | Aborted.

#[export] Instance Fate_eq_dec : EqDecision Fate.
Proof. solve_decision. Defined.

Record PipelineImpl := mkPipeline { pi_handle : PipelineHandle; pi_tasks : list Task }.

Definition with_shared_tasks (handle : PipelineHandle) (tasks : list Task) : PipelineImpl := mkPipeline handle tasks.
Definition push_tasks (p : PipelineImpl) (handles : list Task) : PipelineImpl :=
  mkPipeline (pi_handle p) (pi_tasks p ++ handles).

Definition SHUTDOWN_TIMEOUT : Z := from_secs 5.

(** [drain_all]: the fate of each task, and the time when the last was settled.
    [tokio::time::timeout] polls the task first, so a task that has ended by the
    deadline is finished, even when it already had. *)
Fixpoint drain_loop (tasks : list Task) (deadline now : Z) : list Fate * Z :=
  match tasks with
  | [] => ([], now)
  | task :: tasks =>
      let remaining := sat_sub deadline now in
      if remaining =? 0 then
        let '(fates, now) := drain_loop tasks deadline now in (Aborted :: fates, now)
      else
        match tk_ends task with
        | Some t =>
            if t <=? now + remaining
            then let '(fates, now) := drain_loop tasks deadline (Z.max now t) in (Finished :: fates, now)
            else let '(fates, now) := drain_loop tasks deadline (now + remaining) in (Aborted :: fates, now)
        | None => let '(fates, now) := drain_loop tasks deadline (now + remaining) in (Aborted :: fates, now)
        end
  end.

Definition drain_all (tasks : list Task) (timeout now : Z) : list Fate * Z :=
  drain_loop tasks (now + timeout) now.

(** [shutdown] at time [now]; [late]: the handles pushed while it drained. The
    fates of the tasks taken first, of the late ones, and the time of return. *)
Definition shutdown (p : PipelineImpl) (late : list Task) (now : Z) : list Fate * list Fate * Z * PipelineImpl :=
  let handle := mkPipelineHandle (ph_state (set_state (pi_handle p) Draining)) true in
  match pi_tasks p with
  | [] => ([], [], now, mkPipeline (set_state handle Terminated) late)
  | tasks =>
      let '(fates, now) := drain_all tasks SHUTDOWN_TIMEOUT now in
      (fates, map (fun _ => Aborted) late, now, mkPipeline (set_state handle Terminated) [])
  end.

(** [run]: it waits for the token, then shuts down. *)
Definition run (p : PipelineImpl) (late : list Task) (cancelled_at : Z) : list Fate * list Fate * Z * PipelineImpl :=
  shutdown (mkPipeline (set_state (pi_handle p) Running) (pi_tasks p)) late cancelled_at.

(** ** Properties *)

Lemma load_discriminant s : load_state (discriminant s) = Some s.
Proof. by destruct s. Qed.

Definition ends_by (d : Z) (task : Task) : Prop := exists t, tk_ends task = Some t /\ t <= d.
Definition ends_before (d : Z) (task : Task) : Prop := exists t, tk_ends task = Some t /\ t < d.

Lemma drain_loop_time tasks d : forall now, now <= d -> now <= snd (drain_loop tasks d now) <= d.
Proof.
  induction tasks as [|task tasks IH]; intros now Hn; cbn; [lia|]. unfold sat_sub.
  assert (forall n, now <= n <= d -> now <= snd (drain_loop tasks d n) <= d) as Hs by (intros n ?; specialize (IH n); lia).
  repeat case_match; to_prop; cbn; simplify_eq;
    match goal with E : drain_loop _ _ ?n = _ |- _ => pose proof (Hs n) as Hb; rewrite E in Hb; cbn in Hb end; lia.
Qed.

Lemma drain_loop_fates tasks d : forall now, now <= d ->
  length (fst (drain_loop tasks d now)) = length tasks
  /\ forall i task, tasks !! i = Some task ->
     (fst (drain_loop tasks d now) !! i = Some Finished
      <-> now < d /\ ends_by d task /\ Forall (ends_before d) (take i tasks)).
Proof.
  induction tasks as [|task tasks IH]; intros now Hn; cbn [drain_loop]; [done|].
  assert (forall n f, now <= n <= d ->
    (f = Finished <-> now < d /\ ends_by d task) ->
    (n < d <-> now < d /\ ends_before d task) ->
    length (f :: fst (drain_loop tasks d n)) = length (task :: tasks)
    /\ forall i tk, (task :: tasks) !! i = Some tk ->
       ((f :: fst (drain_loop tasks d n)) !! i = Some Finished
        <-> now < d /\ ends_by d tk /\ Forall (ends_before d) (take i (task :: tasks)))) as Hcons.
  { intros n f Hb Hf Hd. destruct (IH n ltac:(lia)) as [Hl Hi]. split; [cbn; by rewrite Hl|].
    intros [|i] tk Htk; cbn in *.
    - injection Htk as ->. split; [intros [= ->]; naive_solver|]. intros (? & ? & _). f_equal. tauto.
    - rewrite (Hi i tk Htk), Forall_cons. tauto. }
  unfold sat_sub. destruct (Z.eqb_spec (Z.max 0 (d - now)) 0) as [E|E].
  - specialize (Hcons now Aborted). destruct (drain_loop tasks d now). apply Hcons; [lia|split; [done|lia]|lia].
  - assert (now + Z.max 0 (d - now) = d) as -> by lia.
    destruct (tk_ends task) as [t|] eqn:Et.
    + destruct (Z.leb_spec t d).
      * specialize (Hcons (Z.max now t) Finished). destruct (drain_loop tasks d _). apply Hcons; [lia| |].
        { split; [|done]. intros _. split; [lia|]. by exists t. }
        { split; [intros; split; [lia|]; exists t; split; [done|lia]|]. intros [_ (t' & Ht' & ?)]. simplify_eq. lia. }
      * specialize (Hcons d Aborted). destruct (drain_loop tasks d _). apply Hcons; [lia| |].
        { split; [done|]. intros [_ (t' & Ht' & ?)]. simplify_eq. lia. }
        { split; [lia|]. intros [_ (t' & Ht' & ?)]. simplify_eq. lia. }
    + specialize (Hcons d Aborted). destruct (drain_loop tasks d _). apply Hcons; [lia| |].
      { split; [done|]. intros [_ (t' & Ht' & ?)]. simplify_eq. }
      { split; [lia|]. intros [_ (t' & Ht' & ?)]. simplify_eq. }
Qed.

(** C39: once its token is cancelled a running pipeline terminates within five
    seconds, every task it started being finished or aborted by then (so are the
    handles registered while it drained); a task is given up exactly when it, or
    one drained before it, has not ended by the deadline: after a straggler the
    remaining tasks are aborted even if they had ended. *)
Theorem shutdown_bounded p late now :
  let '(fates, late_fates, t, p') := run p late now in
  now <= t <= now + 5000000000
  /\ state (pi_handle p') = Some Terminated /\ ph_cancelled (pi_handle p') = true
  /\ length fates = length (pi_tasks p)
  /\ (pi_tasks p = [] \/ (late_fates = map (fun _ => Aborted) late /\ pi_tasks p' = []))
  /\ forall i task, pi_tasks p !! i = Some task ->
     (fates !! i = Some Finished
      <-> ends_by (now + 5000000000) task /\ Forall (ends_before (now + 5000000000)) (take i (pi_tasks p))).
Proof.
  unfold run, shutdown. cbn [pi_tasks pi_handle]. destruct (pi_tasks p) as [|task tasks] eqn:Et.
  { split_and!; [lia..|done|done|done|by left|done]. }
  unfold drain_all. set (d := now + SHUTDOWN_TIMEOUT). assert (now + 5000000000 = d) as -> by done.
  assert (now < d) by (unfold d, SHUTDOWN_TIMEOUT, from_secs; lia).
  pose proof (drain_loop_time (task :: tasks) d now ltac:(lia)) as Ht.
  destruct (drain_loop_fates (task :: tasks) d now ltac:(lia)) as [Hl Hf].
  destruct (drain_loop (task :: tasks) d now) as [fates t]. cbn in Ht.
  split_and!; [lia..|done|done|done|by right|].
  intros i tk Hi. rewrite (Hf i tk Hi). tauto.
Qed.

Lemma shutdown_bounded_witness :
  let p := mkPipeline (PipelineHandle_new false) [mkTask (Some 7) false; mkTask None false; mkTask (Some 3) true] in
  let '(fates, _, _, _) := run p [] 0 in
  fates !! 0%nat = Some Finished
  <-> ends_by 5000000000 (mkTask (Some 7) false) /\ Forall (ends_before 5000000000) [].
Proof.
  cbv zeta.
  pose proof (shutdown_bounded
    (mkPipeline (PipelineHandle_new false) [mkTask (Some 7) false; mkTask None false; mkTask (Some 3) true]) [] 0) as H.
  destruct (run _ [] 0) as [[[fates lf] t] p'].
  exact (proj2 (proj2 (proj2 (proj2 (proj2 H)))) 0%nat (mkTask (Some 7) false) eq_refl).
Defined.
