(* ===== verification/RtspWire.v ===== *)
(** * RTSP interleaved reader
    [livestream-transport/src/rtsp/rtp.rs]: what is read from the connection of a
    recording session. The connection is the list of bytes still to come; reading
    past its end is the end-of-file error. *)
From Stdlib Require Import Ascii String.
From stdpp Require Import strings list.
From S2P Require Import Prelude Config.

Definition MAX_INBAND_REQUEST_SIZE : nat := 64 * 1024.
Definition MAX_REQUEST_LINE_SIZE : nat := 4096.

Inductive RtpReadItem :=
| Interleaved (channel : Z) (payload : bytes)
| RtspRequest (data : bytes)
| Stray (data : bytes).

Inductive LineRead := LineRequest (line : bytes) | LineStray (data : bytes).

Inductive read_error := Eof | RequestTooLarge | BodyTooLarge.

(** The bytes of an ASCII literal. *)
Definition lit (s : string) : bytes := map (fun c => Z.of_nat (nat_of_ascii c)) (list_ascii_of_string s).

(** ** Reading *)

Definition read_u8 (input : bytes) : result read_error (Z * bytes) :=
  match input with [] => Err Eof | b :: input => Ok (b, input) end.

Definition read_exact (n : nat) (input : bytes) : result read_error (bytes * bytes) :=
  if (length input <? n)%nat then Err Eof else Ok (take n input, drop n input).

Definition read_u16 (input : bytes) : result read_error (Z * bytes) :=
  let? '(b, input) := read_exact 2 input in Ok (be_val b, input).

Definition read_frame_payload (input : bytes) : result read_error (bytes * bytes) :=
  let? '(len, input) := read_u16 input in read_exact (Z.to_nat len) input.

(** ** Request lines *)

(** [slice::split]: one piece more than there are separators. *)
Fixpoint split_on (sep : Z) (l : bytes) : list bytes :=
  match l with
  | [] => [[]]
  | b :: l =>
      if b =? sep then [] :: split_on sep l
      else match split_on sep l with [] => [[b]] | p :: ps => (b :: p) :: ps end
  end.

Definition strip_suffix (suffix l : bytes) : option bytes :=
  let n := (length l - length suffix)%nat in
  if decide ((length suffix <= length l)%nat /\ drop n l = suffix) then Some (take n l) else None.

Definition starts_with (prefix l : bytes) : bool := bool_decide (take (length prefix) l = prefix).
Definition ends_with (suffix l : bytes) : bool := is_some (strip_suffix suffix l).

Definition method_byte (b : Z) : bool :=
  ((65 <=? b) && (b <=? 90)) || ((48 <=? b) && (b <=? 57)) || (b =? 95).

Definition is_rtsp_request_line (line : bytes) : bool :=
  let line := default line (strip_suffix [10] line) in
  let line := default line (strip_suffix [13] line) in
  match split_on 32 line with
  | [method; uri; version] =>
      negb (length method =? 0)%nat && negb (length uri =? 0)%nat && forallb method_byte method
      && starts_with (lit "RTSP/") version
  | _ => false
  end.

(** ** Content-Length *)

(** [str::lines]: a carriage return belongs to the end of a line only before a line
    feed. *)
Definition lines (text : bytes) : list bytes :=
  let pieces := split_on 10 text in
  map (fun l => default l (strip_suffix [13] l)) (removelast pieces)
  ++ match last pieces with Some [] | None => [] | Some rest => [rest] end.

Definition trim_bytes (l : bytes) : bytes := map Z.of_nat (trim (map Z.to_nat l)).
Definition lower_byte (b : Z) : Z := if (65 <=? b) && (b <=? 90) then b + 32 else b.

(** [str::parse::<usize>]. *)
Definition digit (b : Z) : bool := (48 <=? b) && (b <=? 57).
Definition parse_usize (l : bytes) : option Z :=
  let ds := match l with 43 :: ds => ds | _ => l end in
  if (length ds =? 0)%nat || negb (forallb digit ds) then None
  else
    let n := fold_left (fun acc d => acc * 10 + (d - 48)) ds 0 in
    if n <=? u64_max then Some n else None.

Definition content_length_line (line : bytes) : option Z :=
  if starts_with (lit "content-length:") (map lower_byte (trim_bytes line)) then
    v ← split_on 58 line !! 1%nat; parse_usize (trim_bytes v)
  else None.

Definition content_length (headers : bytes) : option Z := head (omap content_length_line (lines headers)).

(** ** The reader *)

(** The loop of [read_request_line], with the bytes read so far. *)
Fixpoint read_line_loop (input : bytes) (acc : bytes) : result read_error (LineRead * bytes) :=
  if (length acc <? MAX_REQUEST_LINE_SIZE)%nat then
    match input with
    | [] => Err Eof
    | b :: input =>
        let acc := acc ++ [b] in
        if negb (b =? 10) then read_line_loop input acc
        else if is_rtsp_request_line acc then Ok (LineRequest acc, input) else Ok (LineStray acc, input)
    end
  else Ok (LineStray acc, input).

Definition read_request_line (first : Z) (input : bytes) : result read_error (LineRead * bytes) :=
  read_line_loop input [first].

(** The header loop of [read_request]. *)
Fixpoint read_headers (input : bytes) (request : bytes) : result read_error (bytes * bytes) :=
  if ends_with [13; 10; 13; 10] request then Ok (request, input)
  else if (MAX_INBAND_REQUEST_SIZE <=? length request)%nat then Err RequestTooLarge
  else match input with
       | [] => Err Eof
       | b :: input => read_headers input (request ++ [b])
       end.

Definition read_request (request input : bytes) : result read_error (bytes * bytes) :=
  let? '(request, input) := read_headers input request in
  match content_length request with
  | None => Ok (request, input)
  | Some len =>
      if Z.of_nat MAX_INBAND_REQUEST_SIZE <? Z.min u64_max (Z.of_nat (length request) + len) then Err BodyTooLarge
      else let? '(body, input) := read_exact (Z.to_nat len) input in Ok (request ++ body, input)
  end.

Definition next_item (input : bytes) : result read_error (RtpReadItem * bytes) :=
  let? '(first, input) := read_u8 input in
  if first =? 36 then
    let? '(channel, input) := read_u8 input in
    let? '(payload, input) := read_frame_payload input in
    Ok (Interleaved channel payload, input)
  else
    let? '(line, input) := read_request_line first input in
    match line with
    | LineRequest line => let? '(request, input) := read_request line input in Ok (RtspRequest request, input)
    | LineStray bytes => Ok (Stray bytes, input)
    end.

Example next_item_teardown :
  next_item (lit "TEARDOWN rtsp://h/x RTSP/1.0" ++ [13; 10] ++ lit "Content-Length: 2" ++ [13; 10; 13; 10; 7; 8; 9])
  = Ok (RtspRequest (lit "TEARDOWN rtsp://h/x RTSP/1.0" ++ [13; 10] ++ lit "Content-Length: 2"
                     ++ [13; 10; 13; 10; 7; 8]), [9]).
Proof. vm_compute. reflexivity. Qed.

(** ** Nothing is lost and everything is bounded *)

(** The bytes an item was read from. *)
Definition item_bytes (item : RtpReadItem) : bytes :=
  match item with
  | Interleaved channel payload => [36; channel] ++ be_bytes 2 (Z.of_nat (length payload)) ++ payload
  | RtspRequest data | Stray data => data
  end.

Lemma read_exact_Ok n input b rest : read_exact n input = Ok (b, rest) -> input = b ++ rest /\ length b = n.
Proof.
  unfold read_exact. case_match; [done|]. intros [= <- <-]. to_prop.
  split; [by rewrite take_drop|rewrite length_take; lia].
Qed.

Lemma read_frame_payload_Ok input payload rest : bytes_ok input ->
  read_frame_payload input = Ok (payload, rest) ->
  input = be_bytes 2 (Z.of_nat (length payload)) ++ payload ++ rest /\ Z.of_nat (length payload) <= u16_max.
Proof.
  unfold read_frame_payload, read_u16. intros Hok H.
  apply res_bind_Ok in H as ([len input'] & H1 & H2). apply res_bind_Ok in H1 as ([b input''] & H1 & [= <- <-]).
  apply read_exact_Ok in H1 as [-> Hb]. apply bytes_ok_app in Hok as [Hbo _].
  apply read_exact_Ok in H2 as [-> Hp]. pose proof (be_val_bound b Hbo) as Hv. rewrite Hb in Hv.
  rewrite Hp, Z2Nat.id by lia. rewrite <- Hb at 1. rewrite be_bytes_be_val by done. split; [done|].
  change (256 ^ Z.of_nat 2) with 65536 in Hv. unfold u16_max. lia.
Qed.

Lemma read_line_loop_Ok input : forall acc line rest, (0 < length acc <= MAX_REQUEST_LINE_SIZE)%nat ->
  read_line_loop input acc = Ok (line, rest) ->
  match line with
  | LineRequest l => acc ++ input = l ++ rest /\ is_rtsp_request_line l = true /\ (0 < length l <= MAX_REQUEST_LINE_SIZE)%nat
  | LineStray l => acc ++ input = l ++ rest /\ (0 < length l <= MAX_REQUEST_LINE_SIZE)%nat
  end.
Proof.
  induction input as [|b input IH]; intros acc line rest Ha H; cbn [read_line_loop] in H.
  { case_match; simplify_eq. by rewrite app_nil_r. }
  destruct (Nat.ltb_spec (length acc) MAX_REQUEST_LINE_SIZE); [|by simplify_eq].
  assert (0 < length (acc ++ [b]) <= MAX_REQUEST_LINE_SIZE)%nat by (rewrite length_app; cbn; lia).
  rewrite cons_middle, app_assoc. destruct (negb (b =? 10)); [by apply IH|].
  destruct (is_rtsp_request_line (acc ++ [b])) eqn:E; by simplify_eq.
Qed.

Lemma read_headers_Ok input : forall acc r rest, (length acc <= MAX_INBAND_REQUEST_SIZE)%nat ->
  read_headers input acc = Ok (r, rest) ->
  exists tl, r = acc ++ tl /\ input = tl ++ rest /\ (length r <= MAX_INBAND_REQUEST_SIZE)%nat
    /\ ends_with [13; 10; 13; 10] r = true.
Proof.
  induction input as [|b input IH]; intros acc r rest Ha H; cbn -[ends_with MAX_INBAND_REQUEST_SIZE] in H;
    (destruct (ends_with _ acc) eqn:E; [simplify_eq; exists []; by rewrite app_nil_r|]);
    (destruct (Nat.leb_spec MAX_INBAND_REQUEST_SIZE (length acc)); [done|]); [done|].
  apply IH in H as (tl & -> & -> & ? & ?); [|rewrite length_app; cbn [length]; lia].
  exists (b :: tl). by rewrite <- !app_assoc in *.
Qed.

Lemma read_request_Ok line input r rest : (length line <= MAX_INBAND_REQUEST_SIZE)%nat ->
  read_request line input = Ok (r, rest) ->
  exists tl, r = line ++ tl /\ input = tl ++ rest /\ (length r <= MAX_INBAND_REQUEST_SIZE)%nat.
Proof.
  intros Hl H. unfold read_request in H. apply res_bind_Ok in H as ([r0 input'] & H1 & H2).
  apply read_headers_Ok in H1 as (tl & -> & -> & Hlen & _); [|done].
  destruct (content_length (line ++ tl)) as [len|].
  - destruct (Z.ltb_spec (Z.of_nat MAX_INBAND_REQUEST_SIZE)
      (Z.min u64_max (Z.of_nat (length (line ++ tl)) + len))) as [|Hb]; [done|].
    apply res_bind_Ok in H2 as ([body input''] & H2 & [= <- <-]). apply read_exact_Ok in H2 as [-> Hbl].
    exists (tl ++ body). rewrite <- !app_assoc. split_and!; [done..|].
    rewrite app_assoc, length_app, Hbl.
    assert (Z.of_nat MAX_INBAND_REQUEST_SIZE = 65536) by done. unfold u64_max in Hb. lia.
  - injection H2 as <- <-. by exists tl.
Qed.

(** C34: whatever arrives on the connection of a recording session, an item the
    reader returns is made of exactly the bytes it consumed (frames with their
    four-byte header), which are at least one, so the reader always advances;
    frames hold at most 65535 bytes, requests 64 KiB and start with a request
    line, and stray data is cut after at most 4096 bytes. *)
Theorem next_item_lossless input item rest :
  bytes_ok input -> next_item input = Ok (item, rest) ->
  input = item_bytes item ++ rest /\ (length rest < length input)%nat
  /\ match item with
     | Interleaved channel payload => Z.of_nat (length payload) <= u16_max
     | RtspRequest data => (length data <= MAX_INBAND_REQUEST_SIZE)%nat
         /\ exists line tl, data = line ++ tl /\ is_rtsp_request_line line = true
     | Stray data => (length data <= MAX_REQUEST_LINE_SIZE)%nat
     end.
Proof.
  intros Hok H. unfold next_item in H. destruct input as [|first input]; [done|]. cbn [read_u8 res_bind] in H.
  apply bytes_ok_cons in Hok as [_ Hok].
  assert (forall raw, first :: input = raw ++ rest -> (0 < length raw)%nat -> (length rest < length (first :: input))%nat)
    as Hlen by (intros raw -> ?; rewrite length_app; lia).
  destruct (Z.eqb_spec first 36) as [->|_].
  - destruct input as [|channel input]; [done|]. cbn [read_u8 res_bind] in H.
    apply bytes_ok_cons in Hok as [_ Hok]. apply res_bind_Ok in H as ([payload input'] & H & [= <- <-]).
    apply read_frame_payload_Ok in H as [-> Hp]; [|done].
    assert (36 :: channel :: be_bytes 2 (Z.of_nat (length payload)) ++ payload ++ input'
      = item_bytes (Interleaved channel payload) ++ input') as Hi by (cbn; by rewrite <- ?app_assoc).
    split_and!; [done| |done]. apply (Hlen _ Hi). cbn. lia.
  - apply res_bind_Ok in H as ([line input'] & H1 & H2). unfold read_request_line in H1.
    apply read_line_loop_Ok in H1; [|cbn [length]; unfold MAX_REQUEST_LINE_SIZE; lia].
    destruct line as [l|l].
    + destruct H1 as (Hin & Hl & Hb). apply res_bind_Ok in H2 as ([r input''] & H2 & [= <- <-]).
      apply read_request_Ok in H2 as (tl & -> & -> & Hr);
        [|unfold MAX_REQUEST_LINE_SIZE, MAX_INBAND_REQUEST_SIZE in *; lia].
      assert (first :: input = item_bytes (RtspRequest (l ++ tl)) ++ input'') as Hi
        by (cbn [item_bytes]; by rewrite <- app_assoc).
      split_and!; [done| |done|by exists l, tl]. apply (Hlen _ Hi). cbn [item_bytes]. rewrite length_app. lia.
    + destruct H1 as [Hin Hb]. simplify_eq. split_and!; [done| |lia]. apply (Hlen l Hin). lia.
Qed.

Lemma next_item_lossless_witness :
  [36; 0; 0; 2; 7; 8; 9] = item_bytes (Interleaved 0 [7; 8]) ++ [9]
  /\ (length [9] < length [36; 0; 0; 2; 7; 8; 9])%nat /\ Z.of_nat (length [7; 8]) <= u16_max.
Proof.
  apply (next_item_lossless [36; 0; 0; 2; 7; 8; 9] (Interleaved 0 [7; 8]) [9]).
  - repeat constructor; vm_compute; discriminate.
  - vm_compute. reflexivity.
Defined.

(** ** Reading back what a client sent *)

(** The reader called until an error; each item consumes a byte, so the length
    of the input is enough fuel. *)
Fixpoint read_all (fuel : nat) (input : bytes) : list RtpReadItem * option read_error :=
  match fuel with
  | O => ([], None)
  | S fuel =>
      match next_item input with
      | Err e => ([], Some e)
      | Ok (item, rest) => let '(items, e) := read_all fuel rest in (item :: items, e)
      end
  end.

(** A line: its first byte is not the frame marker and it ends at its first
    newline, within the bound. *)
Definition line_ok (line : bytes) : Prop :=
  exists first l, line = first :: l ++ [10] /\ first <> 36 /\ first <> 10 /\ ~ In 10 l
    /\ (length line <= MAX_REQUEST_LINE_SIZE)%nat.

(** A request: a request line, headers up to the first empty line, and the
    body its Content-Length announces, within the bound. *)
Definition request_ok (data : bytes) : Prop :=
  exists line headers body, data = (line ++ headers) ++ body
    /\ line_ok line /\ is_rtsp_request_line line = true
    /\ ends_with [13; 10; 13; 10] (line ++ headers) = true
    /\ (forall n, (n < length headers)%nat -> ends_with [13; 10; 13; 10] (line ++ take n headers) = false)
    /\ Z.of_nat (length body) = default 0 (content_length (line ++ headers))
    /\ (length data <= MAX_INBAND_REQUEST_SIZE)%nat.

Definition item_ok (item : RtpReadItem) : Prop :=
  match item with
  | Interleaved channel payload => Z.of_nat (length payload) <= u16_max
  | RtspRequest data => request_ok data
  | Stray data => line_ok data /\ is_rtsp_request_line data = false
  end.

Lemma read_exact_app a b : read_exact (length a) (a ++ b) = Ok (a, b).
Proof.
  unfold read_exact. rewrite length_app. destruct (Nat.ltb_spec (length a + length b) (length a)); [lia|].
  by rewrite take_app_length, drop_app_length.
Qed.

Lemma read_line_loop_line l : forall acc rest, ~ In 10 l -> (length acc + length l < MAX_REQUEST_LINE_SIZE)%nat ->
  read_line_loop (l ++ [10] ++ rest) acc
  = Ok (if is_rtsp_request_line (acc ++ l ++ [10]) then LineRequest (acc ++ l ++ [10])
        else LineStray (acc ++ l ++ [10]), rest).
Proof.
  induction l as [|b l IH]; intros acc rest Hn Hl; cbn -[is_rtsp_request_line MAX_REQUEST_LINE_SIZE].
  - destruct (Nat.ltb_spec (length acc) MAX_REQUEST_LINE_SIZE); [|cbn in Hl; lia].
    by destruct (is_rtsp_request_line (acc ++ [10])).
  - destruct (Nat.ltb_spec (length acc) MAX_REQUEST_LINE_SIZE); [|cbn in Hl; lia].
    destruct (Z.eqb_spec b 10) as [->|]; [by exfalso; apply Hn; left|]. cbn [negb].
    replace (l ++ 10 :: rest) with (l ++ [10] ++ rest) by done.
    rewrite IH; [by rewrite <- !app_assoc| |rewrite length_app; cbn in *; lia].
    intros Hin. apply Hn. by right.
Qed.

Lemma read_headers_block hdr : forall acc rest,
  ends_with [13; 10; 13; 10] (acc ++ hdr) = true ->
  (forall n, (n < length hdr)%nat -> ends_with [13; 10; 13; 10] (acc ++ take n hdr) = false) ->
  (length (acc ++ hdr) <= MAX_INBAND_REQUEST_SIZE)%nat ->
  read_headers (hdr ++ rest) acc = Ok (acc ++ hdr, rest).
Proof.
  induction hdr as [|b hdr IH]; intros acc rest He Hn Hl.
  - rewrite app_nil_r in *. destruct rest; cbn -[ends_with MAX_INBAND_REQUEST_SIZE]; by rewrite He.
  - cbn -[ends_with MAX_INBAND_REQUEST_SIZE]. specialize (Hn 0%nat ltac:(cbn; lia)) as H0.
    rewrite take_0, app_nil_r in H0. rewrite H0. rewrite length_app in Hl. cbn [length] in Hl.
    destruct (Nat.leb_spec MAX_INBAND_REQUEST_SIZE (length acc)); [lia|].
    assert (acc ++ b :: hdr = (acc ++ [b]) ++ hdr) as Ha by by rewrite <- app_assoc.
    rewrite Ha in *. apply IH; [done| |rewrite !length_app in *; cbn [length] in *; lia].
    intros n Hlt. specialize (Hn (S n) ltac:(cbn; lia)). cbn [take] in Hn. by rewrite <- app_assoc.
Qed.

Lemma next_item_line line rest : line_ok line -> exists first input,
  line ++ rest = first :: input /\ first <> 36
  /\ read_request_line first input
     = Ok (if is_rtsp_request_line line then LineRequest line else LineStray line, rest).
Proof.
  intros (first & l & -> & H36 & H10 & Hn & Hl). exists first, (l ++ [10] ++ rest). split_and!; [|done|].
  - cbn. by rewrite <- app_assoc.
  - unfold read_request_line. rewrite read_line_loop_line; [done|done|].
    cbn [length] in *. rewrite length_app in Hl. cbn in Hl. cbn. lia.
Qed.

Lemma next_item_read item rest : item_ok item -> next_item (item_bytes item ++ rest) = Ok (item, rest).
Proof.
  destruct item as [channel payload|data|data]; cbn [item_ok item_bytes]; intros Hok.
  - cbn -[be_bytes read_frame_payload]. unfold read_frame_payload, read_u16.
    rewrite <- (length_be_bytes 2 (Z.of_nat (length payload))) at 1. rewrite <- app_assoc, read_exact_app. cbn -[be_val be_bytes].
    rewrite be_val_be_bytes by (unfold u16_max in Hok; change (256 ^ Z.of_nat 2) with 65536; lia).
    rewrite Nat2Z.id, read_exact_app. done.
  - destruct Hok as (line & hdr & body & -> & Hline & Hreq & He & Hn & Hb & Hl).
    destruct (next_item_line line (hdr ++ body ++ rest) Hline) as (first & input & Hin & H36 & Hr).
    rewrite <- !app_assoc, Hin. unfold next_item. cbn [read_u8 res_bind].
    destruct (Z.eqb_spec first 36); [done|]. rewrite Hr, Hreq. cbn [res_bind]. unfold read_request.
    rewrite length_app in Hl. rewrite read_headers_block by (done || lia). cbn [res_bind].
    destruct (content_length (line ++ hdr)) as [len|]; cbn [default] in Hb.
    + replace len with (Z.of_nat (length body)) by done.
      destruct (Z.ltb_spec (Z.of_nat MAX_INBAND_REQUEST_SIZE)
        (Z.min u64_max (Z.of_nat (length (line ++ hdr)) + Z.of_nat (length body)))); [lia|].
      rewrite Nat2Z.id, read_exact_app. cbn [res_bind]. by rewrite <- app_assoc.
    + destruct body; [|cbn in Hb; lia]. cbn. by rewrite app_nil_r.
  - destruct Hok as [Hline Hreq].
    destruct (next_item_line data rest Hline) as (first & input & Hin & H36 & Hr). rewrite Hin.
    unfold next_item. cbn [read_u8 res_bind]. destruct (Z.eqb_spec first 36); [done|]. rewrite Hr, Hreq. done.
Qed.

(** Frames of any channel and size up to 65535 bytes, well-formed requests
    (with or without a body) and lines of stray text, sent one after another in
    any order, are read back as exactly these items, and then the end of the
    connection is reported. *)
Theorem rtsp_wire_roundtrip items :
  Forall item_ok items ->
  read_all (S (length (concat (map item_bytes items)))) (concat (map item_bytes items)) = (items, Some Eof).
Proof.
  intros Hok. enough (forall fuel, (length (concat (map item_bytes items)) < fuel)%nat ->
    read_all fuel (concat (map item_bytes items)) = (items, Some Eof)) as H by (apply H; lia).
  induction Hok as [|item items Hi Hok IH]; intros [|fuel] Hf; try lia; [done|]. cbn [map concat read_all].
  rewrite next_item_read by done. cbn [map concat] in Hf. rewrite length_app in Hf.
  rewrite IH; [done|]. assert (0 < length (item_bytes item))%nat; [|lia].
  destruct item as [channel payload|data|data]; cbn [item_bytes]; [cbn; lia| |].
  - destruct Hi as (line & hdr & body & -> & (first & l & -> & _) & _). cbn. lia.
  - destruct Hi as [(first & l & -> & _) _]. cbn. lia.
Qed.
