(* ===== verification/Sdp.v ===== *)
(** * SDP parser
    [livestream-transport/src/rtsp/sdp.rs]. Texts are the UTF-8 bytes of a [str];
    the base64 decoder of the [base64] crate is a parameter. [None] as an outer
    result is a panic (a [str] sliced inside a character). *)
From Stdlib Require Import Ascii String.
From stdpp Require Import strings list.
From S2P Require Import Prelude Types Config RtspWire.

(** ** [String::from_utf8_lossy] *)

Definition in_range (lo hi b : Z) : bool := (lo <=? b) && (b <=? hi).

(** The ranges the continuation bytes after a lead byte must be in. *)
Definition utf8_tail (lead : Z) : option (list (Z * Z)) :=
  if in_range 0x00 0x7F lead then Some []
  else if in_range 0xC2 0xDF lead then Some [(0x80, 0xBF)]
  else if lead =? 0xE0 then Some [(0xA0, 0xBF); (0x80, 0xBF)]
  else if lead =? 0xED then Some [(0x80, 0x9F); (0x80, 0xBF)]
  else if in_range 0xE1 0xEF lead then Some [(0x80, 0xBF); (0x80, 0xBF)]
  else if lead =? 0xF0 then Some [(0x90, 0xBF); (0x80, 0xBF); (0x80, 0xBF)]
  else if in_range 0xF1 0xF3 lead then Some [(0x80, 0xBF); (0x80, 0xBF); (0x80, 0xBF)]
  else if lead =? 0xF4 then Some [(0x80, 0x8F); (0x80, 0xBF); (0x80, 0xBF)]
  else None.

(** How many of the following bytes match, and whether all ranges were met. *)
Fixpoint tail_match (ranges : list (Z * Z)) (l : bytes) : nat * bool :=
  match ranges, l with
  | [], _ => (0%nat, true)
  | (lo, hi) :: ranges, b :: l =>
      if in_range lo hi b then let '(n, ok) := tail_match ranges l in (S n, ok) else (0%nat, false)
  | _, [] => (0%nat, false)
  end.

Definition replacement : bytes := [0xEF; 0xBF; 0xBD].

Fixpoint utf8_lossy_loop (fuel : nat) (l : bytes) : bytes :=
  match fuel, l with
  | S fuel, lead :: l =>
      match utf8_tail lead with
      | None => replacement ++ utf8_lossy_loop fuel l
      | Some ranges =>
          let '(n, ok) := tail_match ranges l in
          (if ok then lead :: take n l else replacement) ++ utf8_lossy_loop fuel (drop n l)
      end
  | _, _ => []
  end.

Definition utf8_lossy (l : bytes) : bytes := utf8_lossy_loop (length l) l.

(** A position of a text that is not inside a character. *)
Definition char_boundary (text : bytes) (i : nat) : bool :=
  match text !! i with None => true | Some b => negb (in_range 0x80 0xBF b) end.

(** ** Parsing *)

Inductive sdp_error := NoMedia | InvalidRtpmap | InvalidRate | UnsupportedCodec.

Record ParsedSdp := mkParsedSdp { sdp_codec_params : list CodecParams; sdp_raw : bytes }.

(** [str::split_whitespace]: the pieces between runs of white space. *)
Fixpoint split_ws (fuel : nat) (l : list nat) (cur : list nat) : list (list nat) :=
  let flush := match cur with [] => [] | _ => [cur] end in
  match fuel, l with
  | S fuel, b :: l' =>
      match strip_one whitespace l with
      | Some rest => flush ++ split_ws fuel rest []
      | None => split_ws fuel l' (cur ++ [b])
      end
  | _, _ => flush
  end.

Definition split_whitespace (l : bytes) : list bytes :=
  map (map Z.of_nat) (split_ws (length l) (map Z.to_nat l) []).

Definition strip_prefix (prefix l : bytes) : option bytes :=
  if starts_with prefix l then Some (drop (length prefix) l) else None.

Definition find_attr_line (prefix line : bytes) : option bytes :=
  match strip_prefix prefix (trim_bytes line) with
  | Some rest =>
      match rest with
      | [] => Some (trim_bytes rest)
      | b :: _ => if (b =? 32) || (b =? 9) then Some (trim_bytes rest) else None
      end
  | None => None
  end.

Definition find_attr (sdp prefix : bytes) : option bytes := head (omap (find_attr_line prefix) (lines sdp)).

(** [u32::from_str]. *)
Definition parse_u32 (l : bytes) : option Z :=
  match parse_usize l with Some n => if n <=? u32_max then Some n else None | None => None end.

Definition codec_of_name (name : bytes) : option Codec :=
  let named s := bool_decide (name = lit s) in
  if named "h264"%string || named "h264-rs"%string then Some H264
  else if named "h265"%string || named "hevc"%string then Some H265
  else if named "mpeg4-generic"%string || named "aac"%string || named "mpeg4"%string then Some Aac
  else if named "opus"%string then Some Opus
  else if named "mp3"%string || named "mpa"%string || named "mpeg"%string then Some Mp3
  else if named "jpeg"%string || named "mjpeg"%string then Some Mjpeg
  else None.

Definition parse_rtpmap (rtpmap : bytes) : result sdp_error (Codec * Z) :=
  let codec_part := default rtpmap (last (split_whitespace rtpmap)) in
  match split_on 47 codec_part with
  | name :: rate :: _ =>
      match parse_u32 rate with
      | None => Err InvalidRate
      | Some clock_rate =>
          match codec_of_name (map lower_byte name) with
          | Some codec => Ok (codec, clock_rate)
          | None => Err UnsupportedCodec
          end
      end
  | _ => Err InvalidRtpmap
  end.

(** [str::find] of a character. *)
Fixpoint find_byte (c : Z) (l : bytes) : option nat :=
  match l with [] => None | b :: l => if b =? c then Some 0%nat else S <$> find_byte c l end.

Definition param_value (key part : bytes) : option bytes :=
  let part := trim_bytes part in
  match find_byte 61 part with
  | Some idx => if decide (trim_bytes (take idx part) = key) then Some (trim_bytes (drop (idx + 1) part)) else None
  | None => None
  end.

Definition extract_param (fmtp key : bytes) : option bytes := head (omap (param_value key) (split_on 59 fmtp)).

(** [u8::from_str_radix(_, 16)], which accepts a leading plus sign. *)
Definition hex_digit (b : Z) : option Z :=
  if in_range 48 57 b then Some (b - 48)
  else if in_range 97 102 b then Some (b - 87)
  else if in_range 65 70 b then Some (b - 55) else None.

Definition hex_byte (a b : Z) : option Z :=
  if a =? 43 then hex_digit b
  else match hex_digit a, hex_digit b with Some x, Some y => Some (x * 16 + y) | _, _ => None end.

(** The loop of [hex_decode]: each turn slices two bytes of the text, which
    panics ([None]) unless both ends are character boundaries. *)
Fixpoint hex_loop (fuel : nat) (input : bytes) (i : nat) (out : bytes) : option (result unit bytes) :=
  match fuel with
  | O => Some (Ok out)
  | S fuel =>
      if (length input <=? i)%nat then Some (Ok out)
      else if negb (char_boundary input i && char_boundary input (i + 2)) then None
      else match hex_byte (byte_at input i) (byte_at input (i + 1)) with
           | Some b => hex_loop fuel input (i + 2) (out ++ [b])
           | None => Some (Err tt)
           end
  end.

Definition hex_decode (input : bytes) : option (result unit bytes) :=
  let input := trim_bytes input in
  if negb (Nat.even (length input)) then Some (Err tt) else hex_loop (length input) input 0 [].

Section Sdp.
Context (base64_decode : bytes -> option bytes).

Definition decode_base64_part (part : bytes) : option bytes := base64_decode (trim_bytes part).

Definition parse_fmtp_config (fmtp : bytes) (codec : Codec) : option (option bytes) :=
  match codec with
  | H264 =>
      Some (match extract_param fmtp (lit "sprop-parameter-sets") with
            | None => None
            | Some sets =>
                match concat (omap decode_base64_part (split_on 44 sets)) with
                | [] => None
                | buf => Some buf
                end
            end)
  | Aac =>
      match extract_param fmtp (lit "config") with
      | None => Some None
      | Some config =>
          match hex_decode config with
          | None => None
          | Some (Ok b) => Some (Some b)
          | Some (Err _) => Some None
          end
      end
  | _ => Some None
  end.

(** One line of the body: nothing, the parameters of a medium, or an error. *)
Definition parse_media_line (sdp_body line : bytes) : option (result sdp_error (option CodecParams)) :=
  let line := trim_bytes line in
  if negb (starts_with (lit "m=") line) then Some (Ok None)
  else match split_whitespace line with
       | media_str :: _ :: _ :: payload_type :: _ =>
           let media_type :=
             if decide (media_str = lit "m=video") then Some Video
             else if decide (media_str = lit "m=audio") then Some Audio else None in
           match media_type with
           | None => Some (Ok None)
           | Some media_type =>
               let known :=
                 match find_attr sdp_body (lit "a=rtpmap:" ++ payload_type) with
                 | Some map => match parse_rtpmap map with Ok x => Ok (Some x) | Err e => Err e end
                 | None =>
                     if bool_decide (media_type = Video) && bool_decide (payload_type = lit "26")
                     then Ok (Some (Mjpeg, 90000)) else Ok None
                 end in
               match known with
               | Err e => Some (Err e)
               | Ok None => Some (Ok None)
               | Ok (Some (codec, clock_rate)) =>
                   let fmtp := default [] (find_attr sdp_body (lit "a=fmtp:" ++ payload_type)) in
                   match parse_fmtp_config fmtp codec with
                   | None => None
                   | Some extradata => Some (Ok (Some (mkCodecParams codec media_type clock_rate extradata)))
                   end
               end
           end
       | _ => Some (Ok None)
       end.

Fixpoint parse_lines (sdp_body : bytes) (ls : list bytes) (codec_params : list CodecParams) :
    option (result sdp_error (list CodecParams)) :=
  match ls with
  | [] => Some (Ok codec_params)
  | line :: ls =>
      match parse_media_line sdp_body line with
      | None => None
      | Some (Err e) => Some (Err e)
      | Some (Ok None) => parse_lines sdp_body ls codec_params
      | Some (Ok (Some p)) => parse_lines sdp_body ls (codec_params ++ [p])
      end
  end.

Definition parse_sdp (sdp_body : bytes) : option (result sdp_error ParsedSdp) :=
  match parse_lines sdp_body (lines sdp_body) [] with
  | None => None
  | Some (Err e) => Some (Err e)
  | Some (Ok []) => Some (Err NoMedia)
  | Some (Ok codec_params) => Some (Ok (mkParsedSdp codec_params sdp_body))
  end.

End Sdp.

Definition crlf : bytes := [13; 10].

Example parse_sdp_av :
  let body := lit "v=0" ++ crlf ++ lit "m=video 0 RTP/AVP 96" ++ crlf ++ lit "a=rtpmap:96 H264/90000" ++ crlf
    ++ lit "m=audio 0 RTP/AVP 97" ++ crlf ++ lit "a=rtpmap:97 mpeg4-generic/44100" ++ crlf
    ++ lit "a=fmtp:97 mode=AAC-hbr; config=1210" ++ crlf in
  parse_sdp (fun _ => None) body
  = Some (Ok (mkParsedSdp [mkCodecParams H264 Video 90000 None; mkCodecParams Aac Audio 44100 (Some [0x12; 0x10])] body)).
Proof. vm_compute. reflexivity. Qed.

(** A configuration with a two-byte character across a slice: the parser panics. *)
Example parse_sdp_panics :
  let body := lit "m=audio 0 RTP/AVP 97" ++ crlf ++ lit "a=rtpmap:97 aac/44100" ++ crlf
    ++ lit "a=fmtp:97 config=1" ++ [0xC3; 0xA9] ++ lit "2" in
  parse_sdp (fun _ => None) (utf8_lossy body) = None.
Proof. vm_compute. reflexivity. Qed.

(** ** ASCII texts never panic *)

Definition ascii_text (l : bytes) : Prop := Forall (fun b => 0 <= b < 128) l.

Lemma ascii_text_of l : forallb (fun b => (0 <=? b) && (b <? 128)) l = true -> ascii_text l.
Proof. rewrite forallb_forall. intros H. apply Forall_forall. intros b Hb%list_elem_of_In%H. to_prop. lia. Qed.

Lemma strip_one_Forall (P : nat -> Prop) pats l l' : Forall P l -> strip_one pats l = Some l' -> Forall P l'.
Proof.
  unfold strip_one. intros Hl H. apply head_Some_elem_of in H. apply list_elem_of_omap in H as (p & _ & H).
  case_decide; [|done]. injection H as <-. by apply Forall_drop.
Qed.

Lemma strip_all_Forall (P : nat -> Prop) fuel pats : forall l, Forall P l -> Forall P (strip_all fuel pats l).
Proof.
  induction fuel as [|fuel IH]; intros l Hl; [done|]. cbn. destruct (strip_one pats l) eqn:E; [|done].
  apply IH. by eapply strip_one_Forall.
Qed.

Lemma ascii_nat l : ascii_text l <-> Forall (fun n => (n < 128)%nat) (map Z.to_nat l) /\ Forall (fun b => 0 <= b) l.
Proof.
  unfold ascii_text. rewrite Forall_map, <- Forall_and. apply Forall_iff. intros b. cbn. lia.
Qed.

Lemma ascii_of_nat_list l : Forall (fun n => (n < 128)%nat) l -> ascii_text (map Z.of_nat l).
Proof. unfold ascii_text. rewrite Forall_map. intros Hl. eapply Forall_impl; [exact Hl|]. cbn. lia. Qed.

Lemma trim_ascii l : ascii_text l -> ascii_text (trim_bytes l).
Proof.
  intros [Hn _]%ascii_nat. apply ascii_of_nat_list. unfold trim.
  apply Forall_rev, strip_all_Forall, Forall_rev, strip_all_Forall, Hn.
Qed.

Lemma split_on_Forall (P : Z -> Prop) sep l : Forall P l -> Forall (Forall P) (split_on sep l).
Proof.
  induction 1 as [|b l Hb Hl IH]; cbn; [by repeat constructor|].
  destruct (b =? sep); [by constructor|]. destruct (split_on sep l) as [|p ps]; [by repeat constructor|].
  apply Forall_cons in IH as [? ?]. by repeat constructor.
Qed.

Lemma strip_suffix_Forall (P : Z -> Prop) suffix l : Forall P l -> Forall P (default l (strip_suffix suffix l)).
Proof. intros Hl. unfold strip_suffix. case_decide; [by apply Forall_take|done]. Qed.

Lemma lines_ascii l : ascii_text l -> Forall ascii_text (lines l).
Proof.
  intros Hl. unfold lines. apply (split_on_Forall _ 10) in Hl. apply Forall_app. split.
  - apply List.Forall_map. rewrite removelast_firstn_len. eapply Forall_impl; [by apply Forall_take|].
    intros x Hx. by apply strip_suffix_Forall.
  - destruct (last (split_on 10 l)) as [x|] eqn:E; [|constructor]. apply last_Some_elem_of in E.
    apply (proj1 (Forall_forall _ _) Hl) in E. destruct x; [apply Forall_nil_2|by apply Forall_singleton].
Qed.

Lemma split_ws_Forall (P : nat -> Prop) fuel : forall l cur, Forall P l -> Forall P cur ->
  Forall (Forall P) (split_ws fuel l cur).
Proof.
  assert (forall cur, Forall P cur -> Forall (Forall P) (match cur with [] => [] | _ => [cur] end)) as Hflush.
  { intros [|x cur] Hx; [apply Forall_nil_2|]. apply Forall_cons_2; [done|apply Forall_nil_2]. }
  induction fuel as [|fuel IH]; intros l cur Hl Hc; cbn [split_ws]; [by apply Hflush|].
  destruct l as [|b l]; [by apply Hflush|].
  destruct (strip_one whitespace (b :: l)) as [rest|] eqn:E.
  - apply Forall_app. split; [by apply Hflush|]. apply IH; [exact (strip_one_Forall _ _ _ _ Hl E)|constructor].
  - apply Forall_cons in Hl as [? ?]. apply IH; [done|]. apply Forall_app; split; [done|by constructor].
Qed.

Lemma split_whitespace_ascii l : ascii_text l -> Forall ascii_text (split_whitespace l).
Proof.
  intros [Hn _]%ascii_nat. unfold split_whitespace. apply List.Forall_map.
  eapply Forall_impl; [apply (split_ws_Forall _ _ _ [] Hn); constructor|]. apply ascii_of_nat_list.
Qed.

Lemma head_omap_ascii (f : bytes -> option bytes) ls x : (forall l y, ascii_text l -> f l = Some y -> ascii_text y) ->
  Forall ascii_text ls -> head (omap f ls) = Some x -> ascii_text x.
Proof.
  intros Hf Hls H. apply head_Some_elem_of in H. apply list_elem_of_omap in H as (l & Hl & Hx).
  eapply Hf; [|exact Hx]. by apply (proj1 (Forall_forall _ _) Hls).
Qed.

Lemma find_attr_ascii sdp prefix x : ascii_text sdp -> find_attr sdp prefix = Some x -> ascii_text x.
Proof.
  intros Hs. apply head_omap_ascii; [|by apply lines_ascii]. intros l y Hl%trim_ascii H.
  unfold find_attr_line, strip_prefix in H.
  assert (ascii_text (drop (length prefix) (trim_bytes l))) as Hd by by apply Forall_drop.
  destruct (starts_with prefix (trim_bytes l)); [|done].
  destruct (drop (length prefix) (trim_bytes l)) as [|b rest]; [injection H as <-; by apply trim_ascii|].
  destruct (_ || _); [|done]. injection H as <-. by apply trim_ascii.
Qed.

Lemma extract_param_ascii fmtp key x : ascii_text fmtp -> extract_param fmtp key = Some x -> ascii_text x.
Proof.
  intros Hs. apply head_omap_ascii; [|by apply split_on_Forall]. intros l y Hl%trim_ascii H.
  unfold param_value in H. repeat (case_match; try done). simplify_eq. by apply trim_ascii, Forall_drop.
Qed.

Lemma char_boundary_ascii l i : ascii_text l -> char_boundary l i = true.
Proof.
  intros Hl. unfold char_boundary. destruct (l !! i) as [b|] eqn:E; [|done].
  pose proof (Forall_lookup_1 _ _ _ _ Hl E). unfold in_range. cbn in *. destruct (Z.leb_spec 128 b); [lia|done].
Qed.

Lemma hex_decode_ascii l : ascii_text l -> hex_decode l <> None.
Proof.
  intros Hl%trim_ascii. unfold hex_decode. destruct (negb _); [done|]. generalize 0%nat, (@nil Z).
  induction (length (trim_bytes l)) as [|fuel IH]; intros i out; cbn; [done|].
  case_match; [done|]. rewrite !char_boundary_ascii by done. cbn. case_match; [apply IH|done].
Qed.

Lemma parse_fmtp_ascii b64 fmtp codec : ascii_text fmtp -> parse_fmtp_config b64 fmtp codec <> None.
Proof.
  intros Hf. unfold parse_fmtp_config. destruct codec; try done.
  destruct (extract_param fmtp (lit "config")) as [config|] eqn:E; [|done].
  pose proof (hex_decode_ascii config (extract_param_ascii _ _ _ Hf E)). by destruct (hex_decode config) as [[]|].
Qed.

Lemma parse_media_line_ascii b64 sdp line : ascii_text sdp -> parse_media_line b64 sdp line <> None.
Proof.
  intros Hs. unfold parse_media_line. repeat (case_match; try done).
  all: match goal with H : parse_fmtp_config _ ?f ?c = None |- _ => apply (parse_fmtp_ascii b64 f c) in H end; [done|].
  all: destruct (find_attr sdp (lit "a=fmtp:" ++ _)) as [x|] eqn:Ef; cbn; [by eapply find_attr_ascii|constructor].
Qed.

(** ** Hexadecimal configurations *)

Definition hex_char (n : Z) : Z := if n <? 10 then 48 + n else 87 + n.
Definition hex_encode (l : bytes) : bytes := concat (map (fun b => [hex_char (b / 16); hex_char (b mod 16)]) l).

(** Text without white space at its ends is its own trimming. *)
Lemma strip_one_graph pats n l : (forall p, p ∈ pats -> exists c p', p = c :: p' /\ (c <= 32 \/ 127 <= c)%nat) ->
  (33 <= n <= 126)%nat -> strip_one pats (n :: l) = None.
Proof.
  intros Hp Hn. unfold strip_one. destruct (head _) as [x|] eqn:E; [|done].
  apply head_Some_elem_of, list_elem_of_omap in E as (p & Hin & H). case_decide as Ht; [|done].
  destruct (Hp p Hin) as (c & p' & -> & Hc). cbn in Ht. injection Ht as Hc' _. lia.
Qed.

Definition graph_ends (pats : list (list nat)) : bool :=
  forallb (fun p => match p with c :: _ => (c <=? 32)%nat || (127 <=? c)%nat | [] => false end) pats.

Lemma graph_ends_spec pats : graph_ends pats = true ->
  forall p, p ∈ pats -> exists c p', p = c :: p' /\ (c <= 32 \/ 127 <= c)%nat.
Proof.
  unfold graph_ends. rewrite forallb_forall. intros H p Hp%list_elem_of_In. specialize (H p Hp).
  destruct p as [|c p']; [done|]. exists c, p'. split; [done|]. apply orb_true_iff in H as [H|H]; to_prop; lia.
Qed.

Lemma strip_all_graph pats fuel n l : graph_ends pats = true -> (33 <= n <= 126)%nat ->
  strip_all fuel pats (n :: l) = n :: l.
Proof.
  intros Hp Hn. destruct fuel; [done|]. cbn [strip_all].
  by rewrite strip_one_graph by (done || by apply graph_ends_spec).
Qed.

Lemma strip_all_graphs pats fuel l : graph_ends pats = true -> Forall (fun n => (33 <= n <= 126)%nat) l ->
  strip_all fuel pats l = l.
Proof.
  intros Hp Hl. destruct l as [|n l]; [|apply Forall_cons in Hl as [? _]; by apply strip_all_graph].
  destruct fuel; [done|]. cbn [strip_all]. unfold strip_one. destruct (head _) as [x|] eqn:E; [|done].
  apply head_Some_elem_of, list_elem_of_omap in E as (p & Hin & H). case_decide as Ht; [|done].
  destruct (graph_ends_spec pats Hp p Hin) as (c & p' & -> & _). done.
Qed.

Lemma trim_graph l : Forall (fun b => 33 <= b <= 126) l -> trim_bytes l = l.
Proof.
  intros Hl. assert (Forall (fun n => (33 <= n <= 126)%nat) (map Z.to_nat l)) as Hn.
  { apply List.Forall_map. eapply Forall_impl; [exact Hl|]. cbn. lia. }
  unfold trim_bytes, trim. rewrite (strip_all_graphs whitespace) by done.
  rewrite strip_all_graphs; [|done|by apply Forall_rev]. rewrite rev_involutive, map_map.
  clear Hn. induction Hl as [|b l Hb Hl IH]; [done|]. cbn. rewrite IH. f_equal. lia.
Qed.

(** Digits in either case. *)
Definition hex_text (text config : bytes) : Prop := map lower_byte text = hex_encode config.

Lemma lower_hex a n : 0 <= n < 16 -> lower_byte a = hex_char n -> hex_digit a = Some n /\ a <> 43 /\ 33 <= a <= 126.
Proof.
  intros Hn. unfold lower_byte, hex_char, hex_digit, in_range.
  intros Ha. repeat match goal with
    | H : context [Z.ltb ?x ?y] |- _ => destruct (Z.ltb_spec x y)
    | H : context [Z.leb ?x ?y] |- _ => destruct (Z.leb_spec x y)
    | |- context [Z.leb ?x ?y] => destruct (Z.leb_spec x y)
    end; cbn [andb] in *; try lia; (split; [f_equal; lia|lia]).
Qed.

Lemma hex_text_cons text b config : in_u u8_max b -> hex_text text (b :: config) ->
  exists x y rest, text = x :: y :: rest /\ hex_byte x y = Some b /\ hex_text rest config
    /\ 33 <= x <= 126 /\ 33 <= y <= 126.
Proof.
  unfold hex_text, in_u, u8_max. intros Hb Ht. destruct text as [|x [|y rest]]; try done.
  unfold hex_encode in Ht. cbn [map concat app] in Ht. injection Ht as Hx Hy Hr.
  destruct (lower_hex x (b / 16)) as (Hx1 & Hx2 & Hx3); [lia_div|done|].
  destruct (lower_hex y (b mod 16)) as (Hy1 & _ & Hy3); [lia_div|done|].
  exists x, y, rest. split_and!; try done; try lia. unfold hex_byte. rewrite Hx1, Hy1.
  destruct (Z.eqb_spec x 43); [done|]. f_equal. lia_div.
Qed.

Lemma hex_text_graph config : bytes_ok config -> forall text, hex_text text config ->
  Forall (fun b => 33 <= b <= 126) text /\ length text = (2 * length config)%nat.
Proof.
  induction 1 as [|b config Hb _ IH]; intros text Ht; [by destruct text|].
  destruct (hex_text_cons text b config Hb Ht) as (x & y & rest & -> & _ & Hr & Hx & Hy).
  destruct (IH rest Hr) as [Hf Hl]. split; [by do 2 (constructor; [done|])|cbn; lia].
Qed.

Lemma hex_loop_text config : bytes_ok config -> forall text pre out fuel, hex_text text config ->
  (2 * length config <= fuel)%nat -> ascii_text pre ->
  hex_loop fuel (pre ++ text) (length pre) out = Some (Ok (out ++ config)).
Proof.
  induction 1 as [|b config Hb Hc IH]; intros text pre out fuel Ht Hf Hp.
  - assert (text = []) as -> by by destruct text. rewrite !app_nil_r. destruct fuel; [done|]. cbn [hex_loop]. by rewrite Nat.leb_refl.
  - destruct (hex_text_graph (b :: config) ltac:(by constructor) text Ht) as [Hg Hl].
    destruct (hex_text_cons text b config Hb Ht) as (x & y & rest & -> & Hx & Hr & Hx1 & Hy1).
    assert (ascii_text (pre ++ x :: y :: rest)) as Ha.
    { apply Forall_app; split; [done|]. eapply Forall_impl; [exact Hg|]. cbn. lia. }
    destruct fuel as [|fuel]; [cbn in Hf; lia|]. cbn [hex_loop].
    destruct (Nat.leb_spec (length (pre ++ x :: y :: rest)) (length pre)) as [Hle|_].
    { rewrite length_app in Hle. cbn in Hle. lia. }
    rewrite !char_boundary_ascii by done. cbn [andb negb].
    assert (byte_at (pre ++ x :: y :: rest) (length pre) = x) as ->.
    { rewrite <- (Nat.add_0_r (length pre)). by rewrite byte_at_app_r. }
    assert (byte_at (pre ++ x :: y :: rest) (length pre + 1) = y) as -> by (by rewrite byte_at_app_r).
    rewrite Hx. replace (pre ++ x :: y :: rest) with ((pre ++ [x; y]) ++ rest) by (rewrite <- app_assoc; done).
    replace (length pre + 2)%nat with (length (pre ++ [x; y])) by (rewrite length_app; done).
    rewrite IH; [by rewrite <- app_assoc|done|cbn in Hf; lia|].
    apply Forall_app; split; [done|]. do 2 (constructor; [lia|]). constructor.
Qed.

Lemma hex_decode_text text config : bytes_ok config -> hex_text text config -> hex_decode text = Some (Ok config).
Proof.
  intros Hc Ht. destruct (hex_text_graph config Hc text Ht) as [Hg Hl]. unfold hex_decode.
  rewrite trim_graph, Hl by done. rewrite Nat.even_mul. cbn [negb orb Nat.even].
  apply (hex_loop_text config Hc text [] [] (2 * length config) Ht); [lia|constructor].
Qed.

(** ** The media of a description *)

(** The parameters of a medium line are among those of the description. *)
Lemma parse_lines_media b64 body ls : forall ps ps' line p, parse_lines b64 body ls ps = Some (Ok ps') ->
  line ∈ ls -> parse_media_line b64 body line = Some (Ok (Some p)) -> p ∈ ps'.
Proof.
  assert (forall ls ps ps', parse_lines b64 body ls ps = Some (Ok ps') -> forall p, p ∈ ps -> p ∈ ps') as Hkeep.
  { intros l. induction l as [|line l IH]; cbn; intros ps ps' H p Hp; [by simplify_eq|].
    destruct (parse_media_line b64 body line) as [[[q|]|]|]; try done; eapply IH; try done. set_solver. }
  induction ls as [|l ls IH]; intros ps ps' line p H Hin Hp; [by apply elem_of_nil in Hin|]. cbn in H.
  apply elem_of_cons in Hin as [->|Hin].
  - rewrite Hp in H. eapply Hkeep; [exact H|]. set_solver.
  - destruct (parse_media_line b64 body l) as [[[q|]|]|]; try done; by eapply IH.
Qed.

(** An audio medium of AAC: its line, its rtpmap, and the [config] of its fmtp. *)
Definition announces_aac (body line pt : bytes) (rate : Z) (text : bytes) : Prop :=
  line ∈ lines body /\ starts_with (lit "m=") (trim_bytes line) = true
  /\ (exists port proto rest, split_whitespace (trim_bytes line) = lit "m=audio" :: port :: proto :: pt :: rest)
  /\ (exists map, find_attr body (lit "a=rtpmap:" ++ pt) = Some map /\ parse_rtpmap map = Ok (Aac, rate))
  /\ exists fmtp, find_attr body (lit "a=fmtp:" ++ pt) = Some fmtp /\ extract_param fmtp (lit "config") = Some text.

Lemma aac_media_line b64 body line pt rate text config : announces_aac body line pt rate text ->
  bytes_ok config -> hex_text text config ->
  parse_media_line b64 body line = Some (Ok (Some (mkCodecParams Aac Audio rate (Some config)))).
Proof.
  intros (_ & Hm & (port & proto & rest & Hsp) & (map & Hmap & Hr) & fmtp & Hf & He) Hc Ht.
  unfold parse_media_line. rewrite Hm, Hsp. cbn [negb]. rewrite decide_False by done. rewrite decide_True by done.
  rewrite Hmap, Hr, Hf. change (default [] (Some fmtp)) with fmtp. unfold parse_fmtp_config. rewrite He.
  by rewrite (hex_decode_text text config).
Qed.

(** C35: parsing an ASCII session description never panics, and what it accepts
    has at least one medium and keeps the description unchanged for the
    demuxer; the hexadecimal configuration of an AAC medium, in either case, is
    then decoded to the extradata of this medium's parameters. But the hexadecimal
    decoder slices the text at byte offsets: a description with a multi-byte
    character in that field makes the parser panic. *)
Theorem sdp_parse_safety base64_decode body :
  (ascii_text body ->
    match parse_sdp base64_decode body with
    | None => False
    | Some (Ok p) => sdp_raw p = body /\ sdp_codec_params p <> []
        /\ forall line pt rate text config, announces_aac body line pt rate text ->
             bytes_ok config -> hex_text text config ->
             mkCodecParams Aac Audio rate (Some config) ∈ sdp_codec_params p
    | Some (Err _) => True
    end)
  /\ exists remote : bytes, utf8_lossy remote = remote /\ parse_sdp base64_decode remote = None.
Proof.
  split.
  - intros Hb. unfold parse_sdp.
    assert (parse_lines base64_decode body (lines body) [] <> None) as Hn.
    { generalize (lines body), (@nil CodecParams). induction l as [|line ls IH]; intros ps; cbn; [done|].
      pose proof (parse_media_line_ascii base64_decode body line Hb) as Hp.
      by destruct (parse_media_line base64_decode body line) as [[[p|]|e]|]. }
    destruct (parse_lines base64_decode body (lines body) []) as [[[|p ps]|e]|] eqn:E; try done.
    split_and!; [done|done|]. intros line pt rate text config Ha Hc Ht.
    eapply parse_lines_media; [exact E|apply Ha|]. by eapply aac_media_line.
  - exists (lit "m=audio 0 RTP/AVP 97" ++ crlf ++ lit "a=rtpmap:97 aac/44100" ++ crlf
      ++ lit "a=fmtp:97 config=1" ++ [0xC3; 0xA9] ++ lit "2"). split; vm_compute; reflexivity.
Qed.

(** A configuration in capitals. *)
Lemma sdp_parse_safety_witness :
  let body := lit "m=audio 0 RTP/AVP 97" ++ crlf ++ lit "a=rtpmap:97 mpeg4-generic/44100/2" ++ crlf
    ++ lit "a=fmtp:97 mode=AAC-hbr; config=12AF" ++ crlf in
  exists p, parse_sdp (fun _ => None) body = Some (Ok p)
    /\ mkCodecParams Aac Audio 44100 (Some [0x12; 0xAF]) ∈ sdp_codec_params p.
Proof.
  intros body. destruct (sdp_parse_safety (fun _ => None) body) as [Hs _].
  specialize (Hs (ascii_text_of body ltac:(vm_compute; reflexivity))).
  destruct (parse_sdp (fun _ => None) body) as [[p|e]|] eqn:E; [|vm_compute in E; discriminate E|destruct Hs].
  exists p. split; [reflexivity|].
  apply (proj2 (proj2 Hs) (lit "m=audio 0 RTP/AVP 97") (lit "97") 44100 (lit "12AF")); [|by repeat constructor|reflexivity].
  split_and!.
  - apply list_elem_of_lookup_2 with (i := 0%nat). vm_compute. reflexivity.
  - reflexivity.
  - exists (lit "0"), (lit "RTP/AVP"), []. vm_compute. reflexivity.
  - exists (lit "mpeg4-generic/44100/2"). split; vm_compute; reflexivity.
  - exists (lit "mode=AAC-hbr; config=12AF"). split; vm_compute; reflexivity.
Defined.
