(* ===== verification/RtspSession.v ===== *)
(** * RTSP sessions and connections
    [livestream-transport/src/rtsp/session.rs], [rtsp/server.rs] and
    [source/rtsp.rs]: the request state machine, the message reader of the
    handshake, the loop that forwards interleaved frames, and how a connection
    uses the session registry. The message parser of the [rtsp-types] crate is a
    parameter; a read from the socket is the chunk it returned. *)
From Stdlib Require Import Ascii String.
From stdpp Require Import strings list gmap.
From S2P Require Import Prelude Types Rtp Flv Tokio FlvHub Session Control RtspWire Sdp.

(** ** Requests and responses *)

Inductive Method := Announce | Options | Setup | RecordMethod | TeardownMethod | OtherMethod.

Record Request := mkRequest {
  rq_method : Method;
  rq_cseq : option Z;
  rq_path : option string;   (* of the request URI *)
  rq_body : bytes;
}.

Record Response := mkResponse {
  rs_status : Z;
  rs_cseq : Z;
  rs_transport : option (Z * Z);   (* the interleaved channels *)
}.

Definition ok_response (cseq : Z) : Response := mkResponse 200 cseq None.
Definition error_response (status cseq : Z) : Response := mkResponse status cseq None.
Definition MethodNotAllowed : Z := 405.
Definition MethodNotValidInThisState : Z := 455.
Definition InternalServerError : Z := 500.

(** ** Paths *)

Fixpoint trim_start_matches (c : ascii) (l : list ascii) : list ascii :=
  match l with [] => [] | x :: l' => if decide (x = c) then trim_start_matches c l' else l end.

Definition str_starts_with (prefix : string) (l : list ascii) : bool :=
  bool_decide (take (String.length prefix) l = list_ascii_of_string prefix).

(** [str::contains]. *)
Fixpoint contains (sub : string) (l : list ascii) : bool :=
  str_starts_with sub l || match l with [] => false | _ :: l => contains sub l end.

(** The stream key of an ANNOUNCE path: its last segment that is neither empty
    nor starts with [track]. *)
Definition key_segment (s : list ascii) : bool := negb (length s =? 0)%nat && negb (str_starts_with "track" s).

Definition announced_id (path : string) : option string :=
  let segments := split_char "/" (trim_start_matches "/" (list_ascii_of_string path)) in
  string_of_list_ascii <$> last (List.filter key_segment segments).

(** ** The session *)

Inductive State := WaitAnnounce | WaitSetup | WaitRecord | Recording | Teardown.

#[export] Instance State_eq_dec : EqDecision State.
Proof. solve_decision. Defined.

Record RtspSession := mkRtspSession {
  rt_state : State;
  rt_parsed_sdp : option ParsedSdp;
  rt_video_channel : Z;
  rt_audio_channel : Z;
  rt_live_id : option string;
}.

Definition RtspSession_new : RtspSession := mkRtspSession WaitAnnounce None 0 2 None.

Definition set_rt_state (s : RtspSession) (st : State) : RtspSession :=
  mkRtspSession st (rt_parsed_sdp s) (rt_video_channel s) (rt_audio_channel s) (rt_live_id s).

Definition is_teardown (s : RtspSession) : bool := bool_decide (rt_state s = Teardown).
Definition is_recording (s : RtspSession) : bool := bool_decide (rt_state s = Recording).
Definition sdp_body (s : RtspSession) : option bytes := sdp_raw <$> rt_parsed_sdp s.
Definition codec_params (s : RtspSession) : option (list CodecParams) := sdp_codec_params <$> rt_parsed_sdp s.

(** What the handlers give: [None] is a panic, [Err] an error that leaves the
    session to the caller, else the response. *)
Abbreviation handled := (option (result sdp_error Response * RtspSession)).

Section Handlers.
Context (base64_decode : bytes -> option bytes).

Definition handle_announce (s : RtspSession) (request : Request) (cseq : Z) : handled :=
  if negb (bool_decide (rt_state s = WaitAnnounce)) then Some (Ok (error_response MethodNotValidInThisState cseq), s)
  else match parse_sdp base64_decode (utf8_lossy (rq_body request)) with
       | None => None
       | Some (Err e) => Some (Err e, s)
       | Some (Ok parsed) =>
           let live_id := match rq_path request with Some path => announced_id path | None => rt_live_id s end in
           Some (Ok (ok_response cseq),
                 mkRtspSession WaitSetup (Some parsed) (rt_video_channel s) (rt_audio_channel s) live_id)
       end.

Definition is_video_track (path : option string) : bool :=
  match path with
  | Some p => contains "track1" (list_ascii_of_string p) || negb (contains "track2" (list_ascii_of_string p))
  | None => true
  end.

Definition handle_setup (s : RtspSession) (request : Request) (cseq : Z) : handled :=
  if negb (bool_decide (rt_state s = WaitSetup)) && negb (bool_decide (rt_state s = WaitRecord))
  then Some (Ok (error_response MethodNotValidInThisState cseq), s)
  else
    let ch := if is_video_track (rq_path request) then rt_video_channel s else rt_audio_channel s in
    Some (Ok (mkResponse 200 cseq (Some (ch, ch + 1))), set_rt_state s WaitRecord).

Definition handle_record (s : RtspSession) (cseq : Z) : handled :=
  if negb (bool_decide (rt_state s = WaitRecord)) then Some (Ok (error_response MethodNotValidInThisState cseq), s)
  else Some (Ok (ok_response cseq), set_rt_state s Recording).

Definition handle_request (s : RtspSession) (request : Request) : handled :=
  let cseq := default 0 (rq_cseq request) in
  match rq_method request with
  | Announce => handle_announce s request cseq
  | Options => Some (Ok (ok_response cseq), s)
  | Setup => handle_setup s request cseq
  | RecordMethod => handle_record s cseq
  | TeardownMethod => Some (Ok (ok_response cseq), set_rt_state s Teardown)
  | OtherMethod => Some (Ok (error_response MethodNotAllowed cseq), s)
  end.

(** The response written for a request: the session's, or 500 after an error. *)
Definition answer (s : RtspSession) (request : Request) : option (Response * RtspSession) :=
  match handle_request s request with
  | None => None
  | Some (Ok r, s) => Some (r, s)
  | Some (Err _, s) => Some (error_response InternalServerError (default 0 (rq_cseq request)), s)
  end.

(** ** Messages of the handshake *)

Definition MAX_RTSP_MESSAGE_SIZE : Z := 64 * 1024.

Inductive message_error := ConnectionClosed | ReadFailed | HeaderTooLarge | ContentTooLong.

(** The first position of the empty line. *)
Fixpoint find_header_end (buf : bytes) : option nat :=
  if starts_with [13; 10; 13; 10] buf then Some 0%nat
  else match buf with [] => None | _ :: buf => S <$> find_header_end buf end.

Definition extract_content_length (headers : bytes) : result message_error nat :=
  let raw := default 0 (content_length headers) in
  if MAX_RTSP_MESSAGE_SIZE <? raw then Err ContentTooLong else Ok (Z.to_nat raw).

(** The reads still to come: data, a failure (also the idle timeout), or, when
    there are no more, the end of the connection. *)
Abbreviation reads := (list (result unit bytes)).

Fixpoint read_body_until (rs : reads) (buf : bytes) (total : nat) : result message_error (bytes * reads) :=
  if (length buf <? total)%nat then
    match rs with
    | [] => Err ConnectionClosed
    | Err _ :: _ => Err ReadFailed
    | Ok tmp :: rs => if (length tmp =? 0)%nat then Err ConnectionClosed else read_body_until rs (buf ++ tmp) total
    end
  else Ok (buf, rs).

Fixpoint read_message_loop (rs : reads) (buf : bytes) : result message_error (bytes * reads) :=
  match rs with
  | [] => Err ConnectionClosed
  | Err _ :: _ => Err ReadFailed
  | Ok tmp :: rs =>
      if (length tmp =? 0)%nat then Err ConnectionClosed
      else if MAX_RTSP_MESSAGE_SIZE <? Z.of_nat (length buf) + Z.of_nat (length tmp) then Err HeaderTooLarge
      else
        let buf := buf ++ tmp in
        match find_header_end buf with
        | Some pos =>
            let? content_length := extract_content_length (take pos buf) in
            let total := (pos + 4 + content_length)%nat in
            let? '(buf, rs) := read_body_until rs buf total in
            Ok (take total buf, rs)
        | None => read_message_loop rs buf
        end
  end.

Definition read_message (rs : reads) : result message_error (bytes * reads) := read_message_loop rs [].

(** ** The handshake *)

(** What [session::parse_message] makes of a message. *)
Inductive parsed_message := ParsedRequest (r : Request) | ParsedOther | ParseFailed.

Record HandshakeOutcome := mkHandshake {
  ho_recording : bool;
  ho_session : RtspSession;
  ho_sdp : option bytes;
  ho_codec_params : list CodecParams;
  ho_live_id : option string;
}.

Definition handshake_aborted (s : RtspSession) : HandshakeOutcome := mkHandshake false s None [] None.

Section Handshake.
Context (parse_message : bytes -> parsed_message).

(** The loop of [run_rtsp_handshake]; each turn consumes a read, so the number
    of reads is enough fuel. [writes i]: whether the [i]-th response could be
    written. The outcome, the responses and the reads left. *)
Fixpoint run_rtsp_handshake (fuel : nat) (writes : nat -> bool) (s : RtspSession) (rs : reads)
    (sent : list Response) : option (HandshakeOutcome * list Response * reads) :=
  match fuel with
  | O => Some (handshake_aborted s, sent, rs)
  | S fuel =>
      match read_message rs with
      | Err _ => Some (handshake_aborted s, sent, rs)
      | Ok (data, rs) =>
          match parse_message data with
          | ParseFailed => Some (handshake_aborted s, sent, rs)
          | ParsedOther => run_rtsp_handshake fuel writes s rs sent
          | ParsedRequest request =>
              match handle_request s request with
              | None => None
              | Some (outcome, s) =>
                  let cseq := default 0 (rq_cseq request) in
                  let response := match outcome with Ok r => r | Err _ => error_response InternalServerError cseq end in
                  let written := writes (length sent) in
                  let sent := if written then sent ++ [response] else sent in
                  if is_ok outcome && negb written then Some (handshake_aborted s, sent, rs)
                  else if is_teardown s then Some (handshake_aborted s, sent, rs)
                  else if is_recording s
                  then Some (mkHandshake true s (sdp_body s) (default [] (codec_params s)) (rt_live_id s), sent, rs)
                  else run_rtsp_handshake fuel writes s rs sent
              end
          end
      end
  end.

(** ** The frame loop *)

Record RawRtpFrame := mkRawRtpFrame {
  fr_channel : Z;
  fr_header : ParsedRtpHeader;   (* payload type, timestamp, marker, sequence number, SSRC *)
  fr_rtp_data : bytes;
}.

(** [forward_interleaved_frame]: whether to go on, and the frame sent;
    [receiver]: whether the frame receiver still exists. *)
Definition forward_interleaved_frame (channel : Z) (payload : bytes) (receiver : bool) :
    bool * option RawRtpFrame :=
  if (length payload <? 12)%nat then (true, None)
  else match parse_rtp_header payload with
       | None => (true, None)
       | Some hdr => if receiver then (true, Some (mkRawRtpFrame channel hdr payload)) else (false, None)
       end.

Definition handle_inband_request (s : RtspSession) (data : bytes) : option (bool * RtspSession * list Response) :=
  match parse_message data with
  | ParsedRequest request => '(r, s) ← answer s request; Some (is_teardown s, s, [r])
  | _ => Some (false, s, [])
  end.

(** What ends the wait of [run_rtp_loop]: cancellation, a read, or the idle timer. *)
Inductive rtp_event := Cancelled | Read (item : result read_error RtpReadItem) (receiver : bool) | Idle.

(** The loop: the frames handed to the source and the responses, in order. *)
Fixpoint run_rtp_loop (s : RtspSession) (evs : list rtp_event) (frames : list RawRtpFrame) (sent : list Response) :
    option (RtspSession * list RawRtpFrame * list Response) :=
  match evs with
  | [] => Some (s, frames, sent)
  | Cancelled :: _ | Idle :: _ | Read (Err _) _ :: _ => Some (s, frames, sent)
  | Read (Ok (Interleaved channel payload)) receiver :: evs =>
      let '(go, frame) := forward_interleaved_frame channel payload receiver in
      let frames := frames ++ option_list frame in
      if go then run_rtp_loop s evs frames sent else Some (s, frames, sent)
  | Read (Ok (RtspRequest data)) _ :: evs =>
      match handle_inband_request s data with
      | None => None
      | Some (torn_down, s, r) =>
          if torn_down then Some (s, frames, sent ++ r) else run_rtp_loop s evs frames (sent ++ r)
      end
  | Read (Ok (Stray _)) _ :: evs => run_rtp_loop s evs frames sent
  end.

End Handshake.
End Handlers.

(** ** The source *)

(** [RtspSource::start]: each frame becomes a packet on the pad. *)
Definition rtp_packet (frame : RawRtpFrame) : RtpPacket :=
  mkRtpPacket (hd_payload_type (fr_header frame)) (fr_channel frame) (hd_rtp_timestamp (fr_header frame))
    (hd_marker (fr_header frame)) (fr_rtp_data frame).

(** ** The connection and the registry *)

Section Connection.
Context {T B : Type} `{TokenStore T} `{BroadcastChan FlvTag B}.

Record Connection := mkConnection { cn_live_id : string; cn_lifecycle : nat; cn_cancel : nat }.

Definition sv_set_tokens (s : Servers T B) (tokens : T) : Servers T B := set_world s (set_tokens (sv_world s) tokens).

(** [handle_connection] after the handshake: the connection's own token is made
    when it is accepted, its child drives the source, the pipeline and the loop. *)
Definition rtsp_open (s : Servers T B) (live_id : string) : option Connection * Servers T B :=
  let '(token, tokens) := tk_new (w_tokens (sv_world s)) in
  let s := sv_set_tokens s tokens in
  match pending_of s Rtsp !! live_id with
  | None => (None, s)
  | Some l =>
      let s := set_pending s Rtsp (delete live_id (pending_of s Rtsp)) in
      let '(cancel, tokens) := tk_child (w_tokens (sv_world s)) token in
      let s := sv_set_tokens s tokens in
      let s := set_hub s (create_channel (sv_hub s) live_id) in
      match w_lifecycles (sv_world s) !! l with
      | None => (None, s)
      | Some h =>
          match lc_connect (sv_world s) l h with
          | (Ok _, w) => (Some (mkConnection live_id l cancel), set_world s w)
          | (Err _, w) =>
              let s := set_world s (cancel_token w cancel) in
              let s := set_hub s (remove_channel (sv_hub s) live_id) in
              (None, drop_lifecycle s l)
          end
      end
  end.

(** The end of [handle_connection], and of the lifecycle it owns. *)
Definition rtsp_close (s : Servers T B) (c : Connection) : Servers T B :=
  let s := match w_lifecycles (sv_world s) !! cn_lifecycle c with
           | Some h => set_world s (lc_disconnect (sv_world s) (cn_lifecycle c) h)
           | None => s
           end in
  let s := set_world s (cancel_token (sv_world s) (cn_cancel c)) in
  let s := set_hub s (remove_channel (sv_hub s) (cn_live_id c)) in
  drop_lifecycle s (cn_lifecycle c).

End Connection.

(** ** Framing of the handshake's messages *)

Lemma starts_with_app p a b : (length p <= length a)%nat -> starts_with p (a ++ b) = starts_with p a.
Proof. intros Hl. unfold starts_with. by rewrite take_app_le. Qed.

Lemma find_header_end_bound a p : find_header_end a = Some p -> (p + 4 <= length a)%nat.
Proof.
  revert p. induction a as [|x a IH]; intros p Hp; [done|]. cbn [find_header_end] in Hp.
  destruct (starts_with _ (x :: a)) eqn:E.
  - simplify_eq. apply bool_decide_eq_true in E. apply (f_equal length) in E.
    rewrite length_take in E. cbn [length] in *. lia.
  - destruct (find_header_end a) as [q|]; [|done]. cbn in Hp. simplify_eq. specialize (IH q eq_refl). cbn. lia.
Qed.

Lemma find_header_end_app a b p : find_header_end a = Some p -> find_header_end (a ++ b) = Some p.
Proof.
  revert p. induction a as [|x a IH]; intros p Hp; [done|].
  pose proof (find_header_end_bound _ _ Hp) as Hb. cbn [find_header_end app] in *.
  change (x :: a ++ b) with ((x :: a) ++ b). rewrite starts_with_app by (cbn in *; lia).
  destruct (starts_with _ (x :: a)); [done|].
  destruct (find_header_end a) as [q|]; [|done]. by rewrite (IH q eq_refl).
Qed.

Lemma body_framing total cs rest buf : Forall (fun c => c <> []) cs ->
  (total <= length (buf ++ concat cs))%nat ->
  cs = [] \/ (length (buf ++ concat (removelast cs)) < total)%nat ->
  read_body_until (map Ok cs ++ rest) buf total = Ok (buf ++ concat cs, rest).
Proof.
  revert buf. induction cs as [|c cs IH]; intros buf Hne Hl Hlast.
  { cbn in *. rewrite app_nil_r in *. destruct rest as [|[] ?]; cbn; by destruct (Nat.ltb_spec (length buf) total); [lia|]. }
  inversion Hne; subst. destruct Hlast as [|Hlast]; [done|]. cbn [map app read_body_until].
  rewrite length_app in Hlast. destruct (Nat.ltb_spec (length buf) total); [|lia].
  destruct (Nat.eqb_spec (length c) 0) as [E|_]; [by destruct c|]. cbn [concat].
  rewrite app_assoc. apply IH; [done|by rewrite <- app_assoc|].
  destruct cs; [by left|]. right. rewrite <- app_assoc. cbn [removelast] in Hlast. rewrite length_app. exact Hlast.
Qed.

Lemma message_framing m extra pos n rest cs : find_header_end m = Some pos ->
  extract_content_length (take pos m) = Ok n -> length m = (pos + 4 + n)%nat ->
  Z.of_nat (length (m ++ extra)) <= MAX_RTSP_MESSAGE_SIZE -> Forall (fun c => c <> []) cs ->
  forall buf, buf ++ concat cs = m ++ extra -> (length (buf ++ concat (removelast cs)) < length m)%nat ->
  find_header_end buf = None -> read_message_loop (map Ok cs ++ rest) buf = Ok (m, rest).
Proof.
  intros Hpos Hn Hm Hmax Hne. induction Hne as [|c cs Hc Hne IH]; intros buf Hb Hlast Hf.
  { cbn in *. rewrite app_nil_r in *. rewrite Hb, length_app in Hlast. lia. }
  cbn [map app read_message_loop concat] in *.
  destruct (Nat.eqb_spec (length c) 0) as [E|_]; [by destruct c|].
  assert (Z.of_nat (length (buf ++ c ++ concat cs)) <= MAX_RTSP_MESSAGE_SIZE) as Hmax' by (by rewrite Hb).
  rewrite !length_app in Hmax'.
  destruct (Z.ltb_spec MAX_RTSP_MESSAGE_SIZE (Z.of_nat (length buf) + Z.of_nat (length c))); [lia|].
  rewrite app_assoc in Hb. pose proof (find_header_end_app _ extra _ Hpos) as Hall. rewrite <- Hb in Hall.
  assert (cs = [] \/ (length ((buf ++ c) ++ concat (removelast cs)) < length m)%nat) as Hl.
  { destruct cs; [by left|right]. rewrite <- app_assoc. exact Hlast. }
  destruct (find_header_end (buf ++ c)) as [p|] eqn:Ep.
  - pose proof (find_header_end_app _ (concat cs) _ Ep) as Hp. assert (p = pos) as -> by congruence.
    assert (take pos (buf ++ c) = take pos m) as ->.
    { pose proof (find_header_end_bound _ _ Ep). pose proof (find_header_end_bound _ _ Hpos).
      rewrite <- (take_app_le (buf ++ c) (concat cs)) by lia. rewrite Hb. by rewrite take_app_le by lia. }
    rewrite Hn. cbn [res_bind]. rewrite body_framing, Hb; [|done|rewrite Hb, length_app; lia|by rewrite <- Hm].
    cbn [res_bind]. by rewrite <- Hm, take_app_length.
  - destruct Hl as [->|Hl]; [|by apply IH]. cbn in Hall. rewrite app_nil_r in Hall. congruence.
Qed.

(** Every message consumes a read, so one more turn than there are reads is
    enough fuel for the handshake. *)
Lemma read_body_until_shorter total rs : forall buf buf' rs',
  read_body_until rs buf total = Ok (buf', rs') -> (length rs' <= length rs)%nat.
Proof.
  induction rs as [|[tmp|] rs IH]; intros buf buf' rs' Hr; cbn [read_body_until] in Hr;
    (destruct (length buf <? total)%nat; [|by simplify_eq]); try done.
  destruct (length tmp =? 0)%nat; [done|]. apply IH in Hr. cbn. lia.
Qed.

Lemma read_message_shorter rs : forall buf m rs',
  read_message_loop rs buf = Ok (m, rs') -> (length rs' < length rs)%nat.
Proof.
  induction rs as [|[tmp|] rs IH]; intros buf m rs' Hr; cbn [read_message_loop] in Hr; try done.
  destruct (length tmp =? 0)%nat; [done|]. destruct (_ <? _); [done|].
  destruct (find_header_end (buf ++ tmp)) as [pos|]; [|apply IH in Hr; cbn; lia].
  apply res_bind_Ok in Hr as (n & _ & Hr). apply res_bind_Ok in Hr as ([b rs1] & Hb & [= _ <-]).
  apply read_body_until_shorter in Hb. cbn. lia.
Qed.

Lemma run_rtsp_handshake_fuel base64_decode parse_message writes f1 : forall f2 s rs sent,
  (length rs < f1)%nat -> (length rs < f2)%nat ->
  run_rtsp_handshake base64_decode parse_message f1 writes s rs sent
  = run_rtsp_handshake base64_decode parse_message f2 writes s rs sent.
Proof.
  induction f1 as [|f1 IH]; intros [|f2] s rs sent H1 H2; try lia. cbn [run_rtsp_handshake].
  destruct (read_message rs) as [[m rs']|e] eqn:Er; [|done]. apply read_message_shorter in Er.
  destruct (parse_message m) as [request| |]; [|apply IH; lia|done].
  destruct (handle_request base64_decode s request) as [[outcome s']|]; [|done].
  repeat (case_match; try done); apply IH; lia.
Qed.

(** A request of the handshake is read back exactly, however its bytes are
    split over the reads, when its declared length is right, the reads together
    fit the limit and the last read is the one that completes it. The bytes that
    last read brought beyond the request are lost: what is left for the next
    request is only the reads still to come. *)
Theorem read_message_framing m extra pos n cs rest :
  find_header_end m = Some pos -> extract_content_length (take pos m) = Ok n ->
  length m = (pos + 4 + n)%nat -> Z.of_nat (length (m ++ extra)) <= MAX_RTSP_MESSAGE_SIZE ->
  Forall (fun c => c <> []) cs -> concat cs = m ++ extra ->
  (length (concat (removelast cs)) < length m)%nat ->
  read_message (map Ok cs ++ rest) = Ok (m, rest).
Proof. intros. eapply message_framing; eauto. Qed.

(** ** Stopping a recording connection *)

Section Stop.
Context {T B : Type} `{TokenLaws T} `{BroadcastChan FlvTag B}.
Implicit Types (s : Servers T B).

(** What opening does to the registry: the connection's token is a child of a new root. *)
Lemma rtsp_open_tokens s id c s' : rtsp_open s id = (Some c, s') ->
  let w := sv_world s in
  let root := tk_new (w_tokens w) in
  let child := tk_child (snd root) (fst root) in
  w_tokens (sv_world s') = snd child /\ cn_cancel c = fst child /\ cn_live_id c = id
  /\ w_sessions (sv_world s') = w_sessions w.
Proof.
  unfold rtsp_open. destruct (tk_new (w_tokens (sv_world s))) as [root tokens] eqn:En.
  intros Ho. cbn in Ho. change (pending_of (sv_set_tokens s tokens) Rtsp) with (sv_pending_rtsp s) in Ho.
  destruct (sv_pending_rtsp s !! id) as [l|]; [|done]. cbn in Ho.
  destruct (tk_child tokens root) as [cancel tokens'] eqn:Ec. cbn in Ho.
  destruct (w_lifecycles (sv_world s) !! l) as [h|]; [|done].
  destruct (lc_connect _ l h) as [[u|e] w'] eqn:El; [|done]. simplify_eq. cbn.
  rewrite Ec. cbn.
  pose proof (connect_rest (set_tokens (set_tokens (sv_world s) tokens) tokens') l h) as Hr.
  rewrite El in Hr. cbn in Hr. naive_solver.
Qed.

(** Stopping an RTSP session does not reach its connection. The token in the
    registry is a child of the server's token, the connection's is a child of
    one made on accept: after [StopStream] the first is cancelled, the second,
    which drives the source, the pipeline and the frame loop, is not. And when
    such a connection ends later, after its id was given to a new session, it
    cancels the new session, announces its end and removes its FLV channel. *)
Theorem rtsp_stop_not_linked s id e c s' :
  w_sessions (sv_world s) !! id = Some e ->
  tk_known (w_tokens (sv_world s)) (se_cancel_token e) = true ->
  rtsp_open s id = (Some c, s') ->
  let stopped := snd (handle_control_message s' (StopStream id) Rtsp) in
  tk_cancelled (w_tokens (sv_world stopped)) (se_cancel_token e) = true
  /\ tk_cancelled (w_tokens (sv_world stopped)) (cn_cancel c) = false
  /\ forall (later : Servers T B) h e', w_lifecycles (sv_world later) !! cn_lifecycle c = Some h ->
       hl_live_id h = id -> hl_disconnected h = false ->
       w_sessions (sv_world later) !! id = Some e' ->
       tk_known (w_tokens (sv_world later)) (se_cancel_token e') = true ->
       let closed := rtsp_close later c in
       tk_cancelled (w_tokens (sv_world closed)) (se_cancel_token e') = true
       /\ w_events (sv_world closed) = w_events (sv_world later) ++ [SessionEnded id (hl_protocol h) ClientDisconnect]
       /\ hub_channels (sv_hub closed) !! id = None.
Proof.
  intros He Hk Ho. destruct (rtsp_open_tokens s id c s' Ho) as (Ht & Hc & Hid & Hs). cbn zeta in *.
  cbn -[tk_new tk_child]. unfold get_cancel_token. rewrite Hs, He. cbn -[tk_new tk_child]. rewrite Ht, Hc.
  set (tokens := w_tokens (sv_world s)) in *. set (root := tk_new tokens) in *.
  assert (tk_known (snd root) (se_cancel_token e) = true) as Hk1 by (unfold root; by rewrite tk_new_known, Hk).
  assert (fst root <> se_cancel_token e) as Hne.
  { intros E. pose proof (tk_new_fresh tokens) as Hf. fold root in Hf. congruence. }
  split_and!.
  - apply tk_cancel_self. by rewrite tk_child_known, Hk1.
  - rewrite tk_cancel_spec, tk_child_cancelled, tk_child_below, !decide_True by done.
    unfold root. rewrite tk_new_below, decide_True, tk_new_cancelled by done.
    destruct (tk_cancelled tokens (fst (tk_new tokens))) eqn:E; [|done].
    apply tk_cancelled_known in E. by rewrite tk_new_fresh in E.
  - intros later h e' Hl Hh Hd He' Hk'. unfold rtsp_close. rewrite Hl, Hid.
    unfold lc_disconnect, lc_disconnect_with_reason. rewrite Hd, Hh. unfold get_cancel_token.
    cbn -[drop_lifecycle]. rewrite He'. cbn -[drop_lifecycle alter]. unfold drop_lifecycle. cbn -[alter].
    rewrite list_lookup_alter_eq, Hl. cbn -[alter]. unfold lc_drop. cbn -[alter].
    split_and!; [|done|by rewrite lookup_delete_eq].
    apply tk_cancel_mono. by apply tk_cancel_self.
Qed.

End Stop.

Definition demo_open : option Connection * Servers token_list (queue_list FlvTag) :=
  rtsp_open (precreate demo_servers Rtsp "cam") "cam".

(** ** The request order is enforced *)

Section Protocol.
Context (base64_decode : bytes -> option bytes).

(** A session answering requests one after another; [None] if one panicked. *)
Fixpoint session_run (s : RtspSession) (requests : list Request) (sent : list Response) :
    option (RtspSession * list Response) :=
  match requests with
  | [] => Some (s, sent)
  | request :: requests =>
      match answer base64_decode s request with
      | None => None
      | Some (r, s) => session_run s requests (sent ++ [r])
      end
  end.

(** The requests announced [parsed] (under [id]), then set a track up, then recorded. *)
Definition announced (rqs : list Request) (parsed : ParsedSdp) (id : option string) : Prop :=
  exists pre a post, rqs = pre ++ a :: post /\ rq_method a = Announce
    /\ parse_sdp base64_decode (utf8_lossy (rq_body a)) = Some (Ok parsed)
    /\ id = rq_path a ≫= announced_id.

Definition followed_by (m : Method) (P : list Request -> Prop) (rqs : list Request) : Prop :=
  exists pre r post, rqs = pre ++ r :: post /\ rq_method r = m /\ P pre.

Definition session_inv (rqs : list Request) (s : RtspSession) : Prop :=
  let a parsed rqs := announced rqs parsed (rt_live_id s) in
  match rt_state s with
  | WaitAnnounce => rt_parsed_sdp s = None /\ rt_live_id s = None
  | WaitSetup => exists p, rt_parsed_sdp s = Some p /\ a p rqs
  | WaitRecord => exists p, rt_parsed_sdp s = Some p /\ followed_by Setup (a p) rqs
  | Recording => exists p, rt_parsed_sdp s = Some p /\ followed_by RecordMethod (followed_by Setup (a p)) rqs
  | Teardown => True
  end.

Lemma announced_snoc rqs p id r : announced rqs p id -> announced (rqs ++ [r]) p id.
Proof. intros (pre & x & post & -> & ?). exists pre, x, (post ++ [r]). by rewrite <- app_assoc. Qed.

Lemma followed_snoc m P rqs r : followed_by m P rqs -> followed_by m P (rqs ++ [r]).
Proof. intros (pre & x & post & -> & ?). exists pre, x, (post ++ [r]). by rewrite <- app_assoc. Qed.

Lemma followed_last m P rqs r : rq_method r = m -> P rqs -> followed_by m P (rqs ++ [r]).
Proof. intros Hm HP. by exists rqs, r, []. Qed.

Lemma session_inv_keep rqs s r : session_inv rqs s -> session_inv (rqs ++ [r]) s.
Proof.
  unfold session_inv. destruct (rt_state s); try done; intros (p & Hp & Hi); exists p; split; try done.
  - by apply announced_snoc.
  - by apply followed_snoc.
  - by apply followed_snoc.
Qed.

Lemma answer_inv rqs s request r s' : session_inv rqs s -> answer base64_decode s request = Some (r, s') ->
  session_inv (rqs ++ [request]) s' /\ rs_cseq r = default 0 (rq_cseq request).
Proof.
  intros Hi H. unfold answer, handle_request in H.
  destruct (rq_method request) eqn:Em; cbn in H; [| |unfold handle_setup in H|unfold handle_record in H| |].
  - unfold handle_announce in H. case_bool_decide as Est; cbn in H; [|simplify_eq; split; [by apply session_inv_keep|done]].
    destruct (parse_sdp base64_decode (utf8_lossy (rq_body request))) as [[p|e]|] eqn:Ep; [| |done]; simplify_eq; cbn.
    + split; [|done]. unfold session_inv in *. rewrite Est in Hi. destruct Hi as [_ Hid]. cbn. exists p. split; [done|].
      exists rqs, request, []. split_and!; try done. rewrite Hid. by destruct (rq_path request).
    + split; [by apply session_inv_keep|done].
  - simplify_eq. split; [by apply session_inv_keep|done].
  - destruct (negb _ && negb _) eqn:Es; simplify_eq; cbn; (split; [|done]); [by apply session_inv_keep|].
    apply andb_false_iff in Es. unfold session_inv in *. destruct (rt_state s) eqn:Est; cbn;
      try by destruct Es as [Es|Es]; to_prop.
    + destruct Hi as (p & Hp & Ha). exists p. split; [done|]. by apply followed_last.
    + destruct Hi as (p & Hp & Ha). exists p. split; [done|]. by apply followed_snoc.
  - case_bool_decide as Est; cbn in H; simplify_eq; cbn; (split; [|done]); [|by apply session_inv_keep].
    unfold session_inv in *. rewrite Est in Hi. cbn. destruct Hi as (p & Hp & Ha). exists p.
    split; [done|]. by apply followed_last.
  - by simplify_eq.
  - simplify_eq. split; [by apply session_inv_keep|done].
Qed.

Lemma session_run_inv requests : forall rqs s sent s' sent', session_inv rqs s ->
  map rs_cseq sent = map (fun r => default 0 (rq_cseq r)) rqs ->
  session_run s requests sent = Some (s', sent') ->
  session_inv (rqs ++ requests) s'
  /\ map rs_cseq sent' = map (fun r => default 0 (rq_cseq r)) (rqs ++ requests).
Proof.
  induction requests as [|request requests IH]; intros rqs s sent s' sent' Hi Hc H; cbn in H.
  { simplify_eq. by rewrite app_nil_r. }
  destruct (answer base64_decode s request) as [[r s1]|] eqn:E; [|done].
  destruct (answer_inv rqs s request r s1 Hi E) as [Hi1 Hr]. rewrite cons_middle, app_assoc.
  apply (IH (rqs ++ [request]) s1 (sent ++ [r]) s' sent' Hi1); [|done].
  by rewrite !map_app, Hc; cbn; rewrite Hr.
Qed.

(** C33: as long as no request makes the parser of session descriptions panic
    (then [session_run] is [None], and that request is not answered), every
    request of a session gets one response, with its sequence number, and the
    session records only after an ANNOUNCE whose description was parsed, a
    later SETUP and a later RECORD: the description, a non-empty list of codec
    parameters and the stream key are then those of that ANNOUNCE. *)
Theorem rtsp_recording_is_announced requests s sent :
  session_run RtspSession_new requests [] = Some (s, sent) ->
  map rs_cseq sent = map (fun r => default 0 (rq_cseq r)) requests
  /\ (is_recording s = true -> exists p pre a mid1 su mid2 r post,
      requests = pre ++ a :: mid1 ++ su :: mid2 ++ r :: post
      /\ rq_method a = Announce /\ rq_method su = Setup /\ rq_method r = RecordMethod
      /\ parse_sdp base64_decode (utf8_lossy (rq_body a)) = Some (Ok p)
      /\ rt_parsed_sdp s = Some p /\ sdp_codec_params p <> []
      /\ rt_live_id s = rq_path a ≫= announced_id).
Proof.
  intros H. destruct (session_run_inv requests [] RtspSession_new [] s sent) as [Hi Hc]; [done..|].
  split; [done|]. unfold is_recording. case_bool_decide as Est; [intros _|done].
  unfold session_inv in Hi. rewrite Est in Hi.
  destruct Hi as (p & Hp & (pre3 & r & post & Hreq & Hr & (pre2 & su & mid2 & -> & Hs & (pre & a & mid1 & -> & Ha & Hpa & Hid)))).
  exists p, pre, a, mid1, su, mid2, r, post. cbn in Hreq. split_and!; try done.
  - rewrite Hreq, <- !app_assoc. done.
  - intros E. unfold parse_sdp in Hpa. repeat (case_match; try done). simplify_eq.
Qed.

End Protocol.

Lemma rtsp_recording_is_announced_witness :
  let body := lit "m=video 0 RTP/AVP 96" ++ crlf ++ lit "a=rtpmap:96 H264/90000" in
  let requests := [mkRequest Announce (Some 1) (Some "/live/cam/track1") body;
                   mkRequest Setup (Some 2) (Some "/live/cam/track1") []; mkRequest RecordMethod (Some 3) None []] in
  exists s sent, session_run (fun _ => None) RtspSession_new requests [] = Some (s, sent)
    /\ is_recording s = true /\ rt_live_id s = Some "cam" /\ map rs_cseq sent = [1; 2; 3].
Proof.
  cbv zeta. eexists _, _. split; [vm_compute; reflexivity|]. split; [reflexivity|]. split; [reflexivity|].
  refine (proj1 (rtsp_recording_is_announced (fun _ => None)
    [mkRequest Announce (Some 1) (Some "/live/cam/track1")
       (lit "m=video 0 RTP/AVP 96" ++ crlf ++ lit "a=rtpmap:96 H264/90000");
     mkRequest Setup (Some 2) (Some "/live/cam/track1") []; mkRequest RecordMethod (Some 3) None []] _ _ _)).
  vm_compute. reflexivity.
Defined.
