(* ===== verification/HttpFlv.v ===== *)
(** * FLV players
    [livestream-transport/src/{play_keyframe.rs, http_flv/server.rs}]: the
    recovery of a lagging player at the next key frame, shared by RTMP and
    HTTP-FLV players, and the HTTP-FLV requests: admission, the streamed body and
    the health endpoints. What a receiver of the broadcast channel yields is a
    sequence of [recv] outcomes; the AMF encoder is a parameter. *)
From Stdlib Require Import Ascii String.
From stdpp Require Import strings gmap.
From S2P Require Import Prelude Types Flv Tokio FlvHub Session.

(** ** Key frame recovery ([play_keyframe.rs]) *)

(** Whether to skip the tag, and the new value of the flag. *)
Definition should_skip_while_waiting_keyframe (waiting_keyframe : bool) (tag : FlvTag) : bool * bool :=
  if negb waiting_keyframe then (false, waiting_keyframe)
  else match tag with
       | TVideo _ _ true => (false, false)
       | TVideo _ _ _ => (true, waiting_keyframe)
       | _ => (false, waiting_keyframe)
       end.

(** What ends the wait of a player: the token, or an outcome of [recv]. *)
Inductive play_event :=
| PlayCancelled
| Recv (tag : FlvTag)
| Lagged (skipped : Z)
| RecvClosed.

(** ** Paths *)

Definition PATH_PREFIX : string := "/lives".

Definition playback_path (live_id : string) : string := (PATH_PREFIX ++ "/" ++ live_id ++ ".flv")%string.

(** [str::strip_suffix] and [str::contains] of one character. *)
Definition strip_suffix (suffix path : string) : option string :=
  let l := list_ascii_of_string path in
  let n := (length l - String.length suffix)%nat in
  if decide (drop n l = list_ascii_of_string suffix) then Some (string_of_list_ascii (take n l)) else None.

Definition has_char (c : ascii) (text : string) : bool := bool_decide (c ∈ list_ascii_of_string text).

Definition parse_live_id (path : string) : option string :=
  live_id ← strip_suffix ".flv" path;
  if bool_decide (live_id = EmptyString) || has_char "/" live_id then None else Some live_id.

(** ** Header *)

Definition apply_metadata_tracks (metadata : StreamMetadata) (tracks : bool * bool) : bool * bool :=
  (fst tracks || is_some (audio_codec_id metadata), snd tracks || is_some (video_codec_id metadata)).

Definition header_track (tracks : bool * bool) (tag : FlvTag) : bool * bool :=
  match tag with
  | TAudio _ _ => (true, snd tracks)
  | TVideo _ _ _ => (fst tracks, true)
  | TScriptData metadata => apply_metadata_tracks metadata tracks
  end.

Definition build_flv_header (cached_tags : list FlvTag) : bytes :=
  let '(has_audio, has_video) := foldl header_track (false, false) cached_tags in
  encode_flv_header has_audio has_video.

(** ** Requests *)

Section Requests.
Context {T B : Type} `{BroadcastChan FlvTag B}.

Inductive flv_reply :=
| Status (code : Z)
| Streaming (rx : nat) (cached : list FlvTag).

Definition NOT_FOUND : Z := 404.
Definition SERVICE_UNAVAILABLE : Z := 503.

(** [stream_response] up to the body. *)
Definition stream_response (hub : FlvEgressHub B) (live_id : string) : flv_reply * FlvEgressHub B :=
  match hub_subscribe hub live_id with
  | (None, hub) => (Status NOT_FOUND, hub)
  | (Some (rx, cached), hub) => (Streaming rx cached, hub)
  end.

(** [try_acquire_owned], with the semaphore as its free permits; a permit that
    is not moved into the body is given back. *)
Definition handle_http_flv (w : World T) (hub : FlvEgressHub B) (semaphore : option nat) (path : string) :
    flv_reply * option nat * FlvEgressHub B :=
  match parse_live_id path with
  | None => (Status NOT_FOUND, semaphore, hub)
  | Some live_id =>
      if bool_decide (semaphore = Some 0%nat) then (Status SERVICE_UNAVAILABLE, semaphore, hub)
      else match get_state w live_id with
           | Some Connected =>
               match stream_response hub live_id with
               | (Streaming rx cached, hub) => (Streaming rx cached, pred <$> semaphore, hub)
               | (Status code, hub) => (Status code, semaphore, hub)
               end
           | Some _ => (Status SERVICE_UNAVAILABLE, semaphore, hub)
           | None => (Status NOT_FOUND, semaphore, hub)
           end
  end.

(** The number of sessions listed, and the state of one. *)
Definition handle_health (w : World T) : nat := length (list_descriptors w).
Definition handle_stream_health (w : World T) (live_id : string) : result Z SessionState :=
  match get_descriptor w live_id with Some d => Ok (sd_state d) | None => Err NOT_FOUND end.

End Requests.

(** ** Body *)

Section Body.
Context (amf_serialize : list Amf0Value -> option bytes).

Definition encode_tag (tag : FlvTag) : option bytes :=
  match encode_flv_tag amf_serialize tag with Ok bytes => Some bytes | Err _ => None end.

Fixpoint encode_cached_tags (cached_tags : list FlvTag) : option (list bytes) :=
  match cached_tags with
  | [] => Some []
  | tag :: tags => b ← encode_tag tag; bs ← encode_cached_tags tags; Some (b :: bs)
  end.

(** The next chunk, the events left and the flag; without events left, the
    player still waits and no chunk came yet. *)
Fixpoint next_live_chunk (evs : list play_event) (waiting_keyframe : bool) :
    option (bytes * list play_event * bool) :=
  match evs with
  | [] | PlayCancelled :: _ | RecvClosed :: _ => None
  | Recv tag :: evs =>
      let '(skip, waiting_keyframe) := should_skip_while_waiting_keyframe waiting_keyframe tag in
      if skip then next_live_chunk evs waiting_keyframe
      else b ← encode_tag tag; Some (b, evs, waiting_keyframe)
  | Lagged _ :: evs => next_live_chunk evs true
  end.

(** The loop of the body; each chunk consumes an event. *)
Fixpoint live_chunks (fuel : nat) (evs : list play_event) (waiting_keyframe : bool) : list bytes :=
  match fuel with
  | O => []
  | S fuel =>
      match next_live_chunk evs waiting_keyframe with
      | None => []
      | Some (b, evs, waiting_keyframe) => b :: live_chunks fuel evs waiting_keyframe
      end
  end.

Definition stream_body (cached_tags : list FlvTag) (evs : list play_event) : list bytes :=
  build_flv_header cached_tags ::
  match encode_cached_tags cached_tags with
  | Some encoded => encoded ++ live_chunks (length evs) evs false
  | None => []
  end.

End Body.

(** ** What a player sends *)

Section Recovery.
Context (amf_serialize : list Amf0Value -> option bytes).

(** The loop of the body, event by event. *)
Fixpoint chunks (evs : list play_event) (waiting : bool) : list bytes :=
  match evs with
  | [] | PlayCancelled :: _ | RecvClosed :: _ => []
  | Recv tag :: evs =>
      let '(skip, waiting) := should_skip_while_waiting_keyframe waiting tag in
      if skip then chunks evs waiting
      else match encode_tag amf_serialize tag with Some b => b :: chunks evs waiting | None => [] end
  | Lagged _ :: evs => chunks evs true
  end.

Lemma next_live_chunk_chunks evs : forall w,
  match next_live_chunk amf_serialize evs w with
  | None => chunks evs w = []
  | Some (b, evs', w') => chunks evs w = b :: chunks evs' w' /\ (length evs' < length evs)%nat
  end.
Proof.
  induction evs as [|[|tag|n|] evs IH]; intros w; cbn [next_live_chunk chunks]; try done.
  - destruct (should_skip_while_waiting_keyframe w tag) as [[] w'].
    + specialize (IH w'). destruct (next_live_chunk amf_serialize evs w') as [[[b evs'] w'']|]; [|done].
      destruct IH. split; [done|cbn; lia].
    + destruct (encode_tag amf_serialize tag); cbn; [split; [done|lia]|done].
  - specialize (IH true). destruct (next_live_chunk amf_serialize evs true) as [[[b evs'] w'']|]; [|done].
    destruct IH. split; [done|cbn; lia].
Qed.

Lemma live_chunks_chunks fuel evs w : (length evs <= fuel)%nat ->
  live_chunks amf_serialize fuel evs w = chunks evs w.
Proof.
  revert evs w. induction fuel as [|fuel IH]; intros evs w Hl; [by destruct evs; cbn in *; [|lia]|].
  cbn [live_chunks]. pose proof (next_live_chunk_chunks evs w) as Hn.
  destruct (next_live_chunk amf_serialize evs w) as [[[b evs'] w']|]; [|done].
  destruct Hn as [-> Hn]. f_equal. apply IH. lia.
Qed.

(** The events a body goes on after. *)
Definition goes_on (e : play_event) : Prop :=
  match e with
  | PlayCancelled | RecvClosed => False
  | Recv tag => is_Some (encode_tag amf_serialize tag)
  | Lagged _ => True
  end.

Definition wait_after (w : bool) (e : play_event) : bool :=
  match e with
  | Recv tag => snd (should_skip_while_waiting_keyframe w tag)
  | Lagged _ => true
  | _ => w
  end.

Lemma chunks_app pre post : Forall goes_on pre -> forall w,
  chunks (pre ++ post) w = chunks pre w ++ chunks post (foldl wait_after w pre).
Proof.
  induction 1 as [|e pre He Hpre IH]; intros w; [done|].
  destruct e as [|tag|n|]; cbn [app chunks foldl wait_after goes_on] in *; try done.
  destruct (should_skip_while_waiting_keyframe w tag) as [[] w']; cbn [snd]; [apply IH|].
  destruct He as [b ->]. cbn. by rewrite IH.
Qed.

Definition keyframe (t : FlvTag) : Prop := match t with TVideo _ _ true => True | _ => False end.
Definition inter_frame (t : FlvTag) : Prop := match t with TVideo _ _ false => True | _ => False end.

(** Tags were lost and no key frame came since. *)
Definition damaged (pre : list play_event) : Prop :=
  exists a n b, pre = a ++ Lagged n :: b /\ ~ exists t, Recv t ∈ b /\ keyframe t.

Lemma damaged_snoc pre e : damaged (pre ++ [e])
  <-> (exists n, e = Lagged n) \/ damaged pre /\ ~ exists t, e = Recv t /\ keyframe t.
Proof.
  split.
  - intros (a & n & b & E & Hb). destruct b as [|x b _] using rev_ind.
    + apply app_inj_tail in E as [-> ->]. left. by exists n.
    + rewrite app_comm_cons, app_assoc in E. apply app_inj_tail in E as [-> ->]. right. split.
      * exists a, n, b. split; [done|]. intros (t & Ht & Hk). apply Hb. exists t. set_solver.
      * intros (t & -> & Hk). apply Hb. exists t. set_solver.
  - intros [(n & ->)|((a & n & b & -> & Hb) & He)].
    + exists pre, n, []. split; [done|]. intros (t & Ht & _). by apply elem_of_nil in Ht.
    + exists a, n, (b ++ [e]). split; [by rewrite <- app_assoc|]. intros (t & Ht & Hk).
      apply elem_of_app in Ht as [Ht|Ht%list_elem_of_singleton]; [apply Hb; by exists t|].
      apply He. by exists t.
Qed.

Lemma wait_damaged pre : foldl wait_after false pre = true <-> damaged pre.
Proof.
  induction pre as [|e pre IH] using rev_ind.
  - split; [done|]. intros (a & n & b & E & _). by destruct a.
  - rewrite foldl_app, damaged_snoc, <- IH. cbn. destruct e as [|tag|n|]; cbn.
    + naive_solver.
    + unfold should_skip_while_waiting_keyframe. destruct (foldl wait_after false pre); cbn.
      * destruct tag as [ts p|ts p []|m]; cbn; split; try naive_solver.
      * naive_solver.
    + naive_solver.
    + naive_solver.
Qed.

(** C25: a player that keeps up gets every tag. After it lags it gets no inter
    frame until the next key frame, and nothing else is held back: whatever came
    before, the tag just received extends the body by its encoding, unless it is
    an inter frame and no key frame was received since tags were last lost.
    Cancellation and the removal of the channel end the body. *)
Theorem player_recovers_at_keyframe cached pre tag b post :
  is_Some (encode_cached_tags amf_serialize cached) -> Forall goes_on pre ->
  encode_tag amf_serialize tag = Some b ->
  (inter_frame tag /\ damaged pre ->
     stream_body amf_serialize cached (pre ++ [Recv tag]) = stream_body amf_serialize cached pre)
  /\ (~ (inter_frame tag /\ damaged pre) ->
     stream_body amf_serialize cached (pre ++ [Recv tag]) = stream_body amf_serialize cached pre ++ [b])
  /\ stream_body amf_serialize cached (pre ++ PlayCancelled :: post) = stream_body amf_serialize cached pre
  /\ stream_body amf_serialize cached (pre ++ RecvClosed :: post) = stream_body amf_serialize cached pre.
Proof.
  intros [enc Hc] Hpre Hb. unfold stream_body. rewrite Hc, !live_chunks_chunks by done.
  rewrite !chunks_app by done. cbn [chunks]. rewrite !app_nil_r. rewrite <- wait_damaged, Hb.
  split_and!; try done.
  - intros [Hi ->]. destruct tag as [|ts p []|]; try done. cbn. by rewrite app_nil_r.
  - intros Hn. replace (should_skip_while_waiting_keyframe (foldl wait_after false pre) tag)
      with (false, snd (should_skip_while_waiting_keyframe (foldl wait_after false pre) tag)).
    + cbn. by rewrite app_assoc.
    + destruct (foldl wait_after false pre); [|by cbn]. destruct tag as [|ts p []|]; cbn; try done.
      exfalso. by apply Hn.
Qed.

End Recovery.

Lemma player_recovers_at_keyframe_witness :
  let key := tag_video 0 [0x17] in let inter := tag_video 40 [0x27] in
  stream_body (fun _ => None) [] [Recv key; Lagged 9; Recv inter]
  = stream_body (fun _ => None) [] [Recv key; Lagged 9].
Proof.
  refine (proj1 (player_recovers_at_keyframe (fun _ => None) [] [Recv (tag_video 0 [0x17]); Lagged 9]
    (tag_video 40 [0x27]) [9; 0; 0; 1; 0; 0; 40; 0; 0; 0; 0; 0x27; 0; 0; 0; 12] [] _ _ _) _).
  - by exists [].
  - constructor; [by eexists|by repeat constructor].
  - vm_compute. reflexivity.
  - split; [exact I|]. exists [Recv (tag_video 0 [0x17])], 9, []. split; [reflexivity|].
    intros (t & Ht & _). by apply elem_of_nil in Ht.
Defined.

(** ** Admission *)

Section Admission.
Context {T B : Type} `{BroadcastChan FlvTag B}.

Lemma ascii_app a b :
  list_ascii_of_string (a ++ b)%string = list_ascii_of_string a ++ list_ascii_of_string b.
Proof. induction a as [|c a IH]; cbn; [done|by rewrite <- IH]. Qed.

Lemma ascii_inj a b : list_ascii_of_string a = list_ascii_of_string b -> a = b.
Proof.
  intros E. by rewrite <- (string_of_list_ascii_of_string a), <- (string_of_list_ascii_of_string b), E.
Qed.

Lemma length_ascii a : length (list_ascii_of_string a) = String.length a.
Proof. induction a; cbn; auto. Qed.

Lemma strip_suffix_Some suffix path id : strip_suffix suffix path = Some id <-> path = (id ++ suffix)%string.
Proof.
  unfold strip_suffix. split.
  - case_decide as E; [|done]. intros [= <-]. apply ascii_inj.
    by rewrite ascii_app, list_ascii_of_string_of_list_ascii, <- E, take_drop.
  - intros ->. rewrite ascii_app, length_app, length_ascii, length_ascii.
    replace (String.length id + String.length suffix - String.length suffix)%nat
      with (length (list_ascii_of_string id)) by (rewrite length_ascii; lia).
    rewrite drop_app_length, take_app_length, decide_True by done.
    by rewrite string_of_list_ascii_of_string.
Qed.

Lemma hub_subscribe_at (hub : FlvEgressHub B) id :
  fst (hub_subscribe hub id)
  = (fun ch => (fst (bc_subscribe (ch_sender ch)), ch_cached ch)) <$> hub_channels hub !! id
  /\ (hub_channels hub !! id = None -> snd (hub_subscribe hub id) = hub).
Proof.
  unfold hub_subscribe. destruct (hub_channels hub !! id) as [ch|]; [|done].
  unfold ch_subscribe, ch_subscribe_rx. destruct (bc_subscribe (ch_sender ch)) as [rx b] eqn:Eb. split; [|done].
  cbn. by rewrite Eb.
Qed.

Lemma parse_live_id_Some path id : parse_live_id path = Some id
  <-> path = (id ++ ".flv")%string /\ id <> EmptyString /\ ~ "/"%char ∈ list_ascii_of_string id.
Proof.
  unfold parse_live_id, has_char. rewrite bind_Some. setoid_rewrite strip_suffix_Some. split.
  - intros (x & -> & Hx). repeat case_bool_decide; naive_solver.
  - intros (-> & Hne & Hc). exists id. split; [done|]. by rewrite !bool_decide_false.
Qed.

(** An HTTP-FLV request is served exactly when its path is [<id>.flv] with an
    id that is not empty and has no slash, a connection permit is free, the
    session is connected and its channel exists: the player then subscribes, is
    given the cached headers and holds one permit. Every other request is
    answered 404 or 503 and leaves the permits and the hub alone, 503 only for
    a well-formed path. *)
Theorem http_flv_admission (w : World T) (hub : FlvEgressHub B) semaphore path :
  let '(reply, semaphore', hub') := handle_http_flv w hub semaphore path in
  let servable id := path = (id ++ ".flv")%string /\ id <> EmptyString /\ ~ "/"%char ∈ list_ascii_of_string id in
  match reply with
  | Streaming rx cached => exists id ch, servable id /\ semaphore <> Some 0%nat
      /\ get_state w id = Some Connected /\ hub_channels hub !! id = Some ch
      /\ cached = ch_cached ch /\ rx = fst (bc_subscribe (ch_sender ch))
      /\ semaphore' = pred <$> semaphore /\ hub' = snd (hub_subscribe hub id)
  | Status code => semaphore' = semaphore /\ hub' = hub
      /\ (code = NOT_FOUND \/ code = SERVICE_UNAVAILABLE /\ exists id, servable id)
      /\ ~ (exists id, servable id /\ semaphore <> Some 0%nat /\ get_state w id = Some Connected
            /\ is_Some (hub_channels hub !! id))
  end.
Proof.
  destruct (handle_http_flv w hub semaphore path) as [[reply semaphore'] hub'] eqn:E. cbn zeta.
  unfold handle_http_flv, stream_response in E. pose proof (parse_live_id_Some path) as Hp.
  destruct (parse_live_id path) as [id|] eqn:Ep.
  2: { simplify_eq. setoid_rewrite <- Hp. split_and!; [done..|by left|naive_solver]. }
  case_bool_decide as Es.
  { simplify_eq. setoid_rewrite <- Hp. split_and!; [done..|right; eauto|naive_solver]. }
  destruct (get_state w id) as [st|] eqn:Eg.
  2: { simplify_eq. setoid_rewrite <- Hp. split_and!; [done..|by left|naive_solver]. }
  destruct (hub_subscribe_at hub id) as [Hf Hn].
  destruct st; try by (simplify_eq; setoid_rewrite <- Hp; split_and!; [done..|right; eauto|naive_solver]).
  destruct (hub_subscribe hub id) as [[[rx cached]|] hub1] eqn:Eu; cbn in *; simplify_eq; setoid_rewrite <- Hp.
  - symmetry in Hf. apply fmap_Some in Hf as (ch & Hch & [= -> ->]). exists id, ch. rewrite Eu. by split_and!.
  - destruct (hub_channels hub !! id) eqn:Eh; [done|]. rewrite Hn by done.
    split_and!; try done; [by left|]. intros (id' & [= <-] & _ & _ & [? ?]). congruence.
Qed.

End Admission.
