(* ===== verification/HttpServer.v ===== *)
(** * The HTTP server
    [livestream-transport/src/http_flv/server.rs]: the server around the playback
    of [HttpFlv]: its routes, the responses with their headers, and its connection
    permits over the requests and the ends of their bodies. How axum matches a
    path against the pattern of a route is a parameter. *)
From Stdlib Require Import Ascii String.
From stdpp Require Import strings gmap list relations.
From S2P Require Import Prelude Types Flv Tokio FlvHub Session Control RtspSession HttpFlv.

(** ** Routes *)

Inductive http_method := GET | HEAD | OPTIONS | OtherHttpMethod.

#[export] Instance http_method_eq_dec : EqDecision http_method.
Proof. solve_decision. Defined.

Inductive http_handler := HandleAlive | HandleHealth | HandleStreamHealth | HandleHttpFlv | HandleCorsPreflight.

Definition ROUTE_PATH : string := "/lives/{*path}".

(** The router of [create]. *)
Definition router (flv_enabled : bool) : list (string * list (http_method * http_handler)) :=
  [("/alive", [(GET, HandleAlive)]); ("/health", [(GET, HandleHealth)]);
   ("/health/stream/{live_id}", [(GET, HandleStreamHealth)])]%string
  ++ (if flv_enabled then [(ROUTE_PATH, [(GET, HandleHttpFlv); (OPTIONS, HandleCorsPreflight)])] else []).

(** ** Responses *)

Inductive http_body :=
| NoBody
| Text (text : string)
| HealthBody (status : string) (session_count : nat)
| StreamHealthBody (live_id state : string)
| FlvBody (rx : nat) (cached : list FlvTag).

Record http_response := mkHttpResponse {
  hr_status : Z;
  hr_headers : list (string * string);
  hr_body : http_body;
}.

Definition OK : Z := 200.
Definition METHOD_NOT_ALLOWED : Z := 405.

Definition status_response (code : Z) : http_response := mkHttpResponse code [] NoBody.

Definition flv_response (body : http_body) : http_response :=
  mkHttpResponse OK [("content-type", "video/x-flv"); ("cache-control", "no-cache"); ("access-control-allow-origin", "*")]%string body.

Definition handle_cors_preflight : http_response :=
  mkHttpResponse OK [("access-control-allow-origin", "*"); ("access-control-allow-methods", "GET, OPTIONS");
    ("access-control-allow-headers", "*")]%string NoBody.

Definition handle_alive : http_response := mkHttpResponse OK [] (Text "ok").

(** The state as [Debug] prints it. *)
Definition debug_state (st : SessionState) : string :=
  match st with
  | Pending => "Pending" | Connecting => "Connecting" | Connected => "Connected" | Disconnected => "Disconnected"
  end%string.

(** ** The server *)

(** [HttpFlvServer] with its state: the free permits, if there is a limit, and the
    bodies that are being sent. *)
Record HttpFlvServer := mkHttpServer {
  hs_flv_enabled : bool;
  hs_semaphore : option nat;
  hs_bodies : list nat;
}.

(** [create]; [bound]: whether the address could be bound. *)
Definition http_create (bound : bool) (max_connections : nat) (flv_enabled : bool) : result unit HttpFlvServer :=
  if bound then Ok (mkHttpServer flv_enabled (make_connection_semaphore max_connections) []) else Err tt.

Section Requests.
Context {T B : Type} `{BroadcastChan FlvTag B}.
(** Whether a pattern matches a path, and what its capture is then. *)
Context (path_match : string -> string -> option string).

(** axum's [get] serves [HEAD] too. *)
Definition method_handler (methods : list (http_method * http_handler)) (method : http_method) : option http_handler :=
  let wanted := match method with HEAD => GET | m => m end in
  (fun found => snd (snd found)) <$> list_find (fun mh => fst mh = wanted) methods.

Fixpoint find_route (routes : list (string * list (http_method * http_handler))) (method : http_method) (path : string) :
    result Z (http_handler * string) :=
  match routes with
  | [] => Err NOT_FOUND
  | (pattern, methods) :: routes =>
      match path_match pattern path with
      | None => find_route routes method path
      | Some capture =>
          match method_handler methods method with
          | Some handler => Ok (handler, capture)
          | None => Err METHOD_NOT_ALLOWED
          end
      end
  end.

(** What the handler of a request makes: the response, the server and the hub. *)
Definition dispatch (w : World T) (hub : FlvEgressHub B) (s : HttpFlvServer) (method : http_method) (path : string) :
    http_response * HttpFlvServer * FlvEgressHub B :=
  match find_route (router (hs_flv_enabled s)) method path with
  | Err code => (status_response code, s, hub)
  | Ok (HandleAlive, _) => (handle_alive, s, hub)
  | Ok (HandleHealth, _) => (mkHttpResponse OK [] (HealthBody "healthy" (handle_health w)), s, hub)
  | Ok (HandleStreamHealth, live_id) =>
      (match handle_stream_health w live_id with
       | Ok st => mkHttpResponse OK [] (StreamHealthBody live_id (debug_state st))
       | Err code => status_response code
       end, s, hub)
  | Ok (HandleCorsPreflight, _) => (handle_cors_preflight, s, hub)
  | Ok (HandleHttpFlv, rest) =>
      match handle_http_flv w hub (hs_semaphore s) rest with
      | (Status code, semaphore, hub) => (status_response code, mkHttpServer (hs_flv_enabled s) semaphore (hs_bodies s), hub)
      | (Streaming rx cached, semaphore, hub) =>
          (flv_response (FlvBody rx cached), mkHttpServer (hs_flv_enabled s) semaphore (hs_bodies s ++ [rx]), hub)
      end
  end.

(** One request. The body of a [HEAD] is taken off its response and dropped, with the
    guard of its permit. *)
Definition handle_http (w : World T) (hub : FlvEgressHub B) (s : HttpFlvServer) (method : http_method) (path : string) :
    http_response * HttpFlvServer * FlvEgressHub B :=
  let '(response, s', hub') := dispatch w hub s method path in
  match method with
  | HEAD => (mkHttpResponse (hr_status response) (hr_headers response) NoBody, s, hub')
  | _ => (response, s', hub')
  end.

(** A request, whatever the registry and the hub are by then, or the end of a body,
    sent or given up, which drops its guard. *)
Inductive http_step : HttpFlvServer -> HttpFlvServer -> Prop :=
| HttpRequest (w : World T) (hub : FlvEgressHub B) s method path : http_step s (snd (fst (handle_http w hub s method path)))
| HttpBodyEnds s before rx after : hs_bodies s = before ++ rx :: after ->
    http_step s (mkHttpServer (hs_flv_enabled s) (S <$> hs_semaphore s) (before ++ after)).

(** ** Properties *)

(** The permits of a server made for [max] connections. *)
Definition permits_ok (max : nat) (flv_enabled : bool) (s : HttpFlvServer) : Prop :=
  hs_flv_enabled s = flv_enabled
  /\ match hs_semaphore s with
     | Some free => (free + length (hs_bodies s) = max)%nat /\ (0 < max)%nat
     | None => max = 0%nat
     end.

Lemma handle_http_flv_permits w hub sem rest : let '(reply, sem', _) := handle_http_flv (T := T) w hub sem rest in
  match reply with
  | Status code => sem' = sem
  | Streaming rx cached => sem <> Some 0%nat /\ sem' = pred <$> sem
  end.
Proof.
  unfold handle_http_flv. destruct (parse_live_id rest) as [id|]; [|done].
  case_bool_decide; [done|]. destruct (get_state w id) as [[]|]; try done.
  destruct (stream_response hub id) as [[code|rx cached] hub']; done.
Qed.

Lemma http_step_permits max e s s' : http_step s s' -> permits_ok max e s -> permits_ok max e s'.
Proof.
  intros [w hub s0 method path|s0 before rx after Hb] [He Hs]; [|split; [done|]].
  - unfold handle_http. destruct (decide (method = HEAD)) as [->|Hm]; [by destruct (dispatch _ _ _ _ _) as [[? ?] ?]|].
    assert (forall x, snd (fst (let '(r, s', h') := x in match method with HEAD => (mkHttpResponse (hr_status r) (hr_headers r) NoBody, s0, h')
      | _ => (r, s', h') end)) = snd (fst x)) as -> by (intros [[? ?] ?]; by destruct method).
    unfold dispatch. destruct (find_route _ method path) as [[h arg]|code]; [destruct h|]; try done.
    pose proof (handle_http_flv_permits w hub (hs_semaphore s0) arg) as Hp.
    destruct (handle_http_flv w hub (hs_semaphore s0) arg) as [[[code|rx cached] sem] hub'];
      [subst sem|destruct Hp as [Hne ->]]; (split; [done|]); cbn; [done|].
    destruct (hs_semaphore s0) as [[|free]|]; cbn; [done| |done]. rewrite length_app. cbn. lia.
  - cbn. destruct (hs_semaphore s0); cbn; [|done]. rewrite Hb, length_app in Hs. rewrite length_app. cbn in Hs. lia.
Qed.

Lemma http_permits bound max e s0 s : http_create bound max e = Ok s0 -> rtc http_step s0 s -> permits_ok max e s.
Proof.
  unfold http_create. destruct bound; [intros [= <-]|done]. intros Hr.
  assert (permits_ok max e (mkHttpServer e (make_connection_semaphore max) [])) as H0.
  { split; [done|]. unfold make_connection_semaphore. destruct (Nat.ltb_spec 0 max); cbn; lia. }
  revert H0. induction Hr as [|s1 s2 s3 Hstep _ IH]; [done|]. intros H1. apply IH. by eapply http_step_permits.
Qed.

(** C26: What the HTTP server does with a playback request, in every state it
    reaches. With a limit, never more bodies are sent than connections allowed,
    and every other permit is free; without one nothing is ever refused for it.
    Let axum match the patterns as documented, and let an id be not empty and have
    no slash (the service accepts ids with one, but their path is not found). Then
    a GET of its advertised path is streamed, with the headers a browser's player
    needs, exactly when FLV is enabled, a permit is free, the session is connected
    and its channel exists; a HEAD gets the same status and headers, no body, and
    keeps no permit; and a preflight request of any origin is allowed it. With FLV
    disabled the path leads nowhere. *)
Theorem http_playback_endpoint bound max flv_enabled s0 s (w : World T) (hub : FlvEgressHub B) live_id :
  http_create bound max flv_enabled = Ok s0 -> rtc http_step s0 s ->
  live_id <> EmptyString -> ~ "/"%char ∈ list_ascii_of_string live_id ->
  let path := playback_path live_id in
  path_match "/alive" path = None -> path_match "/health" path = None ->
  path_match "/health/stream/{live_id}" path = None ->
  path_match ROUTE_PATH path = Some (live_id ++ ".flv")%string ->
  let '(response, s', hub') := handle_http w hub s GET path in
  let open := (hs_semaphore s <> Some 0%nat /\ get_state w live_id = Some Connected /\ is_Some (hub_channels hub !! live_id)) in
  (0 < max -> length (hs_bodies s') <= max)%nat
  /\ (hs_semaphore s = Some 0%nat <-> 0 < max /\ length (hs_bodies s) = max)%nat
  /\ (flv_enabled = false -> hr_status response = NOT_FOUND)
  /\ (flv_enabled = true ->
      (open <-> exists rx cached, response = flv_response (FlvBody rx cached) /\ hs_bodies s' = hs_bodies s ++ [rx])
      /\ (~ open -> hr_status response = NOT_FOUND \/ hr_status response = SERVICE_UNAVAILABLE)
      /\ handle_http w hub s HEAD path = (mkHttpResponse (hr_status response) (hr_headers response) NoBody, s, hub')
      /\ handle_http w hub s OPTIONS path = (handle_cors_preflight, s, hub)).
Proof.
  intros Hc Hr Hne Hsl path Ha Hh Hsh Hf. pose proof (http_permits bound max flv_enabled s0 s Hc Hr) as Hok.
  assert (permits_ok max flv_enabled (snd (fst (handle_http w hub s GET path)))) as Hok'
    by (eapply http_step_permits; [apply HttpRequest|exact Hok]).
  destruct Hok as [He Hs].
  assert ((hs_semaphore s = Some 0%nat <-> 0 < max /\ length (hs_bodies s) = max)%nat) as Hsem.
  { destruct (hs_semaphore s) as [free|]; split; try (intros [= ->]); intros; try done; try lia. f_equal. lia. }
  assert (forall method, find_route (router flv_enabled) method path
    = if flv_enabled then match method with GET | HEAD => Ok (HandleHttpFlv, live_id ++ ".flv")%string
                          | OPTIONS => Ok (HandleCorsPreflight, live_id ++ ".flv")%string | _ => Err METHOD_NOT_ALLOWED end
      else Err NOT_FOUND) as Hroute.
  { intros method. unfold router. cbn [app find_route]. rewrite Ha, Hh, Hsh.
    destruct flv_enabled; [|done]. cbn [app find_route]. rewrite Hf. by destruct method. }
  assert (flv_enabled = true -> handle_http w hub s OPTIONS path = (handle_cors_preflight, s, hub)) as Hopt
    by (intros ->; unfold handle_http, dispatch; by rewrite He, Hroute).
  assert (dispatch w hub s HEAD path = dispatch w hub s GET path) as Hhead
    by (unfold dispatch; rewrite He, !Hroute; by destruct flv_enabled).
  unfold handle_http in Hok' |- *. rewrite Hhead.
  destruct (dispatch w hub s GET path) as [[response s'] hub'] eqn:E.
  assert (0 < max -> length (hs_bodies s') <= max)%nat as Hlen
    by (destruct Hok' as [_ Hs']; cbn in Hs'; destruct (hs_semaphore s'); lia).
  split_and!; [done|done| |].
  - intros ->. unfold dispatch in E. rewrite He, Hroute in E. by injection E as <- _ _.
  - intros ->. specialize (Hopt eq_refl). unfold handle_http in Hopt. unfold dispatch in E. rewrite He, Hroute in E. cbn zeta iota beta in E.
    pose proof (http_flv_admission w hub (hs_semaphore s) (live_id ++ ".flv")%string) as Hadm. cbn zeta in Hadm.
    destruct (handle_http_flv w hub (hs_semaphore s) _) as [[[code|rx cached] sem] hub1]; injection E as <- <- <-; swap 1 2.
    + destruct Hadm as (id & ch & Hid & Hsm & Hst & Hch & _). apply parse_live_id_Some in Hid.
      assert (parse_live_id (live_id ++ ".flv") = Some live_id) as Hp by (by apply parse_live_id_Some).
      rewrite Hp in Hid. injection Hid as <-. split_and!; [|intros Hno; destruct Hno; by eauto|done|done].
      split; [by eauto|]. intros _. split_and!; eauto.
    + destruct Hadm as (-> & -> & Hcode & Hno).
      assert (~ (hs_semaphore s <> Some 0%nat /\ get_state w live_id = Some Connected /\ is_Some (hub_channels hub !! live_id))) as Hn.
      { intros Hopen. apply Hno. by exists live_id. }
      split_and!; [|intros _; cbn; destruct Hcode as [?|[? _]]; by auto|done|done].
      split; [done|]. by intros (rx & cached & Heq & _).
Qed.
End Requests.

(** A wildcard after [/lives/], and literal patterns otherwise. *)
Definition demo_match (pattern path : string) : option string :=
  if decide (pattern = ROUTE_PATH)
  then if bool_decide (take 7 (list_ascii_of_string path) = list_ascii_of_string "/lives/")
       then Some (string_of_list_ascii (drop 7 (list_ascii_of_string path))) else None
  else if decide (pattern = path) then Some EmptyString else None.

(** A camera that records, on a server with one connection. *)
Lemma http_playback_endpoint_witness :
  let s := mkHttpServer true (Some 1%nat) [] in
  let '(response, s', hub') := handle_http demo_match (sv_world (snd demo_open)) (sv_hub (snd demo_open)) s GET "/lives/cam.flv" in
  exists rx cached, response = flv_response (FlvBody rx cached) /\ hs_bodies s' = [rx].
Proof.
  intros s. pose proof (http_playback_endpoint demo_match true 1 true s s (sv_world (snd demo_open)) (sv_hub (snd demo_open)) "cam"
    eq_refl (rtc_refl _ _) ltac:(done) ltac:(vm_compute; set_solver) eq_refl eq_refl eq_refl eq_refl) as Hp.
  change (playback_path "cam") with "/lives/cam.flv"%string in Hp.
  destruct (handle_http demo_match _ _ s GET "/lives/cam.flv") as [[response s'] hub'].
  destruct Hp as (_ & _ & _ & Hp). destruct (Hp eq_refl) as ([Ho _] & _). apply Ho.
  split; [discriminate|]. split; [vm_compute; reflexivity|]. vm_compute. eauto.
Defined.
