(* ===== verification/FlvPath.v ===== *)
(** * From a publisher to its FLV players
    [livestream-pipeline/src/{task.rs, sink/flv.rs, broadcast.rs}]: the loop that
    runs a sink, the FLV sink, and what the components between the pipeline and an
    HTTP-FLV player do together: the sink, the hub ([FlvHub]) and the player's body
    ([HttpFlv]). *)
From stdpp Require Import strings gmap list.
From S2P Require Import Prelude Types Flv Tokio FlvHub Nal FlvMux RtmpSource HttpFlv.

(** ** The sink loop *)

(** The [Sink] trait: [consume]. *)
Class Sink (S I : Type) := { consume : S -> I -> result unit unit * S }.

Record SinkLoop (S I : Type) := mkSinkLoop {
  sk_node : S;
  sk_input : list I;
  sk_senders : bool;
  sk_ended : bool;
  sk_errors : nat;         (* [metric_pipeline_error!] *)
  sk_consumed : list I;    (* the items given to [consume], for the statements *)
}.
Arguments mkSinkLoop {S I}.
Arguments sk_node {S I}.
Arguments sk_input {S I}.
Arguments sk_senders {S I}.
Arguments sk_ended {S I}.
Arguments sk_errors {S I}.
Arguments sk_consumed {S I}.

Inductive SinkEvent (I : Type) :=
| SinkArrives (item : I)      (* upstream: an item enters the input queue *)
| SinkSendersGone             (* upstream: the last sender is dropped *)
| SinkRecv                    (* the receive branch is taken *)
| SinkCancelled.              (* the cancelled branch is taken *)
Arguments SinkArrives {I} item.
Arguments SinkSendersGone {I}.
Arguments SinkRecv {I}.
Arguments SinkCancelled {I}.

Section RunSink.
Context {S I : Type} `{Sink S I}.

Definition sink_loop_new (node : S) : SinkLoop S I := mkSinkLoop node [] true false 0 [].

Definition sink_break (l : SinkLoop S I) : SinkLoop S I :=
  mkSinkLoop (sk_node l) (sk_input l) (sk_senders l) true (sk_errors l) (sk_consumed l).

(** An error of [consume] is counted and dropped. *)
Definition consume_one (node : S) (item : I) : nat * S :=
  match consume node item with
  | (Ok _, node) => (0%nat, node)
  | (Err _, node) => (1%nat, node)
  end.

Definition run_sink_step (l : SinkLoop S I) (ev : SinkEvent I) : SinkLoop S I :=
  match ev with
  | SinkArrives item =>
      if sk_senders l && negb (sk_ended l)
      then mkSinkLoop (sk_node l) (sk_input l ++ [item]) true false (sk_errors l) (sk_consumed l)
      else l
  | SinkSendersGone =>
      mkSinkLoop (sk_node l) (sk_input l) false (sk_ended l) (sk_errors l) (sk_consumed l)
  | SinkCancelled => if sk_ended l then l else sink_break l
  | SinkRecv =>
      if sk_ended l then l
      else match sk_input l with
           | item :: rest =>
               let '(errors, node) := consume_one (sk_node l) item in
               mkSinkLoop node rest (sk_senders l) false (sk_errors l + errors) (sk_consumed l ++ [item])
           | [] => if sk_senders l then l else sink_break l
           end
  end.

Definition run_sink (l : SinkLoop S I) (evs : list (SinkEvent I)) : SinkLoop S I := foldl run_sink_step l evs.

Fixpoint sink_arrived (senders : bool) (evs : list (SinkEvent I)) : list I :=
  match evs with
  | [] => []
  | SinkArrives item :: evs => if senders then item :: sink_arrived senders evs else sink_arrived senders evs
  | SinkSendersGone :: evs => sink_arrived false evs
  | _ :: evs => sink_arrived senders evs
  end.

(** Consuming some items in order. *)
Definition consume_all (node : S) (items : list I) : nat * S :=
  foldl (fun '(errors, node) item => let '(e, node) := consume_one node item in ((errors + e)%nat, node))
    (0%nat, node) items.

Definition sink_ok (node : S) (sent : list I) (l : SinkLoop S I) : Prop :=
  (exists rest, sent = sk_consumed l ++ sk_input l ++ rest /\ (sk_ended l = true \/ rest = []))
  /\ (sk_errors l, sk_node l) = consume_all node (sk_consumed l).

Lemma sink_step_ok node sent l ev : sink_ok node sent l ->
  sink_ok node (sent ++ sink_arrived (sk_senders l) [ev]) (run_sink_step l ev).
Proof.
  intros [(rest & Hs & Hr) Hn]. destruct l as [nd input senders ended errs consumed]. cbn in *.
  destruct ev as [item| | |]; cbn [sink_arrived]; rewrite ?app_nil_r; cbn.
  - destruct senders; cbn; [|rewrite app_nil_r; split; [by exists rest|done]].
    destruct ended; cbn; (split; [|done]).
    + exists (rest ++ [item]). split; [by rewrite Hs, <- !app_assoc|by left].
    + destruct Hr as [|Hr]; [done|]. subst rest. exists []. split; [|by right].
      by rewrite Hs, !app_nil_r, <- !app_assoc.
  - split; [by exists rest|done].
  - destruct ended; [split; [by exists rest|done]|]. destruct input as [|item input].
    + destruct senders; (split; [|done]); exists rest; cbn; eauto.
    + destruct (consume_one nd item) as [e nd'] eqn:E. split; cbn.
      * exists rest. by rewrite Hs, <- !app_assoc.
      * unfold consume_all in *. rewrite foldl_snoc, <- Hn. by rewrite E.
  - destruct ended; (split; [exists rest; cbn; eauto|done]).
Qed.

Lemma sink_step_senders l ev evs :
  sink_arrived (sk_senders l) (ev :: evs)
  = sink_arrived (sk_senders l) [ev] ++ sink_arrived (sk_senders (run_sink_step l ev)) evs.
Proof.
  assert (sk_senders (run_sink_step l ev)
    = match ev with SinkSendersGone => false | _ => sk_senders l end) as ->.
  { destruct l as [nd input senders ended errs consumed], ev; cbn; try done.
    - by destruct senders, ended.
    - destruct ended; [done|]. destruct input; [by destruct senders|]. by destruct (consume_one _ _).
    - by destruct ended. }
  destruct ev; cbn; try done. by destruct (sk_senders l).
Qed.

(** Whatever the order in which items arrive, senders vanish and the token is
    cancelled, a sink consumes a prefix of the items sent to it, in order and
    each once, an error of one item never stopping the next; while the loop runs
    nothing is lost. *)
Theorem run_sink_outcome (node : S) (evs : list (SinkEvent I)) :
  let l := run_sink (sink_loop_new node) evs in
  (exists rest, sink_arrived true evs = sk_consumed l ++ sk_input l ++ rest
     /\ (sk_ended l = true \/ rest = []))
  /\ (sk_errors l, sk_node l) = consume_all node (sk_consumed l).
Proof.
  change (sink_ok node ([] ++ sink_arrived (sk_senders (sink_loop_new node)) evs)
    (run_sink (sink_loop_new node) evs)).
  assert (sink_ok node [] (sink_loop_new node)) as H0 by (split; [exists []; cbn; auto|done]).
  revert H0. generalize (sink_loop_new node), (@nil I). induction evs as [|ev evs IH]; intros l sent H0.
  { by rewrite app_nil_r. }
  rewrite sink_step_senders, app_assoc. apply (IH (run_sink_step l ev)). by apply sink_step_ok.
Qed.
End RunSink.

(** ** The FLV sink *)

(** The hub is shared with the servers and the players. *)
Record FlvSink (B : Type) := mkFlvSink { fs_live_id : string; fs_broadcast : FlvEgressHub B }.
Arguments mkFlvSink {B}.
Arguments fs_live_id {B}.
Arguments fs_broadcast {B}.

Section Path.
Context {B : Type} `{HB : BroadcastChan FlvTag B} `{!BroadcastLaws FlvTag B}.

#[export] Instance FlvSink_sink : Sink (FlvSink B) FlvTag := {
  consume s tag := (Ok tt, mkFlvSink (fs_live_id s) (hub_broadcast (fs_broadcast s) (fs_live_id s) tag));
}.

Lemma flv_sink_consumes (live_id : string) (hub : FlvEgressHub B) tags :
  consume_all (mkFlvSink live_id hub) tags
  = (0%nat, mkFlvSink live_id (foldl (fun h t => hub_broadcast h live_id t) hub tags)).
Proof.
  unfold consume_all. induction tags as [|t tags IH] using rev_ind; [done|].
  rewrite !foldl_snoc, IH. done.
Qed.

(** Broadcasting through the hub is broadcasting on the channel. *)
Lemma hub_broadcast_all (live_id : string) (hub : FlvEgressHub B) ch tags : hub_channels hub !! live_id = Some ch ->
  hub_channels (foldl (fun h t => hub_broadcast h live_id t) hub tags) !! live_id = Some (broadcast_all ch tags).
Proof.
  intros Hch. induction tags as [|t tags IH] using rev_ind; [done|].
  rewrite foldl_snoc, broadcast_all_snoc. unfold hub_broadcast at 1. rewrite IH. cbn.
  by rewrite lookup_insert_eq.
Qed.

Lemma hub_subscribe_channel (live_id : string) (hub : FlvEgressHub B) ch : hub_channels hub !! live_id = Some ch ->
  let '(rx, cached, ch') := ch_subscribe ch in
  hub_subscribe hub live_id
  = (Some (rx, cached), mkHub (<[live_id := ch']> (hub_channels hub)) (hub_demand_signals hub)).
Proof. intros Hch. unfold hub_subscribe. rewrite Hch. by destruct (ch_subscribe ch) as [[rx cached] ch']. Qed.
End Path.

(** ** From frames to tags *)

Lemma avcc_loop_bytes_ok data fuel : bytes_ok data -> forall pos out, bytes_ok out ->
  bytes_ok (avcc_loop fuel data pos out).
Proof.
  intros Hd. induction fuel as [|fuel IH]; intros pos out Ho; [done|]. cbn [avcc_loop].
  destruct (_ <=? _)%nat; [|done]. destruct (_ <? _)%nat; [done|]. apply IH.
  apply bytes_ok_app. split; [done|]. apply bytes_ok_app. split; [|by apply bytes_ok_slice].
  repeat (constructor; [unfold in_u, u8_max; lia|]). constructor.
Qed.

Lemma convert_frame_bytes_ok frame pkt : bytes_ok (rf_data frame) -> convert_frame frame = Some pkt ->
  packet_bytes_ok pkt.
Proof.
  intros Hd. unfold convert_frame. destruct (_ || _); [done|].
  destruct (rf_is_video frame && _).
  - unfold convert_video_frame. destruct (video_codec _) as [codec|]; [|done]. intros [= <-].
    set (raw := if (5 <? _)%nat then _ else _).
    assert (bytes_ok raw) as Hr by (subst raw; destruct (_ <? _)%nat; [by apply bytes_ok_drop|constructor]).
    unfold packet_bytes_ok. cbn [pk_data as_bytes pk_extradata].
    set (cd := if negb _ && _ then _ else raw).
    assert (bytes_ok cd) as Hcd
      by (subst cd; destruct (negb _ && _); [apply avcc_loop_bytes_ok; [done|constructor]|done]).
    split; [done|]. destruct ((byte_at (rf_data frame) 1 =? 0) && _); [exact Hcd|exact I].
  - destruct (rf_is_audio frame); [|done]. unfold convert_audio_frame. intros [= <-].
    split; [|done]. cbn. destruct (2 <? _)%nat; [by apply bytes_ok_drop|constructor].
Qed.

Lemma converted_bytes_ok frames : Forall (fun f => bytes_ok (rf_data f)) frames ->
  Forall packet_bytes_ok (omap convert_frame frames).
Proof.
  induction 1 as [|f fs Hd _ IH]; [constructor|]. cbn. destruct (convert_frame f) as [pkt|] eqn:E; [|exact IH].
  constructor; [by eapply convert_frame_bytes_ok|exact IH].
Qed.

Lemma flv_mux_process_media m pkt : packet_bytes_ok pkt -> Forall media_tag (fst (flv_mux_process m pkt)).
Proof.
  intros Hp. unfold flv_mux_process. destruct (pk_codec pkt) eqn:Ec; cbn [fst]; try apply Forall_nil_2.
  - pose proof (proj1 (mux_video_wf m pkt Hp (or_introl Ec))) as Hw. destruct (mux_video m pkt).
    by apply Forall_singleton.
  - pose proof (proj1 (mux_video_wf m pkt Hp (or_intror Ec))) as Hw. destruct (mux_video m pkt).
    by apply Forall_singleton.
  - by apply Forall_singleton, mux_audio_wf.
Qed.

Lemma flv_mux_run_media pkts : Forall packet_bytes_ok pkts -> forall m,
  Forall media_tag (fst (flv_mux_run m pkts)).
Proof.
  induction 1 as [|pkt pkts Hp _ IH]; intros m; [constructor|]. cbn [flv_mux_run].
  pose proof (flv_mux_process_media m pkt Hp). destruct (flv_mux_process m pkt) as [tags m'].
  specialize (IH m'). destruct (flv_mux_run m' pkts). by apply Forall_app.
Qed.

(** ** From tags to the player *)

Lemma no_script_header ts : Forall media_tag ts -> last_header 0 ts = None.
Proof.
  intros Hm. unfold last_header. destruct (last _) as [t|] eqn:E; [|done].
  apply last_Some_elem_of, list_elem_of_filter in E as [[_ Hslot] Hin].
  apply (proj1 (Forall_forall _ _) Hm) in Hin. by destruct t.
Qed.

Definition sendable (t : FlvTag) : Prop := (length (tag_payload t) <= Z.to_nat u24_max)%nat.

Section Player.
Context (ser : list Amf0Value -> option bytes)
        (des : bytes -> option (list Amf0Value))
        (gop : Amf0Value -> option (list (string * Amf0Value)))
        (amv : StreamMetadata -> list (string * Amf0Value) -> StreamMetadata).

Lemma encode_tag_media t : media_tag t -> sendable t ->
  exists b, encode_tag ser t = Some b /\ flv_tag_try_from des gop amv b = Ok t.
Proof.
  intros Ht Hs. pose proof (flv_tag_decodes ser des gop amv t Ht Hs) as (b & He & Hd).
  exists b. unfold encode_tag. by rewrite He.
Qed.

(** A player that keeps up sends the encoding of each tag. *)
Lemma chunks_received ts : Forall media_tag ts -> Forall sendable ts ->
  exists bs, chunks ser (map Recv ts ++ [RecvClosed]) false = bs
    /\ Forall2 (fun b t => flv_tag_try_from des gop amv b = Ok t) bs ts.
Proof.
  induction 1 as [|t ts Ht _ IH]; intros Hs; [by exists []|]. apply Forall_cons in Hs as [Hs Hss].
  destruct (encode_tag_media t Ht Hs) as (b & He & Hd), (IH Hss) as (bs & <- & Hbs).
  eexists. split; [cbn; by rewrite He|]. by constructor.
Qed.

Lemma cached_encoded ts : Forall media_tag ts -> Forall sendable ts ->
  exists bs, encode_cached_tags ser ts = Some bs
    /\ Forall2 (fun b t => flv_tag_try_from des gop amv b = Ok t) bs ts.
Proof.
  induction 1 as [|t ts Ht _ IH]; intros Hs; [by exists []|]. apply Forall_cons in Hs as [Hs Hss].
  destruct (encode_tag_media t Ht Hs) as (b & He & Hd), (IH Hss) as (bs & Hc & Hbs).
  exists (b :: bs). split; [cbn; by rewrite He, Hc|]. by constructor.
Qed.

Lemma stream_body_received cached ts : Forall media_tag (cached ++ ts) -> Forall sendable (cached ++ ts) ->
  exists bs, stream_body ser cached (map Recv ts ++ [RecvClosed]) = build_flv_header cached :: bs
    /\ Forall2 (fun b t => flv_tag_try_from des gop amv b = Ok t) bs (cached ++ ts).
Proof.
  intros [Hc Ht]%Forall_app [Hcs Hts]%Forall_app.
  destruct (cached_encoded cached Hc Hcs) as (b1 & He & H1), (chunks_received ts Ht Hts) as (b2 & Hb & H2).
  exists (b1 ++ b2). split; [|by apply Forall2_app]. unfold stream_body.
  by rewrite He, live_chunks_chunks, Hb.
Qed.
End Player.

(** ** End to end *)

Section EndToEnd.
Context {B : Type} `{HB : BroadcastChan FlvTag B} `{!BroadcastLaws FlvTag B}.
Context (ser : list Amf0Value -> option bytes)
        (des : bytes -> option (list Amf0Value))
        (gop : Amf0Value -> option (list (string * Amf0Value)))
        (amv : StreamMetadata -> list (string * Amf0Value) -> StreamMetadata).

(** The hub after the sink of a live id consumed some tags. *)
Definition sunk (hub : FlvEgressHub B) (live_id : string) (tags : list FlvTag) : FlvEgressHub B :=
  fs_broadcast (snd (consume_all (mkFlvSink live_id hub) tags)).

(** The tags a sink is given, and a player that subscribes between [t1] and [t2]:
    the cached headers, and a body that this program's decoder reads back. *)
Lemma tags_reach_player (hub : FlvEgressHub B) live_id t1 t2 :
  Forall media_tag (t1 ++ t2) -> Forall sendable (t1 ++ t2) -> (length t2 <= 1024)%nat ->
  hub_channels hub !! live_id = Some FlvLiveChannel_new ->
  exists rx cached joined ch chunks,
    hub_subscribe (sunk hub live_id t1) live_id = (Some (rx, cached), joined)
    /\ cached = opt_list (last_header 1 t1) ++ opt_list (last_header 2 t1)
    /\ hub_channels (sunk joined live_id t2) !! live_id = Some ch
    /\ bc_backlog (ch_sender ch) rx = t2
    /\ stream_body ser cached (map Recv t2 ++ [RecvClosed]) = build_flv_header cached :: chunks
    /\ Forall2 (fun b t => flv_tag_try_from des gop amv b = Ok t) chunks (cached ++ t2).
Proof.
  intros Hm Hs Hl Hhub.
  unfold sunk. rewrite flv_sink_consumes. cbn [snd fs_broadcast].
  pose proof (hub_broadcast_all live_id hub _ t1 Hhub) as H1.
  pose proof (hub_subscribe_channel live_id _ _ H1) as H2.
  pose proof (joined_channel t1 t2) as H3.
  destruct (ch_subscribe _) as [[rx cached] c]. destruct H3 as (Hcached & Hin & Hback).
  rewrite (no_script_header t1) in Hcached by (by apply Forall_app in Hm as [? _]).
  cbn [opt_list app] in Hcached.
  assert (Forall media_tag (cached ++ t2) /\ Forall sendable (cached ++ t2)) as [Hmc Hsc].
  { assert (forall P, Forall P (t1 ++ t2) -> Forall P (cached ++ t2)) as Hsub; [|by split; apply Hsub].
    intros P [HP1 HP2]%Forall_app. apply Forall_app. split; [|done].
    eapply Forall_impl; [exact Hin|]. intros t [_ Hin']. by apply (proj1 (Forall_forall _ _) HP1). }
  destruct (stream_body_received ser des gop amv cached t2 Hmc Hsc) as (chunks & Hbody & Hdec).
  eexists rx, cached, _, _, chunks. split_and!; [exact H2|done| |by rewrite Hback, last_n_all|done|done].
  rewrite flv_sink_consumes. apply hub_broadcast_all. cbn. by rewrite lookup_insert_eq.
Qed.

End EndToEnd.
