(* ===== verification/RtmpSession.v ===== *)
(** * RTMP connections
    [livestream-transport/src/rtmp/{session.rs, server.rs, handler/*.rs}]: the
    events of a connection until it publishes or plays, the publish and play
    handlers, and what a connection does to the registry, the pending handles and
    the hub. The protocol session of the [rml_rtmp] crate is the events it raises
    and whether a reply could be sent. *)
From Stdlib Require Import Ascii String.
From stdpp Require Import strings gmap.
From S2P Require Import Prelude Types Flv Tokio FlvHub Session Control RtmpSource HttpFlv.

(** ** Chunk sizes *)

Definition MAX_CHUNK_SIZE : Z := 16 * 1024 * 1024.
Definition MIN_CHUNK_SIZE : Z := 128.

Definition clamp_chunk_size (new_chunk_size : Z) : Z := Z.max MIN_CHUNK_SIZE (Z.min new_chunk_size MAX_CHUNK_SIZE).

(** ** Stream keys *)

(** The longest prefix without the characters of [stop]. *)
Fixpoint span_until (stop : list ascii) (l : list ascii) : list ascii * list ascii :=
  match l with
  | [] => ([], [])
  | c :: l' => if decide (c ∈ stop) then ([], l) else let '(a, b) := span_until stop l' in (c :: a, b)
  end.

(** The end of the pattern: an optional query, which has no line break. *)
Definition query_end (l : list ascii) : bool :=
  match l with [] => true | c :: q => bool_decide (c = "?"%char) && bool_decide (~ "010"%char ∈ q) end.

(** The pattern of [APP_AND_STREAM_RE]: an optional slash, the app up to a slash or
    question mark, optionally a slash and the key up to a question mark, an
    optional query. Every part is greedy and what may follow it cannot be in it,
    so matching never backtracks. The captured [app] and [stream_key]. *)
Definition app_and_stream_re (text : list ascii) : option (list ascii * option (list ascii)) :=
  let l := match text with "/"%char :: l => l | _ => text end in
  let '(app, rest) := span_until ["/"%char; "?"%char] l in
  if (length app =? 0)%nat then None
  else match rest with
       | "/"%char :: r =>
           let '(key, rest') := span_until ["?"%char] r in
           if (length key =? 0)%nat then None
           else if query_end rest' then Some (app, Some key) else None
       | _ => if query_end rest then Some (app, None) else None
       end.

(** [caps.name("stream_key").or_else(|| caps.name("app"))]. *)
Definition captured_key (text : list ascii) : option (list ascii) :=
  '(app, key) ← app_and_stream_re text; Some (default app key).

Fixpoint trim_slashes (l : list ascii) : list ascii :=
  match l with "/"%char :: l => trim_slashes l | _ => l end.

Definition extract_stream_key (stream_key app_name : string) : string :=
  let key := match captured_key (list_ascii_of_string stream_key) with
             | Some k => k
             | None => match captured_key (list_ascii_of_string app_name) with
                       | Some k => if (length k =? 0)%nat then list_ascii_of_string stream_key else k
                       | None => list_ascii_of_string stream_key
                       end
             end in
  string_of_list_ascii (trim_slashes key).

Definition play_stream_key (stream_key : string) : string :=
  let l := list_ascii_of_string stream_key in
  string_of_list_ascii (trim_slashes (default l (captured_key l))).

(** ** Events and replies *)

Inductive ServerEvent :=
| ConnectionRequested (request_id : Z) (app_name : string)
| PlayStreamRequested (request_id : Z) (stream_key : string) (stream_id : Z)
| PublishStreamRequested (request_id : Z) (stream_key app_name : string)
| UnhandleableAmf0Command (command_name : string)
| PingResponseReceived
| ClientChunkSizeChanged (new_chunk_size : Z)
| PublishStreamFinished
| PlayStreamFinished
| AudioDataReceived (data : bytes) (timestamp : Z)
| VideoDataReceived (data : bytes) (timestamp : Z)
| StreamMetadataChanged
| OtherEvent.

Inductive Reply :=
| AcceptRequest (request_id : Z)
| RejectRequest (request_id : Z) (code : string)
| CommandResult (command_name : string).

Inductive rtmp_error :=
| Io
| UnexpectedApp (app_name : string)
| NotPlayable (stream_key : string)
| NoPendingLifecycle (stream_key : string)
| StreamMissing (stream_key : string)
| AlreadyActive (stream_key : string)
| UnhandledEvent
| ConnectFailed
| SourceClosed.

Inductive HandlerBuilder := PlayBuilder (stream_key : string) (stream_id : Z) | PublishBuilder (stream_key : string).

(** The connection: its application, chunk size and the replies it tried to send. *)
Record SessionGuard := mkGuard { sg_appname : string; sg_chunk_size : Z; sg_replies : list Reply }.

Definition SessionGuard_new (appname : string) : SessionGuard := mkGuard appname 2048 [].

Definition set_chunk_size (g : SessionGuard) (new_chunk_size : Z) : SessionGuard :=
  mkGuard (sg_appname g) (clamp_chunk_size new_chunk_size) (sg_replies g).

(** The buffer of [read_result]. *)
Definition read_capacity (g : SessionGuard) : Z := Z.max (sg_chunk_size g) MIN_CHUNK_SIZE.

Section Connect.
Context {T B : Type} `{TokenStore T} `{BroadcastChan FlvTag B}.
(** Whether the [i]-th reply of the connection could be built and written. *)
Context (io : nat -> bool).

Definition attempt (g : SessionGuard) (r : Reply) : bool * SessionGuard :=
  (io (length (sg_replies g)), mkGuard (sg_appname g) (sg_chunk_size g) (sg_replies g ++ [r])).

Definition with_servers (s : Servers T B) (f : World T -> World T) : Servers T B := set_world s (f (sv_world s)).

Definition lifecycle_disconnect (s : Servers T B) (l : nat) : Servers T B :=
  match w_lifecycles (sv_world s) !! l with
  | Some h => set_world s (lc_disconnect (sv_world s) l h)
  | None => s
  end.

Definition lifecycle_connecting (s : Servers T B) (l : nat) : Servers T B :=
  match w_lifecycles (sv_world s) !! l with
  | Some h => set_world s (snd (lc_connecting (sv_world s) h))
  | None => s
  end.

Definition on_connect_requested (g : SessionGuard) (request_id : Z) (app_name : string) :
    result rtmp_error unit * SessionGuard :=
  if negb (bool_decide (app_name = sg_appname g)) then
    let '(ok, g) := attempt g (RejectRequest request_id "AppNotFound") in
    (Err (if ok then UnexpectedApp app_name else Io), g)
  else
    let '(ok, g) := attempt g (AcceptRequest request_id) in
    (if ok then Ok tt else Err Io, g).

(** A name that only adds a path or a query to the application is accepted as it. *)
Definition handle_connection_requested (g : SessionGuard) (request_id : Z) (app_name : string) :
    result rtmp_error unit * SessionGuard :=
  let incoming := string_of_list_ascii ∘ fst <$> app_and_stream_re (list_ascii_of_string app_name) in
  on_connect_requested g request_id
    (if bool_decide (incoming = Some (sg_appname g)) then sg_appname g else app_name).

Definition on_play_requested (s : Servers T B) (g : SessionGuard) (request_id : Z) (stream_key : string)
    (stream_id : Z) : result rtmp_error HandlerBuilder * SessionGuard :=
  if negb (bool_decide (get_state (sv_world s) stream_key = Some Connected)) then
    let '(ok, g) := attempt g (RejectRequest request_id "StreamNotFound") in
    (Err (if ok then NotPlayable stream_key else Io), g)
  else
    let '(ok, g) := attempt g (AcceptRequest request_id) in
    (if ok then Ok (PlayBuilder stream_key stream_id) else Err Io, g).

Definition on_publish_requested (s : Servers T B) (g : SessionGuard) (request_id : Z) (stream_key : string) :
    result rtmp_error HandlerBuilder * SessionGuard * Servers T B :=
  match pending_of s Rtmp !! stream_key with
  | None => (Err (NoPendingLifecycle stream_key), g, s)
  | Some l =>
      match get_state (sv_world s) stream_key with
      | None =>
          let s := lifecycle_disconnect s l in
          let '(ok, g) := attempt g (RejectRequest request_id "StreamNotFound") in
          (Err (if ok then StreamMissing stream_key else Io), g, s)
      | Some Pending =>
          let '(ok, g) := attempt g (AcceptRequest request_id) in
          if ok then (Ok (PublishBuilder stream_key), g, lifecycle_connecting s l)
          else (Err Io, g, lifecycle_disconnect s l)
      | Some _ =>
          let '(ok, g) := attempt g (RejectRequest request_id "StreamAlreadyActive") in
          (Err (if ok then AlreadyActive stream_key else Io), g, s)
      end
  end.

Definition optional_amf0_command (command_name : string) : bool :=
  bool_decide (command_name ∈ ["_checkbw"; "getStreamLength"; "releaseStream"; "FCPublish"]%string).

Definition handle_connect_event (s : Servers T B) (g : SessionGuard) (event : ServerEvent) :
    result rtmp_error (option HandlerBuilder) * SessionGuard * Servers T B :=
  match event with
  | ConnectionRequested request_id app_name =>
      let '(r, g) := handle_connection_requested g request_id app_name in
      (let? _ := r in Ok None, g, s)
  | PlayStreamRequested request_id stream_key stream_id =>
      let '(r, g) := on_play_requested s g request_id (play_stream_key stream_key) stream_id in
      (let? b := r in Ok (Some b), g, s)
  | PublishStreamRequested request_id stream_key app_name =>
      let '(r, g, s) := on_publish_requested s g request_id (extract_stream_key stream_key app_name) in
      (let? b := r in Ok (Some b), g, s)
  | UnhandleableAmf0Command command_name =>
      if optional_amf0_command command_name then
        let '(ok, g) := attempt g (CommandResult command_name) in
        (if ok then Ok None else Err Io, g, s)
      else (Ok None, g, s)
  | _ => (Err UnhandledEvent, g, s)
  end.

Fixpoint handle_connect_events (s : Servers T B) (g : SessionGuard) (events : list ServerEvent) :
    result rtmp_error (option HandlerBuilder) * SessionGuard * Servers T B :=
  match events with
  | [] => (Ok None, g, s)
  | event :: events =>
      match handle_connect_event s g event with
      | (Ok None, g, s) => handle_connect_events s g events
      | r => r
      end
  end.

(** The reads of the connection: the events of each one, or its failure (also of
    a response the protocol session wrote itself); none left: closed. *)
Abbreviation event_reads := (list (option (list ServerEvent))).

Fixpoint connect (s : Servers T B) (g : SessionGuard) (reads : event_reads) :
    result rtmp_error HandlerBuilder * SessionGuard * Servers T B * event_reads :=
  match reads with
  | [] | None :: _ => (Err Io, g, s, [])
  | Some events :: reads =>
      match handle_connect_events s g events with
      | (Ok (Some b), g, s) => (Ok b, g, s, reads)
      | (Ok None, g, s) => connect s g reads
      | (Err e, g, s) => (Err e, g, s, reads)
      end
  end.

(** ** Publishing ([handler/publish.rs], [server.rs]) *)

Record PublishHandler := mkPublish {
  ph_stream_key : string;
  ph_lifecycle : nat;
  ph_cancel_token : nat;
  ph_frames : list RtmpRawFrame;   (* handed to the source *)
}.

(** [spawn_connection_handler] between the connect and the handler: [built]
    tells whether the pipeline could be constructed; a handle that is taken and
    not handed on is dropped. *)
Definition open_publisher (s : Servers T B) (stream_key : string) (built : bool) :
    option PublishHandler * Servers T B :=
  match get_cancel_token (sv_world s) stream_key with
  | None => (None, s)
  | Some cancel =>
      match pending_of s Rtmp !! stream_key with
      | None => (None, s)
      | Some l =>
          let s := set_pending s Rtmp (delete stream_key (pending_of s Rtmp)) in
          let s := with_servers s (fun w => set_tokens w (snd (tk_child (w_tokens w) cancel))) in
          if built then (Some (mkPublish stream_key l cancel []), s) else (None, drop_lifecycle s l)
      end
  end.

Definition publish_finished (s : Servers T B) (h : PublishHandler) : Servers T B :=
  with_servers (lifecycle_disconnect s (ph_lifecycle h)) (fun w => cancel_token w (ph_cancel_token h)).

(** [source i]: whether the source still receives when frame [i] is sent. *)
Context (source : nat -> bool).

Definition send_to_source (s : Servers T B) (h : PublishHandler) (frame : RtmpRawFrame) :
    result rtmp_error PublishHandler * Servers T B :=
  match w_lifecycles (sv_world s) !! ph_lifecycle h with
  | None => (Err ConnectFailed, s)
  | Some lc =>
      match lc_connect (sv_world s) (ph_lifecycle h) lc with
      | (Err _, w) => (Err ConnectFailed, set_world s w)
      | (Ok _, w) =>
          if source (length (ph_frames h))
          then (Ok (mkPublish (ph_stream_key h) (ph_lifecycle h) (ph_cancel_token h) (ph_frames h ++ [frame])), set_world s w)
          else (Err SourceClosed, set_world s w)
      end
  end.

Definition on_publish_event (s : Servers T B) (h : PublishHandler) (event : ServerEvent) :
    result rtmp_error PublishHandler * Servers T B :=
  match event with
  | PublishStreamFinished => (Ok h, publish_finished s h)
  | AudioDataReceived data timestamp => send_to_source s h (mkRawFrame data timestamp false true false)
  | VideoDataReceived data timestamp => send_to_source s h (mkRawFrame data timestamp true false false)
  | _ => (Ok h, s)
  end.

(** The part of an event every handler treats alike. *)
Definition on_common_event (g : SessionGuard) (event : ServerEvent) : bool * SessionGuard :=
  match event with
  | PingResponseReceived => (true, g)
  | ClientChunkSizeChanged n => (true, set_chunk_size g n)
  | _ => (false, g)
  end.

(** Events of one read, until one fails; the handler as it was then. *)
Fixpoint publish_events (s : Servers T B) (g : SessionGuard) (h : PublishHandler) (events : list ServerEvent) :
    bool * SessionGuard * PublishHandler * Servers T B :=
  match events with
  | [] => (true, g, h, s)
  | event :: events =>
      let '(common, g) := on_common_event g event in
      if common then publish_events s g h events
      else match on_publish_event s h event with
           | (Ok h, s) => publish_events s g h events
           | (Err _, s) => (false, g, h, s)
           end
  end.

(** The loop of [HandlerTrait::handle]; it only ends with an error. *)
Fixpoint publish_handle (s : Servers T B) (g : SessionGuard) (h : PublishHandler) (reads : event_reads) :
    PublishHandler * Servers T B :=
  match reads with
  | [] | None :: _ => (h, s)
  | Some events :: reads =>
      match publish_events s g h events with
      | (true, g, h, s) => publish_handle s g h reads
      | (false, _, h, s) => (h, s)
      end
  end.

(** The end of [spawn_connection_handler] for a publisher, whose handler was
    dropped before: the token is cancelled and, 100 ms later, the channel removed. *)
Definition close_publisher (s : Servers T B) (h : PublishHandler) : Servers T B :=
  let s := drop_lifecycle s (ph_lifecycle h) in
  let s := with_servers s (fun w => cancel_token w (ph_cancel_token h)) in
  set_hub s (remove_channel (sv_hub s) (ph_stream_key h)).

(** ** Playing ([handler/play.rs]) *)

(** What the player waits for: its connection (the events of a read), or the
    channel. [finish i]: whether the [i]-th completion message could be sent or
    its failure ignored; [tag i] whether tag [i] could be sent. *)
Inductive viewer_event := ViewerRead (events : option (list ServerEvent)) | Channel (e : play_event).

Context (finish tag_ok : nat -> bool).

Record PlayHandler := mkPlay { pl_waiting_keyframe : bool; pl_tags : list FlvTag; pl_finished : nat; pl_guard : SessionGuard }.

(** [None]: the send failed and the handler ends. *)
Definition send_flv_tag (h : PlayHandler) (tag : FlvTag) : option PlayHandler :=
  if tag_ok (length (pl_tags h))
  then Some (mkPlay (pl_waiting_keyframe h) (pl_tags h ++ [tag]) (pl_finished h) (pl_guard h)) else None.

Fixpoint send_cached_tags (h : PlayHandler) (tags : list FlvTag) : bool * PlayHandler :=
  match tags with
  | [] => (true, h)
  | tag :: tags => match send_flv_tag h tag with Some h => send_cached_tags h tags | None => (false, h) end
  end.

Definition set_waiting (h : PlayHandler) (w : bool) : PlayHandler := mkPlay w (pl_tags h) (pl_finished h) (pl_guard h).

Fixpoint play_events (h : PlayHandler) (events : list ServerEvent) : option PlayHandler :=
  match events with
  | [] => Some h
  | event :: events =>
      let '(common, g) := on_common_event (pl_guard h) event in
      let h := mkPlay (pl_waiting_keyframe h) (pl_tags h) (pl_finished h) g in
      if common then play_events h events
      else match event with
           | PlayStreamFinished =>
               if finish (pl_finished h)
               then play_events (mkPlay (pl_waiting_keyframe h) (pl_tags h) (S (pl_finished h)) g) events else None
           | _ => play_events h events
           end
  end.

(** The tags sent, in order, when the handler ended or ran out of events. *)
Fixpoint play_loop (h : PlayHandler) (evs : list viewer_event) : list FlvTag :=
  match evs with
  | [] | Channel PlayCancelled :: _ | Channel RecvClosed :: _ | ViewerRead None :: _ => pl_tags h
  | ViewerRead (Some events) :: evs =>
      match play_events h events with Some h => play_loop h evs | None => pl_tags h end
  | Channel (Lagged _) :: evs => play_loop (set_waiting h true) evs
  | Channel (Recv tag) :: evs =>
      let '(skip, w) := should_skip_while_waiting_keyframe (pl_waiting_keyframe h) tag in
      let h := set_waiting h w in
      if skip then play_loop h evs
      else match send_flv_tag h tag with Some h => play_loop h evs | None => pl_tags h end
  end.

Definition play_handle (g : SessionGuard) (cached_tags : list FlvTag) (evs : list viewer_event) : list FlvTag :=
  match send_cached_tags (mkPlay false [] 0 g) cached_tags with
  | (true, h) => play_loop h evs
  | (false, h) => pl_tags h
  end.

(** ** A connection, from the accepted socket to its end *)

(** The servers after the connection, and the tags a viewer was sent. The token of
    the connection itself only guards its own reads and is left out. *)
Definition spawn_connection_handler (s : Servers T B) (appname : string) (reads : event_reads) (built : bool)
    (viewer : list viewer_event) : Servers T B * list FlvTag :=
  match connect s (SessionGuard_new appname) reads with
  | (Err _, _, s, _) => (s, [])
  | (Ok (PublishBuilder key), g, s, reads) =>
      match open_publisher s key built with
      | (None, s) => (s, [])
      | (Some h, s) => let '(h, s) := publish_handle s g h reads in (close_publisher s h, [])
      end
  | (Ok (PlayBuilder key _), g, s, _) =>
      match get_cancel_token (sv_world s) key with
      | None => (s, [])
      | Some _ =>
          match hub_subscribe (sv_hub s) key with
          | (None, hub) => (set_hub s hub, [])
          | (Some (_, cached_tags), hub) => (set_hub s hub, play_handle g cached_tags viewer)
          end
      end
  end.

End Connect.

(** ** Stream keys *)

Lemma span_until_app stop a b : Forall (fun c => c ∉ stop) a ->
  match b with [] => True | c :: _ => c ∈ stop end -> span_until stop (a ++ b) = (a, b).
Proof.
  intros Ha Hb. induction Ha as [|c a Hc Ha IH]; cbn.
  - destruct b as [|c b]; cbn; [done|]. by rewrite decide_True.
  - by rewrite decide_False, IH.
Qed.

(** A name of one segment, and what a client may append to it. *)
Definition segment (l : list ascii) : Prop := l <> [] /\ Forall (fun c => c ∉ ["/"%char; "?"%char]) l.
Definition appended (q : list ascii) : Prop :=
  q = [] \/ exists q', q = "?"%char :: q' /\ ~ "010"%char ∈ q'.

Lemma appended_end q : appended q -> query_end q = true.
Proof. intros [->|(q' & -> & Hq)]; [done|]. cbn. by rewrite bool_decide_true, bool_decide_true. Qed.

Lemma segment_no_slash l : segment l -> forall x, match l ++ x with "/"%char :: r => r | _ => l ++ x end = l ++ x.
Proof.
  intros [Hne Hf] x. destruct l as [|c l]; [done|]. inversion Hf as [|? ? Hc]; subst. cbn.
  destruct (decide (c = "/"%char)) as [->|Hn]; [set_solver|].
  destruct c as [[] [] [] [] [] [] [] []]; try done.
Qed.

Lemma app_re_one a q : segment a -> appended q -> app_and_stream_re (a ++ q) = Some (a, None).
Proof.
  intros Ha Hq. pose proof (segment_no_slash a Ha q) as Hs. destruct Ha as [Hne Hf].
  unfold app_and_stream_re. rewrite Hs, span_until_app; [|done|by destruct Hq as [->|(? & -> & _)]; set_solver].
  destruct (Nat.eqb_spec (length a) 0) as [E|_]; [by destruct a|].
  pose proof (appended_end q Hq) as He.
  destruct Hq as [->|(q' & -> & Hq)]; [done|]. by rewrite He.
Qed.

Lemma app_re_two a k q : segment a -> segment k -> appended q ->
  app_and_stream_re (a ++ "/"%char :: k ++ q) = Some (a, Some k).
Proof.
  intros Ha Hk Hq. pose proof (segment_no_slash a Ha ("/"%char :: k ++ q)) as Hs. destruct Ha as [Hne Hf].
  unfold app_and_stream_re. rewrite Hs, span_until_app by (try done; set_solver).
  destruct (Nat.eqb_spec (length a) 0) as [E|_]; [by destruct a|].
  destruct Hk as [Hkne Hkf]. rewrite span_until_app.
  - destruct (Nat.eqb_spec (length k) 0) as [E|_]; [by destruct k|]. by rewrite appended_end.
  - eapply Forall_impl; [exact Hkf|]. set_solver.
  - destruct Hq as [->|(? & -> & _)]; set_solver.
Qed.

Lemma trim_segment l : segment l -> trim_slashes l = l.
Proof.
  intros Hl. pose proof (segment_no_slash l Hl []) as Hs. rewrite app_nil_r in Hs.
  destruct l as [|c l]; [done|]. cbn. destruct Hl as [_ Hf]. inversion Hf; subst.
  destruct c as [[] [] [] [] [] [] [] []]; try done. set_solver.
Qed.

(** Publishers and players of one stream meet under one key. A key without
    slash or question mark is found whether the client sends it alone, after the
    application's name or with a query, on the publish and on the play side
    alike. *)
Theorem stream_key_found app key query app_name :
  segment (list_ascii_of_string app) -> segment (list_ascii_of_string key) ->
  appended (list_ascii_of_string query) ->
  let alone := (key ++ query)%string in
  let qualified := (app ++ "/" ++ key ++ query)%string in
  extract_stream_key alone app_name = key /\ extract_stream_key qualified app_name = key
  /\ play_stream_key alone = key /\ play_stream_key qualified = key.
Proof.
  intros Ha Hk Hq. cbn zeta. unfold extract_stream_key, play_stream_key, captured_key.
  rewrite !ascii_app.
  change (list_ascii_of_string "/" ++ ?x) with ("/"%char :: x).
  rewrite app_re_one, app_re_two by done. cbn.
  rewrite trim_segment by done. by rewrite string_of_list_ascii_of_string.
Qed.

(** ** Who holds a lifecycle handle *)

Section Owners.
Context {T B : Type} `{TokenLaws T} `{BroadcastChan FlvTag B}.
Implicit Types (s : Servers T B).

(** The publishers that run, among all connections. *)
Abbreviation publishers := (list (option PublishHandler)).

Inductive owner := InPending (rtsp : bool) | Connection (i : nat).

#[local] Instance owner_eq_dec : EqDecision owner.
Proof. solve_decision. Defined.

Definition pend s (rtsp : bool) : gmap string nat := if rtsp then sv_pending_rtsp s else sv_pending_rtmp s.

(** [owns s c o l key]: [o] holds the handle [l] under the stream key [key]. *)
Definition owns s (c : publishers) (o : owner) (l : nat) (key : string) : Prop :=
  match o with
  | InPending rtsp => pend s rtsp !! key = Some l
  | Connection i => exists h, c !! i = Some (Some h) /\ ph_lifecycle h = l /\ ph_stream_key h = key
  end.

Definition made_for s (l : nat) (key : string) : Prop :=
  exists h, w_lifecycles (sv_world s) !! l = Some h /\ hl_live_id h = key.

Record owned s (c : publishers) : Prop := {
  ow_unique o1 o2 l k1 k2 : owns s c o1 l k1 -> owns s c o2 l k2 -> o1 = o2;
  ow_made o l k : owns s c o l k -> made_for s l k;
}.

(** What the servers and the connections of a process do. *)
Inductive rtmp_step : Servers T B * publishers -> Servers T B * publishers -> Prop :=
| rs_session s c w : session_step (sv_world s) w -> rtmp_step (s, c) (set_world s w, c)
| rs_hub s c hub : rtmp_step (s, c) (set_hub s hub, c)
| rs_control s c msg p : rtmp_step (s, c) (snd (handle_control_message s msg p), c)
| rs_ttl s c p id : rtmp_step (s, c) (ttl_expired s p id, c)
| rs_rtsp s c id : rtmp_step (s, c) (set_pending s Rtsp (delete id (sv_pending_rtsp s)), c)
| rs_request s c io g rid key : rtmp_step (s, c) (snd (on_publish_requested io s g rid key), c)
| rs_open s c key built :
    rtmp_step (s, c) (snd (open_publisher s key built), c ++ [fst (open_publisher s key built)])
| rs_publish s c source g i h reads : c !! i = Some (Some h) ->
    rtmp_step (s, c) (snd (publish_handle source s g h reads), <[i := Some (fst (publish_handle source s g h reads))]> c)
| rs_close s c i h : c !! i = Some (Some h) -> rtmp_step (s, c) (close_publisher s h, <[i := None]> c).

Definition world_le s s' : Prop :=
  lifecycles_le (w_lifecycles (sv_world s)) (w_lifecycles (sv_world s')).

#[local] Instance world_le_preorder : PreOrder world_le.
Proof. unfold world_le. split; [by intros s|]. intros s1 s2 s3. by apply transitivity. Qed.

Lemma made_le s s' l k : world_le s s' -> made_for s l k -> made_for s' l k.
Proof. intros Hle (h & Hl & <-). destruct (Hle _ _ Hl) as (h' & ? & E & _). exists h'. by split. Qed.

(** Owners are kept, or given up, but for the handle [l0], which [o0] receives. *)
Lemma owned_move s c s' c' o0 l0 k0 : owned s c -> world_le s s' -> made_for s' l0 k0 ->
  (forall o l k, owns s' c' o l k -> owns s c o l k /\ l <> l0 \/ o = o0 /\ l = l0 /\ k = k0) ->
  owned s' c'.
Proof.
  intros [Hu Hm] Hle Hmade Hk. split.
  - intros o1 o2 l k1 k2 Ho1 Ho2.
    destruct (Hk _ _ _ Ho1) as [[? ?]|(-> & -> & ->)], (Hk _ _ _ Ho2) as [[? ?]|(-> & ? & ->)]; try done; by eauto.
  - intros o l k Ho. destruct (Hk _ _ _ Ho) as [[? ?]|(-> & -> & ->)]; [|done]. eapply made_le; eauto.
Qed.

Lemma owned_keep s c s' c' : owned s c -> world_le s s' ->
  (forall o l k, owns s' c' o l k -> owns s c o l k) -> owned s' c'.
Proof. intros [Hu Hm] Hle Hk. split; [eauto|]. intros o l k Ho. eapply made_le; eauto. Qed.

Lemma owns_same s c s' o l k : (forall b, pend s' b = pend s b) -> owns s' c o l k -> owns s c o l k.
Proof. intros Hp. destruct o as [b|i]; cbn; [by rewrite Hp|done]. Qed.

Lemma pend_set_pending s p m b : pend (set_pending s p m) b
  = if bool_decide (b = bool_decide (p = Rtsp)) then m else pend s b.
Proof. by destruct p, b. Qed.

Lemma pend_drop s l b : pend (drop_lifecycle s l) b = pend s b.
Proof. unfold drop_lifecycle. by destruct (_ !! l). Qed.

Lemma drop_le s l : world_le s (drop_lifecycle s l).
Proof.
  unfold world_le, drop_lifecycle. destruct (w_lifecycles (sv_world s) !! l) as [h|]; [|done]. apply drop_lifecycles.
Qed.

Lemma disconnect_le s l : world_le s (lifecycle_disconnect s l).
Proof.
  unfold world_le, lifecycle_disconnect. destruct (w_lifecycles (sv_world s) !! l) as [h|]; [|done].
  apply disconnect_lifecycles.
Qed.

Lemma pend_disconnect s l b : pend (lifecycle_disconnect s l) b = pend s b.
Proof. unfold lifecycle_disconnect. by destruct (_ !! l). Qed.

Lemma ttl_frame s p id : world_le s (ttl_expired s p id)
  /\ forall b k l, pend (ttl_expired s p id) b !! k = Some l -> pend s b !! k = Some l.
Proof.
  unfold ttl_expired. destruct (pending_of s p !! id) as [l|] eqn:E; [|done].
  set (s1 := set_pending s p (delete id (pending_of s p))).
  assert (sv_world s1 = sv_world s) as Hw by apply set_pending_same.
  assert (forall b k l', pend s1 b !! k = Some l' -> pend s b !! k = Some l') as Hp.
  { intros b k l'. unfold s1. rewrite pend_set_pending. case_bool_decide as Eb; [|done].
    rewrite lookup_delete_Some. intros [_ Hk]. by subst b; destruct p. }
  unfold world_le. rewrite Hw. destruct (w_lifecycles (sv_world s) !! l) as [h|]; cbn.
  - split; [apply disconnect_lifecycles|done].
  - by rewrite Hw.
Qed.

Lemma request_frame io s g rid key : let s' := snd (on_publish_requested io s g rid key) in
  world_le s s' /\ forall b, pend s' b = pend s b.
Proof.
  cbn zeta. unfold on_publish_requested. destruct (pending_of s Rtmp !! key) as [l|]; [|done].
  destruct (get_state (sv_world s) key) as [[]|]; cbn; try done.
  - destruct (io _); cbn.
    + unfold lifecycle_connecting, world_le. destruct (w_lifecycles (sv_world s) !! l) as [h|]; [|done]. cbn.
      unfold lc_connecting. by destruct (update_state_rest (sv_world s) (hl_live_id h) Connecting) as (_ & _ & _ & -> & _).
    + split; [apply disconnect_le|apply pend_disconnect].
  - split; [apply disconnect_le|apply pend_disconnect].
Qed.

Lemma precreate_frame s p id : get_session (sv_world s) id = None ->
  let s' := snd (precreate_commit s p id) in
  world_le s s' /\ made_for s' (length (w_lifecycles (sv_world s))) id
  /\ forall b, pend s' b = if bool_decide (b = bool_decide (p = Rtsp))
       then <[id := length (w_lifecycles (sv_world s))]> (pend s b) else pend s b.
Proof.
  intros Hg. rewrite precreate_commit_fresh by done. cbn [snd]. set (n := length (w_lifecycles (sv_world s))).
  set (s1 := set_world _ _). assert (forall b, pend s1 b = pend s b) as Hp1 by done.
  destruct (spawn_ttl_same s1 p id n (fst (session_child s))) as (Hw & _ & _).
  assert (world_le s s1 /\ made_for s1 n id) as [Hle Hm].
  { split.
    - intros l h Hl. exists h. cbn. rewrite lookup_app_l by (by eapply lookup_lt_Some). unfold lifecycle_le. auto.
    - exists (mkLifecycle id p false false false). cbn. by rewrite list_lookup_middle. }
  set (s2 := set_pending s1 p (<[id := n]> (pending_of s1 p))).
  assert (sv_world s2 = sv_world s1) as Hw2 by apply set_pending_same.
  assert (world_le s1 (insert_pending s1 p id n)) as Hle2.
  { unfold insert_pending. fold s2. unfold world_le. rewrite <- Hw2.
    destruct (pending_of s1 p !! id); [apply drop_le|done]. }
  split_and!.
  - unfold world_le. rewrite Hw. etransitivity; [exact Hle|exact Hle2].
  - apply (made_le (insert_pending s1 p id n)); [unfold world_le; by rewrite Hw|]. by apply (made_le s1).
  - intros b. transitivity (pend (insert_pending s1 p id n) b).
    { unfold spawn_precreate_session_ttl. destruct (_ =? 0); [done|]. by destruct b. }
    transitivity (pend s2 b).
    { unfold insert_pending. fold s2. destruct (pending_of s1 p !! id); [apply pend_drop|done]. }
    unfold s2. rewrite pend_set_pending. case_bool_decide as E; [subst b|apply Hp1].
    destruct p; cbn; done.
Qed.

(** What a running publisher may change: handles and tokens advance, the rest stays. *)
Record quiet s s' : Prop := {
  q_le : world_le s s';
  q_pend b : pend s' b = pend s b;
  q_hub : sv_hub s' = sv_hub s;
  q_sessions : w_sessions (sv_world s') = w_sessions (sv_world s);
  q_known t : tk_known (w_tokens (sv_world s')) t = tk_known (w_tokens (sv_world s)) t;
  q_cancelled t : tk_cancelled (w_tokens (sv_world s)) t = true -> tk_cancelled (w_tokens (sv_world s')) t = true;
}.

#[local] Instance quiet_preorder : PreOrder quiet.
Proof.
  split.
  - by intros s.
  - intros s1 s2 s3 [] []. split; try congruence; [by etransitivity|auto].
Qed.

Lemma disconnect_quiet s l : quiet s (lifecycle_disconnect s l).
Proof.
  pose proof (disconnect_le s l) as Hle. revert Hle. unfold lifecycle_disconnect.
  destruct (w_lifecycles (sv_world s) !! l) as [h|]; [|done]. intros Hle.
  unfold lc_disconnect, lc_disconnect_with_reason in *. destruct (hl_disconnected h); [by split|].
  change (get_cancel_token (lc_update (sv_world s) l mark_disconnected)) with (get_cancel_token (sv_world s)) in *.
  destruct (get_cancel_token (sv_world s) (hl_live_id h)) as [ct|]; [|by split].
  split; try done; [intros t; apply tk_cancel_known|intros t; apply tk_cancel_mono].
Qed.

Lemma cancel_quiet s t : quiet s (with_servers s (fun w => cancel_token w t)).
Proof.
  split; try done; [by change (world_le s s)|intros u; apply tk_cancel_known|intros u; apply tk_cancel_mono].
Qed.

Lemma drop_quiet s l : quiet s (drop_lifecycle s l).
Proof.
  pose proof (disconnect_quiet s l) as Hq. unfold lifecycle_disconnect in Hq. unfold drop_lifecycle.
  destruct (w_lifecycles (sv_world s) !! l) as [h|]; [|done]. unfold lc_drop.
  destruct (negb (hl_disconnected h)); [done|]. split; try done. by change (world_le s s).
Qed.

(** The handler's identity is fixed. *)
Definition same_publisher (h h' : PublishHandler) : Prop :=
  ph_lifecycle h' = ph_lifecycle h /\ ph_stream_key h' = ph_stream_key h
  /\ ph_cancel_token h' = ph_cancel_token h.

Lemma send_to_source_quiet source s h frame : quiet s (snd (send_to_source source s h frame))
  /\ forall h', fst (send_to_source source s h frame) = Ok h' -> same_publisher h h'.
Proof.
  unfold send_to_source. destruct (w_lifecycles (sv_world s) !! ph_lifecycle h) as [lc|]; [|done].
  pose proof (connect_rest (sv_world s) (ph_lifecycle h) lc) as (Hs & _ & Ht & _).
  pose proof (connect_lifecycles (sv_world s) (ph_lifecycle h) lc) as Hl.
  destruct (lc_connect (sv_world s) (ph_lifecycle h) lc) as [r w]; cbn in *.
  assert (quiet s (set_world s w)) as Hq by (split; cbn; rewrite ?Ht; done).
  destruct r; [destruct (source _)|]; cbn; (split; [done|]); intros h' E; by simplify_eq.
Qed.

Lemma on_publish_event_quiet source s h event : quiet s (snd (on_publish_event source s h event))
  /\ forall h', fst (on_publish_event source s h event) = Ok h' -> same_publisher h h'.
Proof.
  destruct event; try (split; [done|]; intros h' [= <-]; by split_and!); try apply send_to_source_quiet.
  split; [|intros h' [= <-]; by split_and!]. cbn.
  etransitivity; [apply disconnect_quiet|apply cancel_quiet].
Qed.

Lemma publish_events_quiet source events : forall s g h,
  let '(_, _, h', s') := publish_events source s g h events in quiet s s' /\ same_publisher h h'.
Proof.
  induction events as [|event events IH]; intros s g h; cbn; [by split_and!|].
  destruct (on_common_event g event) as [[] g']; [apply IH|].
  destruct (on_publish_event_quiet source s h event) as [Hq Hh].
  destruct (on_publish_event source s h event) as [[h1|e] s1]; cbn in *; [|by split_and!].
  specialize (IH s1 g' h1). destruct (publish_events source s1 g' h1 events) as [[[ok g2] h2] s2].
  destruct IH as [Hq2 (? & ? & ?)]. destruct (Hh h1 eq_refl) as (? & ? & ?).
  split; [by etransitivity|]. unfold same_publisher. split_and!; congruence.
Qed.

Lemma publish_handle_quiet source reads : forall s g h,
  let '(h', s') := publish_handle source s g h reads in quiet s s' /\ same_publisher h h'.
Proof.
  induction reads as [|[events|] reads IH]; intros s g h; cbn; [by split_and!| |by split_and!].
  pose proof (publish_events_quiet source events s g h) as Hq.
  destruct (publish_events source s g h events) as [[[[] g1] h1] s1]; [|done].
  specialize (IH s1 g1 h1). destruct (publish_handle source s1 g1 h1 reads) as [h2 s2].
  destruct Hq as [Hq (? & ? & ?)], IH as [Hq2 (? & ? & ?)].
  split; [by etransitivity|]. unfold same_publisher. split_and!; congruence.
Qed.

Lemma close_frame s h : let s' := close_publisher s h in
  world_le s s' /\ forall b, pend s' b = pend s b.
Proof.
  pose proof (drop_quiet s (ph_lifecycle h)) as [Hle Hp _ _ _ _]. split; [exact Hle|]. intros b. apply Hp.
Qed.

Lemma open_cases s key built : let '(h, s') := open_publisher s key built in
  world_le s s' /\ (forall b k l, pend s' b !! k = Some l -> pend s b !! k = Some l)
  /\ (h = None \/ exists l ct, h = Some (mkPublish key l ct []) /\ pend s false !! key = Some l
                       /\ pend s' false !! key = None).
Proof.
  unfold open_publisher. destruct (get_cancel_token (sv_world s) key) as [ct|]; [|by split_and!; [| |left]].
  change (pending_of s Rtmp) with (pend s false).
  destruct (pend s false !! key) as [l|] eqn:E; [|by split_and!; [| |left]].
  set (s1 := with_servers _ _).
  assert (forall b k l', pend s1 b !! k = Some l' -> pend s b !! k = Some l') as Hp.
  { intros b k l'. unfold s1. destruct b; [done|]. cbn. rewrite lookup_delete_Some. by intros [_ ?]. }
  destruct built.
  - split_and!; [by change (world_le s s)|done|]. right. exists l, ct. split_and!; try done. cbn.
    by rewrite lookup_delete_eq.
  - split_and!; [|intros b k l'; rewrite pend_drop; apply Hp|by left].
    transitivity s1; [by change (world_le s s)|apply drop_le].
Qed.

Lemma control_owned s c msg p : owned s c -> owned (snd (handle_control_message s msg p)) c.
Proof.
  intros Ho. destruct msg as [id|id]; cbn.
  - unfold precreate_check. destruct (get_session (sv_world s) id) eqn:Eg; [done|].
    destruct (precreate_frame s p id Eg) as (Hle & Hm & Hp).
    destruct (precreate_commit s p id) as [ack s']. cbn in *.
    apply (owned_move s c s' c (InPending (bool_decide (p = Rtsp))) (length (w_lifecycles (sv_world s))) id);
      [done..|].
    assert (forall o l k, owns s c o l k -> l <> length (w_lifecycles (sv_world s))) as Hfresh.
    { intros o l k Hown. destruct (ow_made _ _ Ho _ _ _ Hown) as (h & Hl & _). apply lookup_lt_Some in Hl. lia. }
    intros [b|i] l k Hown; cbn in Hown; [|by left; split; [|eapply (Hfresh (Connection i))]].
    rewrite Hp in Hown. case_bool_decide as Eb; [|by left; split; [|eapply (Hfresh (InPending b))]].
    apply lookup_insert_Some in Hown as [[<- <-]|[Hne Hown]]; [right; by rewrite Eb|].
    left. split; [done|]. by eapply (Hfresh (InPending b)).
  - apply (owned_keep s c); [done| |].
    + unfold world_le. destruct (get_cancel_token (sv_world s) id); done.
    + intros o l k. apply owns_same. intros b. by destruct (get_cancel_token (sv_world s) id), b.
Qed.

Lemma open_owned s c key built : owned s c ->
  owned (snd (open_publisher s key built)) (c ++ [fst (open_publisher s key built)]).
Proof.
  intros Ho. pose proof (open_cases s key built) as Hc. destruct (open_publisher s key built) as [h s']. cbn.
  destruct Hc as (Hle & Hp & Hh).
  assert (forall o l k, owns s' (c ++ [h]) o l k -> o <> Connection (length c) -> owns s c o l k) as Hold.
  { intros [b|i] l k; [intros Hk _; by apply Hp|]. intros (h' & Hi & Hh') Hne. exists h'. split; [|done].
    apply lookup_app_Some in Hi as [?|[Hge Hi]]; [done|]. apply list_lookup_singleton_Some in Hi as [? _].
    destruct Hne. f_equal. lia. }
  destruct Hh as [->|(l0 & ct & -> & Hpend & Hgone)].
  - apply (owned_keep s c); [done..|]. intros o l k Hown. apply Hold; [done|]. intros ->.
    destruct Hown as (h' & Hi & _). rewrite list_lookup_middle in Hi by done. done.
  - apply (owned_move s c s' _ (Connection (length c)) l0 key); [done..| |].
    { apply (made_le s); [done|]. by apply (ow_made _ _ Ho (InPending false)). }
    intros o l k Hown. destruct (decide (o = Connection (length c))) as [->|Hne].
    + right. destruct Hown as (h' & Hi & <- & <-). rewrite list_lookup_middle in Hi by done. by simplify_eq.
    + left. pose proof (Hold _ _ _ Hown Hne) as Hown'. split; [done|]. intros ->.
      pose proof (ow_unique _ _ Ho _ (InPending false) _ _ key Hown' Hpend). subst o. change (pend s' false !! k = Some l0) in Hown.
      destruct (decide (k = key)) as [->|]; [congruence|].
      destruct (ow_made _ _ Ho (InPending false) _ _ Hown') as (h1 & ? & <-).
      destruct (ow_made _ _ Ho (InPending false) _ _ Hpend) as (h2 & ? & <-). congruence.
Qed.

Lemma rtmp_step_owned x y : owned (fst x) (snd x) -> rtmp_step x y -> owned (fst y) (snd y).
Proof.
  intros Ho Hs. destruct Hs as [s c w Hw|s c hub|s c msg p|s c p id|s c id|s c io g rid key|s c key built
    |s c source g i h reads Hi|s c i h Hi]; cbn in *.
  - apply (owned_keep s c); [done| |done]. by apply session_step_lifecycles.
  - apply (owned_keep s c); [done|by change (world_le s s)|]. intros [] l k; done.
  - by apply control_owned.
  - destruct (ttl_frame s p id) as [Hle Hp]. apply (owned_keep s c); [done..|]. intros [b|i] l k; [apply Hp|done].
  - apply (owned_keep s c); [done|by change (world_le s s)|]. intros [[]|i] l k; cbn; try done.
    rewrite lookup_delete_Some. by intros [_ ?].
  - destruct (request_frame io s g rid key) as [Hle Hp]. apply (owned_keep s c); [done..|].
    intros o l k. by apply owns_same.
  - by apply open_owned.
  - pose proof (publish_handle_quiet source reads s g h) as Hq.
    destruct (publish_handle source s g h reads) as [h' s']. destruct Hq as [[Hle Hp _ _ _ _] (El & Ek & _)]. cbn.
    apply (owned_keep s c); [done..|]. intros [b|j] l k; cbn; [by rewrite Hp|]. intros (h1 & Hj & Hrest).
    apply list_lookup_insert_Some in Hj as [(<- & [= <-] & _)|[_ Hj]]; [|by exists h1].
    exists h. split; [done|]. by rewrite <- El, <- Ek.
  - destruct (close_frame s h) as [Hle Hp]. apply (owned_keep s c); [done..|].
    intros [b|j] l k; cbn -[pend close_publisher]; [by rewrite Hp|]. intros (h1 & Hj & Hrest).
    apply list_lookup_insert_Some in Hj as [(_ & [=] & _)|[_ Hj]]. by exists h1.
Qed.

Definition initial_servers (tokens : T) (hub : FlvEgressHub B) (cancel : nat) (ttl : Z) : Servers T B :=
  mkServers (initial_world tokens) hub ∅ ∅ [] cancel ttl.

(** C12: a precreated session is published by at most one connection. However
    publish requests, control messages, expiries, cleanups and connections
    interleave, in particular when two publishers are accepted for one key
    before either takes the handle, a running publisher holds the handle of its
    own key, no other publisher holds it, and it waits in no pending map. *)
Theorem rtmp_handle_exclusive tokens hub cancel ttl s c i h :
  rtc rtmp_step (initial_servers tokens hub cancel ttl, []) (s, c) -> c !! i = Some (Some h) ->
  made_for s (ph_lifecycle h) (ph_stream_key h)
  /\ (forall j h', c !! j = Some (Some h') -> ph_lifecycle h' = ph_lifecycle h -> j = i)
  /\ ~ exists rtsp key, pend s rtsp !! key = Some (ph_lifecycle h).
Proof.
  intros Hr Hi. assert (owned s c) as Ho.
  { refine (rtc_invariant rtmp_step (fun x => owned (fst x) (snd x)) rtmp_step_owned _ _ _ Hr).
    split; [intros [[]|i1] o2 l k1 k2 Ho1|intros [[]|i1] l k Ho1]; try (cbn in Ho1; by rewrite lookup_empty in Ho1);
      by destruct Ho1 as (? & ? & _). }
  assert (owns s c (Connection i) (ph_lifecycle h) (ph_stream_key h)) as Hown by by exists h.
  split_and!.
  - by apply (ow_made _ _ Ho _ _ _ Hown).
  - intros j h' Hj El. assert (owns s c (Connection j) (ph_lifecycle h) (ph_stream_key h')) as Hj' by by exists h'.
    pose proof (ow_unique _ _ Ho _ _ _ _ _ Hown Hj'). congruence.
  - intros (rtsp & key & Hp). pose proof (ow_unique _ _ Ho _ (InPending rtsp) _ _ key Hown Hp). done.
Qed.

End Owners.

Definition demo_publishing : option PublishHandler * Servers token_list (queue_list FlvTag) :=
  open_publisher (precreate demo_servers Rtmp "cam") "cam" true.

Lemma rtmp_handle_exclusive_witness :
  made_for (snd demo_publishing) 0 "cam"
  /\ ~ exists rtsp key, pend (snd demo_publishing) rtsp !! key = Some 0%nat.
Proof.
  assert (fst demo_publishing = Some (mkPublish "cam" 0 1 [])) as Hh by (vm_compute; reflexivity).
  destruct (rtmp_handle_exclusive [([], false)] FlvEgressHub_new 0 300000 (snd demo_publishing)
    [fst demo_publishing] 0 (mkPublish "cam" 0 1 [])) as (Hm & _ & Hp); [|by rewrite Hh|split; [exact Hm|exact Hp]].
  eapply rtc_l; [exact (rs_control _ [] (PrecreateStream "cam") Rtmp)|].
  apply rtc_once. exact (rs_open _ [] "cam" true).
Defined.

(** ** The end of a connection *)

Section ConnectionEnd.
Context {T B : Type} `{TokenLaws T} `{BroadcastChan FlvTag B}.
Implicit Types (s : Servers T B).

(** Until it is accepted as a player a connection leaves the servers alone, and
    until it is accepted as a publisher too; then it only marks the session as
    connecting. *)
Definition connect_effect s (r : result rtmp_error HandlerBuilder) s' : Prop :=
  match r with
  | Ok (PlayBuilder key _) => s' = s /\ get_state (sv_world s) key = Some Connected
  | Ok (PublishBuilder key) => exists l, pending_of s Rtmp !! key = Some l
      /\ get_state (sv_world s) key = Some Pending /\ s' = lifecycle_connecting s l
  | Err _ => True
  end.

Lemma handle_connect_event_effect io s g event :
  match handle_connect_event io s g event with
  | (Ok None, _, s') => s' = s
  | (Ok (Some b), _, s') => connect_effect s (Ok b) s'
  | (Err _, _, _) => True
  end.
Proof.
  destruct event; cbn; try done.
  - by destruct (handle_connection_requested io g request_id app_name) as [[] g'].
  - unfold on_play_requested. case_bool_decide as E; cbn; [|done]. by destruct (io _).
  - unfold on_publish_requested. change (pending_of s Rtmp) with (sv_pending_rtmp s).
    destruct (sv_pending_rtmp s !! extract_stream_key stream_key app_name) as [l|] eqn:El; cbn; [|done].
    destruct (get_state (sv_world s) (extract_stream_key stream_key app_name)) as [[]|] eqn:Eg; cbn; try done.
    destruct (io _); cbn; [|done]. by exists l.
  - destruct (optional_amf0_command command_name); cbn; [|done]. by destruct (io _).
Qed.

Lemma handle_connect_events_effect io events : forall s g,
  match handle_connect_events io s g events with
  | (Ok None, _, s') => s' = s
  | (Ok (Some b), _, s') => connect_effect s (Ok b) s'
  | (Err _, _, _) => True
  end.
Proof.
  induction events as [|event events IH]; intros s g; cbn; [done|].
  pose proof (handle_connect_event_effect io s g event) as He.
  destruct (handle_connect_event io s g event) as [[[[b|]|e] g1] s1]; try done. subst s1. apply IH.
Qed.

Lemma connect_effect_spec io reads : forall s g,
  let '(r, _, s', _) := connect io s g reads in connect_effect s r s'.
Proof.
  induction reads as [|[events|] reads IH]; intros s g; cbn; try done.
  pose proof (handle_connect_events_effect io events s g) as He.
  destruct (handle_connect_events io s g events) as [[[[b|]|e] g1] s1]; try done. subst s1. apply IH.
Qed.

Lemma drop_disconnects s l h : w_lifecycles (sv_world s) !! l = Some h ->
  exists h', w_lifecycles (sv_world (drop_lifecycle s l)) !! l = Some h' /\ hl_disconnected h' = true.
Proof.
  intros Hl. unfold drop_lifecycle, lc_drop. rewrite Hl. destruct (hl_disconnected h) eqn:Ed; cbn; [by exists h|].
  unfold lc_disconnect, lc_disconnect_with_reason. rewrite Ed. exists (mark_disconnected h). split; [|done].
  transitivity (w_lifecycles (lc_update (sv_world s) l mark_disconnected) !! l); [by destruct (get_cancel_token _ _)|].
  cbn. by rewrite list_lookup_alter_eq, Hl.
Qed.

Lemma open_publisher_run s key l e built : pend s false !! key = Some l ->
  w_sessions (sv_world s) !! key = Some e -> exists s2,
  open_publisher s key built = (if built then (Some (mkPublish key l (se_cancel_token e) []), s2)
                                else (None, drop_lifecycle s2 l))
  /\ pend s2 false !! key = None /\ sv_hub s2 = sv_hub s
  /\ w_lifecycles (sv_world s2) = w_lifecycles (sv_world s) /\ w_sessions (sv_world s2) = w_sessions (sv_world s)
  /\ w_tokens (sv_world s2) = snd (tk_child (w_tokens (sv_world s)) (se_cancel_token e))
  /\ w_descs (sv_world s2) = w_descs (sv_world s) /\ w_events (sv_world s2) = w_events (sv_world s).
Proof.
  intros Hp He. unfold open_publisher, get_cancel_token. rewrite He. cbn [fmap option_fmap option_map].
  change (pending_of s Rtmp) with (pend s false). rewrite Hp. eexists. split; [by destruct built|].
  split_and!; try done. cbn. by rewrite lookup_delete_eq.
Qed.

Lemma hub_subscribe_keeps (hub : FlvEgressHub B) id k ch : hub_channels hub !! k = Some ch ->
  exists ch', hub_channels (snd (hub_subscribe hub id)) !! k = Some ch' /\ ch_cached ch' = ch_cached ch.
Proof.
  intros Hk. unfold hub_subscribe. destruct (hub_channels hub !! id) as [c|] eqn:E; [|by exists ch].
  unfold ch_subscribe, ch_subscribe_rx. destruct (bc_subscribe (ch_sender c)) as [rx b]. cbn.
  destruct (decide (k = id)) as [->|Hne]; [|rewrite lookup_insert_ne by done; by exists ch].
  rewrite lookup_insert_eq. eexists. split; [done|]. by simplify_eq.
Qed.

(** C13: how a connection leaves the stream it served. A viewer changes neither the
    registry, the handles nor the tokens, and takes no channel or cached header
    away. However a publisher ends (an unreadable or unhandled message, a failed
    send, the end of the connection), its session's token is cancelled, its
    handle is disconnected and no longer pending, and its FLV channel is gone,
    the latter only once its pipeline was built. *)
Theorem rtmp_connection_end io source finish tag_ok s appname reads built viewer :
  let '(r, _, _, _) := connect io s (SessionGuard_new appname) reads in
  let s' := fst (spawn_connection_handler io source finish tag_ok s appname reads built viewer) in
  match r with
  | Err _ => True
  | Ok (PlayBuilder _ _) =>
      sv_world s' = sv_world s /\ (forall b, pend s' b = pend s b)
      /\ forall k ch, hub_channels (sv_hub s) !! k = Some ch ->
           exists ch', hub_channels (sv_hub s') !! k = Some ch' /\ ch_cached ch' = ch_cached ch
  | Ok (PublishBuilder key) => forall l lc e, pend s false !! key = Some l ->
      w_lifecycles (sv_world s) !! l = Some lc -> hl_live_id lc = key -> hl_disconnected lc = false ->
      w_sessions (sv_world s) !! key = Some e -> tk_known (w_tokens (sv_world s)) (se_cancel_token e) = true ->
      tk_cancelled (w_tokens (sv_world s')) (se_cancel_token e) = true
      /\ (exists lc', w_lifecycles (sv_world s') !! l = Some lc' /\ hl_disconnected lc' = true)
      /\ pend s' false !! key = None /\ (built = true -> hub_channels (sv_hub s') !! key = None)
  end.
Proof.
  unfold spawn_connection_handler. pose proof (connect_effect_spec io reads s (SessionGuard_new appname)) as Hc.
  destruct (connect io s (SessionGuard_new appname) reads) as [[[[b|e] g] s1] rest]; [|done].
  destruct b as [key sid|key].
  - destruct Hc as [-> _]. destruct (get_cancel_token (sv_world s) key); [|by split_and!; [..|intros k ch ?; exists ch]].
    pose proof (hub_subscribe_keeps (sv_hub s) key) as Hk.
    destruct (hub_subscribe (sv_hub s) key) as [[[rx cached]|] hub]; by split_and!.
  - intros l lc e Hl Hlc Hid Hd He Hkn. destruct Hc as (l' & Hl' & Hg & ->).
    assert (l' = l) as -> by (change (pend s false !! key = Some l') in Hl'; congruence).
    set (s1 := lifecycle_connecting s l).
    assert (pend s1 false = pend s false /\ w_lifecycles (sv_world s1) = w_lifecycles (sv_world s)
      /\ w_sessions (sv_world s1) = w_sessions (sv_world s) /\ w_tokens (sv_world s1) = w_tokens (sv_world s))
      as (Hp1 & Hl1 & Hs1 & Ht1).
    { unfold s1, lifecycle_connecting. rewrite Hlc. unfold lc_connecting.
      by destruct (update_state_rest (sv_world s) (hl_live_id lc) Connecting) as (? & _ & ? & ? & _). }
    destruct (open_publisher_run s1 key l e built) as (s2 & -> & Hp2 & Hh2 & Hl2 & Hs2 & Ht2 & _); [congruence..|].
    assert (tk_known (w_tokens (sv_world s2)) (se_cancel_token e) = true) as Hkn2.
    { by rewrite Ht2, tk_child_known, Ht1, Hkn. }
    assert (w_lifecycles (sv_world s2) !! l = Some lc) as Hlc2 by congruence.
    destruct built.
    + pose proof (publish_handle_quiet source rest s2 g (mkPublish key l (se_cancel_token e) [])) as Hq.
      destruct (publish_handle source s2 g _ rest) as [h3 s3]. destruct Hq as [[Hle Hp3 _ _ Hk3 _] (El & Ek & Et)].
      cbn in El, Ek, Et. cbn [fst]. unfold close_publisher. rewrite El, Ek, Et.
      destruct (Hle _ _ Hlc2) as (lc3 & Hlc3 & _).
      destruct (drop_quiet s3 l) as [_ Hp4 _ _ Hk4 _].
      split_and!; cbn -[drop_lifecycle].
      * apply tk_cancel_self. by rewrite Hk4, Hk3.
      * by apply (drop_disconnects s3 l lc3).
      * change (pend (drop_lifecycle s3 l) false !! key = None). by rewrite Hp4, Hp3.
      * intros _. by rewrite lookup_delete_eq.
    + cbn [fst]. destruct (drop_lifecycle_cancels s2 l lc e) as (Ht3 & _ & _); [done..|by rewrite Hid, Hs2, Hs1|].
      split_and!; [rewrite Ht3; by apply tk_cancel_self|by apply (drop_disconnects s2 l lc)| |done].
      by rewrite (pend_drop s2 l false).
Qed.

End ConnectionEnd.

Definition demo_reads : list (option (list ServerEvent)) :=
  [Some [ConnectionRequested 1 "live"]; Some [PublishStreamRequested 2 "live/cam" "live"];
   Some [VideoDataReceived [0x17; 0] 0; AudioDataReceived [0xAF; 0] 0]].

Definition demo_run : Servers token_list (queue_list FlvTag) :=
  fst (spawn_connection_handler (fun _ => true) (fun _ => true) (fun _ => true) (fun _ => true)
         (precreate demo_servers Rtmp "cam") "live" demo_reads true []).

Lemma rtmp_connection_end_witness :
  tk_cancelled (w_tokens (sv_world demo_run)) 1 = true /\ hub_channels (sv_hub demo_run) !! "cam"%string = None.
Proof.
  pose proof (rtmp_connection_end (fun _ => true) (fun _ => true) (fun _ => true) (fun _ => true)
    (precreate demo_servers Rtmp "cam") "live" demo_reads true []) as Hs.
  unfold demo_run.
  destruct (connect (fun _ => true) (precreate demo_servers Rtmp "cam") (SessionGuard_new "live") demo_reads)
    as [[[r g] s1] rest] eqn:E.
  assert (r = Ok (PublishBuilder "cam")) as Hr.
  { transitivity (fst (fst (fst (connect (fun _ => true) (precreate demo_servers Rtmp "cam")
      (SessionGuard_new "live") demo_reads)))); [by rewrite E|vm_compute; reflexivity]. }
  subst r. destruct (Hs 0%nat (mkLifecycle "cam" Rtmp false false false) (mkEntry 0 1 None)) as (Ht & _ & _ & Hh);
    try (vm_compute; reflexivity). split; [exact Ht|exact (Hh eq_refl)].
Defined.

(** ** What a publisher relays *)

Section Relay.
Context {T B : Type} `{TokenStore T} `{BroadcastChan FlvTag B}.
Implicit Types (s : Servers T B).

(** The media of a sequence of events, as the frames handed to the source. *)
Definition media_frame (event : ServerEvent) : option RtmpRawFrame :=
  match event with
  | AudioDataReceived data timestamp => Some (mkRawFrame data timestamp false true false)
  | VideoDataReceived data timestamp => Some (mkRawFrame data timestamp true false false)
  | _ => None
  end.

Lemma publish_events_app source a : forall s g h b,
  publish_events source s g h (a ++ b)
  = match publish_events source s g h a with
    | (true, g, h, s) => publish_events source s g h b
    | r => r
    end.
Proof.
  induction a as [|e a IH]; intros s g h b; cbn; [done|].
  destruct (on_common_event g e) as [[] g']; [apply IH|].
  destruct (on_publish_event source s h e) as [[h1|er] s1]; [apply IH|done].
Qed.

(** The reads of a handler, up to the first that fails, as one run of events. *)
Lemma publish_handle_events source batches rest : rest = [] \/ head rest = Some None -> forall s g h,
  publish_handle source s g h (map Some batches ++ rest)
  = let '(_, _, h', s') := publish_events source s g h (concat batches) in (h', s').
Proof.
  intros Hr. induction batches as [|b batches IH]; intros s g h; cbn.
  { destruct Hr as [->|Hr]; [done|]. by destruct rest as [|[]]. }
  rewrite publish_events_app. destruct (publish_events source s g h b) as [[[[] g1] h1] s1]; [apply IH|done].
Qed.

Lemma set_world_same s : set_world s (sv_world s) = s.
Proof. by destruct s. Qed.

Definition add_frames (h : PublishHandler) (fs : list RtmpRawFrame) : PublishHandler :=
  mkPublish (ph_stream_key h) (ph_lifecycle h) (ph_cancel_token h) (ph_frames h ++ fs).

Lemma add_frames_nil h : add_frames h [] = h.
Proof. unfold add_frames. rewrite app_nil_r. by destruct h. Qed.

(** An event other than media and the end of the stream changes nothing but the chunk size. *)
Lemma on_event_other source s g h e : e <> PublishStreamFinished ->
  (media_frame e = None -> fst (on_common_event g e) = true \/ on_publish_event source s h e = (Ok h, s))
  /\ forall f, media_frame e = Some f -> on_common_event g e = (false, g)
      /\ on_publish_event source s h e = send_to_source source s h f.
Proof. intros He. destruct e; cbn; (split; [|try by intros f [= <-]]); try done; intros _; by (left + right). Qed.

(** Once connected, every frame goes to the source, while it receives. *)
Lemma relay_connected n lc events : forall s g h,
  w_lifecycles (sv_world s) !! ph_lifecycle h = Some lc -> hl_connected lc = true ->
  PublishStreamFinished ∉ events -> (length (ph_frames h) <= n)%nat ->
  exists ok g', publish_events (fun i => i <? n)%nat s g h events
    = (ok, g', add_frames h (take (n - length (ph_frames h)) (omap media_frame events)), s).
Proof.
  induction events as [|e events IH]; intros s g h Hl Hc Hf Hn; cbn.
  { exists true, g. by rewrite take_nil, add_frames_nil. }
  apply not_elem_of_cons in Hf as [He Hf]. destruct (on_event_other (fun i => i <? n)%nat s g h e) as [Ho Hm]; [done|].
  destruct (media_frame e) as [f|] eqn:Em.
  - destruct (Hm f eq_refl) as [-> ->]. unfold send_to_source, lc_connect. rewrite Hl, Hc, set_world_same.
    destruct (Nat.ltb_spec (length (ph_frames h)) n).
    + edestruct (IH s g (mkPublish (ph_stream_key h) (ph_lifecycle h) (ph_cancel_token h) (ph_frames h ++ [f])))
        as (ok & g' & ->); [done..|cbn; rewrite length_app; cbn; lia|]. exists ok, g'. unfold add_frames. cbn.
      rewrite length_app, <- app_assoc. cbn.
      by replace (n - length (ph_frames h))%nat with (S (n - (length (ph_frames h) + 1))) by lia.
    + exists false, g. replace (n - length (ph_frames h))%nat with 0%nat by lia.
      by rewrite take_0, add_frames_nil.
  - destruct (on_common_event g e) as [[] g1] eqn:Eg; [by apply IH|].
    destruct (Ho eq_refl) as [?| ->]; [done|]. by apply IH.
Qed.

(** A publisher relays its stream. For a live session whose handle has not
    connected, and messages that do not end the stream before the last read, the
    frames handed to the source are exactly the audio and video messages, in
    order, byte for byte with their timestamps, up to the point where the source
    stops receiving (after [n] frames); the first one, and only it, marks the
    session connected and announces its start. *)
Theorem rtmp_publish_relay n s g h lc loc d batches rest :
  rest = [] \/ head rest = Some None -> PublishStreamFinished ∉ concat batches -> ph_frames h = [] ->
  w_lifecycles (sv_world s) !! ph_lifecycle h = Some lc -> hl_connected lc = false ->
  get_session (sv_world s) (hl_live_id lc) = Some loc -> w_descs (sv_world s) !! loc = Some d ->
  sd_state d <> Disconnected ->
  let media := omap media_frame (concat batches) in
  let '(h', s') := publish_handle (fun i => i <? n)%nat s g h (map Some batches ++ rest) in
  ph_frames h' = take n media
  /\ (media = [] -> s' = s)
  /\ (media <> [] -> get_state (sv_world s') (hl_live_id lc) = Some Connected
      /\ w_events (sv_world s') = w_events (sv_world s) ++ [SessionStarted (hl_live_id lc) (hl_protocol lc)]).
Proof.
  intros Hr Hf Hh Hl Hc Hg Hd Hs. cbn zeta. rewrite publish_handle_events by done.
  revert g. induction (concat batches) as [|e events IH]; intros g; cbn; [by rewrite take_nil|].
  apply not_elem_of_cons in Hf as [He Hf]. destruct (on_event_other (fun i => i <? n)%nat s g h e) as [Ho Hm]; [done|].
  destruct (media_frame e) as [f|] eqn:Em.
  - destruct (Hm f eq_refl) as [-> ->]. unfold send_to_source. rewrite Hl.
    pose proof (connect_first_attempt (sv_world s) (ph_lifecycle h) lc loc d Hl Hc Hg Hd) as Hfirst.
    destruct (lc_connect (sv_world s) (ph_lifecycle h) lc) as [r w]. destruct Hfirst as (Hl' & _ & Hst).
    rewrite decide_False in Hst by done. destruct Hst as (-> & Hst & Hev). rewrite Hh. cbn [length].
    destruct (Nat.ltb_spec 0 n).
    + edestruct (relay_connected n (mark_connected lc) events (set_world s w) g
        (mkPublish (ph_stream_key h) (ph_lifecycle h) (ph_cancel_token h) ([] ++ [f]))) as (ok & g' & ->);
        [done..|cbn; lia|]. cbn. destruct n as [|n]; [lia|]. cbn. by rewrite Nat.sub_0_r.
    + replace n with 0%nat by lia. by rewrite take_0.
  - destruct (on_common_event g e) as [[] g1] eqn:Eg; [by apply IH|].
    destruct (Ho eq_refl) as [?| ->]; [done|]. by apply IH.
Qed.

End Relay.
