(* ===== verification/RtmpConn.v ===== *)
(** * RTMP connections below the session
    [livestream-transport/src/rtmp/{connection.rs, session.rs, handler/builder.rs}]:
    the socket reads and writes under a cancellation token, the handshake loop, the
    reads that feed the protocol session and turn into the events [RtmpSession]
    works on, and the builders of guards and handlers. The handshake and the
    protocol session of the [rml_rtmp] crate are interfaces. *)
From Stdlib Require Import String.
From stdpp Require Import strings list.
From S2P Require Import Prelude Types Flv RtmpSession.

(** ** Interfaces of [rml_rtmp] *)

Inductive handshake_result := InProgress (response_bytes : bytes) | Completed (response_bytes remaining_bytes : bytes).

Class Handshake (Hs : Type) := {
  hs_new : Hs;
  hs_process_bytes : Hs -> bytes -> option (handshake_result * Hs);
}.

(** What is documented of it: it takes the bytes of the three client packets,
    [hs_total] in all, however they are cut, and hands back those that follow. *)
Class HandshakeLaws (Hs : Type) `{Handshake Hs} := {
  hs_total : nat;
  hs_seen : Hs -> nat;
  hs_seen_new : hs_seen hs_new = 0%nat;
  hs_in_progress h b resp h' : hs_process_bytes h b = Some (InProgress resp, h') ->
    (hs_seen h < hs_total -> hs_seen h + length b < hs_total /\ hs_seen h' = hs_seen h + length b)%nat;
  hs_completed h b resp rest h' : hs_process_bytes h b = Some (Completed resp rest, h') ->
    (hs_seen h < hs_total -> hs_total <= hs_seen h + length b /\ rest = drop (hs_total - hs_seen h) b)%nat;
  hs_total_pos : (0 < hs_total)%nat;
}.

Inductive session_result :=
| OutboundResponse (packet : bytes)
| RaisedEvent (event : ServerEvent)
| UnhandleableMessageReceived.

Class ProtocolSession (Ss : Type) := {
  ss_new : option (Ss * list session_result);
  ss_handle_input : Ss -> bytes -> option (list session_result * Ss);
}.

(** ** The socket *)

(** What a read meets: bytes, none at the end of the stream, or a failure or
    cancellation. *)
Inductive socket_read := ReadBytes (b : bytes) | ReadFails.

Inductive connection_error := ConnectionClosed | ReadError | WriteError | HandshakeError | UnhandledSessionResult
| SessionError | MissingPart (what : string).

(** The reads to come, and what was written; [wr_ok i]: the [i]-th write succeeds. *)
Record RtmpConnection := mkConn { cn_reads : list socket_read; cn_written : list bytes }.

Section Connection.
Context {Hs Ss : Type} `{Handshake Hs} `{ProtocolSession Ss}.
Context (wr_ok : nat -> bool).

(** Without reads left the peer has closed. *)
Definition conn_read (c : RtmpConnection) : result connection_error bytes * RtmpConnection :=
  match cn_reads c with
  | [] => (Ok [], c)
  | ReadBytes b :: reads => (Ok b, mkConn reads (cn_written c))
  | ReadFails :: reads => (Err ReadError, mkConn reads (cn_written c))
  end.

Definition conn_write (c : RtmpConnection) (b : bytes) : result connection_error unit * RtmpConnection :=
  (if wr_ok (length (cn_written c)) then Ok tt else Err WriteError, mkConn (cn_reads c) (cn_written c ++ [b])).

(** [handle]: the responses a fresh session asks for. *)
Fixpoint handle (c : RtmpConnection) (results : list session_result) : result connection_error unit * RtmpConnection :=
  match results with
  | [] => (Ok tt, c)
  | OutboundResponse packet :: results =>
      match conn_write c packet with
      | (Ok _, c) => handle c results
      | r => r
      end
  | _ :: _ => (Err UnhandledSessionResult, c)
  end.

(** The loop of [perform_handshake]; [fuel] bounds the reads. The bytes after the
    handshake in the last read are the second component, which the code ignores. *)
Fixpoint handshake_loop (fuel : nat) (handshake : Hs) (c : RtmpConnection) :
    result connection_error bytes * RtmpConnection :=
  match fuel with
  | O => (Err ConnectionClosed, c)
  | S fuel =>
      match conn_read c with
      | (Err e, c) => (Err e, c)
      | (Ok [], c) => (Err ConnectionClosed, c)
      | (Ok buffer, c) =>
          match hs_process_bytes handshake buffer with
          | None => (Err HandshakeError, c)
          | Some (InProgress resp, handshake) =>
              match (match resp with [] => (Ok tt, c) | _ => conn_write c resp end) with
              | (Err e, c) => (Err e, c)
              | (Ok _, c) => handshake_loop fuel handshake c
              end
          | Some (Completed resp remaining, _) =>
              match (match resp with [] => (Ok tt, c) | _ => conn_write c resp end) with
              | (Err e, c) => (Err e, c)
              | (Ok _, c) => (Ok remaining, c)
              end
          end
      end
  end.

Definition perform_handshake (c : RtmpConnection) : result connection_error Ss * RtmpConnection :=
  match handshake_loop (S (length (cn_reads c))) hs_new c with
  | (Err e, c) => (Err e, c)
  | (Ok _, c) =>
      match ss_new with
      | None => (Err SessionError, c)
      | Some (session, results) =>
          match handle c results with
          | (Err e, c) => (Err e, c)
          | (Ok _, c) => (Ok session, c)
          end
      end
  end.

(** [handle_results]: responses are written, events collected. *)
Fixpoint handle_results (c : RtmpConnection) (results : list session_result) :
    result connection_error (list ServerEvent) * RtmpConnection :=
  match results with
  | [] => (Ok [], c)
  | OutboundResponse packet :: results =>
      match conn_write c packet with
      | (Err e, c) => (Err e, c)
      | (Ok _, c) => handle_results c results
      end
  | RaisedEvent event :: results =>
      match handle_results c results with
      | (Ok events, c) => (Ok (event :: events), c)
      | r => r
      end
  | UnhandleableMessageReceived :: results => handle_results c results
  end.

(** [read_result], then [handle_results]. *)
Definition read_events (session : Ss) (c : RtmpConnection) : option (list ServerEvent) * Ss * RtmpConnection :=
  match conn_read c with
  | (Err _, c) => (None, session, c)
  | (Ok [], c) => (None, session, c)
  | (Ok buffer, c) =>
      match ss_handle_input session buffer with
      | None => (None, session, c)
      | Some (results, session) =>
          match handle_results c results with
          | (Err _, c) => (None, session, c)
          | (Ok events, c) => (Some events, session, c)
          end
      end
  end.

(** All reads of a connection, as [RtmpSession.connect] and the handlers see them. *)
Fixpoint event_reads (fuel : nat) (session : Ss) (c : RtmpConnection) : list (option (list ServerEvent)) :=
  match fuel with
  | O => []
  | S fuel =>
      match read_events session c with
      | (None, _, _) => [None]
      | (Some events, session, c) => Some events :: event_reads fuel session c
      end
  end.

(** What the protocol session is given. *)
Definition session_input (c : RtmpConnection) : bytes :=
  concat (omap (fun r => match r with ReadBytes b => Some b | ReadFails => None end) (cn_reads c)).

(** ** The handshake *)

Lemma write_reads c b : cn_reads (snd (conn_write c b)) = cn_reads c.
Proof. done. Qed.

(** A response of the handshake, when it has one. *)
Definition respond (c : RtmpConnection) (resp : bytes) : result connection_error unit * RtmpConnection :=
  match resp with [] => (Ok tt, c) | _ => conn_write c resp end.

Lemma respond_reads c resp : cn_reads (snd (respond c resp)) = cn_reads c.
Proof. by destruct resp. Qed.

Lemma handle_reads results : forall c, cn_reads (snd (handle c results)) = cn_reads c.
Proof.
  induction results as [|[] results IH]; intros c; cbn [handle]; try done.
  unfold conn_write. destruct (wr_ok _); [|done]. by rewrite IH.
Qed.

Lemma loop_step fuel handshake c : handshake_loop (S fuel) handshake c =
  match conn_read c with
  | (Err e, c) => (Err e, c)
  | (Ok [], c) => (Err ConnectionClosed, c)
  | (Ok buffer, c) =>
      match hs_process_bytes handshake buffer with
      | None => (Err HandshakeError, c)
      | Some (InProgress resp, handshake) =>
          match respond c resp with (Err e, c) => (Err e, c) | (Ok _, c) => handshake_loop fuel handshake c end
      | Some (Completed resp remaining, _) =>
          match respond c resp with (Err e, c) => (Err e, c) | (Ok _, c) => (Ok remaining, c) end
      end
  end.
Proof. done. Qed.

End Connection.

Section HandshakeOutcome.
Context {Hs Ss : Type} `{HandshakeLaws Hs} `{ProtocolSession Ss}.
Context (wr_ok : nat -> bool).

Lemma loop_consumes fuel : forall handshake c rest c', (hs_seen handshake < hs_total)%nat ->
  handshake_loop wr_ok fuel handshake c = (Ok rest, c') ->
  exists before last, cn_reads c = map ReadBytes (before ++ [last]) ++ cn_reads c'
    /\ (length (concat before) < hs_total - hs_seen handshake <= length (concat before) + length last)%nat
    /\ rest = drop (hs_total - hs_seen handshake - length (concat before)) last.
Proof.
  induction fuel as [|fuel IH]; intros h c rest c' Hlt; [done|]. rewrite loop_step.
  destruct c as [[|[b|] reads] written]; cbn [conn_read cn_reads cn_written]; try done.
  destruct b as [|x b]; [done|]. set (buf := x :: b).
  destruct (hs_process_bytes h buf) as [[[resp|resp rem] h']|] eqn:Eh; [| |done];
    pose proof (respond_reads wr_ok (mkConn reads written) resp) as Hr;
    destruct (respond wr_ok (mkConn reads written) resp) as [[[]|] c1]; try done; cbn in Hr.
  - intros Hl. destruct (hs_in_progress _ _ _ _ Eh Hlt) as [Hlt' Hseen].
    destruct (IH h' c1 rest c' ltac:(lia) Hl) as (before & last & Hc & Hle & ->).
    exists (buf :: before), last. cbn [map concat app]. rewrite <- Hr, Hc, length_app. split; [done|]. split; [lia|].
    f_equal. lia.
  - intros [= <- <-]. destruct (hs_completed _ _ _ _ _ Eh Hlt) as [Hle ->].
    exists [], buf. cbn [map concat app length]. rewrite <- Hr, Nat.sub_0_r. split; [done|]. split; [lia|done].
Qed.

Lemma loop_completes cs rest : Forall (fun b => b <> []) cs -> (forall i, wr_ok i = true) ->
  (forall h b, hs_process_bytes h b <> None) ->
  forall fuel h c, cn_reads c = map ReadBytes cs ++ rest -> (length cs < fuel)%nat ->
  (hs_seen h < hs_total)%nat -> (hs_total <= hs_seen h + length (concat cs))%nat ->
  is_ok (fst (handshake_loop wr_ok fuel h c)) = true.
Proof.
  intros Hne Hw Hp. induction Hne as [|b cs Hb Hcs IH]; intros fuel h c Hr Hf Hlt Hle; [cbn in Hle; lia|].
  destruct fuel as [|fuel]; [lia|]. rewrite loop_step. destruct c as [reads written]. cbn in Hr. subst reads.
  cbn [conn_read cn_reads cn_written map app]. destruct b as [|x b]; [done|]. set (buf := x :: b) in *.
  assert (forall c1 resp, exists c2, respond wr_ok c1 resp = (Ok tt, c2) /\ cn_reads c2 = cn_reads c1) as Hresp.
  { intros c1 [|y resp]; [by exists c1|]. unfold respond, conn_write. rewrite Hw. by eexists. }
  destruct (hs_process_bytes h buf) as [[[resp|resp rem] h']|] eqn:Eh; [| |by destruct (Hp h buf)];
    destruct (Hresp (mkConn (map ReadBytes cs ++ rest) written) resp) as (c2 & -> & Hc2); [|done].
  destruct (hs_in_progress _ _ _ _ Eh Hlt) as [Hlt' Hseen]. cbn [concat] in Hle. rewrite length_app in Hle. cbn in Hf.
  apply IH; [done|lia|lia|lia].
Qed.

Definition is_response (r : session_result) : bool := match r with OutboundResponse _ => true | _ => false end.

Lemma handle_ok results : forallb is_response results = true -> (forall i, wr_ok i = true) ->
  forall c, is_ok (fst (handle wr_ok c results)) = true.
Proof.
  intros Hr Hw. induction results as [|[] results IH]; intros c; cbn in *; try done.
  unfold conn_write. rewrite Hw. by apply IH.
Qed.

(** C14: the handshake and what follows it. A connection reaches its protocol
    session only after [hs_total] bytes, and does reach it when they come, in
    whatever pieces, and nothing fails. The read that completes the handshake is
    the last one it takes. The bytes that came in this read behind the handshake
    are lost: the session reads on after it, and so sees the client's stream
    whole only when there were none. *)
Theorem handshake_outcome c :
  (forall session c', perform_handshake wr_ok c = (Ok session, c') ->
     exists before completing, cn_reads c = map ReadBytes (before ++ [completing]) ++ cn_reads c'
       /\ (length (concat before) < hs_total <= length (concat before) + length completing)%nat
       /\ let own := (hs_total - length (concat before))%nat in
       let lost := drop own completing in
       session_input c = (concat before ++ take own completing) ++ lost ++ session_input c'
       /\ (session_input c' = drop hs_total (session_input c) <-> lost = []))
  /\ (forall chunks rest session results, cn_reads c = map ReadBytes chunks ++ rest ->
     Forall (fun b => b <> []) chunks -> (hs_total <= length (concat chunks))%nat ->
     (forall i, wr_ok i = true) -> (forall h b, hs_process_bytes h b <> None) ->
     ss_new = Some (session, results) -> forallb is_response results = true ->
     exists c', perform_handshake wr_ok c = (Ok session, c')).
Proof.
  pose proof hs_total_pos as Hpos. pose proof hs_seen_new as Hnew. split.
  - intros session c' Hp. unfold perform_handshake in Hp.
    destruct (handshake_loop wr_ok (S (length (cn_reads c))) hs_new c) as [[rem|] c1] eqn:El; [|done].
    apply loop_consumes in El as (before & completing & Hr & Hle & _); [|lia]. rewrite Hnew, Nat.sub_0_r in Hle.
    destruct ss_new as [[s0 results]|]; [|done]. pose proof (handle_reads wr_ok results c1) as Hh.
    destruct (handle wr_ok c1 results) as [[[]|] c2]; [|done]. injection Hp as -> ->. cbn in Hh.
    assert (forall l, concat (omap (fun r => match r with ReadBytes b => Some b | ReadFails => None end) (map ReadBytes l)) = concat l) as Hreads.
    { intros l. induction l as [|b l IH]; [done|]. cbn. by rewrite IH. }
    assert (session_input c = (concat before ++ completing) ++ session_input c') as Hin.
    { unfold session_input. rewrite Hr, Hh, omap_app, concat_app, Hreads, concat_app. cbn. by rewrite app_nil_r. }
    exists before, completing. split; [by rewrite Hr, Hh|]. split; [done|]. cbn zeta.
    set (own := (hs_total - length (concat before))%nat). split.
    { rewrite Hin, <- !app_assoc, (app_assoc (take own completing)), take_drop. done. }
    rewrite Hin, <- app_assoc, drop_app_ge, drop_app_le by lia. fold own. split; [|by intros ->].
    intros E. apply (f_equal length) in E. rewrite length_app in E. apply length_zero_iff_nil. lia.
  - intros chunks rest session results Hr Hne Hle Hw Hp Hss Hres. unfold perform_handshake.
    pose proof (loop_completes chunks rest Hne Hw Hp (S (length (cn_reads c))) hs_new c Hr) as Hl.
    rewrite Hr, length_app, length_map in Hl at 1. specialize (Hl ltac:(lia) ltac:(lia) ltac:(lia)).
    destruct (handshake_loop wr_ok _ hs_new c) as [[rem|] c1]; [|done]. rewrite Hss.
    pose proof (handle_ok results Hres Hw c1) as Hk.
    destruct (handle wr_ok c1 results) as [[[]|] c2]; [|done]. by exists c2.
Qed.
End HandshakeOutcome.

(** ** Builders ([session.rs], [handler/builder.rs]) *)

Section Builders.
(** The parts: connection, session, registry, guard, channel ends, lifecycle handle, token. *)
Context {Conn Session Registry Guard Receiver Sender Lifecycle Token : Type}.
Context (guard_new : Conn -> Session -> string -> Registry -> Guard).

Record SessionGuardBuilder := mkGuardBuilder {
  gb_connection : Conn;
  gb_session : option Session;
  gb_appname : option string;
  gb_registry : option Registry;
}.

Definition guard_builder_new (connection : Conn) : SessionGuardBuilder := mkGuardBuilder connection None None None.
Definition guard_with_session (b : SessionGuardBuilder) (s : Session) : SessionGuardBuilder :=
  mkGuardBuilder (gb_connection b) (Some s) (gb_appname b) (gb_registry b).
Definition guard_with_appname (b : SessionGuardBuilder) (a : string) : SessionGuardBuilder :=
  mkGuardBuilder (gb_connection b) (gb_session b) (Some a) (gb_registry b).
Definition guard_with_registry (b : SessionGuardBuilder) (r : Registry) : SessionGuardBuilder :=
  mkGuardBuilder (gb_connection b) (gb_session b) (gb_appname b) (Some r).

Definition required {A} (what : string) (part : option A) : result connection_error A :=
  match part with Some a => Ok a | None => Err (MissingPart what) end.

Definition guard_build (b : SessionGuardBuilder) : result connection_error Guard :=
  let? session := required "session" (gb_session b) in
  let? appname := required "app name" (gb_appname b) in
  let? registry := required "registry" (gb_registry b) in
  Ok (guard_new (gb_connection b) session appname registry).

Inductive HandlerBuilder :=
| BuildPlay (stream_id : Z) (session : option Guard) (stream_key : string) (tag_stream : option Receiver)
    (cached_tags : list FlvTag) (cancel_token : option Token)
| BuildPublish (session : option Guard) (stream_key : string) (source_tx : option Sender)
    (lifecycle : option Lifecycle) (cancel_token : option Token).

Inductive Handler :=
| HandlePlay (session : Guard) (stream_key : string) (stream_id : Z) (tag_stream : Receiver)
    (cached_tags : list FlvTag) (cancel_token : Token)
| HandlePublish (session : Guard) (stream_key : string) (source_tx : Sender) (lifecycle : Lifecycle)
    (cancel_token : Token).

Definition builder_play (stream_key : string) (stream_id : Z) : HandlerBuilder :=
  BuildPlay stream_id None stream_key None [] None.
Definition builder_publish (stream_key : string) : HandlerBuilder := BuildPublish None stream_key None None None.

Definition builder_stream_key (b : HandlerBuilder) : string :=
  match b with BuildPlay _ _ k _ _ _ => k | BuildPublish _ k _ _ _ => k end.

Definition with_session (b : HandlerBuilder) (s : Guard) : HandlerBuilder :=
  match b with
  | BuildPlay i _ k t c ct => BuildPlay i (Some s) k t c ct
  | BuildPublish _ k x l ct => BuildPublish (Some s) k x l ct
  end.
Definition with_tag_stream (b : HandlerBuilder) (stream : Receiver) : HandlerBuilder :=
  match b with BuildPlay i s k _ c ct => BuildPlay i s k (Some stream) c ct | _ => b end.
Definition with_cached_tags (b : HandlerBuilder) (tags : list FlvTag) : HandlerBuilder :=
  match b with BuildPlay i s k t _ ct => BuildPlay i s k t tags ct | _ => b end.
Definition with_source_tx (b : HandlerBuilder) (tx : Sender) : HandlerBuilder :=
  match b with BuildPublish s k _ l ct => BuildPublish s k (Some tx) l ct | _ => b end.
Definition with_lifecycle (b : HandlerBuilder) (lifecycle : Lifecycle) : HandlerBuilder :=
  match b with BuildPublish s k x _ ct => BuildPublish s k x (Some lifecycle) ct | _ => b end.
Definition with_cancel_token (b : HandlerBuilder) (ct : Token) : HandlerBuilder :=
  match b with
  | BuildPlay i s k t c _ => BuildPlay i s k t c (Some ct)
  | BuildPublish s k x l _ => BuildPublish s k x l (Some ct)
  end.

Definition build (b : HandlerBuilder) : result connection_error Handler :=
  match b with
  | BuildPlay stream_id session stream_key tag_stream cached_tags cancel_token =>
      let? session := required "session" session in
      let? tag_stream := required "tag receiver" tag_stream in
      let? cancel_token := required "cancellation token" cancel_token in
      Ok (HandlePlay session stream_key stream_id tag_stream cached_tags cancel_token)
  | BuildPublish session stream_key source_tx lifecycle cancel_token =>
      let? session := required "session" session in
      let? source_tx := required "source sender" source_tx in
      let? cancel_token := required "cancellation token" cancel_token in
      let? lifecycle := required "lifecycle" lifecycle in
      Ok (HandlePublish session stream_key source_tx lifecycle cancel_token)
  end.

(** The chains of [server.rs] have every part: building never fails there, and
    the handler is the one asked for. *)
Lemma connection_builders_complete conn session app registry key id guard rx tags tx l ct :
  guard_build (guard_with_registry (guard_with_appname (guard_with_session (guard_builder_new conn) session) app) registry)
  = Ok (guard_new conn session app registry)
  /\ build (with_cancel_token (with_cached_tags (with_tag_stream (with_session (builder_play key id) guard) rx) tags) ct)
     = Ok (HandlePlay guard key id rx tags ct)
  /\ build (with_cancel_token (with_source_tx (with_lifecycle (with_session (builder_publish key) guard) l) tx) ct)
     = Ok (HandlePublish guard key tx l ct).
Proof. done. Qed.
End Builders.

(** ** A concrete run: a handshake of three bytes, answered at the end, and a
    session that raises a ping for each byte *)

#[export] Instance count_handshake : Handshake nat := {
  hs_new := 0%nat;
  hs_process_bytes seen b :=
    if (3 <=? seen + length b)%nat then Some (Completed [9] (drop (3 - seen) b), (seen + length b)%nat)
    else Some (InProgress [], (seen + length b)%nat);
}.

#[export] Instance count_handshake_laws : HandshakeLaws nat.
Proof.
  refine {| hs_total := 3; hs_seen := fun n => n |}; [done| | |lia]; intros h b; intros; cbn in *;
    destruct (Nat.leb_spec 3 (h + length b)); simplify_eq; [lia|done].
Defined.

#[export] Instance ping_session : ProtocolSession unit := {
  ss_new := Some (tt, [OutboundResponse [7]]);
  ss_handle_input _ b := Some (map (fun _ => RaisedEvent PingResponseReceived) b, tt);
}.

(** The client pipelined the byte 4 behind its handshake: only 5 is seen. *)
Lemma handshake_outcome_witness :
  let c := mkConn [ReadBytes [1; 2]; ReadBytes [3; 4]; ReadBytes [5]] [] in
  exists c', perform_handshake (Hs := nat) (Ss := unit) (fun _ => true) c = (Ok tt, c')
  /\ session_input c' = [5] /\ cn_written c' = [[9]; [7]]
  /\ event_reads (Ss := unit) (fun _ => true) 3 tt c' = [Some [PingResponseReceived]; None].
Proof.
  destruct (handshake_outcome (Hs := nat) (Ss := unit) (fun _ => true)
    (mkConn [ReadBytes [1; 2]; ReadBytes [3; 4]; ReadBytes [5]] [])) as [_ Hc].
  destruct (Hc [[1; 2]; [3; 4]] [ReadBytes [5]] tt [OutboundResponse [7]] eq_refl) as (c' & Hp).
  - repeat constructor; discriminate.
  - cbn. lia.
  - done.
  - intros h b. cbn. by destruct (3 <=? _)%nat.
  - done.
  - done.
  - exists c'. split; [exact Hp|]. vm_compute in Hp. injection Hp as <-. by split_and!.
Defined.
