(* ===== verification/RtpDemux.v ===== *)
(** * RTP demultiplexer
    [livestream-media/src/rtp.rs] and
    [livestream-pipeline/src/processor/rtp_depack/mod.rs]: the bounded packet
    buffer between the ingest task and FFmpeg's reader, the wrapper of the
    demuxer's streams and frames, and the processor that feeds it. FFmpeg is what
    its calls do: the sizes of the reads it makes on the buffer, the streams of
    its context and the answer of each [av_read_frame]. What the wrapper allocates
    is in [Ffmpeg], the packets are those of [AvPacket]. *)
From stdpp Require Import list.
From S2P Require Import Prelude Types AvPacket Ffmpeg Rtp.

(** ** The packet buffer ([rtp.rs]) *)

Record RtpBuf := mkRtpBuf {
  rb_packets : list bytes;
  rb_current : option (bytes * nat);   (* a packet read in part, and how far *)
  rb_max_bytes : Z;
  rb_probation_satisfied : bool;
}.

Definition RtpBuf_new : RtpBuf := mkRtpBuf [] None (1024 * 1024) false.

Definition total_len (ps : list bytes) : Z := Z.of_nat (list_sum (map length ps)).

Definition current_bytes (packets : list bytes) (current : option (bytes * nat)) : Z :=
  total_len packets + match current with Some (p, _) => Z.of_nat (length p) | None => 0 end.

(** The eviction loop of [feed]. *)
Fixpoint evict (packets : list bytes) (current : option (bytes * nat)) (len max_bytes : Z) : list bytes :=
  if current_bytes packets current + len <=? max_bytes then packets
  else match packets with [] => [] | _ :: packets => evict packets current len max_bytes end.

Definition feed (b : RtpBuf) (data : bytes) : RtpBuf :=
  let '(packets, probation) :=
    match rb_packets b with
    | first :: _ => if negb (rb_probation_satisfied b) then (first :: rb_packets b, true)
                    else (rb_packets b, rb_probation_satisfied b)
    | [] => (rb_packets b, rb_probation_satisfied b)
    end in
  mkRtpBuf (evict packets (rb_current b) (Z.of_nat (length data)) (rb_max_bytes b) ++ [data])
    (rb_current b) (rb_max_bytes b) probation.

(** The read callback, with a buffer of [buf_size] bytes; [None] is [EAGAIN]. *)
Definition rtp_read (b : RtpBuf) (buf_size : nat) : option bytes * RtpBuf :=
  match rb_current b with
  | Some (pkt, offset) =>
      let remaining := (length pkt - offset)%nat in
      let n := Nat.min buf_size remaining in
      let current := if (length pkt <=? offset + n)%nat then None else Some (pkt, (offset + n)%nat) in
      (Some (take n (drop offset pkt)), mkRtpBuf (rb_packets b) current (rb_max_bytes b) (rb_probation_satisfied b))
  | None =>
      match rb_packets b with
      | pkt :: packets =>
          let n := Nat.min buf_size (length pkt) in
          let current := if (n <? length pkt)%nat then Some (pkt, n) else None in
          (Some (take n pkt), mkRtpBuf packets current (rb_max_bytes b) (rb_probation_satisfied b))
      | [] => (None, b)
      end
  end.

Fixpoint rtp_reads (b : RtpBuf) (sizes : list nat) : list (option bytes) * RtpBuf :=
  match sizes with
  | [] => ([], b)
  | n :: sizes => let '(r, b) := rtp_read b n in let '(rs, b) := rtp_reads b sizes in (r :: rs, b)
  end.

(** ** Frames *)

Section Demux.
(** [av_rescale_q]. *)
Context (rescale : Z -> AVRational -> AVRational -> Z).

(** A call of [read_frame]: the reads FFmpeg made, then its outcome. *)
Inductive read_outcome := FrameRead (pkt : AvPacket) (codec : Codec) (time_base : AVRational) | NoMoreFrames | ReadError.

Abbreviation frame_call := (list nat * read_outcome)%type.

(** The loop of [process] over [read_frame]; [None] is an error. *)
Fixpoint read_frames (b : RtpBuf) (calls : list frame_call) (packets : list EncodedPacket) :
    option (list EncodedPacket) * list (option bytes) * RtpBuf :=
  match calls with
  | [] => (Some packets, [], b)
  | (sizes, outcome) :: calls =>
      let '(rs, b) := rtp_reads b sizes in
      match outcome with
      | NoMoreFrames => (Some packets, rs, b)
      | ReadError => (None, rs, b)
      | FrameRead pkt codec tb =>
          let '(out, rs', b) := read_frames b calls (packets ++ [from_av_packet rescale pkt tb codec]) in
          (out, rs ++ rs', b)
      end
  end.

(** A stream as the demuxer knows it: its codec and extradata. *)
Abbreviation demux_stream := (option Codec * option bytes)%type.

Record RtpDemuxProcessor := mkDemux { dm_buf : RtpBuf; dm_sent_seq_header : bool }.

Definition RtpDemuxProcessor_new : RtpDemuxProcessor := mkDemux RtpBuf_new false.

Definition sequence_header (si : nat) (st : demux_stream) : list EncodedPacket :=
  match st with
  | (Some codec, Some extradata) =>
      [mkPacket codec si (AnnexB []) None None true true false (Some extradata)]
  | _ => []
  end.

Definition sequence_headers (streams : list demux_stream) : list EncodedPacket :=
  concat (imap sequence_header streams).

(** [process]: the output ([None]: an error), what FFmpeg read, and the state. *)
Definition process (p : RtpDemuxProcessor) (streams : list demux_stream) (data : bytes) (calls : list frame_call) :
    option (list EncodedPacket) * list (option bytes) * RtpDemuxProcessor :=
  let headers := if negb (dm_sent_seq_header p) then sequence_headers streams else [] in
  let '(out, rs, b) := read_frames (feed (dm_buf p) data) calls headers in
  (out, rs, mkDemux b true).

(** [extract_codec_params]: the streams with a codec and a time base. *)
Definition extract_codec_params (streams : list (demux_stream * option (Z * Z))) : list CodecParams :=
  omap (fun '((codec, extradata), time_base) =>
    match codec, time_base with
    | Some codec, Some (_, den) =>
        let media_type := match codec with H264 | H265 | Av1 | Mjpeg => Video | Aac | Mp3 | Opus => Audio end in
        Some (mkCodecParams codec media_type den extradata)
    | _, _ => None
    end) streams.

(** Inputs in turn; an error only drops the output of its own call. *)
Fixpoint process_all (p : RtpDemuxProcessor) (streams : list demux_stream) (inputs : list (bytes * list frame_call)) :
    list (option (list EncodedPacket)) * list (list (option bytes)) * RtpDemuxProcessor :=
  match inputs with
  | [] => ([], [], p)
  | (data, calls) :: inputs =>
      let '(out, rs, p) := process p streams data calls in
      let '(outs, rss, p) := process_all p streams inputs in
      (out :: outs, rs :: rss, p)
  end.

End Demux.

(** ** The buffer is bounded *)

Lemma evict_fits packets current len max_bytes :
  current_bytes [] current + len <= max_bytes ->
  current_bytes (evict packets current len max_bytes) current + len <= max_bytes
  /\ exists n, evict packets current len max_bytes = drop n packets.
Proof.
  intros Hfit. induction packets as [|p packets [IH (n & Hn)]]; cbn [evict].
  - destruct (Z.leb_spec (current_bytes [] current + len) max_bytes); [|lia]. split; [done|by exists 0%nat].
  - destruct (Z.leb_spec (current_bytes (p :: packets) current + len) max_bytes); [split; [done|by exists 0%nat]|].
    split; [done|]. exists (S n). done.
Qed.

Lemma total_len_app a b : total_len (a ++ b) = total_len a + total_len b.
Proof. unfold total_len. rewrite map_app, list_sum_app. lia. Qed.

(** Feeding keeps the buffer of the demuxer under its limit, for every packet
    that fits beside the one being read: the new packet is stored last and only
    the oldest are evicted, the probation copy of the first one included. *)
Theorem feed_bounded b data :
  current_bytes [] (rb_current b) + Z.of_nat (length data) <= rb_max_bytes b ->
  let b' := feed b data in
  current_bytes (rb_packets b') (rb_current b') <= rb_max_bytes b
  /\ rb_current b' = rb_current b /\ rb_max_bytes b' = rb_max_bytes b
  /\ exists n, rb_packets b' = drop n (rb_packets b) ++ [data]
       \/ exists first rest, rb_packets b = first :: rest /\ n = 0%nat /\ rb_probation_satisfied b = false
          /\ rb_packets b' = first :: rb_packets b ++ [data].
Proof.
  intros Hfit. cbn zeta. unfold feed.
  assert (forall ps, current_bytes (evict ps (rb_current b) (Z.of_nat (length data)) (rb_max_bytes b) ++ [data])
    (rb_current b) <= rb_max_bytes b) as Hbound.
  { intros ps. destruct (evict_fits ps (rb_current b) (Z.of_nat (length data)) (rb_max_bytes b) Hfit) as [Hle _].
    unfold current_bytes in *. rewrite total_len_app. unfold total_len at 2. cbn. lia. }
  destruct (rb_packets b) as [|first rest] eqn:Ep; [|destruct (rb_probation_satisfied b) eqn:Es]; cbn [negb];
    (split; [apply Hbound|split; [done|split; [done|]]]); cbn -[evict].
  - exists 0%nat. left. cbn. by case_match.
  - destruct (evict_fits (first :: rest) (rb_current b) (Z.of_nat (length data)) (rb_max_bytes b) Hfit) as [_ (n & ->)].
    exists n. by left.
  - destruct (evict_fits (first :: first :: rest) (rb_current b) (Z.of_nat (length data)) (rb_max_bytes b) Hfit)
      as [_ (n & ->)].
    destruct n as [|n]; [|exists n; by left]. exists 0%nat. right. by exists first, rest.
Qed.

(** ** What FFmpeg reads *)

(** The bytes of a buffer that were not read yet. *)
Definition unread (b : RtpBuf) : bytes :=
  match rb_current b with Some (p, o) => drop o p | None => [] end ++ concat (rb_packets b).

Definition read_bytes (rs : list (option bytes)) : bytes := concat (omap id rs).

Lemma read_bytes_app a b : read_bytes (a ++ b) = read_bytes a ++ read_bytes b.
Proof. unfold read_bytes. by rewrite omap_app, concat_app. Qed.

Definition drained_buf (b : RtpBuf) : Prop := rb_packets b = [] /\ rb_current b = None.

Lemma rtp_read_step b n : let '(r, b') := rtp_read b n in
  default [] r ++ unread b' = unread b
  /\ rb_max_bytes b' = rb_max_bytes b /\ rb_probation_satisfied b' = rb_probation_satisfied b
  /\ (drained_buf b -> drained_buf b') /\ (r = None -> drained_buf b').
Proof.
  unfold rtp_read, unread, drained_buf. destruct (rb_current b) as [[p o]|] eqn:Ec.
  - cbn. split_and!; [|done|done|by intros [_ [=]]|done].
    destruct (Nat.leb_spec (length p) (o + Nat.min n (length p - o))); cbn.
    + f_equal. apply take_ge. rewrite length_drop. lia.
    + rewrite app_assoc, <- drop_drop. by rewrite take_drop.
  - destruct (rb_packets b) as [|p ps] eqn:Ep; cbn; [by rewrite Ec, Ep|].
    split_and!; [|done|done|by intros [[=] _]|done].
    destruct (Nat.ltb_spec (Nat.min n (length p)) (length p)); cbn.
    + by rewrite app_assoc, take_drop.
    + f_equal. apply take_ge. lia.
Qed.

Lemma rtp_reads_step sizes : forall b, let '(rs, b') := rtp_reads b sizes in
  read_bytes rs ++ unread b' = unread b
  /\ rb_max_bytes b' = rb_max_bytes b /\ rb_probation_satisfied b' = rb_probation_satisfied b
  /\ (drained_buf b -> drained_buf b') /\ (None ∈ rs -> drained_buf b').
Proof.
  induction sizes as [|n sizes IH]; intros b; cbn; [split_and!; try done; by intros ?%elem_of_nil|].
  pose proof (rtp_read_step b n) as Hr. destruct (rtp_read b n) as [r b1].
  specialize (IH b1). destruct (rtp_reads b1 sizes) as [rs b2].
  destruct Hr as (Hu & Hm & Hp & Hd & Hn), IH as (Hu2 & Hm2 & Hp2 & Hd2 & Hn2).
  split_and!; [|congruence|congruence|auto|].
  - change (r :: rs) with ([r] ++ rs). rewrite read_bytes_app, <- app_assoc, Hu2, <- Hu. f_equal.
    unfold read_bytes. destruct r; cbn; by rewrite ?app_nil_r.
  - intros [<-|Hin]%elem_of_cons; [auto|auto].
Qed.

Lemma read_frames_step rescale calls : forall b packets,
  let '(_, rs, b') := read_frames rescale b calls packets in
  read_bytes rs ++ unread b' = unread b
  /\ rb_max_bytes b' = rb_max_bytes b /\ rb_probation_satisfied b' = rb_probation_satisfied b
  /\ (drained_buf b -> drained_buf b') /\ (None ∈ rs -> drained_buf b').
Proof.
  induction calls as [|[sizes outcome] calls IH]; intros b packets; cbn; [split_and!; try done; by intros ?%elem_of_nil|].
  pose proof (rtp_reads_step sizes b) as Hr. destruct (rtp_reads b sizes) as [rs b1].
  destruct outcome as [pkt codec tb| |]; [|done|done].
  specialize (IH b1 (packets ++ [from_av_packet rescale pkt tb codec])).
  destruct (read_frames rescale b1 calls _) as [[out rs2] b2].
  destruct Hr as (Hu & Hm & Hp & Hd & Hn), IH as (Hu2 & Hm2 & Hp2 & Hd2 & Hn2).
  split_and!; [|congruence|congruence|auto|].
  - by rewrite read_bytes_app, <- app_assoc, Hu2, Hu.
  - intros [Hin|Hin]%elem_of_app; auto.
Qed.

Lemma process_drains rescale p streams data calls : drained_buf (dm_buf p) ->
  rb_probation_satisfied (dm_buf p) = false -> Z.of_nat (length data) <= rb_max_bytes (dm_buf p) ->
  let '(_, rs, p') := process rescale p streams data calls in
  None ∈ rs -> read_bytes rs = data /\ drained_buf (dm_buf p')
    /\ rb_probation_satisfied (dm_buf p') = false /\ rb_max_bytes (dm_buf p') = rb_max_bytes (dm_buf p).
Proof.
  intros [Hp Hc] Hs Hl. unfold process.
  assert (feed (dm_buf p) data = mkRtpBuf [data] None (rb_max_bytes (dm_buf p)) false) as ->.
  { unfold feed. rewrite Hp, Hc, Hs. cbn. by case_match. }
  pose proof (read_frames_step rescale calls (mkRtpBuf [data] None (rb_max_bytes (dm_buf p)) false)
    (if negb (dm_sent_seq_header p) then sequence_headers streams else [])) as Hr.
  destruct (read_frames _ _ _ _) as [[out rs] b']. cbn in Hr. destruct Hr as (Hu & Hm & Hpr & _ & Hn).
  intros Hin. specialize (Hn Hin). split_and!; try done. destruct Hn as [E1 E2].
  unfold unread in Hu. cbn in Hu. rewrite E1, E2 in Hu. cbn in Hu. by rewrite !app_nil_r in Hu.
Qed.

Lemma process_all_drains rescale streams inputs : forall q, drained_buf (dm_buf q) ->
  rb_probation_satisfied (dm_buf q) = false -> rb_max_bytes (dm_buf q) = 1024 * 1024 ->
  let '(_, rss, p) := process_all rescale q streams inputs in
  Forall (fun rs => None ∈ rs) rss -> Forall (fun i => Z.of_nat (length (fst i)) <= 1024 * 1024) inputs ->
  map read_bytes rss = map fst inputs /\ drained_buf (dm_buf p) /\ rb_probation_satisfied (dm_buf p) = false.
Proof.
  induction inputs as [|[data calls] inputs IH]; intros q Hd Hs Hm; cbn; [done|].
  pose proof (process_drains rescale q streams data calls Hd Hs) as Hp.
  destruct (process rescale q streams data calls) as [[out rs] q1]. specialize (IH q1).
  destruct (process_all rescale q1 streams inputs) as [[outs rss] p].
  intros Hdr Hle. inversion Hdr as [|? ? Hin Hdr']; subst. inversion Hle as [|? ? Hl Hle']; subst. cbn in *.
  destruct Hp as (Hb & Hd1 & Hs1 & Hm1); [lia|done|]. rewrite Hb.
  destruct IH as (-> & ? & ?); try done. by rewrite Hm1.
Qed.

(** FFmpeg is given every RTP packet once, in order and unchanged. When each
    call of [process] reads until the buffer reports that it is empty, as
    [read_frame] does before it gives up, the bytes read during a call are
    exactly the packet of that call. So the buffer is empty between calls, and
    the copy of the first packet that [feed] queues for FFmpeg's probation is
    never made. *)
Theorem rtp_demux_lossless rescale streams inputs :
  let '(_, rss, p) := process_all rescale RtpDemuxProcessor_new streams inputs in
  Forall (fun rs => None ∈ rs) rss -> Forall (fun i => Z.of_nat (length (fst i)) <= 1024 * 1024) inputs ->
  map read_bytes rss = map fst inputs /\ drained_buf (dm_buf p) /\ rb_probation_satisfied (dm_buf p) = false.
Proof. by apply process_all_drains. Qed.

(** ** What the processor emits *)

Section Output.
Context (rescale : Z -> AVRational -> AVRational -> Z).
Abbreviation frame_call := (list nat * read_outcome)%type.
Abbreviation demux_stream := (option Codec * option bytes)%type.

(** The frames of a call; [None]: FFmpeg failed. *)
Fixpoint call_frames (calls : list frame_call) : option (list EncodedPacket) :=
  match calls with
  | [] | (_, NoMoreFrames) :: _ => Some []
  | (_, ReadError) :: _ => None
  | (_, FrameRead pkt codec tb) :: calls => fs ← call_frames calls; Some (from_av_packet rescale pkt tb codec :: fs)
  end.

Lemma read_frames_output calls : forall b packets,
  fst (fst (read_frames rescale b calls packets)) = (fun fs => packets ++ fs) <$> call_frames calls.
Proof.
  induction calls as [|[sizes outcome] calls IH]; intros b packets; cbn; [by rewrite app_nil_r|].
  destruct (rtp_reads b sizes) as [rs b1]. destruct outcome as [pkt codec tb| |]; cbn; [|by rewrite app_nil_r|done].
  specialize (IH b1 (packets ++ [from_av_packet rescale pkt tb codec])).
  destruct (read_frames rescale b1 calls _) as [[out rs2] b2]. cbn in *. rewrite IH.
  destruct (call_frames calls); cbn; [by rewrite <- app_assoc|done].
Qed.

Lemma process_all_output streams inputs : forall p,
  fst (fst (process_all rescale p streams inputs))
  = imap (fun k i => (fun fs => (if (k =? 0)%nat && negb (dm_sent_seq_header p) then sequence_headers streams else []) ++ fs)
            <$> call_frames (snd i)) inputs.
Proof.
  induction inputs as [|[data calls] inputs IH]; intros p; [done|]. cbn [process_all imap].
  unfold process. pose proof (read_frames_output calls (feed (dm_buf p) data)
    (if negb (dm_sent_seq_header p) then sequence_headers streams else [])) as Ho.
  destruct (read_frames _ _ _ _) as [[out rs] b]. cbn in Ho. specialize (IH (mkDemux b true)).
  destruct (process_all rescale (mkDemux b true) streams inputs) as [[outs rss] p']. cbn in IH |- *. subst.
  f_equal. apply imap_ext. intros k i _. unfold compose. cbn. by rewrite andb_false_r.
Qed.

Lemma call_frames_times calls fs : call_frames calls = Some fs ->
  Forall (fun f => is_Some (pk_dts_ms f) /\ pk_is_sequence_header f = false /\ pk_extradata f = None) fs.
Proof.
  revert fs. induction calls as [|[sizes []] calls IH]; intros fs Hc; cbn in Hc; simplify_eq; try constructor.
  apply bind_Some in Hc as (fs' & Hc & [= <-]). constructor; [|by apply IH].
  split; [|done]. cbn [from_av_packet pk_dts_ms]. destruct (packet_dts _); [eauto|]. destruct (packet_pts _); eauto.
Qed.

(** The output of the demultiplexer. The sequence headers, one per stream
    with a codec and extradata and in stream order, come first and once; each
    call adds the frames FFmpeg gave, every one with a decode time and none taken
    for a header. A call in which FFmpeg fails emits nothing: when it is the
    first one the headers are never emitted. *)
Theorem rtp_demux_output streams inputs :
  fst (fst (process_all rescale RtpDemuxProcessor_new streams inputs))
  = imap (fun k i => (fun fs => (if (k =? 0)%nat then sequence_headers streams else []) ++ fs)
            <$> call_frames (snd i)) inputs
  /\ Forall (fun i => match call_frames (snd i) with
       | Some fs => Forall (fun f => is_Some (pk_dts_ms f) /\ pk_is_sequence_header f = false /\ pk_extradata f = None) fs
       | None => True end) inputs
  /\ map pk_extradata (sequence_headers streams)
     = map Some (omap (fun st => c ← fst st; snd st) streams)
  /\ Forall (fun h => pk_is_sequence_header h = true) (sequence_headers streams).
Proof.
  split_and!.
  - rewrite process_all_output. apply imap_ext. intros k i _. cbn. by rewrite andb_true_r.
  - apply Forall_true. intros i. destruct (call_frames (snd i)) eqn:E; [by eapply call_frames_times|done].
  - unfold sequence_headers.
    assert (forall f : nat -> demux_stream -> list EncodedPacket,
      (forall k st, map pk_extradata (f k st) = map Some (option_list (c ← fst st; snd st))) ->
      map pk_extradata (concat (imap f streams)) = map Some (omap (fun st => c ← fst st; snd st) streams)) as Hg.
    { induction streams as [|st streams IH]; intros f Hf; [done|]. cbn. rewrite map_app, Hf, IH by (intros; apply Hf).
      by destruct st as [[c|] [e|]]. }
    apply Hg. by intros k [[c|] [e|]].
  - unfold sequence_headers. apply Forall_concat. apply Forall_lookup. intros i l Hl.
    rewrite list_lookup_imap in Hl. apply fmap_Some in Hl as ([[c|] [e|]] & _ & ->); by repeat constructor.
Qed.

End Output.

(** ** The streams of the context ([rtp.rs]) *)

(** A stream of the format context; its [codecpar] may be null. *)
Record fmt_stream := mkFmtStream { fs_codecpar : option AVCodecParameters; fs_time_base : AVRational }.

Definition stream_count (streams : list fmt_stream) : nat := length streams.

(** [extradata_size > 0] is asked for as well as the buffer. *)
Definition extradata (streams : list fmt_stream) (stream_index : nat) : option bytes :=
  if (stream_count streams <=? stream_index)%nat then None
  else st ← streams !! stream_index; par ← fs_codecpar st;
       match par_extradata par with Some (b :: x) => Some (b :: x) | _ => None end.

Definition codec_for_stream (streams : list fmt_stream) (stream_index : nat) : option Codec :=
  if (stream_count streams <=? stream_index)%nat then None
  else st ← streams !! stream_index; par ← fs_codecpar st; Some (codec_id_to_codec (par_codec_id par)).

Definition time_base_for_stream (streams : list fmt_stream) (stream_index : nat) : option AVRational :=
  if (stream_count streams <=? stream_index)%nat then None
  else st ← streams !! stream_index; Some (fs_time_base st).

(** The answers of [av_read_frame]. *)
Inductive av_read := AvNothing | AvFailed | AvFrame (av_pkt : AvPacket).

Definition read_frame (streams : list fmt_stream) (ret : av_read) : read_outcome :=
  match ret with
  | AvNothing => NoMoreFrames
  | AvFailed => ReadError
  | AvFrame av_pkt =>
      let nb_streams := stream_count streams in
      if (av_stream_index av_pkt <? 0) || (nb_streams <=? as_usize (av_stream_index av_pkt))%nat then ReadError
      else match streams !! as_usize (av_stream_index av_pkt) with
           | Some st =>
               let codec := match fs_codecpar st with Some par => codec_id_to_codec (par_codec_id par) | None => H264 end in
               FrameRead av_pkt codec (fs_time_base st)
           | None => ReadError
           end
  end.

(** What the processor asks for each stream. *)
Definition demux_streams (streams : list fmt_stream) : list (option Codec * option bytes) :=
  map (fun si => (codec_for_stream streams si, extradata streams si)) (seq 0 (stream_count streams)).

Definition demux_codec_params (streams : list fmt_stream) : list CodecParams :=
  extract_codec_params (map (fun si => ((codec_for_stream streams si, extradata streams si),
    time_base_for_stream streams si)) (seq 0 (stream_count streams))).

(** The SDP callback: how many bytes it gave, and the position reached. *)
Record SdpState := mkSdpState { sdp_data : bytes; sdp_pos : nat }.

Definition sdp_read (s : SdpState) (buf_size : nat) : bytes * SdpState :=
  let remaining := (length (sdp_data s) - sdp_pos s)%nat in
  if (remaining =? 0)%nat then ([], s)
  else let n := Nat.min buf_size remaining in
       (take n (drop (sdp_pos s) (sdp_data s)), mkSdpState (sdp_data s) (sdp_pos s + n)).

Fixpoint sdp_reads (s : SdpState) (sizes : list nat) : bytes * SdpState :=
  match sizes with
  | [] => ([], s)
  | n :: sizes => let '(x, s) := sdp_read s n in let '(y, s) := sdp_reads s sizes in (x ++ y, s)
  end.

Section Streams.
Context (rescale : Z -> AVRational -> AVRational -> Z).

Definition with_answers (streams : list fmt_stream) (calls : list (list nat * av_read)) : list (list nat * read_outcome) :=
  map (fun '(sizes, ret) => (sizes, read_frame streams ret)) calls.

(** The processor over the demuxer. *)
Definition process_answers (p : RtpDemuxProcessor) (streams : list fmt_stream) (data : bytes)
    (calls : list (list nat * av_read)) : option (list EncodedPacket) * list (option bytes) * RtpDemuxProcessor :=
  process rescale p (demux_streams streams) data (with_answers streams calls).

(** A packet that belongs to a stream of the context and carries its codec. *)
Definition of_stream (streams : list fmt_stream) (q : EncodedPacket) : Prop :=
  (pk_stream_index q < stream_count streams)%nat
  /\ pk_codec q = default H264 (codec_for_stream streams (pk_stream_index q)).

Lemma read_frame_stream streams ret pkt codec tb : read_frame streams ret = FrameRead pkt codec tb ->
  ret = AvFrame pkt /\ (stream_idx pkt < stream_count streams)%nat /\ 0 <= av_stream_index pkt
  /\ codec = default H264 (codec_for_stream streams (stream_idx pkt))
  /\ time_base_for_stream streams (stream_idx pkt) = Some tb.
Proof.
  unfold read_frame, codec_for_stream, time_base_for_stream, stream_idx. destruct ret as [| |q]; try done.
  destruct (Z.ltb_spec (av_stream_index q) 0); [done|].
  destruct (Nat.leb_spec (stream_count streams) (as_usize (av_stream_index q))) as [|Hlt]; [done|]. cbn [orb].
  destruct (streams !! as_usize (av_stream_index q)) as [st|] eqn:Es; [|done]. intros [= <- <- <-].
  destruct (Nat.leb_spec (stream_count streams) (as_usize (av_stream_index q))); [lia|]. rewrite Es. cbn.
  split_and!; try done. by destruct (fs_codecpar st).
Qed.

Lemma sequence_headers_stream streams :
  Forall (fun h => of_stream streams h /\ is_Some (codec_for_stream streams (pk_stream_index h))
    /\ pk_extradata h = extradata streams (pk_stream_index h)) (sequence_headers (demux_streams streams)).
Proof.
  unfold sequence_headers. apply Forall_concat, Forall_lookup. intros i l Hl.
  rewrite list_lookup_imap in Hl. apply fmap_Some in Hl as (st & Hst & ->).
  unfold demux_streams in Hst. rewrite list_lookup_fmap in Hst. apply fmap_Some in Hst as (k & Hk & ->).
  apply lookup_seq in Hk as [-> Hlt]. cbn [Nat.add] in *.
  destruct (codec_for_stream streams i) as [c|] eqn:Ec; [|constructor].
  destruct (extradata streams i) as [x|] eqn:Ex; constructor; [|constructor].
  unfold of_stream. cbn. rewrite Ec, Ex. by split_and!.
Qed.

Lemma call_frames_stream streams calls fs : call_frames rescale (with_answers streams calls) = Some fs ->
  Forall (of_stream streams) fs.
Proof.
  revert fs. induction calls as [|[sizes ret] calls IH]; intros fs; cbn; [intros [= <-]; constructor|].
  destruct (read_frame streams ret) as [pkt codec tb| |] eqn:Er; [|intros [= <-]; constructor|done].
  apply read_frame_stream in Er as (_ & Hlt & _ & -> & _).
  intros (fs' & Hc & [= <-])%bind_Some. constructor; [|by apply IH].
  unfold of_stream. cbn. by split.
Qed.

(** Every packet the demultiplexer emits belongs to a stream of the context
    and carries the codec known for that stream: an answer of FFmpeg with a
    stream index outside the context, negative or too large, fails its call
    instead of being looked up. So a frame and the sequence header before it
    agree on the codec, and the header holds the extradata of its stream. *)
Theorem rtp_packets_of_streams p streams data calls out rs p' :
  process_answers p streams data calls = (Some out, rs, p') ->
  Forall (of_stream streams) out
  /\ Forall (fun q => pk_is_sequence_header q = true ->
       pk_extradata q = extradata streams (pk_stream_index q) /\ is_Some (pk_extradata q)) out
  /\ Forall (fun '(_, ret) => match ret with
       | AvFrame q => av_stream_index q < 0 \/ (stream_count streams <= as_usize (av_stream_index q))%nat ->
           read_frame streams ret = ReadError
       | _ => True end) calls.
Proof.
  unfold process_answers, process. intros Hp.
  pose proof (read_frames_output rescale (with_answers streams calls) (feed (dm_buf p) data)
    (if negb (dm_sent_seq_header p) then sequence_headers (demux_streams streams) else [])) as Ho.
  destruct (read_frames _ _ _ _) as [[o rs'] b]. injection Hp as -> -> <-. cbn in Ho.
  symmetry in Ho. apply fmap_Some in Ho as (fs & Hfs & ->).
  pose proof (sequence_headers_stream streams) as Hh.
  pose proof (call_frames_times rescale _ _ Hfs) as Ht. apply call_frames_stream in Hfs.
  split_and!.
  - apply Forall_app; split; [|done]. destruct (negb _); [|constructor].
    eapply Forall_impl; [exact Hh|]. by intros ? (? & _).
  - apply Forall_app; split.
    + destruct (negb _); [|constructor]. apply Forall_lookup. intros i h Hl _.
      pose proof (proj1 (Forall_lookup _ _) Hh i h Hl) as (_ & _ & He). split; [done|].
      clear -Hl. unfold sequence_headers in Hl. apply list_elem_of_lookup_2 in Hl.
      apply list_elem_of_In, in_concat in Hl as (l & Hl & Hin). apply list_elem_of_In in Hl.
      apply list_elem_of_lookup in Hl as (k & Hk). rewrite list_lookup_imap in Hk.
      apply fmap_Some in Hk as ([[c|] [e|]] & _ & ->); cbn in Hin; try done. destruct Hin as [<-|[]]. by eexists.
    + eapply Forall_impl; [exact Ht|]. intros f (_ & Hf & _). by rewrite Hf.
  - apply Forall_true. intros [sizes [| |q]]; [done|done|]. unfold read_frame.
    destruct (Z.ltb_spec (av_stream_index q) 0); [done|].
    destruct (Nat.leb_spec (stream_count streams) (as_usize (av_stream_index q))); [done|]. intros [?|?]; lia.
Qed.
End Streams.

(** The description is served whole and once, whatever the buffers. *)
Lemma sdp_reads_prefix s sizes : (sdp_pos s <= length (sdp_data s))%nat ->
  let '(x, s') := sdp_reads s sizes in
  sdp_data s' = sdp_data s /\ (sdp_pos s' <= length (sdp_data s'))%nat
  /\ x ++ drop (sdp_pos s') (sdp_data s') = drop (sdp_pos s) (sdp_data s).
Proof.
  revert s. induction sizes as [|n sizes IH]; intros s Hs; [done|]. cbn. unfold sdp_read.
  destruct (Nat.eqb_spec (length (sdp_data s) - sdp_pos s) 0).
  - specialize (IH s Hs). destruct (sdp_reads s sizes) as [y s']. by cbn.
  - specialize (IH (mkSdpState (sdp_data s) (sdp_pos s + Nat.min n (length (sdp_data s) - sdp_pos s)))).
    destruct (sdp_reads _ sizes) as [y s']. cbn in IH. destruct IH as (Hd & Hp & Hx); [lia|].
    split_and!; [done|done|]. rewrite <- app_assoc, Hx, <- drop_drop. by rewrite take_drop.
Qed.
