(* ===== verification/RtspChain.v ===== *)
(** * The running RTSP pipeline
    [livestream-pipeline/src/{factory.rs, task.rs}]: what [build_rtsp_pipeline] spawns
    before the encoded chain of [Chain]: the demultiplexer's task ([RtpDemux]) and,
    for motion JPEG, the transcoder's ([Transcode]), with their bounded pads. What
    FFmpeg did during a turn is the turn's argument. *)
From stdpp Require Import list strings.
From S2P Require Import Prelude Types Rtp FlvMux RtmpSource AvPacket Ffmpeg Config Transcode Pads Factory Chain RtpDemux.

Section RtspChain.
(** [av_rescale_q]. *)
Context (rescale : Z -> AVRational -> AVRational -> Z).
Abbreviation frame_call := (list nat * read_outcome)%type.
Abbreviation demux_stream := (option Codec * option bytes)%type.

(** ** The tasks *)

Record RtspPipeline := mkRtspPipeline {
  rp_senders : bool;                                     (* the source holds its pad *)
  rp_demux : Node RtpDemuxProcessor (list frame_call) RtpPacket;
  rp_transcode : option (Node TranscodeProcessor DecodeEnv EncodedPacket);
  rp_chain : EncodedChain;
}.

Inductive RtspEvent :=
| RtpSends (pkt : RtpPacket)               (* the source offers a packet to its pad *)
| RtpSourceGone                            (* the source drops its pad *)
| DemuxTurn (calls : list frame_call)      (* the demultiplexer's select sees its input *)
| DemuxCancelled
| TranscodeTurn (env : DecodeEnv)
| TranscodeCancelled
| ChainTaskTurn (t : ChainTask)
| ChainTaskCancelled (t : ChainTask).

Context (hls_ok : bool) (codec_params : list CodecParams) (transcode_cfg : TranscodeConfig) (streams : list demux_stream).

Definition demux_call (p : RtpDemuxProcessor) (calls : list frame_call) (pkt : RtpPacket) :
    option (result unit (list EncodedPacket) * RtpDemuxProcessor) :=
  let '(out, _, p) := process rescale p streams (rp_data pkt) calls in
  Some (match out with Some packets => Ok packets | None => Err tt end, p).

Definition transcode_call (p : TranscodeProcessor) (env : DecodeEnv) (pkt : EncodedPacket) :
    option (result unit (list EncodedPacket) * TranscodeProcessor) :=
  transcode_process transcode_cfg env p pkt.

(** The pad of the source, and pads of 256 packets. *)
Definition build_rtsp_pipeline (rtp_rx : nat) : RtspPipeline :=
  mkRtspPipeline true (node_new rtp_rx RtpDemuxProcessor_new)
    (if has_mjpeg codec_params then Some (node_new 256 transcode_new) else None)
    (build_encoded_chain hls_ok (chain_params codec_params) 256).

Definition rtsp_send (p : RtspPipeline) (pkt : RtpPacket) : send_result * RtspPipeline :=
  let '(r, q) := mpsc_send (nd_input (rp_demux p)) pkt in
  (match r with Ok _ => SendOk | Err Full => SendFull | Err Closed => SendClosed end,
   mkRtspPipeline (rp_senders p) (with_input (rp_demux p) q) (rp_transcode p) (rp_chain p)).

(** What the demultiplexer's task did reaches the transcoder's pad, or the chain's. *)
Definition after_demux (p : RtspPipeline) (demux : Node RtpDemuxProcessor (list frame_call) RtpPacket)
    (outs : list EncodedPacket) : RtspPipeline :=
  match rp_transcode p with
  | Some tr => mkRtspPipeline (rp_senders p) demux (Some (with_input tr (send1 (nd_input tr) outs))) (rp_chain p)
  | None => mkRtspPipeline (rp_senders p) demux None (chain_feed (rp_chain p) outs (negb (nd_ended demux)))
  end.

Definition after_transcode (p : RtspPipeline) (tr : Node TranscodeProcessor DecodeEnv EncodedPacket)
    (outs : list EncodedPacket) : RtspPipeline :=
  mkRtspPipeline (rp_senders p) (rp_demux p) (Some tr) (chain_feed (rp_chain p) outs (negb (nd_ended tr))).

Definition with_chain (p : RtspPipeline) (c : EncodedChain) : RtspPipeline :=
  mkRtspPipeline (rp_senders p) (rp_demux p) (rp_transcode p) c.

Definition rtsp_step (p : RtspPipeline) (ev : RtspEvent) : RtspPipeline :=
  match ev with
  | RtpSends pkt => if rp_senders p then snd (rtsp_send p pkt) else p
  | RtpSourceGone => mkRtspPipeline false (rp_demux p) (rp_transcode p) (rp_chain p)
  | DemuxTurn calls =>
      let '(outs, demux) := node_recv demux_call (rp_senders p) calls (rp_demux p) in after_demux p demux outs
  | DemuxCancelled => after_demux p (node_cancelled (rp_demux p)) []
  | TranscodeTurn env =>
      match rp_transcode p with
      | Some tr =>
          let '(outs, tr) := node_recv transcode_call (negb (nd_ended (rp_demux p))) env tr in after_transcode p tr outs
      | None => p
      end
  | TranscodeCancelled =>
      match rp_transcode p with Some tr => after_transcode p (node_cancelled tr) [] | None => p end
  | ChainTaskTurn t => with_chain p (chain_step hls_ok (chain_params codec_params) (rp_chain p) (ChainTurn t))
  | ChainTaskCancelled t => with_chain p (chain_step hls_ok (chain_params codec_params) (rp_chain p) (ChainCancelled t))
  end.

Definition rtsp_run (p : RtspPipeline) (evs : list RtspEvent) : RtspPipeline := foldl rtsp_step p evs.

(** What the source sent, and what its pad answered. *)
Fixpoint rtp_offers (p : RtspPipeline) (evs : list RtspEvent) : list (RtpPacket * send_result) :=
  match evs with
  | [] => []
  | ev :: evs =>
      match ev with
      | RtpSends pkt => if rp_senders p then [(pkt, fst (rtsp_send p pkt))] else []
      | _ => []
      end ++ rtp_offers (rtsp_step p ev) evs
  end.

(** Whether the pads between the demultiplexer and the FLV sink have room. *)
Definition rtsp_room (p : RtspPipeline) : bool :=
  match rp_transcode p with Some tr => has_room (nd_input tr) | None => true end
  && has_room (nd_input (ec_otel (rp_chain p))) && flv_room (rp_chain p).

Fixpoint rtsp_always (p : RtspPipeline) (evs : list RtspEvent) : bool :=
  match evs with
  | [] => true
  | ev :: evs => let p := rtsp_step p ev in rtsp_room p && rtsp_always p evs
  end.

(** Nothing waits on the way to the FLV sink, and no task of it was cut. *)
Definition rtsp_settled (p : RtspPipeline) : bool :=
  drained (rp_demux p) && match rp_transcode p with Some tr => drained tr | None => true end && flv_settled (rp_chain p).

(** ** What it guarantees *)

(** A task whose pad loses nothing: what it was sent entered it. *)
Lemma exact_link {S A I} (n : Node S A I) : node_ok n -> link (fed n) n true true.
Proof. by constructor. Qed.

Lemma node_send {S A I} (n : Node S A I) x : node_ok n ->
  let '(r, q) := mpsc_send (nd_input n) x in
  node_ok (with_input n q) /\ fed (with_input n q) = fed n ++ match r with Ok _ => [x] | Err _ => [] end
  /\ (r = Err Closed <-> nd_ended n = true).
Proof.
  destruct n as [s [[cap open] items] ended cut dn]. intros [Ho Hc Hf]. unfold mpsc_send, q_open, finished, fed, processed in *.
  cbn in *. subst open. destruct ended; cbn; [|destruct (cap <=? length items)%nat]; cbn;
    split_and!; try done; rewrite ?app_nil_r, ?app_assoc; try done; by constructor.
Qed.

(** The state after [sent] entered the source's pad: [o1] is what the demultiplexer
    fanned out, [given] what reached the pad of the chain. *)
Record rtsp_links (sent : list RtpPacket) (w : bool) (p : RtspPipeline) (o1 given : list EncodedPacket) : Prop := {
  rl_demux : fanned demux_call RtpDemuxProcessor_new (rp_demux p) o1;
  rl_ok : node_ok (rp_demux p);
  rl_fed : fed (rp_demux p) = sent;
  rl_senders : finished (rp_demux p) = true -> rp_senders p = false;
  rl_transcode : match rp_transcode p with
    | None => given = o1 /\ ec_senders (rp_chain p) = negb (nd_ended (rp_demux p))
    | Some tr => fanned transcode_call transcode_new tr given /\ link o1 tr w true
        /\ (finished tr = true -> nd_ended (rp_demux p) = true)
        /\ ec_senders (rp_chain p) = negb (nd_ended tr)
    end;
  rl_chain : chain_ok given w w false (rp_chain p);
}.

Lemma build_rtsp_pipeline_ok rtp_rx : rtsp_links [] true (build_rtsp_pipeline rtp_rx) [] [].
Proof.
  unfold build_rtsp_pipeline. constructor; cbn; try done.
  - destruct (has_mjpeg codec_params); [|done]. split; [done|]. split; [apply link_new|done].
  - apply build_encoded_chain_ok.
Qed.

(** The demultiplexer's task moves on to [demux], having fanned out [outs]. *)
Lemma after_demux_ok sent w p o1 given demux outs : rtsp_links sent w p o1 given ->
  fanned demux_call RtpDemuxProcessor_new demux (o1 ++ outs) -> node_ok demux -> fed demux = sent ->
  (finished demux = true -> rp_senders p = false) -> (nd_ended (rp_demux p) = true -> outs = [] /\ nd_ended demux = true) ->
  exists given', rtsp_links sent (w && rtsp_room (after_demux p demux outs)) (after_demux p demux outs) (o1 ++ outs) given'.
Proof.
  intros [F1 Hok Hfed Hs Ht Hc] Hf' Hok' Hfed' Hs' Hend. unfold after_demux, rtsp_room.
  destruct (rp_transcode p) as [tr|] eqn:Et.
  - destruct Ht as (Ft & Lt & Et' & Es). rewrite send1_push. exists given. constructor; cbn; try done.
    + split_and!; [done| |intros H; by apply Hend, Et'|done].
      eapply link_weaken; [apply link_send; [exact Lt|intros H; by apply Hend, Et']| |done].
      intros [-> [[-> _]%andb_true_iff _]%andb_true_iff]%andb_true_iff. done.
    + eapply chain_ok_weaken; [exact Hc|by intros [? _]%andb_true_iff..|done].
  - destruct Ht as [-> Es]. exists (o1 ++ outs). constructor; cbn; try done.
    eapply chain_ok_weaken; [apply chain_feed_ok; [exact Hc|]| | |done].
    + intros Hsnd. rewrite Es in Hsnd. apply negb_false_iff in Hsnd. destruct (Hend Hsnd) as [-> He]. by rewrite He.
    + intros [-> [Hr _]%andb_true_iff]%andb_true_iff. exact Hr.
    + by intros [? _]%andb_true_iff.
Qed.

Lemma after_transcode_ok sent w p o1 given tr tr' outs : rtsp_links sent w p o1 given -> rp_transcode p = Some tr ->
  fanned transcode_call transcode_new tr' (given ++ outs) -> link o1 tr' w true ->
  (finished tr' = true -> nd_ended (rp_demux p) = true) -> (nd_ended tr = true -> outs = [] /\ nd_ended tr' = true) ->
  rtsp_links sent (w && rtsp_room (after_transcode p tr' outs)) (after_transcode p tr' outs) o1 (given ++ outs).
Proof.
  intros [F1 Hok Hfed Hs Ht Hc] Et Hf' Hl' He' Hend. rewrite Et in Ht. destruct Ht as (_ & _ & _ & Es).
  unfold after_transcode, rtsp_room. constructor; cbn; try done.
  - split_and!; [done| |done|done]. eapply link_weaken; [exact Hl'|by intros [? _]%andb_true_iff|done].
  - eapply chain_ok_weaken; [apply chain_feed_ok; [exact Hc|]| | |done].
    + intros Hsnd. rewrite Es in Hsnd. apply negb_false_iff in Hsnd. destruct (Hend Hsnd) as [-> He]. by rewrite He.
    + intros [-> [[_ Hr]%andb_true_iff _]%andb_true_iff]%andb_true_iff. exact Hr.
    + by intros [? _]%andb_true_iff.
Qed.

Lemma chain_move_ok sent w p o1 given ev : rtsp_links sent w p o1 given -> ev <> SenderGone ->
  let p' := with_chain p (chain_step hls_ok (chain_params codec_params) (rp_chain p) ev) in
  rtsp_links sent (w && rtsp_room p') p' o1 given.
Proof.
  intros [F1 Hok Hfed Hs Ht Hc] Hev p'.
  assert (ec_senders (rp_chain p') = ec_senders (rp_chain p)) as Es.
  { unfold p'. destruct ev as [[]|[]|]; try done; cbn [with_chain rp_chain chain_step chain_turn].
    - by destruct (processor_turn _ _ _).
    - by destruct (processor_turn _ _ _), (send2 _ _ _).
    - by destruct (processor_turn _ _ _). }
  constructor; try done.
  - unfold p' in *. cbn [with_chain rp_transcode rp_demux] in *. rewrite Es. destruct (rp_transcode p) as [tr|]; [|done].
    destruct Ht as (Ft & Lt & Et & ?). split_and!; [done| |done..].
    eapply link_weaken; [exact Lt|by intros [? _]%andb_true_iff|done].
  - eapply chain_ok_weaken; [by apply chain_step_ok|by intros [? _]%andb_true_iff| |done].
    intros [-> [_ Hr]%andb_true_iff]%andb_true_iff. exact Hr.
Qed.

Lemma rtsp_links_weaken sent w w' p o1 given : rtsp_links sent w p o1 given -> (w' = true -> w = true) -> rtsp_links sent w' p o1 given.
Proof.
  intros [F1 Hok Hfed Hs Ht Hc] Hw. constructor; try done.
  - destruct (rp_transcode p) as [tr|]; [|done]. destruct Ht as (? & Hl & ? & ?). split_and!; try done. by eapply link_weaken.
  - by eapply chain_ok_weaken.
Qed.

Definition step_offers (p : RtspPipeline) (ev : RtspEvent) : list (RtpPacket * send_result) :=
  match ev with RtpSends pkt => if rp_senders p then [(pkt, fst (rtsp_send p pkt))] else [] | _ => [] end.

Lemma rtsp_step_ok sent w p o1 given ev : rtsp_links sent w p o1 given ->
  exists o1' given', rtsp_links (sent ++ taken (step_offers p ev)) (w && rtsp_room (rtsp_step p ev)) (rtsp_step p ev) o1' given'.
Proof.
  intros Hl. pose proof Hl as [F1 Hok Hfed Hs Ht Hc]. destruct ev as [pkt| |calls| |env| |t|t]; cbn [step_offers rtsp_step].
  1: { destruct (rp_senders p) eqn:Esnd.
       2: { exists o1, given. rewrite app_nil_r. eapply rtsp_links_weaken; [exact Hl|by intros [? _]%andb_true_iff]. }
       unfold rtsp_send. pose proof (node_send (rp_demux p) pkt Hok) as Hn. destruct (mpsc_send _ _) as [r q].
       destruct Hn as (Hok' & Hfed' & Hcl). exists o1, given. eapply rtsp_links_weaken; [|by intros [? _]%andb_true_iff].
       constructor; cbn [snd rp_demux rp_senders rp_transcode rp_chain]; [exact F1|exact Hok'| |rewrite Esnd; exact Hs|exact Ht|exact Hc].
       rewrite Hfed', Hfed. by destruct r as [|[]]. }
  all: change (taken []) with (@nil RtpPacket); rewrite app_nil_r.
  - exists o1, given. eapply rtsp_links_weaken; [by constructor|by intros [? _]%andb_true_iff].
  - pose proof (fanned_recv demux_call RtpDemuxProcessor_new (rp_senders p) calls (rp_demux p) o1 F1) as Hf'.
    pose proof (link_recv demux_call (fed (rp_demux p)) (rp_demux p) (rp_senders p) calls true true (exact_link _ Hok)) as [Hok' _ _ _].
    pose proof (recv_finishes demux_call (rp_senders p) calls (rp_demux p)) as Hfin.
    destruct (node_recv _ _ _ _) as [outs demux] eqn:E. cbn [Datatypes.snd] in *. pose proof (fed_recv _ _ _ _ _ _ E) as Hfe.
    exists (o1 ++ outs). apply (after_demux_ok sent w p o1 given); try done; [congruence| |].
    + intros [?|?]%Hfin; auto.
    + intros He. unfold node_recv in E. rewrite He in E. by injection E as <- <-.
  - exists (o1 ++ []). apply (after_demux_ok sent w p o1 given); try done.
    + rewrite app_nil_r. by apply fanned_cancelled.
    + by apply (link_cancelled (fed (rp_demux p)) _ true true), exact_link.
    + by rewrite fed_cancelled.
    + rewrite finished_cancelled. apply Hs.
    + intros He. by rewrite ended_cancelled.
  - destruct (rp_transcode p) as [tr|] eqn:Et.
    2: { exists o1, given. eapply rtsp_links_weaken; [exact Hl|by intros [? _]%andb_true_iff]. }
    destruct Ht as (Ft & Lt & Ef & Es).
    pose proof (fanned_recv transcode_call transcode_new (negb (nd_ended (rp_demux p))) env tr given Ft) as Hf'.
    pose proof (link_recv transcode_call o1 tr (negb (nd_ended (rp_demux p))) env w true Lt) as Hl'.
    pose proof (recv_finishes transcode_call (negb (nd_ended (rp_demux p))) env tr) as Hfin.
    destruct (node_recv _ _ _ tr) as [outs tr'] eqn:E. cbn [Datatypes.snd] in *.
    exists o1, (given ++ outs). apply (after_transcode_ok sent w p o1 given tr); try done.
    + intros [?|?%negb_false_iff]%Hfin; auto.
    + intros He. unfold node_recv in E. rewrite He in E. by injection E as <- <-.
  - destruct (rp_transcode p) as [tr|] eqn:Et.
    2: { exists o1, given. eapply rtsp_links_weaken; [exact Hl|by intros [? _]%andb_true_iff]. }
    destruct Ht as (Ft & Lt & Ef & Es). exists o1, (given ++ []). apply (after_transcode_ok sent w p o1 given tr); try done.
    + rewrite app_nil_r. by apply fanned_cancelled.
    + by apply link_cancelled.
    + rewrite finished_cancelled. apply Ef.
    + intros He. by rewrite ended_cancelled.
  - exists o1, given. by apply chain_move_ok.
  - exists o1, given. by apply chain_move_ok.
Qed.

Lemma rtsp_run_ok evs : forall sent w p o1 given, rtsp_links sent w p o1 given ->
  exists o1' given', rtsp_links (sent ++ taken (rtp_offers p evs)) (w && rtsp_always p evs) (rtsp_run p evs) o1' given'.
Proof.
  induction evs as [|ev evs IH]; intros sent w p o1 given Hl; cbn [rtp_offers rtsp_always rtsp_run foldl].
  { exists o1, given. rewrite andb_true_r. cbn. by rewrite app_nil_r. }
  destruct (rtsp_step_ok sent w p o1 given ev Hl) as (o1' & given' & Hl'). apply IH in Hl'.
  destruct Hl' as (o2 & g2 & Hl2). exists o2, g2. fold (step_offers p ev). unfold taken in *.
  by rewrite omap_app, app_assoc, andb_assoc.
Qed.

(** A pad that answered [Closed] once answers it from then on. *)
Lemma rtsp_demux_stays_ended p ev : nd_ended (rp_demux p) = true -> nd_ended (rp_demux (rtsp_step p ev)) = true.
Proof.
  intros He. destruct ev as [pkt| |calls| |env| |t|t]; cbn [rtsp_step]; try done.
  - destruct (rp_senders p); [|done]. unfold rtsp_send. by destruct (mpsc_send _ _).
  - unfold node_recv. rewrite He. unfold after_demux. by destruct (rp_transcode p).
  - rewrite ended_cancelled by done. unfold after_demux. by destruct (rp_transcode p).
  - destruct (rp_transcode p); [|done]. by destruct (node_recv _ _ _ _).
  - by destruct (rp_transcode p).
Qed.

Lemma rtsp_send_closed p pkt : node_ok (rp_demux p) -> fst (rtsp_send p pkt) = SendClosed <-> nd_ended (rp_demux p) = true.
Proof.
  intros Hok. unfold rtsp_send. pose proof (node_send (rp_demux p) pkt Hok) as Hn. destruct (mpsc_send _ _) as [r q].
  destruct Hn as (_ & _ & <-). by destruct r as [|[]].
Qed.

Lemma rtp_answers_shape evs : forall sent w p o1 given, rtsp_links sent w p o1 given ->
  exists op n, map snd (rtp_offers p evs) = op ++ replicate n SendClosed /\ SendClosed ∉ op
    /\ (nd_ended (rp_demux p) = true -> op = []).
Proof.
  induction evs as [|ev evs IH]; intros sent w p o1 given Hl; [exists [], 0%nat; split_and!; [done|by apply not_elem_of_nil|done]|].
  destruct (rtsp_step_ok sent w p o1 given ev Hl) as (o1' & given' & Hl').
  destruct (IH _ _ _ _ _ Hl') as (op & n & E & Hop & Hend). cbn [rtp_offers]. fold (step_offers p ev). rewrite map_app, E.
  pose proof (rtsp_demux_stays_ended p ev) as Hst.
  destruct ev as [pkt| |calls| |env| |t|t]; cbn [step_offers map app];
    try (exists op, n; split_and!; [done|done|intros He; by apply Hend, Hst]).
  destruct (rp_senders p) eqn:Es; [|exists op, n; split_and!; [done|done|intros He; by apply Hend, Hst]].
  destruct (rtsp_send_closed p pkt (rl_ok _ _ _ _ _ Hl)) as [Hc1 Hc2]. cbn [map app Datatypes.snd].
  destruct (nd_ended (rp_demux p)) eqn:Ee.
  - exists [], (S n). rewrite (Hend (Hst eq_refl)), Hc2 by done. split_and!; [done|by apply not_elem_of_nil|done].
  - exists (fst (rtsp_send p pkt) :: op), n. split_and!; [done| |done]. apply not_elem_of_cons. split; [|done].
    intros H. symmetry in H. by apply Hc1 in H.
Qed.

(** ** What the tasks fanned out *)

Lemma demux_node_run dn : forall q o1 q', node_run demux_call q dn = Some (o1, q') ->
  o1 = concat (omap id (fst (fst (process_all rescale q streams (map (fun d => (rp_data (snd d), fst d)) dn))))).
Proof.
  induction dn as [|[calls pkt] dn IH]; intros q o1 q'; [by intros [= <- _]|]. cbn [node_run map process_all fst snd].
  unfold demux_call at 1. destruct (process rescale q streams (rp_data pkt) calls) as [[out rs] q1].
  destruct (node_run demux_call q1 dn) as [[o q2]|] eqn:E; [|done]. apply IH in E. cbn. intros [= <- _].
  destruct (process_all rescale q1 streams _) as [[outs rss] q3]. cbn in *. subst o. by destruct out.
Qed.

Lemma transcode_node_run dn : forall q outs q', node_run transcode_call q dn = Some (outs, q') ->
  forall acc, transcode_run transcode_cfg q dn acc = Some (q', acc ++ outs).
Proof.
  induction dn as [|[env pkt] dn IH]; intros q outs q'; [intros [= <- <-] acc; by rewrite app_nil_r|].
  cbn [node_run transcode_run]. unfold transcode_call at 1. destruct (transcode_process _ _ _ _) as [[r q1]|]; [|done].
  destruct (node_run transcode_call q1 dn) as [[o q2]|] eqn:E; [|done]. cbn. intros [= <- <-] acc.
  rewrite (IH _ _ _ E), <- app_assoc. by destruct r.
Qed.

Lemma rtsp_links_deliver sent w p o1 given : rtsp_links sent w p o1 given ->
  o1 = concat (omap id (fst (fst (process_all rescale RtpDemuxProcessor_new streams
         (map (fun d => (rp_data (snd d), fst d)) (nd_done (rp_demux p)))))))
  /\ match rp_transcode p with
     | None => given = o1
     | Some tr => (exists q, transcode_run transcode_cfg transcode_new (nd_done tr) [] = Some (q, given))
         /\ processed tr `sublist_of` o1 /\ (w = true -> processed tr `prefix_of` o1)
         /\ (w = true -> drained tr = true -> processed tr = o1)
     end.
Proof.
  intros [F1 _ _ _ Ht _]. split; [by eapply demux_node_run|]. destruct (rp_transcode p) as [tr|]; [|by destruct Ht].
  destruct Ht as (Ft & Lt & _). apply link_processed in Lt as (S & P & E). split_and!; [|done|done|auto].
  eexists. by apply (transcode_node_run _ _ _ _ Ft []).
Qed.

Lemma rtsp_transcode_kept evs : forall p, is_some (rp_transcode (rtsp_run p evs)) = is_some (rp_transcode p).
Proof.
  induction evs as [|ev evs IH]; intros p; [done|]. unfold rtsp_run in *. cbn [foldl]. rewrite IH.
  destruct ev as [pkt| |calls| |env| |t|t]; cbn [rtsp_step]; try done.
  - destruct (rp_senders p); [|done]. unfold rtsp_send. by destruct (mpsc_send _ _).
  - destruct (node_recv _ _ _ _). unfold after_demux. by destruct (rp_transcode p).
  - unfold after_demux. by destruct (rp_transcode p).
  - destruct (rp_transcode p) as [tr|] eqn:E; [|by rewrite E]. by destruct (node_recv _ _ _ _).
  - destruct (rp_transcode p) as [tr|] eqn:E; [done|by rewrite E].
Qed.
End RtspChain.
