(* ===== verification/Grpc.v ===== *)
(** * Control plane
    [livestream-transport/src/{grpc/server.rs, controller.rs}]: the gRPC service
    over the ingest servers: request validation, the bearer token, precreation
    and stop with their acknowledgements, descriptors with the endpoints they
    advertise, and the watch stream. How a control message fared on its queue is
    an argument. *)
From Stdlib Require Import Ascii String.
From stdpp Require Import strings gmap sorting.
From S2P Require Import Prelude Types Flv Tokio FlvHub Session Control RtspSession HttpFlv RtmpSession.

(** ** Status codes and requests *)

Inductive Status := InvalidArgument | AlreadyExists | NotFound | Internal | Unauthenticated.

Definition validate_live_id (live_id : string) : result Status string :=
  if bool_decide (live_id = EmptyString) then Err InvalidArgument else Ok live_id.

Inductive InputProtocol := Unspecified | InputRtmp | InputRtsp.

Definition parse_input_protocol (value : Z) : result Status InputProtocol :=
  if value =? 0 then Ok Unspecified
  else if value =? 1 then Ok InputRtmp
  else if value =? 2 then Ok InputRtsp
  else Err InvalidArgument.

(** The interceptor: the configured token ([None]: open) and the trimmed
    [authorization] header, empty when it is missing. *)
Definition authorize (auth_token : option string) (provided : string) : result Status unit :=
  match auth_token with
  | None => Ok tt
  | Some token => if bool_decide (provided = ("Bearer " ++ token)%string) then Ok tt else Err Unauthenticated
  end.

(** What becomes of a control message: the server handles it before the
    acknowledgement times out, the queue refuses it, or no answer comes. *)
Inductive delivery := Handled | QueueRefused | NoAnswer.

Record GrpcConfig := mkGrpcConfig {
  gc_port : Z;
  gc_rtmp_port : option Z;
  gc_rtmp_app_name : string;
  gc_rtsp_port : option Z;
  gc_http_flv_enabled : bool;
  gc_http_flv_port : Z;
}.

(** ** Descriptors *)

Inductive IngestEndpoint :=
| RtmpIngest (port : Z) (app_name stream_key : string)
| RtspIngest (port : Z) (path : string).

Record StreamDescriptor := mkStreamDescriptor {
  st_live_id : string;
  st_input_protocol : InputProtocol;
  st_status : SessionState;
  st_ingest : IngestEndpoint;
  st_playback_rtmp : Z * string * string;
  st_playback_http_flv : option (Z * string);
}.

Definition ingest_endpoints (c : GrpcConfig) (live_id : string) (p : Protocol) : IngestEndpoint :=
  match p with
  | Rtsp => RtspIngest (default 0 (gc_rtsp_port c)) ("/live/" ++ live_id)
  | _ => RtmpIngest (default 0 (gc_rtmp_port c)) (gc_rtmp_app_name c) live_id
  end.

Definition http_flv_path (c : GrpcConfig) (live_id : string) : option string :=
  if gc_http_flv_enabled c then Some (playback_path live_id) else None.

Definition descriptor_to_proto (c : GrpcConfig) (d : SessionDescriptor) : StreamDescriptor :=
  mkStreamDescriptor (sd_id d) (match sd_protocol d with Rtsp => InputRtsp | _ => InputRtmp end) (sd_state d)
    (ingest_endpoints c (sd_id d) (sd_protocol d))
    (default 0 (gc_rtmp_port c), gc_rtmp_app_name c, sd_id d)
    ((fun path => (gc_http_flv_port c, path)) <$> http_flv_path c (sd_id d)).

(** ** Calls *)

Section Calls.
Context {T B : Type} `{TokenStore T} `{BroadcastChan FlvTag B}.
Context (c : GrpcConfig).

(** [await_precreate_ack]. *)
Definition precreate_status (e : session_error) : Status :=
  match e with KeyInUse _ => AlreadyExists | _ => Internal end.

Definition precreate_session (s : Servers T B) (p : Protocol) (live_id : string) (d : delivery) :
    result Status StreamDescriptor * Servers T B :=
  match d with
  | QueueRefused | NoAnswer => (Err Internal, s)
  | Handled =>
      match handle_control_message s (PrecreateStream live_id) p with
      | (Some (Ok descriptor), s) => (Ok (descriptor_to_proto c descriptor), s)
      | (Some (Err e), s) => (Err (precreate_status e), s)
      | (None, s) => (Err Internal, s)
      end
  end.

Definition start_livestream (s : Servers T B) (live_id : string) (input_protocol : Z) (d : delivery) :
    result Status StreamDescriptor * Servers T B :=
  match validate_live_id live_id with
  | Err e => (Err e, s)
  | Ok live_id =>
      if is_some (get_session (sv_world s) live_id) then (Err AlreadyExists, s)
      else match parse_input_protocol input_protocol with
           | Err e => (Err e, s)
           | Ok Unspecified => (Err InvalidArgument, s)
           | Ok InputRtmp => precreate_session s Rtmp live_id d
           | Ok InputRtsp => precreate_session s Rtsp live_id d
           end
  end.

(** [close_session] looks for the session, sends it [StopStream] and waits for
    its key to go; [present] tells, by milliseconds, whether the key is there. *)
Definition stop_livestream (s : Servers T B) (live_id : string) (d : delivery) (present : Z -> bool) :
    result Status bool * Servers T B :=
  match validate_live_id live_id with
  | Err e => (Err e, s)
  | Ok live_id =>
      match get_session (sv_world s) live_id with
      | None => (Err NotFound, s)
      | Some _ =>
          match close_session_target s live_id with
          | None => (Ok true, s)
          | Some p =>
              let s := match d with Handled => snd (handle_control_message s (StopStream live_id) p) | _ => s end in
              (Ok (wait_for_cleanup present), s)
          end
      end
  end.

Definition get_livestream_info (s : Servers T B) (live_id : string) : result Status StreamDescriptor :=
  let? live_id := validate_live_id live_id in
  match get_descriptor (sv_world s) live_id with
  | None => Err NotFound
  | Some d => Ok (descriptor_to_proto c d)
  end.

Definition list_livestreams (s : Servers T B) : list StreamDescriptor :=
  map (descriptor_to_proto c) (list_descriptors (sv_world s)).

End Calls.

(** The ports; 0 stands for a server that was not started. *)
Record ServiceInfo := mkServiceInfo { si_grpc_port : Z; si_rtmp_port : Z; si_rtsp_port : Z; si_http_flv_port : Z }.

Definition get_service_info (c : GrpcConfig) : ServiceInfo :=
  mkServiceInfo (gc_port c) (default 0 (gc_rtmp_port c)) (default 0 (gc_rtsp_port c)) (gc_http_flv_port c).

(** ** The watch stream *)

(** One look at the registry, given the state reported last: report a state, end
    the stream, or wait for an event or the poll interval. *)
Inductive watch_verdict := Report (s : SessionState) | EndWatch | KeepWaiting.

Definition watch_once (previous_state observed : option SessionState) : watch_verdict :=
  match observed with
  | Some state =>
      if negb (bool_decide (previous_state = Some state)) then Report state
      else if bool_decide (state = Disconnected) then EndWatch else KeepWaiting
  | None => if bool_decide (previous_state = Some Disconnected) then EndWatch else Report Disconnected
  end.

(** [watch_livestream] over its looks at the registry. *)
Fixpoint watch_livestream (previous_state : option SessionState) (looks : list (option SessionState)) :
    list SessionState :=
  match looks with
  | [] => []
  | observed :: looks =>
      match watch_once previous_state observed with
      | Report state =>
          state :: (if bool_decide (state = Disconnected) then [] else watch_livestream (Some state) looks)
      | EndWatch => []
      | KeepWaiting => watch_livestream previous_state looks
      end
  end.

(** ** What a watcher sees *)

Definition seen (o : option SessionState) : SessionState := default Disconnected o.

Lemma rank_inj a b : rank a = rank b -> a = b.
Proof. by destruct a, b. Qed.

Definition before (a b : SessionState) : Prop := (rank a < rank b)%nat.

Lemma watch_once_spec prev o :
  match watch_once prev o with
  | Report st => st = seen o /\ prev <> Some st
  | EndWatch => seen o = Disconnected /\ prev = Some Disconnected
  | KeepWaiting => prev = Some (seen o)
  end.
Proof.
  unfold watch_once. destruct o as [st|]; cbn; repeat (case_bool_decide; cbn); try done; by simplify_eq.
Qed.

(** The looks at one session: its state never goes back, and it does not return
    once it is gone. *)
Definition advancing (looks : list (option SessionState)) : Prop :=
  StronglySorted (fun a b => (rank (seen a) <= rank (seen b))%nat) looks.

Lemma rank_disconnected a : (rank Disconnected <= rank a)%nat -> a = Disconnected.
Proof. destruct a; cbn; lia || done. Qed.

Lemma watch_spec looks : forall prev, advancing looks ->
  match prev with Some p => Forall (fun o => (rank p <= rank (seen o))%nat) looks | None => True end ->
  StronglySorted before (watch_livestream prev looks)
  /\ forall st, st ∈ watch_livestream prev looks <-> prev <> Some st /\ st ∈ map seen looks.
Proof.
  induction looks as [|o looks IH]; intros prev Hs Hp; cbn [watch_livestream map].
  { split; [constructor|]. intros st. rewrite elem_of_nil. tauto. }
  inversion Hs as [|? ? Hs' Hall]; subst. pose proof (watch_once_spec prev o) as Ho.
  assert (forall st, st ∈ map seen looks -> (rank (seen o) <= rank st)%nat) as Hge.
  { intros st (x & -> & Hx)%list_elem_of_fmap. rewrite Forall_forall in Hall. by apply Hall. }
  destruct (watch_once prev o) as [st| |].
  - destruct Ho as [-> Hne]. case_bool_decide as Ed.
    + split; [repeat constructor|]. intros st. rewrite list_elem_of_singleton, elem_of_cons. split.
      * intros ->. split; [done|by left].
      * intros [_ [->|Hin]]; [done|]. rewrite Ed. apply rank_disconnected. rewrite <- Ed. by apply Hge.
    + destruct (IH (Some (seen o)) Hs' Hall) as [Hsort Hin]. split.
      * constructor; [done|]. rewrite Forall_forall. intros x [Hx1 Hx2]%Hin. specialize (Hge x Hx2). unfold before.
        assert (rank (seen o) <> rank x) by (intros E; apply Hx1; f_equal; by apply rank_inj). lia.
      * intros st. rewrite !elem_of_cons, Hin. split.
        -- intros [->|[Hx1 Hx2]]; [auto|]. split; [|by right]. intros ->. apply Forall_cons_1 in Hp as [Hp _].
           specialize (Hge st Hx2). apply Hx1. f_equal. apply rank_inj. lia.
        -- intros [Hx1 [->|Hx2]]; [by left|]. destruct (decide (seen o = st)) as [->|Hx]; [by left|right].
           split; [congruence|done].
  - destruct Ho as [Ho ->]. split; [constructor|]. intros st. rewrite elem_of_nil, elem_of_cons. split; [done|].
    intros [Hx1 [->|Hx2]]; apply Hx1; f_equal; [by rewrite Ho|]. symmetry. apply rank_disconnected. rewrite <- Ho.
    by apply Hge.
  - subst prev. apply Forall_cons_1 in Hp as [_ Hp]. destruct (IH (Some (seen o)) Hs' Hp) as [Hsort Hin].
    split; [done|]. intros st. rewrite Hin, elem_of_cons. split; [tauto|].
    intros [Hx1 [->|Hx2]]; [by destruct Hx1|done].
Qed.

(** A watcher sees a session's progress exactly. As long as the looks at the
    registry are at one session, the stream reports every state that was observed,
    the disappearance of the session as disconnected, each once and in the order
    of the life cycle; so it reports at most four states, ends with disconnected
    and never reports anything after it. *)
Theorem watch_reports_progress looks : advancing looks ->
  StronglySorted before (watch_livestream None looks)
  /\ (forall st, st ∈ watch_livestream None looks <-> st ∈ map seen looks)
  /\ (length (watch_livestream None looks) <= 4)%nat.
Proof.
  intros Ha. destruct (watch_spec looks None Ha I) as [Hs Hin]. split_and!; [done|naive_solver|].
  revert Hs. generalize (watch_livestream None looks). intros l Hs.
  assert (NoDup l) as Hn.
  { induction Hs as [|a l Hs IH Hall]; constructor; [|done]. rewrite Forall_forall in Hall.
    intros Hin'. specialize (Hall a Hin'). unfold before in Hall. lia. }
  assert (l ⊆ [Pending; Connecting; Connected; Disconnected]) as Hsub by (intros [] _; set_solver).
  apply (submseteq_length l [Pending; Connecting; Connected; Disconnected]). by apply NoDup_submseteq.
Qed.

(** ** Start *)

Section Start.
Context {T B : Type} `{TokenLaws T} `{BroadcastChan FlvTag B}.

(** Starting a stream succeeds exactly when the id is not empty, is not
    registered, the protocol is RTMP or RTSP and the server handled the message in
    time; the answer then describes the pending session that the registry now
    holds. Every refusal leaves the servers as they were and is an invalid
    argument only for the request's own faults, already-exists only for a
    registered id, internal otherwise. *)
Theorem grpc_start_outcome c (s : Servers T B) live_id input_protocol d :
  let '(r, s') := start_livestream c s live_id input_protocol d in
  match r with
  | Ok desc => live_id <> EmptyString /\ get_session (sv_world s) live_id = None /\ d = Handled
      /\ exists p, (input_protocol = 1 /\ p = Rtmp \/ input_protocol = 2 /\ p = Rtsp)
         /\ desc = descriptor_to_proto c (new_descriptor live_id p)
         /\ s' = snd (precreate_commit s p live_id)
  | Err e => s' = s
      /\ (e = InvalidArgument -> live_id = EmptyString \/ input_protocol <> 1 /\ input_protocol <> 2)
      /\ (e = AlreadyExists -> is_Some (get_session (sv_world s) live_id))
      /\ ~ (live_id <> EmptyString /\ get_session (sv_world s) live_id = None
            /\ (input_protocol = 1 \/ input_protocol = 2) /\ d = Handled)
  end.
Proof.
  unfold start_livestream, validate_live_id.
  case_bool_decide as Ei; [split_and!; [done|auto|done|naive_solver]|].
  destruct (get_session (sv_world s) live_id) as [l|] eqn:Eg; cbn [is_some];
    [split_and!; [done|done|eauto|naive_solver]|].
  assert (forall p, fst (precreate_commit s p live_id) = Ok (new_descriptor live_id p)) as Hok
    by (intros p; by rewrite precreate_commit_fresh).
  unfold parse_input_protocol.
  destruct (Z.eqb_spec input_protocol 0); [split_and!; [done|intros _; right; lia|done|naive_solver lia]|].
  destruct (Z.eqb_spec input_protocol 1); [|destruct (Z.eqb_spec input_protocol 2)];
    [| |split_and!; [done|intros _; by right|done|naive_solver]].
  - unfold precreate_session. destruct d; [|split_and!; naive_solver..]. cbn. unfold precreate_check. rewrite Eg.
    specialize (Hok Rtmp). destruct (precreate_commit s Rtmp live_id) as [ack s'] eqn:Ec. cbn in Hok. subst ack.
    split_and!; try done. exists Rtmp. split_and!; [by left|done|by rewrite Ec].
  - unfold precreate_session. destruct d; [|split_and!; naive_solver..]. cbn. unfold precreate_check. rewrite Eg.
    specialize (Hok Rtsp). destruct (precreate_commit s Rtsp live_id) as [ack s'] eqn:Ec. cbn in Hok. subst ack.
    split_and!; try done. exists Rtsp. split_and!; [by right|done|by rewrite Ec].
Qed.

End Start.

(** ** The views of the registry agree *)

Section Views.
Context {T B : Type} `{TokenLaws T} `{BroadcastChan FlvTag B}.

(** C17: the control plane and the health endpoints show one registry. In every
    reachable state the list holds each live id once and as many as the health
    check counts, one per session of the registry; a stream's info is the entry of the list with its id, and the
    health of a stream is the status listed for it, both missing together. *)
Theorem views_agree c (s : Servers T B) : registry_coherent (sv_world s) ->
  let l := list_livestreams c s in
  NoDup (map st_live_id l) /\ length l = handle_health (sv_world s)
  /\ handle_health (sv_world s) = size (w_sessions (sv_world s))
  /\ (forall live_id pd, live_id <> "" ->
        (get_livestream_info c s live_id = Ok pd <-> pd ∈ l /\ st_live_id pd = live_id))
  /\ (forall live_id st, handle_stream_health (sv_world s) live_id = Ok st
        <-> exists pd, pd ∈ l /\ st_live_id pd = live_id /\ st_status pd = st).
Proof.
  intros Hw l. subst l. destruct (coherent_list _ Hw) as [Hids Hin].
  assert (map st_live_id (list_livestreams c s) = map sd_id (list_descriptors (sv_world s))) as Hm.
  { unfold list_livestreams. rewrite map_map. by apply map_ext. }
  assert (forall id d, get_descriptor (sv_world s) id = Some d -> sd_id d = id) as Hid.
  { intros id d (loc & Hs & Hd)%bind_Some. apply fmap_Some in Hs as (e & He & ->).
    destruct (coherent_desc _ _ _ Hw He) as (d' & Hd' & <-). congruence. }
  split_and!.
  - rewrite Hm, Hids. apply NoDup_fst_map_to_list.
  - unfold list_livestreams. by rewrite length_map.
  - unfold handle_health. by rewrite <- (length_map sd_id), Hids, length_map, length_map_to_list.
  - intros id pd Hne. unfold get_livestream_info, validate_live_id. rewrite bool_decide_false by done. cbn [res_bind].
    unfold list_livestreams. rewrite list_elem_of_fmap. split.
    + destruct (get_descriptor _ id) as [d|] eqn:Ed; [|done]. intros [= <-]. pose proof (Hid _ _ Ed) as <-.
      split; [|done]. exists d. split; [done|]. by apply Hin.
    + intros [(d & -> & Hd%Hin) Hi]. cbn in Hi. by rewrite <- Hi, Hd.
  - intros id st. unfold handle_stream_health, list_livestreams. split.
    + destruct (get_descriptor _ id) as [d|] eqn:Ed; [|done]. intros [= <-]. pose proof (Hid _ _ Ed) as <-.
      exists (descriptor_to_proto c d). split_and!; [|done|done]. apply list_elem_of_fmap. exists d. by rewrite Hin.
    + intros (pd & Hpd & Hi & <-). apply list_elem_of_fmap in Hpd as (d & -> & Hd%Hin). cbn in Hi.
      by rewrite <- Hi, Hd.
Qed.
End Views.

Definition demo_config : GrpcConfig := mkGrpcConfig 50051 (Some 1935) "live" (Some 554) true 8080.

Lemma views_agree_witness :
  let s := set_world demo_servers demo_world in
  length (list_livestreams demo_config s) = 1%nat
  /\ exists pd, get_livestream_info demo_config s "live" = Ok pd /\ pd ∈ list_livestreams demo_config s.
Proof.
  destruct (views_agree demo_config (set_world demo_servers demo_world) demo_coherent) as (_ & Hl & _ & Hi & _).
  split; [exact Hl|]. eexists. split; [reflexivity|]. apply (Hi "live"%string); [discriminate|reflexivity].
Defined.

(** ** The advertised endpoints lead to the session *)

Lemma segment_no l : segment l -> Forall (fun c => c <> "/"%char) l.
Proof. intros [_ Hf]. eapply Forall_impl; [exact Hf|]. cbn. set_solver. Qed.

(** An id that is one path segment is what its stream key and its RTSP path are
    taken for. *)
Lemma captured_segment l : segment l -> captured_key l = Some l.
Proof.
  intros Hs. unfold captured_key. pose proof (app_re_one l [] Hs (or_introl eq_refl)) as E.
  rewrite app_nil_r in E. by rewrite E.
Qed.

Lemma stream_key_segment id app_name : segment (list_ascii_of_string id) -> extract_stream_key id app_name = id.
Proof.
  intros Hs. unfold extract_stream_key. rewrite captured_segment, trim_segment by done.
  apply string_of_list_ascii_of_string.
Qed.

Lemma play_key_segment id : segment (list_ascii_of_string id) -> play_stream_key id = id.
Proof.
  intros Hs. unfold play_stream_key. rewrite captured_segment by done. cbn. rewrite trim_segment by done.
  apply string_of_list_ascii_of_string.
Qed.

Lemma announced_live_path id : segment (list_ascii_of_string id) ->
  str_starts_with "track" (list_ascii_of_string id) = false -> announced_id ("/live/" ++ id) = Some id.
Proof.
  intros Hs Ht. unfold announced_id.
  change (list_ascii_of_string ("/live/" ++ id)) with
    ("/"%char :: list_ascii_of_string "live" ++ "/"%char :: list_ascii_of_string id).
  cbn [trim_start_matches]. rewrite decide_True by done.
  change (trim_start_matches "/" (list_ascii_of_string "live" ++ "/"%char :: list_ascii_of_string id))
    with (list_ascii_of_string "live" ++ "/"%char :: list_ascii_of_string id).
  rewrite split_char_app, split_char_segment by (repeat constructor; try done; by apply segment_no).
  assert (key_segment (list_ascii_of_string id) = true) as Hseg.
  { unfold key_segment. rewrite Ht. destruct Hs as [Hne _]. by destruct (list_ascii_of_string id). }
  cbn [List.filter]. change (key_segment (list_ascii_of_string "live")) with true. rewrite Hseg. cbn.
  by rewrite string_of_list_ascii_of_string.
Qed.

(** What a URL keeps of the text it is made of: [url_path text] is the path of the URL
    of a server and [text], as the [url] crate parses it. Text of unreserved
    characters is kept, unless it is a dot segment; what is not a URL character is
    encoded, and so never in a path. *)
Definition unreserved (c : ascii) : bool :=
  let n := nat_of_ascii c in
  ((48 <=? n) && (n <=? 57) || (65 <=? n) && (n <=? 90) || (97 <=? n) && (n <=? 122))%nat
  || bool_decide (c ∈ ["-"; "."; "_"; "~"]%char).
Definition url_char (c : ascii) : bool :=
  let n := nat_of_ascii c in ((33 <=? n) && (n <=? 126))%nat && negb (bool_decide (c ∈ list_ascii_of_string "#<>?`{}" ++ [ascii_of_nat 34])).
Definition plain_id (id : string) : Prop :=
  Forall (fun c => unreserved c = true) (list_ascii_of_string id) /\ id <> EmptyString /\ id <> "."%string /\ id <> ".."%string.

Class UrlLaws (url_path : string -> string) : Prop := {
  url_plain id : plain_id id -> url_path ("/live/" ++ id)%string = ("/live/" ++ id)%string;
  url_chars text : Forall (fun c => url_char c = true) (list_ascii_of_string (url_path text));
}.

Lemma unreserved_url c : unreserved c = true -> url_char c = true.
Proof. destruct c as [[] [] [] [] [] [] [] []]; vm_compute; done. Qed.

Lemma plain_segment id : plain_id id -> segment (list_ascii_of_string id).
Proof.
  intros (Hf & Hne & _). split.
  - intros E. apply Hne. by destruct id.
  - eapply Forall_impl; [exact Hf|]. intros c Hc. cbn.
    assert (c <> "/"%char /\ c <> "?"%char) as [? ?] by (split; intros ->; vm_compute in Hc; done). set_solver.
Qed.

(** The parts of a text have its characters. *)
Lemma split_char_chars P sep l : Forall P l -> Forall (Forall P) (split_char sep l).
Proof.
  induction 1 as [|c l Hc _ IH]; cbn; [by repeat constructor|]. destruct (decide _); [by constructor|].
  destruct (split_char sep l); inversion IH; subst; by repeat constructor.
Qed.

Lemma trim_start_chars P c l : Forall P l -> Forall P (trim_start_matches c l).
Proof. induction 1; cbn; [done|]. destruct (decide _); [done|]. by constructor. Qed.

Lemma announced_chars (P : ascii -> Prop) path id : Forall P (list_ascii_of_string path) -> announced_id path = Some id ->
  Forall P (list_ascii_of_string id).
Proof.
  unfold announced_id. intros Hp Hl. apply fmap_Some in Hl as (seg & Hl & ->). rewrite list_ascii_of_string_of_list_ascii.
  apply last_Some_elem_of, list_elem_of_In, filter_In in Hl as [Hl%list_elem_of_In _].
  exact (proj1 (Forall_forall _ _) (split_char_chars P "/" _ (trim_start_chars P "/" _ Hp)) _ Hl).
Qed.

(** C16: the endpoints handed to the client reach the session. For an id that is
    one path segment (not empty, without slash or question mark), a publisher that
    uses the advertised RTMP stream key and a player that uses the advertised RTMP
    key or HTTP-FLV path (as axum hands over what it captured of it) are taken for
    this id. An RTSP publisher that uses the advertised path is taken for it when it
    consists of unreserved characters, is no dot segment and does not start with
    [track]; but no RTSP publisher is taken for an id with a character that URLs
    encode, which the service accepts too, whatever path it uses. *)
Theorem advertised_endpoints_reach url_path `{!UrlLaws url_path} c d app_name : segment (list_ascii_of_string (sd_id d)) ->
  let proto := descriptor_to_proto c d in
  match st_ingest proto with
  | RtmpIngest _ _ key => extract_stream_key key app_name = sd_id d
  | RtspIngest _ path =>
      (plain_id (sd_id d) -> str_starts_with "track" (list_ascii_of_string (sd_id d)) = false ->
         announced_id (url_path path) = Some (sd_id d))
      /\ (Exists (fun ch => url_char ch = false) (list_ascii_of_string (sd_id d)) ->
         forall text, announced_id (url_path text) <> Some (sd_id d))
  end
  /\ play_stream_key (snd (st_playback_rtmp proto)) = sd_id d
  /\ match st_playback_http_flv proto with
     | Some (_, path) => exists rest, path = (PATH_PREFIX ++ "/" ++ rest)%string /\ parse_live_id rest = Some (sd_id d)
     | None => True
     end.
Proof.
  intros Hs. cbn zeta. unfold descriptor_to_proto. cbn [st_ingest st_playback_rtmp st_playback_http_flv snd].
  split_and!.
  - destruct (sd_protocol d); try by apply stream_key_segment. split.
    + intros Hp Ht. rewrite url_plain by done. by apply announced_live_path.
    + intros Hx text Ha. pose proof (announced_chars _ _ _ (url_chars text) Ha) as Hf.
      apply Exists_exists in Hx as (ch & Hin & Hch). rewrite (proj1 (Forall_forall _ _) Hf ch Hin) in Hch. done.
  - by apply play_key_segment.
  - unfold http_flv_path. destruct (gc_http_flv_enabled c); cbn [fmap option_fmap option_map]; [|done].
    exists (sd_id d ++ ".flv")%string. split; [done|]. apply parse_live_id_Some. split_and!; [done| |].
    + intros E. destruct Hs as [Hne _]. by rewrite E in Hne.
    + intros Hin. pose proof (segment_no _ Hs) as Hn. rewrite Forall_forall in Hn. by apply (Hn _ Hin).
Qed.

(** A parser that ends the path at a query or a fragment, and encodes what else is
    not a URL character, always as if it were a space. *)
Fixpoint encode_path (l : list ascii) : list ascii :=
  match l with
  | [] => []
  | c :: l => if bool_decide (c ∈ ["?"; "#"]%char) then []
              else if url_char c then c :: encode_path l else ["%"; "2"; "0"]%char ++ encode_path l
  end.
Definition demo_url_path (text : string) : string := string_of_list_ascii (encode_path (list_ascii_of_string text)).

#[export] Instance demo_url_laws : UrlLaws demo_url_path.
Proof.
  split.
  - intros id [Hf _]. unfold demo_url_path. rewrite <- (string_of_list_ascii_of_string ("/live/" ++ id)) at 2. f_equal.
    change (list_ascii_of_string ("/live/" ++ id)) with (list_ascii_of_string "/live/" ++ list_ascii_of_string id).
    assert (forall l, Forall (fun c => c = "/"%char \/ unreserved c = true) l -> encode_path l = l) as He.
    { induction 1 as [|ch l Hc _ IH]; [done|]. cbn [encode_path].
      rewrite bool_decide_false by (destruct Hc as [->|Hc]; [set_solver|]; intros Hin;
        repeat (apply elem_of_cons in Hin as [->|Hin]; [vm_compute in Hc; done|]); by apply elem_of_nil in Hin).
      rewrite IH. destruct Hc as [->|Hc]; [done|]. by rewrite unreserved_url. }
    apply He, Forall_app. split; [repeat (constructor; [vm_compute; auto|]); constructor|].
    eapply Forall_impl; [exact Hf|]. auto.
  - intros text. unfold demo_url_path. rewrite list_ascii_of_string_of_list_ascii.
    induction (list_ascii_of_string text) as [|c l IH]; cbn [encode_path]; [constructor|].
    destruct (bool_decide _); [constructor|]. destruct (url_char c) eqn:E; [by constructor|]. by repeat constructor.
Qed.

(** A camera that records under its path, and an id with a space. *)
Lemma advertised_endpoints_reach_witness :
  announced_id (demo_url_path "/live/cam") = Some "cam"%string
  /\ (exists rest, playback_path "cam" = (PATH_PREFIX ++ "/" ++ rest)%string /\ parse_live_id rest = Some "cam"%string)
  /\ announced_id (demo_url_path "/live/a b") <> Some "a b"%string.
Proof.
  destruct (advertised_endpoints_reach demo_url_path demo_config (new_descriptor "cam" Rtsp) "live") as ((Hi & _) & _ & Hp).
  { split; [discriminate|]. repeat (constructor; [set_solver|]). constructor. }
  destruct (advertised_endpoints_reach demo_url_path demo_config (new_descriptor "a b" Rtsp) "live") as ((_ & Hb) & _).
  { split; [discriminate|]. repeat (constructor; [set_solver|]). constructor. }
  split; [|split; [exact Hp|]].
  - apply Hi; [|reflexivity]. split; [repeat constructor|]. split_and!; discriminate.
  - apply Hb. apply Exists_cons_tl, Exists_cons_hd. reflexivity.
Defined.

(** Ids that validation accepts and the endpoints miss. *)
Lemma accepted_ids_unreachable :
  validate_live_id "a/b" = Ok "a/b"%string /\ parse_live_id "a/b.flv" = None
  /\ announced_id "/live/a/b" = Some "b"%string
  /\ extract_stream_key "a/b" "live" = "b"%string
  /\ validate_live_id "track1" = Ok "track1"%string /\ announced_id "/live/track1" = Some "live"%string.
Proof. split_and!; reflexivity. Qed.
