(* ===== verification/StressTest.v ===== *)
(** * The stress client [tools/livestream-test-utils/src]
    The client side of the program: it starts streams over gRPC, pushes and pulls
    them with ffmpeg, looks for their HLS objects and stops them, many at a time.
    What ffmpeg, the store and the gRPC channel answer are arguments; the answers
    of the control plane are those of Grpc.v where a theorem composes the two.
    Times are in milliseconds, error messages constructors. *)
From Stdlib Require Import Ascii String.
From stdpp Require Import strings pretty gmap list.
From S2P Require Import Prelude Types Flv Tokio FlvHub Session Control Config RtspWire Sdp.
From S2P Require Import RtspSession HttpFlv RtmpSession Sanitize Hls Sinks Grpc Pads HlsPath.

(** ** Connection strings ([minio.rs]) *)

Record TestMinioConfig := mkTestMinio {
  tm_endpoint : bytes;
  tm_access_key : bytes;
  tm_secret_key : bytes;
  tm_bucket : bytes;
}.

Inductive connection_string_error := MissingEndpoint | MissingAccessKey | MissingSecretKey | EmptyField.

Definition byte_string (s : string) : bytes := map (fun c => Z.of_nat (nat_of_ascii c)) (list_ascii_of_string s).

(** [str::split_once]. *)
Fixpoint split_once (sep : Z) (l : bytes) : option (bytes * bytes) :=
  match l with
  | [] => None
  | b :: l =>
      if b =? sep then Some ([], l)
      else '(k, v) ← split_once sep l; Some (b :: k, v)
  end.

(** The variables of the loop, which a later pair overwrites. *)
Record ConnectionFields := mkFields {
  cf_endpoint : option bytes;
  cf_access_key : option bytes;
  cf_secret_key : option bytes;
  cf_bucket : option bytes;
}.

Definition set_field (f : ConnectionFields) (pair : bytes) : ConnectionFields :=
  match split_once 61 pair with
  | None => f
  | Some (k, v) =>
      let key := map lower_byte (trim_bytes k) in
      let value := trim_bytes v in
      if bool_decide (key = byte_string "endpoint")
      then mkFields (Some value) (cf_access_key f) (cf_secret_key f) (cf_bucket f)
      else if bool_decide (key = byte_string "accesskey")
      then mkFields (cf_endpoint f) (Some value) (cf_secret_key f) (cf_bucket f)
      else if bool_decide (key = byte_string "secretkey")
      then mkFields (cf_endpoint f) (cf_access_key f) (Some value) (cf_bucket f)
      else if bool_decide (key = byte_string "bucket")
      then mkFields (cf_endpoint f) (cf_access_key f) (cf_secret_key f) (Some value)
      else f
  end.

Definition required {A} (e : connection_string_error) (o : option A) : result connection_string_error A :=
  match o with Some a => Ok a | None => Err e end.

Definition parse_connection_string (conn default_bucket : bytes) : result connection_string_error TestMinioConfig :=
  let f := foldl set_field (mkFields None None None None) (split_on 59 conn) in
  let? endpoint := required MissingEndpoint (cf_endpoint f) in
  let? access_key := required MissingAccessKey (cf_access_key f) in
  let? secret_key := required MissingSecretKey (cf_secret_key f) in
  if bool_decide (endpoint = []) || bool_decide (access_key = []) || bool_decide (secret_key = [])
  then Err EmptyField
  else Ok (mkTestMinio endpoint access_key secret_key
             (match cf_bucket f with Some (b :: bs) => b :: bs | _ => default_bucket end)).

(** ** Looking for the HLS objects *)

Definition HLS_PREFIX : string := "hls".
Definition HLS_VERIFY_TIMEOUT : Z := 12000.
Definition HLS_POLL_INTERVAL : Z := 500.

Record HlsVerification := mkVerification { hv_verified : bool; hv_segments : nat }.

(** The first page of a listing: its keys, a failure, or no page; and how long it took. *)
Inductive listing := Page (keys : list string) | ListFailed | NoPages.

Definition ends_with (suffix s : string) : bool := is_some (strip_suffix suffix s).

Definition hls_prefix (live_id : string) : string := HLS_PREFIX +:+ "/" +:+ live_id +:+ "/".

(** The loop, [i] listings in and [now] after its start; [look i] is the [i]-th
    listing with its duration. [None]: out of fuel. *)
Fixpoint verify_hls_loop (fuel : nat) (look : nat -> listing * Z) (live_id : string) (i : nat) (now : Z) :
    option (result unit HlsVerification) :=
  match fuel with
  | O => None
  | S fuel =>
      let now := now + snd (look i) in
      match fst (look i) with
      | ListFailed | NoPages => Some (Err tt)
      | Page keys =>
          let has_playlist := existsb (fun k => bool_decide (k = hls_prefix live_id +:+ "index.m3u8")) keys in
          let segments := countb (ends_with ".ts") keys in
          if has_playlist && (0 <? segments)%nat then Some (Ok (mkVerification true segments))
          else if HLS_VERIFY_TIMEOUT <=? now then Some (Ok (mkVerification false segments))
          else verify_hls_loop fuel look live_id (S i) (now + HLS_POLL_INTERVAL)
      end
  end.

(** [client]: whether the endpoint is a URL a client can be made for. *)
Definition verify_hls (client : bool) (look : nat -> listing * Z) (live_id : string) :
    option (result unit HlsVerification) :=
  if client then verify_hls_loop 25 look live_id 0 0 else Some (Err tt).

(** ** The client ([client.rs]) *)

Record ServicePorts := mkPorts { sp_rtmp : Z; sp_rtsp : Z; sp_http_flv : Z }.
Record PortOverrides := mkOverrides { po_rtmp : option Z; po_rtsp : option Z; po_http_flv : option Z }.
Definition PortOverrides_default : PortOverrides := mkOverrides None None None.

(** [as u16]. *)
Definition as_u16 (z : Z) : Z := z mod 65536.

Inductive client_error := InvalidEndpoint | ConnectionFailed | GetServiceInfoFailed.

(** [connect]: whether the address parses and the server accepts; [info]: its answer. *)
Definition connect_and_get_info (address_ok accepted : bool) (info : option ServiceInfo) (overrides : PortOverrides) :
    result client_error ServicePorts :=
  if negb address_ok then Err InvalidEndpoint
  else if negb accepted then Err ConnectionFailed
  else match info with
       | None => Err GetServiceInfoFailed
       | Some svc => Ok (mkPorts (default (as_u16 (si_rtmp_port svc)) (po_rtmp overrides))
                           (default (as_u16 (si_rtsp_port svc)) (po_rtsp overrides))
                           (default (as_u16 (si_http_flv_port svc)) (po_http_flv overrides)))
       end.

Inductive verify_error := GetInfoFailed | NoDescriptor | NotConnected (s : SessionState).

Definition verify_connected (info : result Status (option StreamDescriptor)) : result verify_error unit :=
  match info with
  | Err _ => Err GetInfoFailed
  | Ok None => Err NoDescriptor
  | Ok (Some desc) => if bool_decide (st_status desc = Connected) then Ok tt else Err (NotConnected (st_status desc))
  end.

(** ** Pulling ([primitives.rs]) *)

Inductive pull_error := PullSpawnFailed | PullLogUnreadable | PullRefused | NoVideoFrames (tail : list ascii).

(** The verdict on what ffmpeg wrote; its last 2000 characters are reported. *)
Definition pull_verdict (stderr : list ascii) : result pull_error unit :=
  if RtspSession.contains "frame=" stderr then Ok tt
  else if RtspSession.contains "Connection refused" stderr || RtspSession.contains "Connection reset" stderr
  then Err PullRefused
  else Err (NoVideoFrames (rev (take 2000 (rev stderr)))).

(** [log]: what could be read of the log after the pull, if ffmpeg started. *)
Definition pull_and_verify (started : bool) (log : option (list ascii)) : result pull_error unit :=
  if negb started then Err PullSpawnFailed
  else match log with None => Err PullLogUnreadable | Some stderr => pull_verdict stderr end.

(** ** The runner ([runner.rs]) *)

Inductive StressProtocol := StressRtmp | StressRtsp.

Definition input_protocol_i32 (p : StressProtocol) : Z := match p with StressRtmp => 1 | StressRtsp => 2 end.

Definition format_args (p : StressProtocol) : list string :=
  match p with
  | StressRtmp => ["-c"; "copy"; "-f"; "flv"]
  | StressRtsp => ["-c"; "copy"; "-f"; "rtsp"]
  end%string.

Definition show_port (port : Z) : string := pretty (Z.to_N port).

Definition pull_url (p : StressProtocol) (ports : ServicePorts) (live_id : string) : string :=
  match p with
  | StressRtmp => "rtmp://localhost:" +:+ show_port (sp_rtmp ports) +:+ "/lives/" +:+ live_id
  | StressRtsp => "rtsp://localhost:" +:+ show_port (sp_rtsp ports) +:+ "/" +:+ live_id
  end.

Record StreamConfig := mkStreamConfig {
  sf_live_id : string;
  sf_protocol : StressProtocol;
  sf_input_file : string;
  sf_duration : Z;
  sf_port_overrides : PortOverrides;
}.

Inductive test_error :=
| ConnectError (e : client_error)
| StartFailed (s : Status)
| NoIngestEndpoint (p : StressProtocol)
| PushSpawnFailed
| VerifyFailed (e : verify_error)
| PullFailed (p : StressProtocol) (e : pull_error)
| HlsMissing (segments : nat)
| HlsVerifyFailed
| HlsTaskPanicked
| TaskPanicked.

Record StreamResult := mkStreamResult {
  sr_live_id : string;
  sr_success : bool;
  sr_push_latency_ms : Z;
  sr_pull_frames_detected : bool;
  sr_hls_verified : bool;
  sr_hls_segments : nat;
  sr_errors : list test_error;
}.

Definition stream_error (config : StreamConfig) (latency_ms : Z) (frames : bool) (errors : list test_error) :
    StreamResult := mkStreamResult (sf_live_id config) false latency_ms frames false 0 errors.

(** The ingest endpoints of an answer: the message has a field for each protocol. *)
Definition ingest_rtmp (d : option StreamDescriptor) : option (Z * string * string) :=
  d ← d; match st_ingest d with RtmpIngest port app key => Some (port, app, key) | _ => None end.
Definition ingest_rtsp (d : option StreamDescriptor) : option (Z * string) :=
  d ← d; match st_ingest d with RtspIngest port path => Some (port, path) | _ => None end.

Definition build_push_url (start_resp : option StreamDescriptor) (ports : ServicePorts) (config : StreamConfig) :
    string * list test_error :=
  match sf_protocol config with
  | StressRtmp =>
      match ingest_rtmp start_resp with
      | Some (port, app, key) =>
          ("rtmp://localhost:" +:+ show_port (default (as_u16 port) (po_rtmp (sf_port_overrides config)))
             +:+ "/" +:+ app +:+ "/" +:+ key, [])
      | None => ("rtmp://localhost:" +:+ show_port (sp_rtmp ports) +:+ "/lives/" +:+ sf_live_id config,
                 [NoIngestEndpoint StressRtmp])
      end
  | StressRtsp =>
      match ingest_rtsp start_resp with
      | Some (port, path) =>
          ("rtsp://localhost:" +:+ show_port (default (as_u16 port) (po_rtsp (sf_port_overrides config)))
             +:+ "/" +:+ string_of_list_ascii (trim_start_matches "/" (list_ascii_of_string path)), [])
      | None => ("rtsp://localhost:" +:+ show_port (sp_rtsp ports) +:+ "/" +:+ sf_live_id config,
                 [NoIngestEndpoint StressRtsp])
      end
  end.

(** What the runner does to the world, in order. *)
Inductive action :=
| StartLivestream (live_id : string) (protocol : Z)
| SpawnPush (args : list string) (url : string)
| GetLivestreamInfo (live_id : string)
| LookForHls (live_id : string)
| Pull (url : string) (duration : Z)
| KillPush
| StopLivestream (live_id : string).

(** The answers of a run: [ra_hls] is the outcome of the HLS task ([None]: it panicked). *)
Record RunAnswers := mkAnswers {
  ra_start : result Status (option StreamDescriptor);
  ra_push : bool;
  ra_info : result Status (option StreamDescriptor);
  ra_pull : result pull_error unit;
  ra_hls : option (result unit HlsVerification);
  ra_latency : Z;
}.

Definition run_pull_verify (a : RunAnswers) (config : StreamConfig) : bool * list test_error :=
  match ra_pull a with Ok _ => (true, []) | Err e => (false, [PullFailed (sf_protocol config) e]) end.

Definition join_hls (minio : bool) (a : RunAnswers) : bool * nat * list test_error :=
  if negb minio then (false, 0%nat, [])
  else match ra_hls a with
       | Some (Ok v) => (hv_verified v, hv_segments v, if hv_verified v then [] else [HlsMissing (hv_segments v)])
       | Some (Err _) => (false, 0%nat, [HlsVerifyFailed])
       | None => (false, 0%nat, [HlsTaskPanicked])
       end.

Definition run_single_stream (a : RunAnswers) (ports : ServicePorts) (config : StreamConfig) (minio : bool) :
    StreamResult * list action :=
  let start := StartLivestream (sf_live_id config) (input_protocol_i32 (sf_protocol config)) in
  let stop := StopLivestream (sf_live_id config) in
  match ra_start a with
  | Err e => (stream_error config 0 false [StartFailed e], [start])
  | Ok start_resp =>
      let '(push_url, errors) := build_push_url start_resp ports config in
      let push := SpawnPush (format_args (sf_protocol config)) push_url in
      if negb (ra_push a)
      then (stream_error config (ra_latency a) false (errors ++ [PushSpawnFailed]), [start; push; stop])
      else
        let errors := errors ++ match verify_connected (ra_info a) with Ok _ => [] | Err e => [VerifyFailed e] end in
        let '(pull_frames, pull_errors) := run_pull_verify a config in
        let '(hls_verified, hls_segments, hls_errors) := join_hls minio a in
        let errors := errors ++ pull_errors ++ hls_errors in
        (mkStreamResult (sf_live_id config) (bool_decide (length errors = 0%nat)) (ra_latency a) pull_frames
           hls_verified hls_segments errors,
         [start; push; GetLivestreamInfo (sf_live_id config)]
         ++ (if minio then [LookForHls (sf_live_id config)] else [])
         ++ [Pull (pull_url (sf_protocol config) ports (sf_live_id config)) (sf_duration config); KillPush; stop])
  end.

(** ** Many streams *)

Record StressConfig := mkStressConfig { sg_streams : list StreamConfig; sg_parallel : nat; sg_minio : option TestMinioConfig }.

Record StressReport := mkReport {
  rp_total_streams : nat;
  rp_successful : nat;
  rp_failed : nat;
  rp_per_stream : list StreamResult;
}.

(** A task: running, or ended with its result or a panic. *)
Inductive StressTask := TaskRunning | TaskEnded (r : option StreamResult).

(** [run_stress_test] while it spawns and its tasks run: the streams to spawn,
    the free permits and the tasks, in the order of the streams. *)
Record StressRun := mkStressRun { su_next : list StreamConfig; su_free : nat; su_tasks : list StressTask }.

Definition stress_start (c : StressConfig) : StressRun := mkStressRun (sg_streams c) (sg_parallel c) [].

Inductive stress_step : StressRun -> StressRun -> Prop :=
| StressSpawn cfg next free tasks :
    stress_step (mkStressRun (cfg :: next) (S free) tasks) (mkStressRun next free (tasks ++ [TaskRunning]))
| StressEnd next free t1 t2 r :
    stress_step (mkStressRun next free (t1 ++ TaskRunning :: t2)) (mkStressRun next (S free) (t1 ++ TaskEnded r :: t2)).

Definition panicked : StreamResult := mkStreamResult "unknown" false 0 false false 0 [TaskPanicked].

(** The join loop, once every stream was spawned and every task has ended. *)
Definition joined (t : StressTask) : option StreamResult :=
  match t with TaskRunning => None | TaskEnded r => Some (default panicked r) end.

Definition stress_report (u : StressRun) : option StressReport :=
  match su_next u with
  | _ :: _ => None
  | [] =>
      per_stream ← mapM joined (su_tasks u);
      let successful := countb sr_success per_stream in
      Some (mkReport (length per_stream) successful (length per_stream - successful) per_stream)
  end.

(** A connection failure ends a task before its run. *)
Definition stress_task (connected : result client_error ServicePorts) (a : RunAnswers) (config : StreamConfig)
    (minio : bool) : StreamResult :=
  match connected with
  | Err e => stream_error config 0 false [ConnectError e]
  | Ok ports => fst (run_single_stream a ports config minio)
  end.

(** [precreate_streams]: the number of failures; [start] answers StartLivestream. *)
Definition precreate_streams (connected : bool) (start : string -> Z -> bool) (c : StressConfig) : nat :=
  if negb connected then length (sg_streams c)
  else foldl (fun failed stream =>
         if start (sf_live_id stream) (input_protocol_i32 (sf_protocol stream)) then failed else S failed)
       0%nat (sg_streams c).

(** ** The command line ([main.rs]) *)

Record Args := mkArgs {
  ar_streams : nat;
  ar_duration : Z;
  ar_parallel : option nat;
  ar_input_file : option string;
  ar_protocol : string;
  ar_port_overrides : PortOverrides;
  ar_live_id : option string;
  ar_precreate_only : bool;
  ar_minio_connection_string : option bytes;
  ar_minio_bucket : bytes;
}.

Definition stream_live_id (base : option string) (i : nat) : string :=
  match base with
  | Some b => if (i =? 0)%nat then b else b +:+ "-" +:+ pretty (N.of_nat i)
  | None => "stress-" +:+ pretty (N.of_nat i)
  end.

Inductive cli_error := UnknownProtocol (p : string) | InputFileRequired | InvalidConnectionString (e : connection_string_error)
| PrecreateFailed (failed : nat) | StressFailed (failed total : nat).

(** The configuration the arguments ask for. *)
Definition stress_config (args : Args) : result cli_error StressConfig :=
  let? protocol := (if bool_decide (ar_protocol args = "rtmp"%string) then Ok StressRtmp
                    else if bool_decide (ar_protocol args = "rtsp"%string) then Ok StressRtsp
                    else Err (UnknownProtocol (ar_protocol args))) in
  let? input_file := (match ar_input_file args with
                      | Some p => Ok p
                      | None => if ar_precreate_only args then Ok ""%string else Err InputFileRequired
                      end) in
  let? minio := (match ar_minio_connection_string args with
                 | Some conn =>
                     match parse_connection_string conn (ar_minio_bucket args) with
                     | Ok m => Ok (Some m)
                     | Err e => Err (InvalidConnectionString e)
                     end
                 | None => Ok None
                 end) in
  Ok (mkStressConfig
        (map (fun i => mkStreamConfig (stream_live_id (ar_live_id args) i) protocol input_file (ar_duration args)
                         (ar_port_overrides args)) (seq 0 (ar_streams args)))
        (default (ar_streams args) (ar_parallel args)) minio).

(** The exit of the program: [failed] is the outcome of the precreation, or the
    report of the run. *)
Definition stress_exit (args : Args) (precreate : StressConfig -> nat) (run : StressConfig -> StressReport) :
    result cli_error unit :=
  let? config := stress_config args in
  if ar_precreate_only args then
    if (precreate config =? 0)%nat then Ok tt else Err (PrecreateFailed (precreate config))
  else
    let report := run config in
    if (0 <? rp_failed report)%nat then Err (StressFailed (rp_failed report) (rp_total_streams report)) else Ok tt.

(** ** Properties *)

Lemma app_nil_inv {A} (l1 l2 : list A) : l1 ++ l2 = [] <-> l1 = [] /\ l2 = [].
Proof. split; [apply app_eq_nil|by intros [-> ->]]. Qed.

Definition is_stop (a : action) : bool := match a with StopLivestream _ => true | _ => false end.
Definition is_kill (a : action) : bool := match a with KillPush => true | _ => false end.

(** A run reports exactly what happened: it succeeds exactly when the
    stream was started with an ingest endpoint of its protocol, the push started,
    the session was connected, the pull saw frames and, with a store to look
    into, the HLS objects were found; and it cleans up on every path: a stream
    that was started is stopped exactly once, as the last action, and ffmpeg is
    killed whenever it was spawned. *)
Theorem run_single_stream_outcome a ports config minio :
  let '(r, log) := run_single_stream a ports config minio in
  (sr_success r = true <-> exists d, ra_start a = Ok d /\ snd (build_push_url d ports config) = []
     /\ ra_push a = true /\ verify_connected (ra_info a) = Ok tt /\ ra_pull a = Ok tt
     /\ (minio = true -> exists v, ra_hls a = Some (Ok v) /\ hv_verified v = true))
  /\ (sr_success r = true <-> sr_errors r = [])
  /\ countb is_stop log = Nat.b2n (is_ok (ra_start a))
  /\ (is_ok (ra_start a) = true -> last log = Some (StopLivestream (sf_live_id config)))
  /\ countb is_kill log = Nat.b2n (is_ok (ra_start a) && ra_push a).
Proof.
  unfold run_single_stream. destruct (ra_start a) as [d|e].
  2: { cbn. split_and!; try done; split; try done. by intros (? & ? & _). }
  destruct (build_push_url d ports config) as [url errors] eqn:Eu.
  destruct (ra_push a) eqn:Ep; cbn [negb].
  2: { cbn. split_and!; try done; split; try done; [by intros (? & _ & _ & ? & _)|by destruct errors]. }
  assert (match verify_connected (ra_info a) with Ok _ => [] | Err e => [VerifyFailed e] end = []
    <-> verify_connected (ra_info a) = Ok tt) as Hv by (by destruct (verify_connected _) as [[]|]).
  destruct (run_pull_verify a config) as [frames pe] eqn:Epull.
  assert (pe = [] <-> ra_pull a = Ok tt) as Hp.
  { unfold run_pull_verify in Epull. destruct (ra_pull a) as [[]|]; by injection Epull as <- <-. }
  destruct (join_hls minio a) as [[hv hn] he] eqn:Ehls.
  assert (he = [] <-> (minio = true -> exists v, ra_hls a = Some (Ok v) /\ hv_verified v = true)) as Hh.
  { unfold join_hls in Ehls. destruct minio; cbn in Ehls; [|by injection Ehls as <- <- <-].
    destruct (ra_hls a) as [[v|]|]; injection Ehls as <- <- <-.
    - destruct (hv_verified v) eqn:E; (split; [|try done]); [intros _ _; by exists v|done|].
      intros Hex. destruct (Hex eq_refl) as (v' & [= <-] & ?). congruence.
    - split; [done|]. intros Hex. by destruct (Hex eq_refl) as (? & ? & _).
    - split; [done|]. intros Hex. by destruct (Hex eq_refl) as (? & ? & _). }
  cbn [sr_success sr_errors]. set (es := ((errors ++ _) ++ _)).
  assert (bool_decide (length es = 0%nat) = true <-> es = []) as Hb.
  { by rewrite bool_decide_eq_true, length_zero_iff_nil. }
  split_and!; [|done| |by destruct minio|by destruct minio]; [|by destruct minio].
  rewrite Hb. unfold es. rewrite !app_nil_inv, Hv, Hp, Hh. split.
  - intros [[-> ?] [? ?]]. exists d. rewrite Eu. done.
  - intros (d' & [= <-] & Hd & _ & ? & ? & ?). rewrite Eu in Hd. done.
Qed.

#[local] Arguments countb : simpl never.

Definition running (u : StressRun) : nat := countb (fun t => match t with TaskRunning => true | _ => false end) (su_tasks u).

Lemma stress_step_counts u v : stress_step u v ->
  (running v + su_free v = running u + su_free u)%nat
  /\ (length (su_tasks v) + length (su_next v) = length (su_tasks u) + length (su_next u))%nat
  /\ (S (2 * length (su_next v) + running v) = 2 * length (su_next u) + running u)%nat.
Proof.
  intros []; unfold running; cbn; rewrite ?countb_app, ?countb_cons, ?length_app; cbn;
    change (countb _ []) with 0%nat; lia.
Qed.

Lemma stress_counts c k u : nsteps stress_step k (stress_start c) u ->
  (running u + su_free u = sg_parallel c)%nat
  /\ (length (su_tasks u) + length (su_next u) = length (sg_streams c))%nat
  /\ (k + 2 * length (su_next u) + running u = 2 * length (sg_streams c))%nat.
Proof.
  intros Hk. remember (stress_start c) as u0 eqn:E0.
  assert ((running u + su_free u = running u0 + su_free u0)%nat
    /\ (length (su_tasks u) + length (su_next u) = length (su_tasks u0) + length (su_next u0))%nat
    /\ (k + 2 * length (su_next u) + running u = 2 * length (su_next u0) + running u0)%nat) as (H1 & H2 & H3).
  { clear E0. induction Hk as [u|k u v w Hs _ (IH1 & IH2 & IH3)]; [split_and!; lia|].
    destruct (stress_step_counts u v Hs) as (? & ? & ?). split_and!; lia. }
  subst u0. unfold running in *. cbn in *. change (countb _ []) with 0%nat in *. split_and!; lia.
Qed.

Lemma no_running tasks : countb (fun t => match t with TaskRunning => true | _ => false end) tasks = 0%nat ->
  exists rs, mapM joined tasks = Some rs /\ length rs = length tasks.
Proof.
  induction tasks as [|[|r] tasks IH]; rewrite ?countb_cons; cbn; [by exists []|done|].
  intros (rs & -> & Hl)%IH. eexists. split; [reflexivity|]. cbn. lia.
Qed.

Lemma running_split tasks : countb (fun t => match t with TaskRunning => true | _ => false end) tasks <> 0%nat ->
  exists t1 t2, tasks = t1 ++ TaskRunning :: t2.
Proof.
  induction tasks as [|[|r] tasks IH]; rewrite ?countb_cons; cbn; [done|by exists [], tasks|].
  intros (t1 & t2 & ->)%IH. by exists (TaskEnded r :: t1), t2.
Qed.

(** The stress run is bounded and complete. In whatever order its tasks end
    or panic, no more than [parallel] streams run at once; it takes at most two
    steps per stream, and with a permit to give it only comes to rest with a
    report that counts every stream once, as successful or failed. With none
    ([parallel] is 0) it waits for ever on its first stream. *)
Theorem stress_run_bounded c k u : nsteps stress_step k (stress_start c) u ->
  (running u <= sg_parallel c)%nat /\ (k <= 2 * length (sg_streams c))%nat
  /\ ((forall v, ~ stress_step u v) -> sg_parallel c <> 0%nat ->
      exists rep, stress_report u = Some rep /\ rp_total_streams rep = length (sg_streams c)
        /\ (rp_successful rep + rp_failed rep = rp_total_streams rep)%nat
        /\ length (rp_per_stream rep) = rp_total_streams rep)
  /\ (sg_parallel c = 0%nat -> sg_streams c <> [] -> k = 0%nat /\ stress_report u = None).
Proof.
  intros Hk. destruct (stress_counts c k u Hk) as (Hfree & Hlen & Hsteps).
  split_and!; [lia|lia| |].
  - intros Hstuck Hpar. destruct u as [next free tasks]. unfold running in *. cbn in *.
    assert (countb (fun t => match t with TaskRunning => true | _ => false end) tasks = 0%nat) as Hrun.
    { destruct (decide (countb (fun t => match t with TaskRunning => true | _ => false end) tasks = 0%nat)) as [?|Hne]; [done|].
      destruct (running_split tasks Hne) as (t1 & t2 & ->). destruct (Hstuck _ (StressEnd next free t1 t2 None)). }
    destruct next as [|cfg next].
    2: { destruct free as [|free]; [lia|destruct (Hstuck _ (StressSpawn cfg next free tasks))]. }
    destruct (no_running tasks Hrun) as (rs & Hrs & Hl). unfold stress_report. cbn. rewrite Hrs. cbn.
    eexists. split; [reflexivity|]. cbn in *. split_and!; [lia| |done].
    pose proof (List.filter_length_le sr_success rs). unfold countb. lia.
  - intros Hpar Hne. unfold stress_start in Hk. rewrite Hpar in Hk.
    inversion Hk as [|k' ? v ? Hs]; subst.
    + split; [done|]. unfold stress_report. cbn. by destruct (sg_streams c).
    + inversion Hs; subst; match goal with H : _ ++ _ = [] |- _ => by destruct (app_eq_nil _ _ H) end.
Qed.

(** ** Connection strings *)

Definition graph (l : bytes) : Prop := Forall (fun b => 33 <= b <= 126) l.

(** A pair of the string, whatever the case of its key. *)
Definition pair_text (k v : bytes) : bytes := k ++ 61 :: v.

Lemma split_once_pair k v : Forall (fun b => b <> 61) k -> split_once 61 (pair_text k v) = Some (k, v).
Proof.
  unfold pair_text. induction 1 as [|b k Hb Hk IH]; [done|]. cbn in *.
  destruct (Z.eqb_spec b 61); [done|]. by rewrite IH.
Qed.

Lemma split_on_one sep l : Forall (fun b => b <> sep) l -> split_on sep l = [l].
Proof. induction 1 as [|b l Hb Hl IH]; [done|]. cbn. destruct (Z.eqb_spec b sep); [done|]. by rewrite IH. Qed.

Lemma split_on_app sep a b : Forall (fun b => b <> sep) a -> split_on sep (a ++ sep :: b) = a :: split_on sep b.
Proof.
  induction 1 as [|c a Hc Ha IH]; cbn; [by rewrite Z.eqb_refl|]. destruct (Z.eqb_spec c sep); [done|]. by rewrite IH.
Qed.

(** A value that survives: printable, without a semicolon. *)
Definition plain (v : bytes) : Prop := graph v /\ Forall (fun b => b <> 59) v.

(** A key written in any case. *)
Definition spells (k : bytes) (name : string) : Prop := map lower_byte k = byte_string name.

Lemma spelled_letters k name : spells k name -> Forall (fun b => 97 <= b <= 122) (byte_string name) ->
  plain k /\ Forall (fun b => b <> 61) k.
Proof.
  unfold spells. intros <- Hall%List.Forall_map. unfold plain, graph.
  split_and!; (eapply Forall_impl; [exact Hall|]); cbn; intros b; unfold lower_byte;
    destruct (Z.leb_spec 65 b), (Z.leb_spec b 90); cbn; lia.
Qed.

Lemma set_field_pair f k v name : spells k name -> Forall (fun b => 97 <= b <= 122) (byte_string name) -> plain v ->
  set_field f (pair_text k v)
  = if bool_decide (byte_string name = byte_string "endpoint")
    then mkFields (Some v) (cf_access_key f) (cf_secret_key f) (cf_bucket f)
    else if bool_decide (byte_string name = byte_string "accesskey")
    then mkFields (cf_endpoint f) (Some v) (cf_secret_key f) (cf_bucket f)
    else if bool_decide (byte_string name = byte_string "secretkey")
    then mkFields (cf_endpoint f) (cf_access_key f) (Some v) (cf_bucket f)
    else if bool_decide (byte_string name = byte_string "bucket")
    then mkFields (cf_endpoint f) (cf_access_key f) (cf_secret_key f) (Some v)
    else f.
Proof.
  intros Hk Hn [Hv _]. destruct (spelled_letters k name Hk Hn) as [[Hg _] Heq].
  unfold set_field. rewrite split_once_pair by done. rewrite !trim_graph by done. by rewrite Hk.
Qed.

Lemma pair_no_semicolon k v : plain k -> plain v -> Forall (fun b => b <> 59) (pair_text k v).
Proof. intros [_ Hk] [_ Hv]. apply Forall_app. split; [done|]. by constructor. Qed.

(** A connection string is read back as what it was written from: with the
    keys in any case, and values that are printable and without semicolon (an
    equals sign is allowed), parsing gives exactly the fields, an empty bucket
    standing for the default; and a string that lacks one of the three required
    keys, or has one of them empty, is an error that says so. *)
Theorem connection_string_roundtrip k1 k2 k3 k4 e a s b default_bucket :
  spells k1 "endpoint" -> spells k2 "accesskey" -> spells k3 "secretkey" -> spells k4 "bucket" ->
  plain e -> plain a -> plain s -> plain b ->
  let pairs := [pair_text k1 e; pair_text k2 a; pair_text k3 s; pair_text k4 b] in
  let conn l := foldr (fun p rest => p ++ 59 :: rest) [] l in
  parse_connection_string (conn pairs) default_bucket
    = (if bool_decide (e = []) || bool_decide (a = []) || bool_decide (s = []) then Err EmptyField
       else Ok (mkTestMinio e a s (if bool_decide (b = []) then default_bucket else b)))
  /\ parse_connection_string (conn (tail pairs)) default_bucket = Err MissingEndpoint
  /\ parse_connection_string (conn [pair_text k1 e; pair_text k3 s; pair_text k4 b]) default_bucket = Err MissingAccessKey
  /\ parse_connection_string (conn [pair_text k1 e; pair_text k2 a; pair_text k4 b]) default_bucket = Err MissingSecretKey.
Proof.
  intros H1 H2 H3 H4 He Ha Hs Hb pairs conn.
  assert (Forall (fun b => 97 <= b <= 122) (byte_string "endpoint") /\ Forall (fun b => 97 <= b <= 122) (byte_string "accesskey")
    /\ Forall (fun b => 97 <= b <= 122) (byte_string "secretkey") /\ Forall (fun b => 97 <= b <= 122) (byte_string "bucket"))
    as (N1 & N2 & N3 & N4) by (split_and!; repeat constructor; vm_compute; done).
  assert (forall f, set_field f (pair_text k1 e) = mkFields (Some e) (cf_access_key f) (cf_secret_key f) (cf_bucket f)) as E1
    by (intros f; by rewrite (set_field_pair f k1 e _ H1 N1 He)).
  assert (forall f, set_field f (pair_text k2 a) = mkFields (cf_endpoint f) (Some a) (cf_secret_key f) (cf_bucket f)) as E2
    by (intros f; by rewrite (set_field_pair f k2 a _ H2 N2 Ha)).
  assert (forall f, set_field f (pair_text k3 s) = mkFields (cf_endpoint f) (cf_access_key f) (Some s) (cf_bucket f)) as E3
    by (intros f; by rewrite (set_field_pair f k3 s _ H3 N3 Hs)).
  assert (forall f, set_field f (pair_text k4 b) = mkFields (cf_endpoint f) (cf_access_key f) (cf_secret_key f) (Some b)) as E4
    by (intros f; by rewrite (set_field_pair f k4 b _ H4 N4 Hb)).
  assert (forall f, set_field f [] = f) as E0 by done.
  assert (forall l, Forall (Forall (fun b => b <> 59)) l -> split_on 59 (conn l) = l ++ [[]]) as Hsplit.
  { induction 1 as [|p l Hp _ IH]; [done|]. unfold conn in *. cbn [foldr]. by rewrite split_on_app, IH. }
  destruct (spelled_letters k1 _ H1 N1) as [G1 _], (spelled_letters k2 _ H2 N2) as [G2 _],
    (spelled_letters k3 _ H3 N3) as [G3 _], (spelled_letters k4 _ H4 N4) as [G4 _].
  pose proof (pair_no_semicolon k1 e G1 He) as S1. pose proof (pair_no_semicolon k2 a G2 Ha) as S2.
  pose proof (pair_no_semicolon k3 s G3 Hs) as S3. pose proof (pair_no_semicolon k4 b G4 Hb) as S4.
  clearbody conn. unfold parse_connection_string, pairs. cbn [tail].
  split_and!; rewrite Hsplit by (by repeat constructor); cbn [foldl app]; rewrite ?E1, ?E2, ?E3, ?E4, E0; cbn; try done.
  destruct (_ || _); [done|]. f_equal. f_equal. by destruct b.
Qed.

Lemma connection_string_roundtrip_witness :
  parse_connection_string (byte_string "Endpoint=http://h:9000;AccessKey=a=1;SECRETKEY=s;bucket=;") (byte_string "videos")
  = Ok (mkTestMinio (byte_string "http://h:9000") (byte_string "a=1") (byte_string "s") (byte_string "videos")).
Proof.
  destruct (connection_string_roundtrip (byte_string "Endpoint") (byte_string "AccessKey") (byte_string "SECRETKEY")
    (byte_string "bucket") (byte_string "http://h:9000") (byte_string "a=1") (byte_string "s") [] (byte_string "videos"))
    as (Hp & _); [vm_compute; reflexivity..| | | | |exact Hp];
    (split; [|]; repeat constructor; vm_compute; done).
Defined.

(** ** Stream ids *)

Lemma append_length s t : String.length (s +:+ t) = (String.length s + String.length t)%nat.
Proof.
  induction s as [|c s IH]; [done|]. transitivity (S (String.length (s +:+ t))); [done|]. by rewrite IH.
Qed.

(** The streams of a run have different ids, so none finds its id in use by another. *)
Theorem stream_ids_distinct base n : NoDup (map (stream_live_id base) (seq 0 n)).
Proof.
  assert (forall p i j : nat, pretty (N.of_nat i) = pretty (N.of_nat j) -> i = j) as Hpretty.
  { intros _ i j E. apply (inj pretty) in E. lia. }
  assert (forall s (t : string), s = s +:+ "-" +:+ t -> False) as Hlong.
  { intros s t E. apply (f_equal String.length) in E. rewrite !append_length in E. cbn in E. lia. }
  apply NoDup_fmap_2_strong; [|apply NoDup_seq]. intros i j _ _. unfold stream_live_id. destruct base as [b|].
  - destruct (Nat.eqb_spec i 0), (Nat.eqb_spec j 0); subst; intros E; [done|by apply Hlong in E|by symmetry in E; apply Hlong in E|].
    apply (inj (String.append b)), (inj (String.append "-")) in E. by apply (Hpretty 0%nat).
  - intros E. apply (inj (String.append "stress-")) in E. by apply (Hpretty 0%nat).
Qed.

(** ** The client and the server *)

Section Served.
Context {T B : Type} `{TokenStore T} `{BroadcastChan FlvTag B}.

(** What the client pushes to is what the server handed out. When
    StartLivestream answers, for an id that is one path segment and does not start
    with [track], the push URL is built without error and names the configured
    application and the id as stream key (RTMP), or a path announced for the id
    (RTSP); the server takes a publisher there for exactly this session, which is
    pending and waits for it. Where the client pulls is not handed out: over RTMP
    it connects to the application [lives], accepted only when that is the
    configured one, and over RTSP the server refuses every method of playback. *)
Theorem push_url_reaches_session c (s s' : Servers T B) ports config d :
  let live_id := sf_live_id config in
  let p := match sf_protocol config with StressRtmp => Rtmp | StressRtsp => Rtsp end in
  segment (list_ascii_of_string live_id) -> str_starts_with "track" (list_ascii_of_string live_id) = false ->
  pending_of s p !! live_id = None ->
  start_livestream c s live_id (input_protocol_i32 (sf_protocol config)) Handled = (Ok d, s') ->
  let '(url, errors) := build_push_url (Some d) ports config in
  errors = []
  /\ match sf_protocol config with
     | StressRtmp =>
         (exists port, url = "rtmp://localhost:" +:+ port +:+ "/" +:+ gc_rtmp_app_name c +:+ "/" +:+ live_id)
         /\ extract_stream_key live_id (gc_rtmp_app_name c) = live_id
         /\ (is_ok (fst (handle_connection_requested (fun _ => true) (SessionGuard_new (gc_rtmp_app_name c)) 1 "lives"))
             = true <-> gc_rtmp_app_name c = "lives"%string)
     | StressRtsp =>
         (exists port, url = "rtsp://localhost:" +:+ port +:+ "/live/" +:+ live_id)
         /\ announced_id ("/live/" +:+ live_id) = Some live_id
         /\ forall base64 session cseq path body,
              answer base64 session (mkRequest OtherMethod cseq path body)
              = Some (error_response MethodNotAllowed (default 0 cseq), session)
     end
  /\ get_state (sv_world s') live_id = Some Pending
  /\ is_Some (pending_of s' p !! live_id).
Proof.
  intros live_id p Hseg Htrack Hpend Hstart.
  pose proof (grpc_start_outcome c s live_id (input_protocol_i32 (sf_protocol config)) Handled) as Ho.
  rewrite Hstart in Ho. destruct Ho as (_ & Hg & _ & p' & Hp & -> & ->).
  assert (p' = p) as -> by (unfold p; destruct (sf_protocol config); cbn in Hp; lia || naive_solver lia).
  destruct (precreated s p live_id Hg Hpend) as (-> & _ & ->).
  assert (get_state (registered_world s p live_id) live_id = Some Pending
    /\ is_Some (<[live_id := length (w_lifecycles (sv_world s))]> (pending_of s p) !! live_id)) as Hend.
  { split; [|by rewrite lookup_insert_eq]. unfold get_state. by rewrite registered_descriptor. }
  unfold build_push_url, p in *. destruct (sf_protocol config); cbn [ingest_rtmp ingest_rtsp mbind option_bind
    st_ingest descriptor_to_proto ingest_endpoints new_descriptor sd_protocol sd_id snd].
  - split; [done|]. split; [|exact Hend]. split_and!.
    + by eexists.
    + by apply stream_key_segment.
    + unfold handle_connection_requested, on_connect_requested, SessionGuard_new. cbn [sg_appname].
      destruct (decide (gc_rtmp_app_name c = "lives"%string)) as [->|Hn]; [done|].
      rewrite (bool_decide_false (_ = Some _)) by (intros E; apply Hn;
        assert (Some "lives"%string = Some (gc_rtmp_app_name c)) by exact E; congruence).
      rewrite bool_decide_false by done. split; [done|]. by intros ?.
  - split; [done|]. split; [|exact Hend]. split_and!.
    + eexists. change (trim_start_matches "/" (list_ascii_of_string ("/live/" ++ live_id)))
        with (list_ascii_of_string ("live/" +:+ live_id)). by rewrite string_of_list_ascii_of_string.
    + by apply announced_live_path.
    + done.
Qed.
End Served.
