(* ===== verification/HlsVerify.v ===== *)
(** * The stress client against the HLS branch
    [verify_hls] of [tools/livestream-test-utils/src/minio.rs] reads, from outside,
    what the MinIO sink of the pipeline leaves in the object store: when it
    answers, and what its answer says of the session's segments. *)
From Stdlib Require Import Ascii String.
From stdpp Require Import strings pretty gmap list.
From S2P Require Import Prelude Types Sanitize Config HttpFlv Hls Sinks Pads HlsPath StressTest.

#[local] Arguments countb : simpl never.

(** ** When the loop stops *)

Definition complete (live_id : string) (keys : list string) : bool :=
  existsb (fun k => bool_decide (k = hls_prefix live_id +:+ "index.m3u8")) keys
  && (0 <? countb (ends_with ".ts") keys)%nat.

(** The time at which the [i]-th listing is answered. *)
Fixpoint answered (look : nat -> listing * Z) (i : nat) : Z :=
  match i with O => 0 | S i => answered look i + HLS_POLL_INTERVAL end + snd (look i).

(** What one listing decides, if anything. *)
Definition verdict (live_id : string) (look : nat -> listing * Z) (i : nat) : option (result unit HlsVerification) :=
  match fst (look i) with
  | ListFailed | NoPages => Some (Err tt)
  | Page keys =>
      if complete live_id keys then Some (Ok (mkVerification true (countb (ends_with ".ts") keys)))
      else if HLS_VERIFY_TIMEOUT <=? answered look i
      then Some (Ok (mkVerification false (countb (ends_with ".ts") keys)))
      else None
  end.

Section Verify.
Context (live_id : string) (look : nat -> listing * Z).

Lemma verify_loop_step fuel i now : now + snd (look i) = answered look i ->
  verify_hls_loop (S fuel) look live_id i now
  = match verdict live_id look i with
    | Some r => Some r
    | None => verify_hls_loop fuel look live_id (S i) (answered look i + HLS_POLL_INTERVAL)
    end.
Proof.
  intros Hnow. cbn [verify_hls_loop]. unfold verdict, complete. rewrite Hnow.
  destruct (fst (look i)); [|done..]. destruct (_ && _); [done|]. by destruct (_ <=? _).
Qed.

Hypothesis durations : forall i, 0 <= snd (look i).

Lemma answered_later i : HLS_POLL_INTERVAL * Z.of_nat i <= answered look i.
Proof.
  unfold HLS_POLL_INTERVAL. induction i as [|i IH]; cbn [answered]; [pose proof (durations 0)|pose proof (durations (S i))];
    unfold HLS_POLL_INTERVAL; lia.
Qed.

Lemma verify_loop_first fuel : forall i now, now + snd (look i) = answered look i -> (25 <= fuel + i)%nat ->
  (i <= 24)%nat ->
  exists j r, (i <= j <= 24)%nat /\ verdict live_id look j = Some r
  /\ (forall k, (i <= k < j)%nat -> verdict live_id look k = None)
  /\ verify_hls_loop fuel look live_id i now = Some r.
Proof.
  induction fuel as [|fuel IH]; intros i now Hnow Hf Hi; [lia|]. rewrite verify_loop_step by done.
  destruct (verdict live_id look i) as [r|] eqn:Ev.
  { exists i, r. split_and!; try done; try lia. }
  destruct (decide (i = 24%nat)) as [->|Hne].
  { pose proof (answered_later 24) as Hl. unfold verdict, HLS_VERIFY_TIMEOUT in Ev. unfold HLS_POLL_INTERVAL in Hl.
    destruct (fst (look 24%nat)); try done. destruct (complete _ _); [done|].
    destruct (Z.leb_spec 12000 (answered look 24)); [done|lia]. }
  destruct (IH (S i) (answered look i + HLS_POLL_INTERVAL)) as (j & r & Hj & Hv & Hk & ->); [done|lia..|].
  exists j, r. split_and!; try done; try lia. intros k Hlk. destruct (decide (k = i)) as [->|]; [done|apply Hk; lia].
Qed.

(** The loop always ends, within 25 listings, with what the first decisive one says. *)
Lemma verify_hls_first :
  exists j r, (j <= 24)%nat /\ verdict live_id look j = Some r
  /\ (forall k, (k < j)%nat -> verdict live_id look k = None) /\ verify_hls true look live_id = Some r.
Proof.
  destruct (verify_loop_first 25 0 0) as (j & r & [_ Hj] & Hv & Hk & Hr); [done|lia|lia|].
  exists j, r. split_and!; try done. intros k Hlt. apply Hk. lia.
Qed.
End Verify.

(** ** What the store holds *)

Lemma ends_with_app suffix s : ends_with suffix (s +:+ suffix) = true.
Proof. unfold ends_with. by rewrite (proj2 (strip_suffix_Some suffix (s +:+ suffix) s)). Qed.

Lemma segment_key_ends cfg live_id seg ws : well_named ws seg -> ends_with ".ts" (segment_key cfg live_id seg) = true.
Proof.
  intros (_ & Hf & _). unfold segment_key, object_key. rewrite Hf. unfold segment_filename.
  rewrite !string_app_assoc. apply ends_with_app.
Qed.

Lemma playlist_key_ends p : ends_with ".ts" (p +:+ "index.m3u8") = false.
Proof.
  unfold ends_with. destruct (strip_suffix ".ts" (p +:+ "index.m3u8")) as [id|] eqn:E; [|done].
  apply strip_suffix_Some in E. apply (f_equal (fun s => last (list_ascii_of_string s))) in E.
  rewrite !list_ascii_app, !last_app in E. done.
Qed.

(** A key under the client's prefix names the client's id. *)
Lemma prefix_is_sanitized cfg live_id f : sc_minio_prefix cfg = HLS_PREFIX -> no_slash f ->
  hls_prefix live_id +:+ "index.m3u8" = object_key cfg live_id f -> sanitize_stream_id live_id = live_id.
Proof.
  intros Hp Hf E.
  assert (hls_prefix live_id +:+ "index.m3u8" = path_join (HLS_PREFIX +:+ "/" +:+ live_id) "index.m3u8") as E1
    by (unfold hls_prefix, path_join; by rewrite !string_app_assoc).
  assert (object_key cfg live_id f = path_join (HLS_PREFIX +:+ "/" +:+ sanitize_stream_id live_id) f) as E2
    by (unfold object_key, path_join; by rewrite Hp, !string_app_assoc).
  rewrite E1, E2 in E. apply (f_equal parent) in E. rewrite !parent_join in E by (done || by repeat constructor).
  by apply (inj (String.append HLS_PREFIX)), (inj (String.append "/")) in E.
Qed.

(** The listing of a store under the client's prefix. *)
Definition listed (live_id : string) (store : Files) : list string :=
  List.filter (String.prefix (hls_prefix live_id)) (map fst (map_to_list store)).

Lemma elem_of_listed live_id store key :
  key ∈ listed live_id store <-> String.prefix (hls_prefix live_id) key = true /\ is_Some (store !! key).
Proof.
  unfold listed. rewrite !list_elem_of_In, filter_In, in_map_iff. split.
  - intros [([k d] & <- & Hin) Hp]. split; [done|]. apply list_elem_of_In, elem_of_map_to_list in Hin. by exists d.
  - intros [Hp [d Hd]]. split; [|done]. exists (key, d). split; [done|]. by apply list_elem_of_In, elem_of_map_to_list.
Qed.

Lemma countb_pos {A} (f : A -> bool) l : (0 < countb f l)%nat <-> exists x, x ∈ l /\ f x = true.
Proof.
  unfold countb. split.
  - destruct (List.filter f l) as [|x t] eqn:E; cbn; [lia|]. intros _. exists x.
    apply and_comm. rewrite list_elem_of_In. apply and_comm, filter_In. rewrite E. by left.
  - intros (x & Hx & Hf). assert (In x (List.filter f l)) as Hin by (apply filter_In; by rewrite <- list_elem_of_In).
    destruct (List.filter f l); [done|]. cbn. lia.
Qed.

(** The segments of a run that the store has. *)
Definition has_segment cfg live_id (b : Branch) : Prop :=
  exists p, p ∈ br_produced b /\ br_store b !! segment_key cfg live_id (fst p) = Some (TsData (snd p)).

Section Stored.
Context (cfg : SegmentConfig) (live_id : string) (ws : SegmentWorkspace) (disk : Files).
Hypothesis prefix : sc_minio_prefix cfg = HLS_PREFIX.

Lemma key_listed f : sanitize_stream_id live_id = live_id ->
  String.prefix (hls_prefix live_id) (object_key cfg live_id f) = true.
Proof.
  intros Hs. unfold object_key, hls_prefix. rewrite prefix, Hs, !string_app_assoc. apply prefix_append.
Qed.

Lemma listed_key b key : branch_ok cfg live_id ws disk ∅ b -> is_Some (br_store b !! key) ->
  key = playlist_key cfg live_id
  \/ exists p, p ∈ br_produced b /\ key = segment_key cfg live_id (fst p)
     /\ br_store b !! key = Some (TsData (snd p)) /\ well_named ws (fst p).
Proof.
  intros Hb [d Hd]. destruct (decide (key = playlist_key cfg live_id)) as [?|Hk]; [by left|]. right.
  destruct (ok_store _ _ _ _ _ b Hb key Hk) as [E|(p & Hp & E & Hs & _)].
  - rewrite E, lookup_empty in Hd. done.
  - exists p. split_and!; try done. apply (ok_named _ _ _ _ _ b Hb p Hp).
Qed.

Lemma complete_stored b : branch_ok cfg live_id ws disk ∅ b ->
  complete live_id (listed live_id (br_store b)) = true
  <-> sanitize_stream_id live_id = live_id /\ is_Some (br_store b !! playlist_key cfg live_id) /\ has_segment cfg live_id b.
Proof.
  intros Hb. unfold complete. rewrite andb_true_iff, Nat.ltb_lt, countb_pos, existsb_exists. split.
  - intros [(k & Hk & ->%bool_decide_eq_true) (s & Hs & Hts)].
    apply list_elem_of_In, elem_of_listed in Hk as [_ Hk]. apply elem_of_listed in Hs as [_ Hs].
    assert (hls_prefix live_id +:+ "index.m3u8" = playlist_key cfg live_id) as E.
    { destruct (listed_key b _ Hb Hk) as [?|(p & _ & E & _ & Hw)]; [done|].
      exfalso. apply (f_equal (ends_with ".ts")) in E. rewrite (segment_key_ends _ _ _ ws) in E by done.
      by rewrite playlist_key_ends in E. }
    split_and!.
    + by apply (prefix_is_sanitized cfg live_id "index.m3u8"); [|repeat constructor|].
    + by rewrite <- E.
    + destruct (listed_key b s Hb Hs) as [->|(p & Hp & -> & Hst & _)]; [|by exists p].
      unfold playlist_key, object_key in Hts. rewrite !string_app_assoc, playlist_key_ends in Hts. done.
  - intros (Hs & Hpl & (p & Hp & Hst)). split.
    + exists (playlist_key cfg live_id). split.
      * apply list_elem_of_In, elem_of_listed. split; [by apply key_listed|done].
      * apply bool_decide_eq_true. unfold playlist_key, object_key, hls_prefix. by rewrite prefix, Hs, !string_app_assoc.
    + exists (segment_key cfg live_id (fst p)). split.
      * apply elem_of_listed. split; [by apply key_listed|by rewrite Hst].
      * apply (segment_key_ends _ _ _ ws), (ok_named _ _ _ _ _ b Hb p Hp).
Qed.
End Stored.

(** ** The client and the branch *)

(** The client's HLS check tells what the pipeline stored. Run beside the HLS
    branch of a session, in an empty store whose listings fit one page, it always
    answers, within 25 listings however long they take, and never with an error;
    for an id the server keeps as it is, it answers [verified] exactly when some
    listing answered before the twelve seconds were over found the playlist and a
    segment with exactly the frames the segmenter produced. For an id that the
    server rewrites in its object keys it never does, whatever was uploaded. *)
Theorem hls_verification_tells cfg live_id codecs ws disk (evs : nat -> list BranchEvent) (d : nat -> Z) :
  sc_minio_prefix cfg = HLS_PREFIX -> (forall i, 0 <= d i) ->
  let b i := branch_run cfg live_id (try_build_hls cfg codecs ws disk ∅) (evs i) in
  let look i := (Page (listed live_id (br_store (b i))), d i) in
  exists v, verify_hls true look live_id = Some (Ok v)
  /\ (sanitize_stream_id live_id = live_id ->
      hv_verified v = true <-> exists i, (forall k, (k < i)%nat -> answered look k < HLS_VERIFY_TIMEOUT)
        /\ is_Some (br_store (b i) !! playlist_key cfg live_id) /\ has_segment cfg live_id (b i))
  /\ (sanitize_stream_id live_id <> live_id -> hv_verified v = false)
  /\ (hv_verified v = true -> (0 < hv_segments v)%nat).
Proof.
  intros Hpre Hd b look.
  assert (forall i, branch_ok cfg live_id ws disk ∅ (b i)) as Hok by (intros i; apply branch_run_ok, try_build_hls_ok).
  pose proof (fun i => complete_stored cfg live_id ws disk Hpre (b i) (Hok i)) as Hc.
  destruct (verify_hls_first live_id look Hd) as (j & r & Hj & Hv & Hk & ->).
  assert (forall k, verdict live_id look k
    = if complete live_id (listed live_id (br_store (b k)))
      then Some (Ok (mkVerification true (countb (ends_with ".ts") (listed live_id (br_store (b k))))))
      else if HLS_VERIFY_TIMEOUT <=? answered look k
      then Some (Ok (mkVerification false (countb (ends_with ".ts") (listed live_id (br_store (b k)))))) else None) as Hvk
    by done.
  assert (forall k, (k < j)%nat -> answered look k < HLS_VERIFY_TIMEOUT
    /\ complete live_id (listed live_id (br_store (b k))) = false) as Hbefore.
  { intros k Hlt. specialize (Hk k Hlt). rewrite Hvk in Hk. destruct (complete _ _); [done|].
    split; [|done]. destruct (Z.leb_spec HLS_VERIFY_TIMEOUT (answered look k)); [done|lia]. }
  rewrite Hvk in Hv. destruct (complete live_id (listed live_id (br_store (b j)))) eqn:Ec.
  - injection Hv as <-. eexists. split; [reflexivity|]. cbn [hv_verified hv_segments].
    pose proof (proj1 (Hc j) Ec) as (Hs & Hpl & Hseg). split_and!.
    + intros _. split; [intros _|done]. exists j. split_and!; try done. intros k Hlt. by apply Hbefore.
    + done.
    + intros _. unfold complete in Ec. apply andb_true_iff in Ec as [_ Ec]. by apply Nat.ltb_lt.
  - destruct (Z.leb_spec HLS_VERIFY_TIMEOUT (answered look j)) as [Ht|]; [|done].
    injection Hv as <-. eexists. split; [reflexivity|]. cbn [hv_verified hv_segments]. split_and!; try done.
    intros Hs. split; [done|]. intros (i & Hi & Hpl & Hseg).
    assert (complete live_id (listed live_id (br_store (b i))) = true) as Ei by (by apply Hc).
    destruct (Nat.lt_trichotomy i j) as [Hlt|[->|Hlt]].
    + destruct (Hbefore i Hlt). congruence.
    + congruence.
    + specialize (Hi j Hlt). lia.
Qed.

(** Uploads under a rewritten id stay invisible to the client. *)
Example rewritten_id_never_verified :
  let b := branch_run example_cfg "a.b" (try_build_hls example_cfg [H264] (workspace_new "a.b" "/c" "r") ∅ ∅)
             (map example_key [0; 2000] ++ upload_one true) in
  map ts_filename (br_uploaded b) = ["segment_0000.ts"%string]
  /\ listed "a.b" (br_store b) = [] /\ sanitize_stream_id "a.b" = "a_b"%string.
Proof. vm_compute. done. Qed.
