(* ===== verification/StreamLife.v ===== *)
(** * The life of a stream
    What the components do together, from [StartLivestream] ([Grpc]) over the
    publisher's connection ([RtmpSession], [RtspSession]) to the removal of its
    session ([Session]): the ingest servers keep the registry coherent, and a stream
    that was created, published and closed leaves the id
    free for the next one. The whole of an RTSP connection is put together here. *)
From Stdlib Require Import Ascii String.
From stdpp Require Import strings gmap list.
From S2P Require Import Prelude Types Rtp Flv Tokio FlvHub Session Control.
From S2P Require Import RtmpSource HttpFlv FlvPath RtspWire Sdp RtspSession RtmpSession Grpc.

(** ** The servers and the registry *)

Section Refinement.
Context {T B : Type} `{TokenLaws T} `{BroadcastChan FlvTag B}.
Implicit Types (s : Servers T B).

(** Everything the servers did to the registry was a sequence of its steps. *)
Definition steps s s' : Prop := rtc session_step (sv_world s) (sv_world s').

#[export] Instance steps_preorder : PreOrder steps.
Proof. unfold steps. split; [by intros s|]. intros s1 s2 s3. by apply transitivity. Qed.

Lemma steps_coherent s s' : steps s s' -> registry_coherent (sv_world s) -> registry_coherent (sv_world s').
Proof.
  intros Hs. induction Hs as [|w1 w2 w3 Hstep _ IH]; [done|]. intros Hc. apply IH. by eapply session_step_coherent.
Qed.

Lemma steps_same s s' : sv_world s' = sv_world s -> steps s s'.
Proof. unfold steps. by intros ->. Qed.

Lemma disconnect_steps s l : steps s (lifecycle_disconnect s l).
Proof.
  unfold lifecycle_disconnect. destruct (w_lifecycles (sv_world s) !! l) as [h|] eqn:E; [|done].
  by apply rtc_once, ss_disconnect.
Qed.

Lemma connecting_steps s l : steps s (lifecycle_connecting s l).
Proof.
  unfold lifecycle_connecting. destruct (w_lifecycles (sv_world s) !! l) as [h|] eqn:E; [|done].
  by eapply rtc_once, ss_connecting.
Qed.

Lemma drop_steps s l : steps s (drop_lifecycle s l).
Proof.
  unfold drop_lifecycle. destruct (w_lifecycles (sv_world s) !! l) as [h|] eqn:E; [|done].
  by apply rtc_once, ss_drop.
Qed.

Lemma cancel_steps s t : steps s (with_servers s (fun w => cancel_token w t)).
Proof. apply rtc_once, ss_cancel. Qed.

Lemma set_pending_steps s p m : steps s (set_pending s p m).
Proof. apply steps_same, set_pending_same. Qed.

Lemma insert_pending_steps s p id l : steps s (insert_pending s p id l).
Proof.
  unfold insert_pending. destruct (pending_of s p !! id) as [l0|]; [|apply set_pending_steps].
  etransitivity; [apply set_pending_steps|apply drop_steps].
Qed.

Lemma precreate_steps s p id : steps s (snd (precreate_commit s p id)).
Proof.
  unfold precreate_commit. cbn [set_hub sv_world sv_cancel_token].
  destruct (tk_child (w_tokens (sv_world s)) (sv_cancel_token s)) as [ct tokens] eqn:Et.
  destruct (lifecycle_new _ id p) as [l w] eqn:El. pose proof (f_equal snd El) as Hw. cbn [snd] in Hw.
  assert (rtc session_step (sv_world s) w) as Hnew.
  { subst w. eapply rtc_l; [apply (ss_child _ (sv_cancel_token s))|]. rewrite Et. apply rtc_once, ss_new. }
  assert (w_lifecycles w !! l = Some (mkLifecycle id p false false false)) as Hl.
  { unfold lifecycle_new in El. injection El as <- <-. cbn. by rewrite list_lookup_middle. }
  pose proof (ss_pending w l _ (mkEndpoint None) ct Hl) as Hpend.
  destruct (lc_pending w _ (mkEndpoint None) ct) as [[[]|e] w1].
  2: { etransitivity; [|apply drop_steps]. eapply rtc_r; [exact Hnew|exact Hpend]. }
  assert (steps s (set_world (set_hub s (create_channel (sv_hub s) id)) w1)) as Hs1
    by (eapply rtc_r; [exact Hnew|exact Hpend]).
  destruct (get_descriptor w1 id); [|etransitivity; [exact Hs1|apply drop_steps]]. etransitivity; [exact Hs1|].
  etransitivity; [apply insert_pending_steps|]. apply steps_same. cbn [snd].
  apply spawn_ttl_same.
Qed.

Lemma control_steps s msg p : steps s (snd (handle_control_message s msg p)).
Proof.
  destruct msg as [id|id]; cbn.
  - destruct (precreate_check s id); [|done]. pose proof (precreate_steps s p id) as Hs.
    by destruct (precreate_commit s p id).
  - destruct (get_cancel_token (sv_world s) id) as [t|]; [|by apply steps_same]. apply (cancel_steps s t).
Qed.

Lemma ttl_steps s p id : steps s (ttl_expired s p id).
Proof.
  unfold ttl_expired. destruct (pending_of s p !! id) as [l|]; [|done].
  etransitivity; [apply (set_pending_steps s p (delete id (pending_of s p)))|].
  destruct (w_lifecycles _ !! l) as [h|] eqn:E; [|by apply steps_same]. by apply rtc_once, ss_disconnect.
Qed.

Lemma request_steps io s g rid key : steps s (snd (on_publish_requested io s g rid key)).
Proof.
  unfold on_publish_requested. destruct (pending_of s Rtmp !! key) as [l|]; [|done].
  destruct (get_state (sv_world s) key) as [[]|]; cbn; try done; [destruct (io _); cbn|].
  - apply connecting_steps.
  - apply disconnect_steps.
  - apply disconnect_steps.
Qed.

Lemma open_steps s key built : steps s (snd (open_publisher s key built)).
Proof.
  unfold open_publisher. destruct (get_cancel_token (sv_world s) key) as [t|]; [|done].
  destruct (pending_of s Rtmp !! key) as [l|]; [|done].
  set (s1 := with_servers (set_pending s Rtmp _) _).
  assert (steps s s1) as Hs1 by apply rtc_once, (ss_child (sv_world s) t).
  destruct built; [exact Hs1|]. etransitivity; [exact Hs1|apply drop_steps].
Qed.

Lemma send_steps source s h frame : steps s (snd (send_to_source source s h frame)).
Proof.
  unfold send_to_source. destruct (w_lifecycles (sv_world s) !! ph_lifecycle h) as [lc|] eqn:E; [|done].
  pose proof (ss_connect (sv_world s) (ph_lifecycle h) lc E) as Hs.
  destruct (lc_connect (sv_world s) (ph_lifecycle h) lc) as [[[]|e] w]; [destruct (source _)|]; by apply rtc_once.
Qed.

Lemma event_steps source s h event : steps s (snd (on_publish_event source s h event)).
Proof.
  destruct event; try done; try apply send_steps. etransitivity; [apply disconnect_steps|apply cancel_steps].
Qed.

Lemma events_steps source events : forall s g h, steps s (snd (publish_events source s g h events)).
Proof.
  induction events as [|event events IH]; intros s g h; cbn; [done|].
  destruct (on_common_event g event) as [[] g']; [apply IH|].
  pose proof (event_steps source s h event) as Hs.
  destruct (on_publish_event source s h event) as [[h1|e] s1]; [|done]. etransitivity; [exact Hs|apply IH].
Qed.

Lemma handle_steps source reads : forall s g h, steps s (snd (publish_handle source s g h reads)).
Proof.
  induction reads as [|[events|] reads IH]; intros s g h; cbn; try done.
  pose proof (events_steps source events s g h) as Hs.
  destruct (publish_events source s g h events) as [[[[] g1] h1] s1]; [|done]. etransitivity; [exact Hs|apply IH].
Qed.

Lemma close_steps s h : steps s (close_publisher s h).
Proof.
  unfold close_publisher. etransitivity; [apply (drop_steps s (ph_lifecycle h))|].
  etransitivity; [apply (cancel_steps _ (ph_cancel_token h))|]. by apply steps_same.
Qed.

Lemma rtsp_open_steps s id : steps s (snd (rtsp_open s id)).
Proof.
  unfold rtsp_open. destruct (tk_new (w_tokens (sv_world s))) as [root tokens] eqn:En.
  set (s1 := sv_set_tokens s tokens).
  assert (steps s s1) as H1s by (apply rtc_once; unfold s1; cbn; pose proof (ss_token (sv_world s)) as Hs; by rewrite En in Hs).
  destruct (pending_of s1 Rtsp !! id) as [l|]; [|exact H1s].
  set (s2 := set_pending s1 Rtsp _). assert (steps s s2) as H2s by (etransitivity; [exact H1s|apply set_pending_steps]).
  destruct (tk_child (w_tokens (sv_world s2)) root) as [cancel tokens2] eqn:Ec.
  set (s3 := set_hub (sv_set_tokens s2 tokens2) _).
  assert (steps s s3) as H3s.
  { etransitivity; [exact H2s|]. apply rtc_once. pose proof (ss_child (sv_world s2) root) as Hs. by rewrite Ec in Hs. }
  destruct (w_lifecycles (sv_world s3) !! l) as [h|] eqn:El; [|exact H3s].
  pose proof (ss_connect (sv_world s3) l h El) as Hs. destruct (lc_connect (sv_world s3) l h) as [[[]|e] w]; cbn [snd] in *.
  - etransitivity; [exact H3s|]. by apply rtc_once.
  - etransitivity; [exact H3s|]. etransitivity; [|apply drop_steps].
    eapply rtc_l; [exact Hs|]. apply rtc_once, ss_cancel.
Qed.

Lemma rtsp_close_steps s conn : steps s (rtsp_close s conn).
Proof.
  unfold rtsp_close. etransitivity; [|apply drop_steps].
  etransitivity; [apply (disconnect_steps s (cn_lifecycle conn))|]. unfold lifecycle_disconnect.
  destruct (w_lifecycles (sv_world s) !! cn_lifecycle conn) as [h|]; apply rtc_once, ss_cancel.
Qed.

(** What the two ingest servers and their connections do. *)
Inductive server_step : Servers T B * list (option PublishHandler) -> Servers T B * list (option PublishHandler) -> Prop :=
| sv_rtmp x y : rtmp_step x y -> server_step x y
| sv_rtsp_open s c id : server_step (s, c) (snd (rtsp_open s id), c)
| sv_rtsp_close s c conn : server_step (s, c) (rtsp_close s conn, c).

(** Whatever the control loops, the TTL tasks, the RTMP and RTSP connections and their
    handlers do, in any order, the coherence of the registry with its cleanup tasks,
    shown for the registry's steps, holds in every state they reach. *)
Lemma servers_keep_coherence s c s' c' : rtc server_step (s, c) (s', c') ->
  registry_coherent (sv_world s) -> registry_coherent (sv_world s').
Proof.
  intros Hr. assert (steps s s') as Hs.
  { change (steps (fst (s, c)) (fst (s', c'))). induction Hr as [|x y z Hxy _ IH]; [done|].
    etransitivity; [|exact IH]. destruct Hxy as [x y Hxy| |]; [|apply rtsp_open_steps|apply rtsp_close_steps].
    destruct Hxy; cbn [fst].
    - by apply rtc_once.
    - by apply steps_same.
    - apply control_steps.
    - apply ttl_steps.
    - by apply steps_same.
    - apply request_steps.
    - apply open_steps.
    - apply handle_steps.
    - apply close_steps. }
  by apply steps_coherent.
Qed.
End Refinement.

(** ** From the socket to the publisher *)

(** What a client may send before it publishes: a connect to the application, with
    or without more path or query, and commands the server answers or ignores. *)
Definition harmless (appname : string) (e : ServerEvent) : Prop :=
  match e with
  | ConnectionRequested _ a =>
      a = appname \/ string_of_list_ascii ∘ fst <$> app_and_stream_re (list_ascii_of_string a) = Some appname
  | UnhandleableAmf0Command _ => True
  | _ => False
  end.

Section Life.
Context {T B : Type} `{TokenLaws T} `{BroadcastChan FlvTag B}.
Implicit Types (s : Servers T B).

Lemma setup_event io s g e : (forall i, io i = true) -> harmless (sg_appname g) e ->
  exists g', handle_connect_event io s g e = (Ok None, g', s) /\ sg_appname g' = sg_appname g.
Proof.
  intros Hio He. destruct e; try done; cbn.
  - unfold handle_connection_requested, on_connect_requested, attempt.
    assert ((if bool_decide (string_of_list_ascii ∘ fst <$> app_and_stream_re (list_ascii_of_string app_name)
      = Some (sg_appname g)) then sg_appname g else app_name) = sg_appname g) as Ha.
    { destruct He as [->|He]; [by case_bool_decide|by rewrite bool_decide_true]. }
    rewrite Ha, bool_decide_true by done. cbn. rewrite Hio. by eexists.
  - unfold attempt. rewrite Hio. destruct (optional_amf0_command command_name); by eexists.
Qed.

Lemma setup_events io s events more : (forall i, io i = true) -> forall g, Forall (harmless (sg_appname g)) events ->
  exists g', handle_connect_events io s g (events ++ more) = handle_connect_events io s g' more
    /\ sg_appname g' = sg_appname g.
Proof.
  intros Hio. induction events as [|e events IH]; intros g Hf; [by exists g|].
  inversion Hf as [|? ? He Hf']; subst. destruct (setup_event io s g e Hio He) as (g1 & E & Ea).
  destruct (IH g1) as (g2 & E2 & Ea2); [by rewrite Ea|]. exists g2. cbn. rewrite E. split; [done|congruence].
Qed.

(** A client that asks to publish a pending stream becomes its publisher; what it
    sends in the same read after that request is not looked at. *)
Lemma connect_publishes io s g prelude setup rid skey app_name dropped rest key l : (forall i, io i = true) ->
  Forall (Forall (harmless (sg_appname g))) prelude -> Forall (harmless (sg_appname g)) setup ->
  extract_stream_key skey app_name = key -> pending_of s Rtmp !! key = Some l ->
  get_state (sv_world s) key = Some Pending ->
  exists g', connect io s g (map Some prelude ++ Some (setup ++ PublishStreamRequested rid skey app_name :: dropped) :: rest)
    = (Ok (PublishBuilder key), g', lifecycle_connecting s l, rest).
Proof.
  intros Hio Hp Hs Hk Hl Hst. revert g Hp Hs. induction prelude as [|events prelude IH]; intros g Hp Hs; cbn.
  - destruct (setup_events io s setup (PublishStreamRequested rid skey app_name :: dropped) Hio g Hs) as (g1 & -> & _).
    cbn [handle_connect_events handle_connect_event]. unfold on_publish_requested, attempt.
    rewrite Hk, Hl, Hst, Hio. cbn. by eexists.
  - inversion Hp as [|? ? He Hp']; subst.
    destruct (setup_events io s events [] Hio g He) as (g1 & E & Ea). rewrite app_nil_r in E. rewrite E. cbn.
    apply IH; by rewrite Ea.
Qed.

(** A publisher's handle is not disconnected before the stream is finished. *)
Definition alive (s : Servers T B) (l : nat) (key : string) (p : Protocol) : Prop :=
  exists i b, w_lifecycles (sv_world s) !! l = Some (mkLifecycle key p i b false).

Lemma send_alive source s h frame key p : alive s (ph_lifecycle h) key p ->
  alive (snd (send_to_source source s h frame)) (ph_lifecycle h) key p.
Proof.
  intros (i & b & Hl). unfold send_to_source. rewrite Hl.
  assert (alive (set_world s (snd (lc_connect (sv_world s) (ph_lifecycle h) (mkLifecycle key p i b false))))
    (ph_lifecycle h) key p) as Ha.
  { unfold lc_connect. destruct b; [by exists i, true|]. cbn [hl_connected].
    pose proof (update_state_rest (lc_update (sv_world s) (ph_lifecycle h) mark_connected) key Connected) as (_ & _ & _ & El & _).
    exists i, true. cbn [hl_live_id]. destruct (update_state _ key Connected) as [[] w]; cbn in *; rewrite El;
      by rewrite list_lookup_alter_eq, Hl. }
  destruct (lc_connect _ _ _) as [[[]|e] w]; [destruct (source _)|]; exact Ha.
Qed.

Lemma events_alive source events key p : PublishStreamFinished ∉ events -> forall s g h,
  alive s (ph_lifecycle h) key p -> alive (snd (publish_events source s g h events)) (ph_lifecycle h) key p.
Proof.
  intros Hf. induction events as [|e events IH]; intros s g h Ha; cbn; [done|].
  apply not_elem_of_cons in Hf as [He Hf]. destruct (on_common_event g e) as [[] g']; [by apply IH|].
  assert (alive (snd (on_publish_event source s h e)) (ph_lifecycle h) key p) as Ha1
    by (destruct e; try done; by apply send_alive).
  destruct (on_publish_event_quiet source s h e) as [_ Hid].
  destruct (on_publish_event source s h e) as [[h1|er] s1]; cbn in *; [|done].
  destruct (Hid h1 eq_refl) as (E & _). rewrite <- E in Ha1 |- *. by apply IH.
Qed.

(** *** The three parts of a stream's life *)

(** A freshly precreated session whose publisher was accepted and opened. *)
Record opened (s s1 sb : Servers T B) (key : string) : Prop := {
  op_hub : sv_hub sb = sv_hub s1;
  op_pend : pend sb false !! key = None;
  op_sessions : w_sessions (sv_world sb) = w_sessions (registered_world s Rtmp key);
  op_lifecycle : w_lifecycles (sv_world sb) !! length (w_lifecycles (sv_world s)) = Some (mkLifecycle key Rtmp false false false);
  op_desc : w_descs (sv_world sb) !! length (w_descs (sv_world s)) = Some (with_state (new_descriptor key Rtmp) Connecting);
  op_events : w_events (sv_world sb) = w_events (sv_world s);
  op_token : tk_known (w_tokens (sv_world sb)) (fst (session_child s)) = true;
  op_steps : steps s1 sb;
}.

Lemma publisher_opens s s1 key : let l := length (w_lifecycles (sv_world s)) in
  sv_world s1 = registered_world s Rtmp key -> pending_of s1 Rtmp !! key = Some l ->
  exists sb, open_publisher (lifecycle_connecting s1 l) key true
    = (Some (mkPublish key l (fst (session_child s)) []), sb) /\ opened s s1 sb key.
Proof.
  intros l Hw Hp. set (e := mkEntry (length (w_descs (sv_world s))) (fst (session_child s)) None).
  assert (sv_world (lifecycle_connecting s1 l)
      = set_state (registered_world s Rtmp key) (length (w_descs (sv_world s))) Connecting
    /\ sv_hub (lifecycle_connecting s1 l) = sv_hub s1 /\ forall b, pend (lifecycle_connecting s1 l) b = pend s1 b)
    as (Hwa & Hha & Hpa).
  { unfold lifecycle_connecting. rewrite Hw. cbn [w_lifecycles registered_world]. unfold l.
    rewrite list_lookup_middle by done. split_and!; [|done..]. cbn [sv_world set_world].
    unfold lc_connecting, update_state, get_session. cbn [hl_live_id w_sessions registered_world w_descs].
    rewrite lookup_insert_eq. cbn [fmap option_fmap option_map se_descriptor]. by rewrite list_lookup_middle. }
  destruct (open_publisher_run (lifecycle_connecting s1 l) key l e true) as (sb & Eo & Hpb & Hhb & Hlb & Hsb & Htb & Hdb & Heb).
  { by rewrite Hpa. }
  { rewrite Hwa. cbn. by rewrite lookup_insert_eq. }
  exists sb. split; [exact Eo|]. split; rewrite ?Hhb, ?Hsb, ?Hlb, ?Hdb, ?Heb, ?Htb, ?Hwa; try done.
  - cbn. by rewrite list_lookup_middle.
  - cbn. by rewrite list_lookup_alter_eq, list_lookup_middle.
  - rewrite tk_child_known. cbn. unfold session_child. by rewrite tk_child_self_known.
  - etransitivity; [apply (connecting_steps s1 l)|].
    pose proof (open_steps (lifecycle_connecting s1 l) key true) as Hs. by rewrite Eo in Hs.
Qed.

(** How a publisher that never finished its stream leaves the servers. *)
Lemma close_alive s h key e : alive s (ph_lifecycle h) key Rtmp -> ph_stream_key h = key ->
  w_sessions (sv_world s) !! key = Some e -> ph_cancel_token h = se_cancel_token e ->
  tk_known (w_tokens (sv_world s)) (se_cancel_token e) = true ->
  let s' := close_publisher s h in
  w_sessions (sv_world s') = w_sessions (sv_world s)
  /\ tk_cancelled (w_tokens (sv_world s')) (se_cancel_token e) = true
  /\ w_events (sv_world s') = w_events (sv_world s) ++ [SessionEnded key Rtmp ClientDisconnect]
  /\ hub_channels (sv_hub s') !! key = None /\ (forall b, pend s' b = pend s b).
Proof.
  intros (i & b & Hl) Hk He Ht Hkn. cbn zeta. unfold close_publisher.
  destruct (drop_lifecycle_cancels s (ph_lifecycle h) (mkLifecycle key Rtmp i b false) e Hl eq_refl He) as (Htk & Hs & Hev).
  split_and!; [exact Hs| |exact Hev| |intros b'; apply (pend_drop s (ph_lifecycle h) b')].
  - cbn. rewrite Htk, Ht. apply tk_cancel_self. by rewrite tk_cancel_known.
  - cbn. by rewrite Hk, lookup_delete_eq.
Qed.

(** A precreation of an id the registry does not know is always accepted. *)
Lemma start_accepted c s key n p : n = 1 /\ p = Rtmp \/ n = 2 /\ p = Rtsp ->
  key <> EmptyString -> get_session (sv_world s) key = None -> pending_of s p !! key = None ->
  exists d s', start_livestream c s key n Handled = (Ok d, s') /\ get_state (sv_world s') key = Some Pending.
Proof.
  intros Hn Hne Hg Hp. pose proof (grpc_start_outcome c s key n Handled) as Ho.
  destruct (start_livestream c s key n Handled) as [[d|er] s'].
  - exists d, s'. split; [done|]. destruct Ho as (_ & _ & _ & q & Hq & _ & ->).
    assert (q = p) as -> by naive_solver lia.
    destruct (precreated s p key Hg Hp) as (-> & _ & _). unfold get_state. by rewrite registered_descriptor.
  - destruct Ho as (_ & _ & _ & Hf). destruct Hf. naive_solver.
Qed.

(** Once the session's token is cancelled and no handle is pending, the cleanup can
    bring the registry back to where it was, and the id is accepted again. *)
Lemma id_free_again c s s2 key n p : n = 1 /\ p = Rtmp \/ n = 2 /\ p = Rtsp ->
  key <> EmptyString -> get_session (sv_world s) key = None -> registry_coherent (sv_world s2) ->
  w_sessions (sv_world s2) = w_sessions (registered_world s p key) ->
  tk_cancelled (w_tokens (sv_world s2)) (fst (session_child s)) = true -> pending_of s2 p !! key = None ->
  exists w3, rtc session_step (sv_world s2) w3 /\ w_sessions w3 = w_sessions (sv_world s)
    /\ exists d s4, start_livestream c (set_world s2 w3) key n Handled = (Ok d, s4)
         /\ get_state (sv_world s4) key = Some Pending.
Proof.
  intros Hn Hne Hg Hc Hs Ht Hp. set (e := mkEntry (length (w_descs (sv_world s))) (fst (session_child s)) None).
  destruct (cancelled_session_leaves (sv_world s2) key e Hc) as (w3 & Hr3 & Hw3 & _);
    [rewrite Hs; cbn; by rewrite lookup_insert_eq|done|].
  assert (w_sessions w3 = w_sessions (sv_world s)) as Hback.
  { rewrite Hw3, Hs. cbn. apply delete_insert_id. by apply get_session_None. }
  exists w3. split_and!; [done|done|]. apply (start_accepted c _ key n p); [done|done| |by destruct p].
  apply get_session_None. cbn [set_world sv_world]. rewrite Hback. by apply get_session_None.
Qed.

(** What an accepted publisher relays until its connection ends. *)
Lemma publisher_relays n s s1 sb g key batches rest : opened s s1 sb key ->
  rest = [] \/ head rest = Some None -> PublishStreamFinished ∉ concat batches ->
  let media := omap media_frame (concat batches) in
  let '(h, sm) := publish_handle (fun i => i <? n)%nat sb g (mkPublish key (length (w_lifecycles (sv_world s))) (fst (session_child s)) [])
                    (map Some batches ++ rest) in
  ph_frames h = take n media /\ ph_stream_key h = key /\ ph_cancel_token h = fst (session_child s)
  /\ alive sm (ph_lifecycle h) key Rtmp /\ quiet sb sm /\ steps sb sm
  /\ w_events (sv_world sm) = w_events (sv_world s) ++ match media with [] => [] | _ => [SessionStarted key Rtmp] end
  /\ (media <> [] -> get_state (sv_world sm) key = Some Connected).
Proof.
  intros [_ _ Hsb Hlb Hdb Heb _ _] Hrest Hfin media. set (h0 := mkPublish key _ _ []) in *.
  pose proof (rtmp_publish_relay n sb g h0 (mkLifecycle key Rtmp false false false) (length (w_descs (sv_world s)))
    (with_state (new_descriptor key Rtmp) Connecting) batches rest Hrest Hfin eq_refl Hlb eq_refl) as Hrel.
  specialize (Hrel ltac:(unfold get_session; rewrite Hsb; cbn; by rewrite lookup_insert_eq) Hdb ltac:(done)).
  pose proof (publish_handle_quiet (fun i => i <? n)%nat (map Some batches ++ rest) sb g h0) as Hq.
  pose proof (handle_steps (fun i => i <? n)%nat (map Some batches ++ rest) sb g h0) as Hsteps.
  pose proof (events_alive (fun i => i <? n)%nat (concat batches) key Rtmp Hfin sb g h0
    ltac:(by exists false, false)) as Halive.
  rewrite publish_handle_events in Hq, Hrel, Hsteps |- * by done.
  destruct (publish_events _ sb g h0 (concat batches)) as [[[ok g'] h] sm].
  destruct Hrel as (Hfr & Hnone & Hsome), Hq as [Hq (El & Ek & Et)].
  cbn [fst snd ph_lifecycle h0] in *. fold media in Hfr, Hnone, Hsome.
  split_and!; try done; [by rewrite El| |by intros Hm; apply Hsome].
  destruct media as [|m media'] eqn:Em; [by rewrite Hnone, app_nil_r|].
  destruct Hsome as [_ ->]; [done|]. by rewrite Heb.
Qed.

(** From StartLivestream to the last read of the publisher's connection, before its
    handler is closed. *)
Lemma rtmp_connection_relays c s s1 d key io n finish tag_ok app prelude setup rid skey app_name dropped batches rest viewer :
  pending_of s Rtmp !! key = None -> hub_channels (sv_hub s) !! key = None ->
  start_livestream c s key 1 Handled = (Ok d, s1) ->
  (forall i, io i = true) -> Forall (Forall (harmless app)) prelude -> Forall (harmless app) setup ->
  extract_stream_key skey app_name = key ->
  rest = [] \/ head rest = Some None -> PublishStreamFinished ∉ concat batches ->
  let media := omap media_frame (concat batches) in
  let reads := map Some prelude ++ Some (setup ++ PublishStreamRequested rid skey app_name :: dropped)
                 :: map Some batches ++ rest in
  exists h sm, fst (spawn_connection_handler io (fun i => i <? n)%nat finish tag_ok s1 app reads true viewer) = close_publisher sm h
  /\ ph_frames h = take n media /\ ph_stream_key h = key /\ ph_cancel_token h = fst (session_child s)
  /\ hub_channels (sv_hub sm) !! key = Some FlvLiveChannel_new
  /\ (media <> [] -> get_state (sv_world sm) key = Some Connected)
  /\ w_events (sv_world sm) = w_events (sv_world s) ++ match media with [] => [] | _ => [SessionStarted key Rtmp] end
  /\ key <> EmptyString /\ get_session (sv_world s) key = None
  /\ alive sm (ph_lifecycle h) key Rtmp /\ steps s sm
  /\ w_sessions (sv_world sm) = w_sessions (registered_world s Rtmp key)
  /\ tk_known (w_tokens (sv_world sm)) (fst (session_child s)) = true /\ pend sm false !! key = None.
Proof.
  intros Hp Hh Hstart Hio Hpre Hset Hkey Hrest Hfin media reads.
  pose proof (grpc_start_outcome c s key 1 Handled) as Ho. rewrite Hstart in Ho.
  destruct Ho as (Hne & Hg & _ & p & [[_ ->]|[? _]] & _ & ->); [|lia].
  set (s1 := snd (precreate_commit s Rtmp key)) in *.
  destruct (precreated s Rtmp key Hg Hp) as (Hw1 & Hh1 & Hp1). fold s1 in Hw1, Hh1, Hp1.
  destruct (connect_publishes io s1 (SessionGuard_new app) prelude setup rid skey app_name dropped
    (map Some batches ++ rest) key (length (w_lifecycles (sv_world s)))) as (g & Econn); try done.
  { by rewrite Hp1, lookup_insert_eq. }
  { unfold get_state. rewrite Hw1. by rewrite registered_descriptor. }
  destruct (publisher_opens s s1 key Hw1) as (sb & Eo & Hop).
  { by rewrite Hp1, lookup_insert_eq. }
  unfold spawn_connection_handler. fold s1. unfold reads. rewrite Econn, Eo.
  pose proof (publisher_relays n s s1 sb g key batches rest Hop Hrest Hfin) as Hrel. cbv zeta in Hrel. fold media in Hrel.
  destruct (publish_handle _ sb g _ _) as [h sm]. destruct Hrel as (Hfr & Hk & Ht & Hal & [_ Hpm Hhm Hsm Hkm _] & Hst & Hev & Hcon).
  destruct Hop as [Hhb Hpb Hsb _ _ _ Htb Hstb]. cbn [fst snd].
  exists h, sm. split_and!; try done.
  - rewrite Hhm, Hhb, Hh1. cbn. unfold or_default. rewrite Hh. by rewrite lookup_insert_eq.
  - etransitivity; [apply (precreate_steps s Rtmp key)|]. by etransitivity; [exact Hstb|].
  - by rewrite Hsm.
  - by rewrite Hkm.
  - by rewrite Hpm.
Qed.

(** C3: The life of an RTMP stream. StartLivestream of an id the service does not
    know; a client that connects to the application, maybe with the usual
    commands, and asks to publish under a name that resolves to the id; any audio
    and video messages, in any number of reads, until its connection ends. Then
    the frames handed to the stream's source are exactly the messages of the
    reads after the publish request, in order, up to where the source stopped;
    meanwhile the session is connected as soon as there was one and the FLV
    channel is there, fresh, for the players; afterwards the channel is gone, the
    events say that the stream started (if it sent anything) and that it ended,
    once each; and the cleanup can run until the registry is as it was before,
    where the same id is accepted again. *)
Theorem rtmp_stream_life c s s1 d key io n finish tag_ok app prelude setup rid skey app_name dropped batches rest viewer :
  registry_coherent (sv_world s) -> pending_of s Rtmp !! key = None -> hub_channels (sv_hub s) !! key = None ->
  start_livestream c s key 1 Handled = (Ok d, s1) ->
  (forall i, io i = true) -> Forall (Forall (harmless app)) prelude -> Forall (harmless app) setup ->
  extract_stream_key skey app_name = key ->
  rest = [] \/ head rest = Some None -> PublishStreamFinished ∉ concat batches ->
  let media := omap media_frame (concat batches) in
  let reads := map Some prelude ++ Some (setup ++ PublishStreamRequested rid skey app_name :: dropped)
                 :: map Some batches ++ rest in
  let s2 := fst (spawn_connection_handler io (fun i => i <? n)%nat finish tag_ok s1 app reads true viewer) in
  (exists h sm, s2 = close_publisher sm h /\ ph_frames h = take n media
     /\ hub_channels (sv_hub sm) !! key = Some FlvLiveChannel_new
     /\ (media <> [] -> get_state (sv_world sm) key = Some Connected))
  /\ w_events (sv_world s2) = w_events (sv_world s)
       ++ (match media with [] => [] | _ => [SessionStarted key Rtmp] end) ++ [SessionEnded key Rtmp ClientDisconnect]
  /\ hub_channels (sv_hub s2) !! key = None
  /\ exists w3, rtc session_step (sv_world s2) w3 /\ w_sessions w3 = w_sessions (sv_world s)
     /\ exists d' s4, start_livestream c (set_world s2 w3) key 1 Handled = (Ok d', s4)
          /\ get_state (sv_world s4) key = Some Pending.
Proof.
  intros Hc Hp Hh Hstart Hio Hpre Hset Hkey Hrest Hfin media reads s2.
  destruct (rtmp_connection_relays c s s1 d key io n finish tag_ok app prelude setup rid skey app_name dropped batches rest viewer)
    as (h & sm & E2 & Hfr & Hk & Ht & Hch & Hcon & Hev & Hne & Hg & Hal & Hst & Hs & Htb & Hpb); try done.
  fold media reads s2 in E2, Hfr, Hcon, Hev. rewrite E2. clear E2 s2.
  destruct (close_alive sm h key (mkEntry (length (w_descs (sv_world s))) (fst (session_child s)) None))
    as (Hs3 & Ht3 & Hev3 & Hh3 & Hp3); try done.
  { rewrite Hs. cbn. by rewrite lookup_insert_eq. }
  split_and!; [by exists h, sm|by rewrite Hev3, Hev, <- app_assoc|done|].
  apply (id_free_again c s _ key 1 Rtmp); try done; [by auto| |by rewrite Hs3|].
  - apply (steps_coherent s); [|exact Hc]. etransitivity; [exact Hst|apply close_steps].
  - change (pend (close_publisher sm h) false !! key = None). by rewrite Hp3.
Qed.
End Life.

(** A camera that sends a sequence header and a keyframe. *)
Lemma rtmp_stream_life_witness :
  let batches := [[VideoDataReceived [0x17; 0] 0]; [ClientChunkSizeChanged 4096; VideoDataReceived [0x17; 1] 40]] in
  let reads := [Some [ConnectionRequested 1 "live?t=1"]; Some [UnhandleableAmf0Command "FCPublish"; PublishStreamRequested 2 "live/cam" "live"];
    Some [VideoDataReceived [0x17; 0] 0]; Some [ClientChunkSizeChanged 4096; VideoDataReceived [0x17; 1] 40]; None] in
  let s1 := snd (start_livestream demo_config demo_servers "cam" 1 Handled) in
  let s2 := fst (spawn_connection_handler (fun _ => true) (fun i => i <? 9)%nat (fun _ => true) (fun _ => true)
                   s1 "live" reads true []) in
  hub_channels (sv_hub s2) !! "cam"%string = None
  /\ w_events (sv_world s2) = [SessionStarted "cam" Rtmp; SessionEnded "cam" Rtmp ClientDisconnect]
  /\ exists w3, rtc session_step (sv_world s2) w3 /\ get_session w3 "cam" = None.
Proof.
  intros batches reads s1 s2.
  destruct (start_livestream demo_config demo_servers "cam" 1 Handled) as [[d|er] s1'] eqn:Es; [|vm_compute in Es; discriminate].
  destruct (rtmp_stream_life demo_config demo_servers s1' d "cam" (fun _ => true) 9 (fun _ => true) (fun _ => true) "live"
    [[ConnectionRequested 1 "live?t=1"]] [UnhandleableAmf0Command "FCPublish"] 2 "live/cam" "live" [] batches [None] [])
    as (_ & Hev & Hh & w3 & Hr & Hw & _).
  - apply initial_coherent.
  - reflexivity.
  - reflexivity.
  - exact Es.
  - done.
  - do 2 (constructor; [|constructor]). right. vm_compute. reflexivity.
  - repeat constructor.
  - vm_compute. reflexivity.
  - right. reflexivity.
  - intros Hin. repeat (apply elem_of_cons in Hin as [|Hin]; [discriminate|]). by apply elem_of_nil in Hin.
  - split; [exact Hh|]. split; [exact Hev|]. exists w3. split; [exact Hr|]. unfold get_session. by rewrite Hw.
Defined.

(** ** RTSP connections *)

Section RtspConnection.
Context {T B : Type} `{TokenStore T} `{BroadcastChan FlvTag B}.
Context (base64_decode : bytes -> option bytes) (parse_message : bytes -> parsed_message).

(** [handle_connection]: the reads and writes of the handshake, then the events of
    the frame loop; the servers afterwards, the frames handed to the source and
    the responses. A pipeline that cannot be built is only reported. [None]: a
    panic. *)
Definition rtsp_connection (writes : nat -> bool) (rs : list (result unit bytes)) (evs : list rtp_event) (s : Servers T B) :
    option (Servers T B * list RawRtpFrame * list Response) :=
  '(o, sent, _) ← run_rtsp_handshake base64_decode parse_message (S (length rs)) writes RtspSession_new rs [];
  if negb (ho_recording o) then Some (s, [], sent)
  else match ho_live_id o, ho_sdp o with
       | Some live_id, Some _ =>
           match rtsp_open s live_id with
           | (None, s) => Some (s, [], sent)
           | (Some c, s) =>
               '(_, frames, sent) ← run_rtp_loop base64_decode parse_message (ho_session o) evs [] sent;
               Some (rtsp_close s c, frames, sent)
           end
       | _, _ => Some (s, [], sent)
       end.

(** The frame an event of the loop carries to the source. *)
Definition rtp_frame (ev : rtp_event) : option RawRtpFrame :=
  match ev with
  | Read (Ok (Interleaved channel payload)) true => snd (forward_interleaved_frame channel payload true)
  | _ => None
  end.

(** An event that may end the loop: cancellation, the idle timer, the end of the
    input, a frame nobody receives, a request of the client. *)
Definition may_end (ev : rtp_event) : Prop :=
  match ev with Read (Ok (Interleaved _ _)) true | Read (Ok (Stray _)) _ => False | _ => True end.

Lemma rtp_loop_frames evs : forall s frames sent s' frames' sent',
  run_rtp_loop base64_decode parse_message s evs frames sent = Some (s', frames', sent') ->
  exists k, frames' = frames ++ omap rtp_frame (take k evs)
  /\ (k = length evs \/ exists ev, evs !! k = Some ev /\ may_end ev).
Proof.
  induction evs as [|ev evs IH]; intros s frames sent s' frames' sent' Hr.
  { injection Hr as _ <- _. exists 0%nat. rewrite app_nil_r. auto. }
  assert (forall f s1 sent1, option_list (rtp_frame ev) = f ->
    run_rtp_loop base64_decode parse_message s1 evs (frames ++ f) sent1 = Some (s', frames', sent') ->
    exists k, frames' = frames ++ omap rtp_frame (take k (ev :: evs))
      /\ (k = length (ev :: evs) \/ exists e, (ev :: evs) !! k = Some e /\ may_end e)) as Hgo.
  { intros f s1 sent1 <- H1. destruct (IH _ _ _ _ _ _ H1) as (k & -> & Hk). exists (S k). split.
    - cbn. rewrite <- app_assoc. by destruct (rtp_frame ev).
    - destruct Hk as [->|Hk]; [by left|by right]. }
  assert (may_end ev -> frames' = frames -> exists k, frames' = frames ++ omap rtp_frame (take k (ev :: evs))
      /\ (k = length (ev :: evs) \/ exists e, (ev :: evs) !! k = Some e /\ may_end e)) as Hend.
  { intros He ->. exists 0%nat. rewrite app_nil_r. split; [done|]. right. by exists ev. }
  destruct ev as [|[[channel payload|data|stray]|e] receiver|]; cbn in Hr;
    try (by injection Hr as _ <- _; apply Hend).
  - unfold forward_interleaved_frame in Hr. destruct receiver.
    + unfold rtp_frame, forward_interleaved_frame in Hgo.
      destruct (length payload <? 12)%nat; [by apply (Hgo [] s sent)|].
      destruct (parse_rtp_header payload) as [hdr|]; [|by apply (Hgo [] s sent)].
      by apply (Hgo [mkRawRtpFrame channel hdr payload] s sent).
    + destruct (length payload <? 12)%nat; [by apply (Hgo [] s sent)|].
      destruct (parse_rtp_header payload) as [hdr|]; [|by apply (Hgo [] s sent)].
      cbn in Hr. rewrite app_nil_r in Hr. by injection Hr as _ <- _; apply Hend.
  - destruct (handle_inband_request base64_decode parse_message s data) as [[[[] s1] r]|]; [|..|done].
    + by injection Hr as _ <- _; apply Hend.
    + apply (Hgo [] s1 (sent ++ r)); [done|]. by rewrite app_nil_r.
  - apply (Hgo [] s sent); [done|]. by rewrite app_nil_r.
Qed.
End RtspConnection.

Section RtspLife.
Context {T B : Type} `{TokenLaws T} `{BroadcastChan FlvTag B}.
Implicit Types (s : Servers T B).

(** A freshly precreated session whose RTSP connection was taken up. *)
Record rtsp_opened (s s1 sb : Servers T B) (key : string) (conn : RtspSession.Connection) : Prop := {
  ro_conn : cn_live_id conn = key /\ cn_lifecycle conn = length (w_lifecycles (sv_world s));
  ro_hub : sv_hub sb = create_channel (sv_hub s1) key;
  ro_pend : pend sb true !! key = None;
  ro_sessions : w_sessions (sv_world sb) = w_sessions (registered_world s Rtsp key);
  ro_alive : alive sb (cn_lifecycle conn) key Rtsp;
  ro_state : get_state (sv_world sb) key = Some Connected;
  ro_events : w_events (sv_world sb) = w_events (sv_world s) ++ [SessionStarted key Rtsp];
  ro_token : tk_known (w_tokens (sv_world sb)) (fst (session_child s)) = true;
}.

Lemma rtsp_opens s s1 key : sv_world s1 = registered_world s Rtsp key ->
  pending_of s1 Rtsp !! key = Some (length (w_lifecycles (sv_world s))) ->
  exists conn sb, rtsp_open s1 key = (Some conn, sb) /\ rtsp_opened s s1 sb key conn.
Proof.
  intros Hw Hp. set (l := length (w_lifecycles (sv_world s))) in *. set (lc := mkLifecycle key Rtsp false false false).
  destruct (tk_new (w_tokens (sv_world s1))) as [root tokens] eqn:En.
  destruct (tk_child tokens root) as [cancel tokens2] eqn:Ec.
  set (w2 := set_tokens (sv_world s1) tokens2).
  assert (w_lifecycles w2 !! l = Some lc) as Hl by (unfold w2; cbn; rewrite Hw; cbn; unfold l; by rewrite list_lookup_middle).
  assert (get_session w2 key = Some (length (w_descs (sv_world s)))) as Hg2
    by (unfold w2, get_session; cbn; rewrite Hw; cbn; by rewrite lookup_insert_eq).
  assert (w_descs w2 !! length (w_descs (sv_world s)) = Some (new_descriptor key Rtsp)) as Hd2
    by (unfold w2; cbn; rewrite Hw; cbn; by rewrite list_lookup_middle).
  pose proof (connect_first_attempt w2 l lc _ _ Hl eq_refl Hg2 Hd2) as Hc.
  destruct (connect_rest w2 l lc) as (Hcs & _ & Hct & _).
  unfold rtsp_open. rewrite En.
  change (pending_of (sv_set_tokens s1 tokens) Rtsp) with (pending_of s1 Rtsp). rewrite Hp.
  unfold sv_set_tokens, set_pending, set_world, set_hub. cbn [sv_world set_tokens w_tokens w_lifecycles]. rewrite Ec.
  change (w_lifecycles (sv_world s1) !! l) with (w_lifecycles w2 !! l). rewrite Hl. fold w2.
  change (set_tokens (set_tokens (sv_world s1) tokens) tokens2) with w2.
  destruct (lc_connect w2 l lc) as [r w3]. destruct Hc as (Hl3 & _ & Hc).
  rewrite decide_False in Hc by done. destruct Hc as (-> & Hst & Hev). cbn [snd] in Hcs, Hct.
  eexists _, _. split; [reflexivity|]. split; try done.
  - cbn. by rewrite lookup_delete_eq.
  - cbn. rewrite Hcs. unfold w2. cbn. by rewrite Hw.
  - exists false, true. exact Hl3.
  - cbn. rewrite Hev. unfold w2. cbn. by rewrite Hw.
  - cbn. rewrite Hct. unfold w2. cbn. pose proof (tk_child_known tokens root (fst (session_child s))) as Hk.
    rewrite Ec in Hk. cbn in Hk. rewrite Hk.
    pose proof (tk_new_known (w_tokens (sv_world s1)) (fst (session_child s))) as Hk1. rewrite En in Hk1. cbn in Hk1.
    rewrite Hk1, Hw. cbn. unfold session_child. by rewrite tk_child_self_known.
Qed.

(** The end of a connection whose stream is alive. *)
Lemma rtsp_close_alive s conn key e : alive s (cn_lifecycle conn) key Rtsp -> cn_live_id conn = key ->
  w_sessions (sv_world s) !! key = Some e -> tk_known (w_tokens (sv_world s)) (se_cancel_token e) = true ->
  let s' := rtsp_close s conn in
  w_sessions (sv_world s') = w_sessions (sv_world s)
  /\ tk_cancelled (w_tokens (sv_world s')) (se_cancel_token e) = true
  /\ w_events (sv_world s') = w_events (sv_world s) ++ [SessionEnded key Rtsp ClientDisconnect]
  /\ hub_channels (sv_hub s') !! key = None /\ (forall b, pend s' b = pend s b).
Proof.
  intros (i & b & Hl) Hk He Hkn. cbn zeta. unfold rtsp_close. rewrite Hl, Hk.
  unfold lc_disconnect, lc_disconnect_with_reason. cbn [hl_disconnected hl_live_id hl_protocol].
  unfold get_cancel_token. cbn -[drop_lifecycle]. rewrite He. cbn -[drop_lifecycle alter].
  unfold drop_lifecycle. cbn -[alter]. rewrite list_lookup_alter_eq, Hl. cbn -[alter]. unfold lc_drop. cbn -[alter].
  split_and!; [done| |done|by rewrite lookup_delete_eq|by intros []].
  apply tk_cancel_mono. by apply tk_cancel_self.
Qed.

(** C4: The life of an RTSP stream. StartLivestream of an id the service does not
    know; a client whose handshake reaches recording under that id; any
    interleaved frames, requests and stray bytes until the frame loop ends. Then
    the frames handed to the source are exactly the well-formed RTP packets of the
    events before that end, in order; the session is connected as soon as the
    handshake is over, with a fresh FLV channel for the players; afterwards the
    channel is gone, the events say that the stream started and that it ended,
    once each; and the cleanup can run until the registry is as it was before,
    where the same id is accepted again. *)
Theorem rtsp_stream_life c s s1 d key base64_decode parse_message writes rs evs o sent left s2 frames sent2 :
  registry_coherent (sv_world s) -> pending_of s Rtsp !! key = None -> hub_channels (sv_hub s) !! key = None ->
  start_livestream c s key 2 Handled = (Ok d, s1) ->
  run_rtsp_handshake base64_decode parse_message (S (length rs)) writes RtspSession_new rs [] = Some (o, sent, left) ->
  ho_recording o = true -> ho_live_id o = Some key -> ho_sdp o <> None ->
  rtsp_connection base64_decode parse_message writes rs evs s1 = Some (s2, frames, sent2) ->
  (exists k, frames = omap rtp_frame (take k evs) /\ (k = length evs \/ exists ev, evs !! k = Some ev /\ may_end ev))
  /\ (exists conn sm, s2 = rtsp_close sm conn /\ get_state (sv_world sm) key = Some Connected
       /\ hub_channels (sv_hub sm) !! key = Some FlvLiveChannel_new)
  /\ w_events (sv_world s2)
     = w_events (sv_world s) ++ [SessionStarted key Rtsp; SessionEnded key Rtsp ClientDisconnect]
  /\ hub_channels (sv_hub s2) !! key = None
  /\ exists w3, rtc session_step (sv_world s2) w3 /\ w_sessions w3 = w_sessions (sv_world s)
     /\ exists d' s4, start_livestream c (set_world s2 w3) key 2 Handled = (Ok d', s4)
          /\ get_state (sv_world s4) key = Some Pending.
Proof.
  intros Hc Hp Hh Hstart Hhs Hrec Hid Hsdp Hconn.
  pose proof (grpc_start_outcome c s key 2 Handled) as Ho. rewrite Hstart in Ho.
  destruct Ho as (Hne & Hg & _ & p & [[? _]|[_ ->]] & _ & ->); [lia|].
  set (s1 := snd (precreate_commit s Rtsp key)) in *.
  destruct (precreated s Rtsp key Hg Hp) as (Hw1 & Hh1 & Hp1). fold s1 in Hw1, Hh1, Hp1.
  destruct (rtsp_opens s s1 key Hw1) as (conn & sb & Eo & [[Hci Hcl] Hbh Hbp Hbs Hba Hbst Hbe Hbt]).
  { by rewrite Hp1, lookup_insert_eq. }
  unfold rtsp_connection in Hconn. rewrite Hhs in Hconn. cbn in Hconn. rewrite Hrec, Hid in Hconn. cbn in Hconn.
  destruct (ho_sdp o); [|done]. rewrite Eo in Hconn.
  destruct (run_rtp_loop base64_decode parse_message (ho_session o) evs [] sent) as [[[s' fs] se]|] eqn:Er; [|done].
  cbn in Hconn. injection Hconn as <- <- <-.
  set (e := mkEntry (length (w_descs (sv_world s))) (fst (session_child s)) None).
  assert (w_sessions (sv_world sb) !! key = Some e) as Hse by (rewrite Hbs; cbn; by rewrite lookup_insert_eq).
  destruct (rtsp_close_alive sb conn key e Hba Hci Hse Hbt) as (Hs3 & Ht3 & Hev3 & Hh3 & Hp3).
  assert (registry_coherent (sv_world (rtsp_close sb conn))) as Hc3.
  { apply (steps_coherent s); [|exact Hc]. etransitivity; [apply (precreate_steps s Rtsp key)|]. fold s1.
    etransitivity; [|apply rtsp_close_steps]. pose proof (rtsp_open_steps s1 key) as Hs. by rewrite Eo in Hs. }
  split_and!.
  - destruct (rtp_loop_frames _ _ _ _ _ _ _ _ _ Er) as (k & -> & Hk). by exists k.
  - exists conn, sb. split_and!; [done|done|]. rewrite Hbh, Hh1. cbn. unfold or_default. rewrite Hh, lookup_insert_eq.
    by rewrite lookup_insert_eq.
  - rewrite Hev3, Hbe. by rewrite <- app_assoc.
  - done.
  - apply (id_free_again c s _ key 2 Rtsp); try done; [by auto|by rewrite Hs3|].
    change (pend (rtsp_close sb conn) true !! key = None). by rewrite Hp3.
Qed.
End RtspLife.

(** A client that announces, sets up, records, and sends one frame. *)
Lemma rtsp_stream_life_witness :
  let body := lit "m=video 0 RTP/AVP 96" ++ crlf ++ lit "a=rtpmap:96 H264/90000" in
  let msg n := n :: crlf ++ crlf in
  let parse data := match head data with
                    | Some 1 => ParsedRequest (mkRequest Announce (Some 1) (Some "/live/cam") body)
                    | Some 2 => ParsedRequest (mkRequest Setup (Some 2) (Some "/live/cam") [])
                    | _ => ParsedRequest (mkRequest RecordMethod (Some 3) None [])
                    end in
  let packet := [128; 96; 0; 1; 0; 0; 0; 0; 0; 0; 0; 7; 101] in
  let s1 := snd (start_livestream demo_config demo_servers "cam" 2 Handled) in
  let rs := [Ok (msg 1); Ok (msg 2); Ok (msg 3)] in
  let evs := [Read (Ok (Interleaved 0 packet)) true; Read (Ok (Interleaved 0 [1])) true; Read (Err Eof) true] in
  exists s2 fr sent w3, rtsp_connection (fun _ => None) parse (fun _ => true) rs evs s1 = Some (s2, [fr], sent)
  /\ hub_channels (sv_hub s2) !! "cam"%string = None
  /\ w_events (sv_world s2) = [SessionStarted "cam" Rtsp; SessionEnded "cam" Rtsp ClientDisconnect]
  /\ rtc session_step (sv_world s2) w3 /\ get_session w3 "cam" = None.
Proof.
  intros body msg parse packet s1 rs evs.
  assert (is_ok (fst (start_livestream demo_config demo_servers "cam" 2 Handled)) = true) as Hs by (vm_compute; reflexivity).
  assert (exists o sent left, run_rtsp_handshake (fun _ => None) parse (S (length rs)) (fun _ => true) RtspSession_new rs []
            = Some (o, sent, left) /\ ho_recording o = true /\ ho_live_id o = Some "cam" /\ ho_sdp o <> None)
    as (o & sent & left & Hh & Hrec & Hid & Hsdp).
  { eexists _, _, _. split; [vm_compute; reflexivity|]. split; [reflexivity|]. split; [reflexivity|discriminate]. }
  assert (match rtsp_connection (fun _ => None) parse (fun _ => true) rs evs s1 with
          | Some (_, [_], _) => true
          | _ => false
          end = true) as Hc by (vm_compute; reflexivity).
  assert (snd (start_livestream demo_config demo_servers "cam" 2 Handled) = s1) as Hs1 by reflexivity. clearbody s1.
  destruct (rtsp_connection (fun _ => None) parse (fun _ => true) rs evs s1) as [[[s2 [|fr [|? ?]]] sent2]|] eqn:Er; try discriminate Hc.
  destruct (start_livestream demo_config demo_servers "cam" 2 Handled) as [[d|er] s1'] eqn:Es; [|discriminate Hs]. cbn [snd] in Hs1. subst s1'.
  destruct (rtsp_stream_life demo_config demo_servers s1 d "cam" (fun _ => None) parse (fun _ => true) rs evs
    o sent left s2 [fr] sent2) as (_ & _ & Hev & Hch & w3 & Hr & Hw & _).
  - apply initial_coherent.
  - reflexivity.
  - reflexivity.
  - exact Es.
  - exact Hh.
  - exact Hrec.
  - exact Hid.
  - exact Hsdp.
  - exact Er.
  - exists s2, fr, sent2, w3. split; [reflexivity|]. split; [exact Hch|]. split; [exact Hev|]. split; [exact Hr|].
    unfold get_session. rewrite Hw. reflexivity.
Defined.
