(* ===== verification/RtmpPath.v ===== *)
(** * From an RTMP publisher to its FLV players
    [livestream-transport/src/source/rtmp.rs] and [rtmp/server.rs]: the object around
    the loop of [RtmpSource], with its token; and what the components between an RTMP
    publisher and an HTTP-FLV player do together: the precreation ([Grpc]), the
    connection and its handler ([RtmpSession]), the source, the running pipeline
    ([Chain]), the hub ([FlvHub]) and the player's body ([HttpFlv]). *)
From stdpp Require Import strings gmap list.
From S2P Require Import Prelude Types Rtp Flv Tokio FlvHub Nal FlvMux RtmpSource Config Hls Session Control.
From S2P Require Import Pads Factory Chain HttpFlv FlvPath RtmpSession Grpc StreamLife.

(** ** The source *)

Section Source.
Context {T : Type} `{TokenStore T}.

(** [RtmpSource]: [sc_frame_rx] tells whether its receiver is still there to be
    started. The pad is what it answers ([send_result]). *)
Record RtmpSource := mkRtmpSource {
  sc_stream_id : string;
  sc_codec_params : list CodecParams;
  sc_frame_rx : bool;
  sc_cancel : nat;
}.

(** How many frames the handler can be ahead. *)
Definition frame_channel_capacity : nat := 256.

Definition RtmpSource_new (stream_id : string) (codec_params : list CodecParams) (cancel : nat) : RtmpSource * nat :=
  (mkRtmpSource stream_id codec_params true cancel, frame_channel_capacity).

(** What the select of the loop sees: a frame, the end of the frames, or the
    cancellation. *)
Inductive frame_event := FrameRecv (frame : option RtmpRawFrame) | SourceCancelled.

Inductive source_status := Waiting | Retrying | Ended.

(** The loop of [start]: the packets the pad took, the tokens, and where the source
    is. A closed pad cancels the token and drops the packet; the loop ends when its
    select sees that, and may see more frames before. *)
Fixpoint source_loop (cancel : nat) (tk : T) (evs : list frame_event) (answers : list send_result) :
    list EncodedPacket * T * source_status :=
  match evs with
  | [] => ([], tk, Waiting)
  | SourceCancelled :: _ | FrameRecv None :: _ => ([], tk_cancel tk cancel, Ended)
  | FrameRecv (Some frame) :: evs =>
      match convert_frame frame with
      | None => source_loop cancel tk evs answers
      | Some pkt =>
          match send_pkt_or_stop answers with
          | (StillRetrying, _) => ([], tk, Retrying)
          | (Delivered, rest) =>
              let '(sent, tk, st) := source_loop cancel tk evs rest in (pkt :: sent, tk, st)
          | (StreamCancelled, rest) => source_loop cancel (tk_cancel tk cancel) evs rest
          end
      end
  end.

(** [start], which takes the receiver: a second one is an error. *)
Definition source_start (s : RtmpSource) (tk : T) (evs : list frame_event) (answers : list send_result) :
    result unit (list EncodedPacket * T * source_status) * RtmpSource :=
  if sc_frame_rx s
  then (Ok (source_loop (sc_cancel s) tk evs answers), mkRtmpSource (sc_stream_id s) (sc_codec_params s) false (sc_cancel s))
  else (Err tt, s).

Definition source_stop (s : RtmpSource) (tk : T) : T := tk_cancel tk (sc_cancel s).

(** [spawn_source_task]: an error is only reported. *)
Definition spawn_source_task (s : RtmpSource) (tk : T) (evs : list frame_event) (answers : list send_result) :
    list EncodedPacket * T :=
  match fst (source_start s tk evs answers) with
  | Ok (sent, tk, _) => (sent, tk)
  | Err _ => ([], tk)
  end.
End Source.

(** What [spawn_connection_handler] builds for a publisher: a child of the session's
    token for the source and the pipeline, whose parameters come in-band. *)
Definition publish_source {T} `{TokenStore T} (tk : T) (stream_key : string) (session_token : nat) : RtmpSource * T :=
  let '(pipeline_cancel, tk) := tk_child tk session_token in
  (fst (RtmpSource_new stream_key [] pipeline_cancel), tk).

(** ** What the source delivers *)

Section Delivery.
Context {T : Type} `{TokenLaws T}.

Definition frames_recv (frames : list RtmpRawFrame) : list frame_event := map (fun f => FrameRecv (Some f)) frames.

(** A pad that closed stays closed: nothing is delivered after it, whatever the
    source still sees. *)
Lemma closed_pad_delivers_nothing cancel evs : forall tk n, fst (fst (source_loop cancel tk evs (replicate n SendClosed))) = [].
Proof.
  induction evs as [|[[f|]|] evs IH]; intros tk n; try done. cbn [source_loop].
  destruct (convert_frame f); [|apply IH]. destruct n as [|n]; [done|]. apply IH.
Qed.

(** On a pad that answers [open] and is closed from then on, the loop sends what
    [source_run] says, and has cancelled its token when that has ended. *)
Lemma source_loop_run cancel frames : forall tk op n, ~ SendClosed ∈ op ->
  let '(sent, tk', _) := source_loop cancel tk (frames_recv frames) (op ++ replicate n SendClosed) in
  let '(sent', ended) := source_run frames (op ++ replicate n SendClosed) in
  sent = sent' /\ (tk_known tk cancel = true -> ended = true -> tk_cancelled tk' cancel = true)
  /\ (ended = false -> tk' = tk).
Proof.
  induction frames as [|f frames IH]; intros tk op n Ho; [done|].
  cbn [frames_recv map source_loop source_run]. destruct (convert_frame f) as [pkt|]; [|apply IH; done].
  fold (frames_recv frames). induction op as [|[] op IHo]; try (apply not_elem_of_cons in Ho as [? Ho]); try done.
  - destruct n as [|n]; [done|]. cbn [app replicate send_pkt_or_stop].
    pose proof (closed_pad_delivers_nothing cancel (frames_recv frames) (tk_cancel tk cancel) n) as Hs.
    pose proof (IH (tk_cancel tk cancel) [] n ltac:(set_solver)) as Hr. cbn [app] in Hr.
    destruct (source_loop cancel (tk_cancel tk cancel) _ _) as [[sent tk'] st]. cbn in Hs. subst sent.
    split_and!; [done| |discriminate]. intros Hk _. destruct (source_run frames _) as [sent' ended] in Hr.
    destruct Hr as (_ & Hyes & Hno). destruct ended; [by apply Hyes; [rewrite tk_cancel_known|]|].
    rewrite Hno by done. by apply tk_cancel_self.
  - cbn [app send_pkt_or_stop]. specialize (IH tk op n Ho).
    destruct (source_loop cancel tk _ _) as [[sent tk'] st], (source_run frames _) as [sent' ended].
    destruct IH as (-> & ? & ?). done.
  - cbn [app send_pkt_or_stop]. apply IHo, Ho.
Qed.

(** So it delivers what its pad takes. *)
Lemma source_run_delivered frames : forall op n, SendClosed ∉ op ->
  fst (source_run frames (op ++ replicate n SendClosed)) = delivered (omap convert_frame frames) (op ++ replicate n SendClosed).
Proof.
  induction frames as [|f frames IH]; intros op n Ho; [cbn; by rewrite delivered_nil|]. cbn [source_run omap list_omap].
  destruct (convert_frame f) as [pkt|]; [|by apply IH].
  induction op as [|[] op IHo]; try (apply not_elem_of_cons in Ho as [? Ho]); try done.
  - destruct n as [|n]; [done|]. cbn. by rewrite delivered_closed.
  - cbn [app send_pkt_or_stop delivered]. specialize (IH op n Ho). destruct (source_run frames _) as [sent c]. cbn in *. by rewrite IH.
  - cbn [app send_pkt_or_stop delivered]. apply IHo, Ho.
Qed.

Lemma source_loop_delivers cancel frames op n tk : SendClosed ∉ op ->
  fst (fst (source_loop cancel tk (frames_recv frames) (op ++ replicate n SendClosed)))
  = delivered (omap convert_frame frames) (op ++ replicate n SendClosed).
Proof.
  intros Ho. pose proof (source_loop_run cancel frames tk op n Ho) as Hr. rewrite <- source_run_delivered by done.
  destruct (source_loop _ _ _ _) as [[sent tk'] st], (source_run _ _) as [sent' ended]. by destruct Hr as [-> _].
Qed.

(** Where the source ends, its pipeline's token is cancelled. *)
Lemma source_ended_cancelled cancel evs : forall tk answers, tk_known tk cancel = true ->
  let '(_, tk', st) := source_loop cancel tk evs answers in
  tk_known tk' cancel = true /\ (st = Ended -> tk_cancelled tk' cancel = true).
Proof.
  induction evs as [|[[f|]|] evs IH]; intros tk answers Hk; cbn [source_loop].
  - done.
  - destruct (convert_frame f) as [pkt|]; [|by apply IH].
    destruct (send_pkt_or_stop answers) as [[] rest]; [| |done].
    + specialize (IH tk rest Hk). by destruct (source_loop cancel tk evs rest) as [[sent tk'] st].
    + apply IH. by rewrite tk_cancel_known.
  - rewrite tk_cancel_known. by rewrite tk_cancel_self.
  - rewrite tk_cancel_known. by rewrite tk_cancel_self.
Qed.

(** The source never cancels more than its pipeline: the session goes on. *)
Lemma source_spares_others cancel evs t : forall tk answers, tk_below tk cancel t = false ->
  let '(_, tk', _) := source_loop cancel tk evs answers in
  tk_cancelled tk' t = tk_cancelled tk t.
Proof.
  induction evs as [|[[f|]|] evs IH]; intros tk answers Hb; cbn [source_loop].
  - done.
  - destruct (convert_frame f) as [pkt|]; [|by apply IH].
    destruct (send_pkt_or_stop answers) as [[] rest]; [| |done].
    + specialize (IH tk rest Hb). by destruct (source_loop cancel tk evs rest) as [[sent tk'] st].
    + specialize (IH (tk_cancel tk cancel) rest ltac:(by rewrite tk_cancel_below)).
      destruct (source_loop _ _ evs rest) as [[sent tk'] st]. by rewrite IH, tk_cancel_spec, Hb, orb_false_r.
  - by rewrite tk_cancel_spec, Hb, orb_false_r.
  - by rewrite tk_cancel_spec, Hb, orb_false_r.
Qed.
End Delivery.

(** The pipeline's token is not the session's, and is cancelled with it. *)
Lemma publish_source_token {T} `{TokenLaws T} (tk : T) key session : tk_known tk session = true ->
  let '(s, tk') := publish_source tk key session in
  tk_known tk' (sc_cancel s) = true /\ tk_below tk' session (sc_cancel s) = true
  /\ tk_cancelled tk' session = tk_cancelled tk session
  /\ (tk_cancelled tk session = false -> tk_cancelled tk' (sc_cancel s) = false).
Proof.
  intros Hk. unfold publish_source. destruct (tk_child tk session) as [c tk'] eqn:E.
  pose proof (tk_child_self_known tk session) as H1. pose proof (tk_child_below tk session session c Hk) as H2.
  pose proof (tk_child_cancelled tk session c) as H3. pose proof (tk_child_old tk session session Hk) as H4.
  pose proof (tk_child_cancelled tk session session) as H5.
  rewrite E in *. cbn in *. rewrite decide_True in H2, H3 by done. rewrite tk_below_refl in H2 by done.
  split_and!; [done|done|rewrite H5; by destruct (decide _)|by rewrite H3].
Qed.

(** ** End to end *)

Section EndToEnd.
Context {T B : Type} `{TokenLaws T} `{HB : BroadcastChan FlvTag B} `{!BroadcastLaws FlvTag B}.
Context (ser : list Amf0Value -> option bytes)
        (des : bytes -> option (list Amf0Value))
        (gop : Amf0Value -> option (list (string * Amf0Value)))
        (amv : StreamMetadata -> list (string * Amf0Value) -> StreamMetadata).

(** C8: From an RTMP publisher to an HTTP-FLV player. StartLivestream of an id; a
    client that asks to publish under it, and any audio and video messages in any
    number of reads, until its connection ends; any interleaving of the source and
    the tasks of its pipeline. Whatever number of the frames its handler passed on
    the source has seen: its pad takes the first of the packets they convert to,
    each once and in order, however often it is full; the tags broadcast are tags
    of packets it took, in order and each once; while no inner pad of the pipeline
    runs full (where one does the packet is dropped) they are the first of all the
    tags of these packets, and all of them once the pad took every packet, nothing
    waits and no task was cut off. A player that subscribes after the tags [t1] and
    before [t2] gets the last video and audio headers among [t1], and then, as long
    as it is not more than 1024 tags behind, exactly [t2], as read back by this
    program's own tag decoder; and when the connection has ended, there is no
    channel left to subscribe to. *)
Theorem rtmp_stream_reaches_player c s s1 d key io n finish tag_ok app prelude setup rid skey app_name dropped batches rest viewer
    k hls_ok evs tk t1 t2 :
  pending_of s Rtmp !! key = None -> hub_channels (sv_hub s) !! key = None ->
  start_livestream c s key 1 Handled = (Ok d, s1) ->
  (forall i, io i = true) -> Forall (Forall (harmless app)) prelude -> Forall (harmless app) setup ->
  extract_stream_key skey app_name = key ->
  rest = [] \/ head rest = Some None -> PublishStreamFinished ∉ concat batches ->
  let media := omap media_frame (concat batches) in
  let reads := map Some prelude ++ Some (setup ++ PublishStreamRequested rid skey app_name :: dropped)
                 :: map Some batches ++ rest in
  let s2 := fst (spawn_connection_handler io (fun i => i <? n)%nat finish tag_ok s1 app reads true viewer) in
  let src := fst (publish_source tk key (fst (session_child s))) in
  let c0 := build_pipeline hls_ok (sc_codec_params src) 512 in
  let offers := offers hls_ok (sc_codec_params src) c0 evs in
  let pipeline := pipeline_run hls_ok (sc_codec_params src) c0 evs in
  let packets := omap convert_frame (take k media) in
  let sent := fst (spawn_source_task src tk (frames_recv (take k media)) (map snd offers)) in
  Forall (fun f => bytes_ok (rf_data f)) media -> (k <= n)%nat ->
  map fst offers = offered packets (map snd offers) ->
  processed (ec_sink pipeline) = t1 ++ t2 -> Forall sendable (t1 ++ t2) -> (length t2 <= 1024)%nat ->
  (sent = taken offers /\ sent `prefix_of` packets
   /\ (exists muxed, muxed `sublist_of` sent /\ t1 ++ t2 `sublist_of` fst (flv_mux_run FlvMux_new muxed))
   /\ (always hls_ok (sc_codec_params src) flv_room c0 evs = true ->
        t1 ++ t2 `prefix_of` fst (flv_mux_run FlvMux_new packets)
        /\ (length sent = length packets -> flv_settled pipeline = true -> t1 ++ t2 = fst (flv_mux_run FlvMux_new packets))))
  /\ exists h sm, s2 = close_publisher sm h /\ ph_frames h = take n media
    /\ (exists rx cached joined ch chunks,
         hub_subscribe (sunk (sv_hub sm) key t1) key = (Some (rx, cached), joined)
         /\ cached = opt_list (last_header 1 t1) ++ opt_list (last_header 2 t1)
         /\ hub_channels (sunk joined key t2) !! key = Some ch
         /\ bc_backlog (ch_sender ch) rx = t2
         /\ stream_body ser cached (map Recv t2 ++ [RecvClosed]) = build_flv_header cached :: chunks
         /\ Forall2 (fun b t => flv_tag_try_from des gop amv b = Ok t) chunks (cached ++ t2))
    /\ forall tags, hub_channels (sv_hub s2) !! key = None /\ fst (hub_subscribe (sunk (sv_hub s2) key tags) key) = None.
Proof.
  intros Hp Hh Hstart Hio Hpre Hset Hkey Hrest Hfin media reads s2 src c0 os pipeline packets sent Hb Hk Hoff Htags Hs Hl.
  destruct (rtmp_connection_relays c s s1 d key io n finish tag_ok app prelude setup rid skey app_name dropped batches rest viewer)
    as (h & sm & E2 & Hfr & Hkh & _ & Hch & _); try done.
  fold media reads s2 in E2, Hfr.
  assert (sc_frame_rx src = true) as Hrx by (unfold src, publish_source; by destruct (tk_child _ _)).
  assert (chain_ok [] true true true c0) as Hc0 by apply build_encoded_chain_ok.
  destruct (pipeline_run_ok hls_ok (sc_codec_params src) evs [] true true c0 Hc0 eq_refl) as [Hok _].
  destruct (chain_ok_delivers _ _ _ _ _ Hok) as (S1 & S2 & _ & Hflv & _). cbn [Datatypes.app andb] in S1, S2, Hflv.
  fold pipeline os in S1, S2, Hflv. rewrite Htags in S2, Hflv.
  destruct (answers_shape hls_ok (sc_codec_params src) evs [] true true c0 Hc0 eq_refl) as (op & m & Hans & Hop). fold os in Hans.
  pose proof (taken_offered os packets Hoff) as Htk.
  assert (sent = taken os) as Hsent.
  { rewrite Htk, Hans. unfold sent. rewrite Hans. unfold spawn_source_task, source_start. rewrite Hrx. cbn [fst].
    pose proof (source_loop_delivers (sc_cancel src) (take k media) op m tk Hop) as Hd. fold packets in Hd.
    by destruct (source_loop _ _ _ _) as [[? ?] ?]. }
  assert (taken os `prefix_of` packets) as Hpre' by (rewrite Htk, Hans; by apply delivered_prefix).
  assert (Forall media_tag (t1 ++ t2)) as Hm.
  { apply Forall_forall. intros t Hin. apply (sublist_subseteq _ _ S2) in Hin. revert t Hin. apply Forall_forall, flv_mux_run_media.
    apply Forall_forall. intros p Hin. apply (sublist_subseteq _ _ S1) in Hin. destruct Hpre' as [more Hmore].
    assert (p ∈ packets) as Hin' by (rewrite Hmore; apply elem_of_app; by left).
    revert p Hin Hin'. intros p _. revert p. apply Forall_forall, converted_bytes_ok. by apply Forall_take. }
  split.
  { rewrite Hsent. split_and!; [done|done|by eexists|]. intros Hroom. destruct (Hflv Hroom) as (_ & Hpx & Hall).
    split; [etrans; [exact Hpx|by apply flv_mux_run_prefix]|]. intros Hlen Hset'. rewrite (Hall Hset').
    destruct Hpre' as [more Hmore]. rewrite Hmore, length_app in Hlen. destruct more; [|cbn in Hlen; lia].
    by rewrite Hmore, app_nil_r. }
  exists h, sm. split_and!; [done|done|by apply tags_reach_player|].
  intros tags. assert (hub_channels (sv_hub s2) !! key = None) as Hgone.
  { rewrite E2. unfold close_publisher. cbn. rewrite Hkh. apply lookup_delete_eq. }
  split; [done|]. unfold sunk. rewrite flv_sink_consumes. cbn [snd fs_broadcast].
  assert (foldl (fun h t => hub_broadcast h key t) (sv_hub s2) tags = sv_hub s2) as ->.
  { induction tags as [|t tags IH] using rev_ind; [done|]. rewrite foldl_snoc, IH. unfold hub_broadcast. by rewrite Hgone. }
  unfold hub_subscribe. by rewrite Hgone.
Qed.
End EndToEnd.

(** A camera that sends a sequence header and a keyframe, and a player that joins
    between them. *)
Lemma rtmp_stream_reaches_player_witness :
  let header := [0x17; 0; 0; 0; 0; 1; 0x64] in
  let unit := [0x17; 1; 0; 0; 0; 0; 0; 0; 2; 0x65; 0x88] in
  let batches := [[VideoDataReceived header 0]; [ClientChunkSizeChanged 4096; VideoDataReceived unit 40]] in
  let reads := [Some [ConnectionRequested 1 "live?t=1"]; Some [UnhandleableAmf0Command "FCPublish"; PublishStreamRequested 2 "live/cam" "live"];
    Some [VideoDataReceived header 0]; Some [ClientChunkSizeChanged 4096; VideoDataReceived unit 40]; None] in
  let s1 := snd (start_livestream demo_config demo_servers "cam" 1 Handled) in
  let s2 := fst (spawn_connection_handler (fun _ => true) (fun i => i <? 9)%nat (fun _ => true) (fun _ => true) s1 "live" reads true []) in
  let packets := omap convert_frame (omap media_frame (concat batches)) in
  let evs := map SourceSends packets ++ concat (replicate 8 flv_round) in
  let pipeline := pipeline_run true [] (build_pipeline true [] 512) evs in
  processed (ec_sink pipeline) = fst (flv_mux_run FlvMux_new packets)
  /\ exists h sm rx joined chunks, s2 = close_publisher sm h
    /\ hub_subscribe (sunk (sv_hub sm) "cam" [tag_video 0 header]) "cam" = (Some (rx, [tag_video 0 header]), joined)
    /\ stream_body (fun _ => None) [tag_video 0 header] (map Recv [tag_video 40 unit] ++ [RecvClosed])
       = build_flv_header [tag_video 0 header] :: chunks
    /\ length chunks = 2%nat /\ hub_channels (sv_hub s2) !! "cam"%string = None.
Proof.
  intros header unit batches reads s1 s2 packets evs pipeline.
  destruct (start_livestream demo_config demo_servers "cam" 1 Handled) as [[d|er] s1'] eqn:Es; [|vm_compute in Es; discriminate].
  destruct (rtmp_stream_reaches_player (fun _ => None) (fun _ => None) (fun _ => None) (fun m _ => m)
    demo_config demo_servers s1' d "cam" (fun _ => true) 9 (fun _ => true) (fun _ => true) "live"
    [[ConnectionRequested 1 "live?t=1"]] [UnhandleableAmf0Command "FCPublish"] 2 "live/cam" "live" [] batches [None] []
    2 true evs (w_tokens (sv_world demo_servers)) [tag_video 0 header] [tag_video 40 unit])
    as ((Hsent & _ & _ & Hall) & h & sm & E2 & _ & (rx & cached & joined & ch & chunks & Hsub & Hcached & _ & _ & Hbody & Hdec) & Hgone).
  - reflexivity.
  - reflexivity.
  - exact Es.
  - intros i. reflexivity.
  - do 2 (constructor; [|constructor]). right. vm_compute. reflexivity.
  - repeat constructor.
  - vm_compute. reflexivity.
  - right. reflexivity.
  - intros Hin. repeat (apply elem_of_cons in Hin as [|Hin]; [discriminate|]). by apply elem_of_nil in Hin.
  - repeat (constructor; [apply bytes_ok_of; vm_compute; reflexivity|]). constructor.
  - lia.
  - vm_compute. reflexivity.
  - vm_compute. reflexivity.
  - repeat (constructor; [unfold sendable, u24_max; cbn [tag_video tag_payload header unit length]; lia|]). constructor.
  - cbn. lia.
  - split.
    { destruct Hall as [_ Heq]; [vm_compute; reflexivity|]. etrans; [|apply Heq; vm_compute; reflexivity]. vm_compute. reflexivity. }
    change (cached = [tag_video 0 header]) in Hcached. rewrite Hcached in Hsub, Hbody, Hdec.
    exists h, sm, rx, joined, chunks. split_and!; [exact E2|exact Hsub|exact Hbody| |exact (proj1 (Hgone []))].
    by rewrite (Forall2_length _ _ _ Hdec).
Defined.
