(* ===== verification/RtspPath.v ===== *)
(** * From an RTSP publisher to its FLV players
    [livestream-transport/src/source/rtsp.rs] and what comes after it: the source
    that turns the frames of a connection into packets, and what the components
    between an RTSP publisher and an HTTP-FLV player do together: the frame loop
    ([RtspSession]), the source, the running pipeline ([RtspChain],
    [Chain]), the hub ([FlvHub]) and the player's body ([HttpFlv]). *)
From stdpp Require Import strings gmap list.
From S2P Require Import Prelude Types Rtp Flv Tokio FlvHub Nal FlvMux RtmpSource Config Hls AvPacket Ffmpeg.
From S2P Require Import Transcode Pads Factory Chain HttpFlv FlvPath RtpDemux RtspChain RtspWire Session Control RtspSession RtmpSession StreamLife.

(** ** The source *)

(** What its select sees: a frame, the end of the frames, or the cancellation. *)
Inductive source_event := FrameRecv (frame : option RawRtpFrame) | SourceCancelled.

(** [send_pkt_or_stop]: whether the packet was taken, and the answers left;
    [None]: still retrying. A closed pad stops nothing: the packet is dropped. *)
Fixpoint rtsp_send_pkt_or_stop (answers : list send_result) : option (bool * list send_result) :=
  match answers with
  | [] => None
  | SendOk :: rest => Some (true, rest)
  | SendClosed :: rest => Some (false, rest)
  | SendFull :: rest => rtsp_send_pkt_or_stop rest
  end.

Inductive source_state := Idling | Sending | Stopped.

(** The loop of [start]: the packets the pad took, and where the source is. *)
Fixpoint rtsp_source_loop (evs : list source_event) (answers : list send_result) : list RtpPacket * source_state :=
  match evs with
  | [] => ([], Idling)
  | SourceCancelled :: _ | FrameRecv None :: _ => ([], Stopped)
  | FrameRecv (Some frame) :: evs =>
      match rtsp_send_pkt_or_stop answers with
      | None => ([], Sending)
      | Some (taken, rest) =>
          let '(sent, st) := rtsp_source_loop evs rest in
          ((if taken then [rtp_packet frame] else []) ++ sent, st)
      end
  end.

(** [RtspSource]: whether its receiver is still there to be started. *)
Record RtspSource := mkRtspSource { rs_frame_rx : bool }.

Definition RtspSource_new : RtspSource := mkRtspSource true.

Definition rtsp_source_start (s : RtspSource) (evs : list source_event) (answers : list send_result) :
    result unit (list RtpPacket * source_state) * RtspSource :=
  if rs_frame_rx s then (Ok (rtsp_source_loop evs answers), mkRtspSource false) else (Err tt, s).

(** [stop] cancels the connection's token. *)
Definition rtsp_source_stop {T B} `{TokenStore T} `{BroadcastChan FlvTag B} (s : Servers T B) (c : RtspSession.Connection) :
    Servers T B :=
  with_servers s (fun w => cancel_token w (cn_cancel c)).

(** ** What the source delivers *)


(** Where the pipeline could not be built its input pad is closed: the source takes
    every frame of the connection and delivers none. *)
Lemma no_pipeline_no_packets frames : forall n, (length frames <= n)%nat ->
  rtsp_source_loop (map (fun f => FrameRecv (Some f)) frames) (replicate n SendClosed) = ([], Idling).
Proof.
  induction frames as [|f frames IH]; intros [|n] Hn; try done; [cbn in Hn; lia|].
  cbn [map replicate rtsp_source_loop rtsp_send_pkt_or_stop]. rewrite IH; [done|cbn in Hn; lia].
Qed.

(** ** From the wire to the tags *)

Section Wire.
(** [av_rescale_q]. *)
Context (rescale : Z -> AVRational -> AVRational -> Z).
Abbreviation frame_call := (list nat * read_outcome)%type.
Abbreviation demux_stream := (option Codec * option bytes)%type.




End Wire.

(** ** Through the transcoder *)








(** ** End to end *)

Section EndToEnd.
Context {B : Type} `{HB : BroadcastChan FlvTag B} `{!BroadcastLaws FlvTag B}.
Context (rescale : Z -> AVRational -> AVRational -> Z).
Context (ser : list Amf0Value -> option bytes)
        (des : bytes -> option (list Amf0Value))
        (gop : Amf0Value -> option (list (string * Amf0Value)))
        (amv : StreamMetadata -> list (string * Amf0Value) -> StreamMetadata).
Context (base64_decode : bytes -> option bytes) (parse_message : bytes -> parsed_message).
Abbreviation frame_call := (list nat * read_outcome)%type.

(** What the demultiplexer makes of the packets of the source; [calls]: what FFmpeg
    did for each. *)
Definition demuxed (streams : list (option Codec * option bytes)) (packets : list RtpPacket) (calls : list (list frame_call)) :
    list EncodedPacket * list (list (option bytes)) :=
  let '(outs, rss, _) := process_all rescale RtpDemuxProcessor_new streams (zip (map rp_data packets) calls) in
  (concat (omap id outs), rss).










End EndToEnd.

(** ** The audio configuration *)

Section AudioConfig.
Context (rescale : Z -> AVRational -> AVRational -> Z).

(** Packets that differ at most in the extradata of AAC. *)
Definition same_but_asc (p q : EncodedPacket) : Prop :=
  q = mkPacket (pk_codec p) (pk_stream_index p) (pk_data p) (pk_pts_ms p) (pk_dts_ms p) (pk_is_keyframe p)
        (pk_is_sequence_header p) (pk_is_script_data p) (pk_extradata q)
  /\ (pk_codec p <> Aac -> pk_extradata p = pk_extradata q).

Lemma same_but_asc_refl p : same_but_asc p p.
Proof. by destruct p. Qed.

Lemma mux_same_but_asc m p q : same_but_asc p q -> flv_mux_process m p = flv_mux_process m q.
Proof.
  destruct p as [codec si data pts dts key hdr script e], q as [codec' si' data' pts' dts' key' hdr' script' e'].
  unfold same_but_asc. cbn. intros [[= -> -> -> -> -> -> -> ->] He]. destruct codec; try (by rewrite He). done.
Qed.

Lemma mux_run_same_but_asc ps qs : Forall2 same_but_asc ps qs -> forall m, flv_mux_run m ps = flv_mux_run m qs.
Proof.
  induction 1 as [|p q ps qs Hpq _ IH]; intros m; [done|]. cbn. rewrite (mux_same_but_asc m p q Hpq).
  destruct (flv_mux_process m q) as [tags m']. by rewrite IH.
Qed.

(** Streams of the same codecs that differ in nothing but the configurations of AAC. *)
Definition same_stream (a b : option Codec * option bytes) : Prop :=
  fst a = fst b /\ (fst a <> Some Aac -> snd a = snd b) /\ (is_Some (snd a) <-> is_Some (snd b)).

Lemma headers_same_but_asc s1 s2 : Forall2 same_stream s1 s2 ->
  Forall2 same_but_asc (sequence_headers s1) (sequence_headers s2).
Proof.
  unfold sequence_headers. intros Hs.
  assert (forall f, (forall k a b, same_stream a b -> Forall2 same_but_asc (f k a) (f k b)) ->
    Forall2 same_but_asc (concat (imap f s1)) (concat (imap f s2))) as Hg.
  { induction Hs as [|a b s1 s2 Hab _ IH]; intros f Hf; [constructor|]. cbn. apply Forall2_app; [by apply Hf|].
    apply IH. intros k. apply Hf. }
  apply Hg. intros k [c e] [c' e'] ([= <-] & He & Hsome). cbn in *.
  destruct c as [c|]; [|constructor]. destruct e as [e|], e' as [e'|]; cbn; try constructor.
  - split; [done|]. cbn. intros Hc. apply He. congruence.
  - constructor.
  - destruct (proj1 Hsome) as [? ?]; [eauto|done].
  - destruct (proj2 Hsome) as [? ?]; [eauto|done].
Qed.

(** C10: No FLV player of an RTSP stream is given the configuration of its AAC audio:
    streams that differ only in it lead to the same tags, whatever is sent. (The
    demultiplexer puts the configuration in the extradata of a header without
    payload, and the muxer writes the payload of an audio header.) *)
Theorem rtsp_audio_config_lost s1 s2 packets calls m : Forall2 same_stream s1 s2 ->
  flv_mux_run m (fst (demuxed rescale s1 packets calls)) = flv_mux_run m (fst (demuxed rescale s2 packets calls)).
Proof.
  intros Hs. apply mux_run_same_but_asc. unfold demuxed.
  pose proof (process_all_output rescale s1 (zip (map rp_data packets) calls) RtpDemuxProcessor_new) as H1.
  pose proof (process_all_output rescale s2 (zip (map rp_data packets) calls) RtpDemuxProcessor_new) as H2.
  destruct (process_all rescale _ s1 _) as [[o1 r1] p1], (process_all rescale _ s2 _) as [[o2 r2] p2].
  cbn [fst snd] in *. subst o1 o2. generalize (zip (map rp_data packets) calls). intros inputs.
  pose proof (headers_same_but_asc s1 s2 Hs) as Hh.
  assert (forall f1 f2 : nat -> bytes * list (list nat * read_outcome) -> option (list EncodedPacket),
    (forall k i, option_Forall2 (Forall2 same_but_asc) (f1 k i) (f2 k i)) ->
    Forall2 same_but_asc (concat (omap id (imap f1 inputs))) (concat (omap id (imap f2 inputs)))) as Hg.
  { induction inputs as [|i inputs IH]; intros f1 f2 Hf; [constructor|]. cbn.
    pose proof (IH (f1 ∘ S) (f2 ∘ S) (fun k i => Hf (S k) i)) as Hr.
    destruct (Hf 0%nat i) as [l1 l2 Hl|]; cbn; [by apply Forall2_app|done]. }
  apply Hg. intros k [d c]. cbn. destruct (call_frames rescale c) as [fs|]; cbn; constructor.
  apply Forall2_app; [by destruct (_ && _)|]. apply Forall_Forall2_diag, Forall_true. apply same_but_asc_refl.
Qed.
End AudioConfig.

(** Two configurations, the same tags: a header without one, and the frame. *)
Lemma rtsp_audio_config_lost_witness :
  let packets := [mkRtpPacket 97 0 0 true [128; 97]] in
  let calls := [[([1500; 1500]%nat, FrameRead (mkAvPacket 0 [33; 16] 0 0 0 1) Aac (1, 44100)); ([1500]%nat, NoMoreFrames)]] in
  let tags asc := fst (flv_mux_run FlvMux_new (fst (demuxed (fun v _ _ => v) [(Some Aac, Some asc)] packets calls))) in
  tags [0x12; 0x10] = [TAudio 0 [0xAF; 0]; TAudio 0 [0xAF; 1; 33; 16]] /\ tags [0x12; 0x10] = tags [0x11; 0x90].
Proof.
  intros packets calls tags. split; [vm_compute; reflexivity|]. unfold tags.
  rewrite (rtsp_audio_config_lost (fun v _ _ => v) [(Some Aac, Some [0x12; 0x10])] [(Some Aac, Some [0x11; 0x90])] packets calls
    FlvMux_new ltac:(constructor; [split_and!; by eauto|constructor])).
  reflexivity.
Defined.

(** ** A motion JPEG camera *)

