(* ===== verification/Main.v ===== *)
(** * Start-up and shutdown [src/src/main.rs]
    The construction of the servers, of which each may fail on its own, what the
    control plane is told about them, and the main task: it waits for a server's
    error or a shutdown signal, cancels every server and drains them for ten
    seconds at most. The order in which servers end, signals arrive, time passes
    and the main task runs is a list of events. Times are in milliseconds. *)
From Stdlib Require Import String.
From stdpp Require Import strings list gmap.
From S2P Require Import Prelude Types Tokio Session Config Sinks HttpFlv Grpc.

(** ** The signals of a shutdown *)

(** The signals [wait_for_shutdown_signal] listens for, on Unix. *)
Inductive unix_signal := SIGINT | SIGTERM.

#[export] Instance unix_signal_eq_dec : EqDecision unix_signal.
Proof. solve_decision. Defined.

(** Whether the branch of a signal is ready; one that was not registered is at once. *)
Definition signal_ready (registered : unix_signal -> bool) (arrived : list unix_signal) (s : unix_signal) : bool :=
  if registered s then bool_decide (s ∈ arrived) else true.

(** Whether it has returned, by the time some signals arrived. *)
Definition wait_for_shutdown_signal (registered : unix_signal -> bool) (arrived : list unix_signal) : bool :=
  signal_ready registered arrived SIGINT || signal_ready registered arrived SIGTERM.

(** With both handlers in place the wait ends with the first signal; when one cannot
    be registered it ends at once, and the program shuts down as it has started. *)
Theorem shutdown_signal_waits registered arrived :
  (wait_for_shutdown_signal registered [] = false <-> registered SIGINT = true /\ registered SIGTERM = true)
  /\ (registered SIGINT = true -> registered SIGTERM = true ->
      wait_for_shutdown_signal registered arrived = true <-> arrived <> []).
Proof.
  unfold wait_for_shutdown_signal, signal_ready. split.
  - destruct (registered SIGINT), (registered SIGTERM); cbn; naive_solver.
  - intros -> ->. rewrite orb_true_iff, !bool_decide_eq_true.
    destruct arrived as [|[] arrived].
    + split; [|done]. by intros [[]%elem_of_nil|[]%elem_of_nil].
    + split; [done|]. intros _. left. set_solver.
    + split; [done|]. intros _. right. set_solver.
Qed.

(** ** Start-up *)

(** What the configuration sources, the network and the object store answer. *)
Record Outside := mkOutside {
  os_settings : option AppConfig;          (* built and deserialized *)
  os_minio_client : bool;
  os_bucket : nat -> attempt;
  os_rtmp_binds : bool;
  os_rtsp_binds : bool;
  os_http_flv_binds : bool;
}.

Record App := mkApp {
  ap_uploads : bool;                       (* false: the null uploader *)
  ap_rtmp : bool;
  ap_rtsp : bool;
  ap_http_flv : bool;
  ap_rtmp_ttl : Z;
  ap_rtsp_ttl : Z;
  ap_grpc : Grpc.GrpcConfig;
}.

(** [None]: [load_config] panics. *)
Definition load_config (o : Outside) : option AppConfig :=
  c ← os_settings o; if is_ok (AppConfig_validate c) then Some c else None.

Definition create_uploader (o : Outside) (c : AppConfig) : bool :=
  match st_minio (ac_storage c) with
  | None => false
  | Some _ => os_minio_client o && fst (ensure_bucket (os_bucket o))
  end.

Definition start (o : Outside) : option App :=
  c ← load_config o;
  let rtmp := tp_rtmp (ac_transport c) in
  let rtsp := tp_rtsp (ac_transport c) in
  let http_flv := sv_http_flv (ac_services c) in
  let rtmp_server := if os_rtmp_binds o then Some tt else None in
  let rtsp_server := if os_rtsp_binds o then Some tt else None in
  let grpc := Grpc.mkGrpcConfig (Config.gc_port (sv_grpc (ac_services c)))
    ((fun _ => rm_port rtmp) <$> rtmp_server) (rm_app_name rtmp)
    ((fun _ => rs_port rtsp) <$> rtsp_server) (hf_enabled http_flv) (hf_port http_flv) in
  Some (mkApp (create_uploader o c) (is_some rtmp_server) (is_some rtsp_server) (os_http_flv_binds o)
    (rm_session_ttl_secs rtmp * 1000) (rs_session_ttl_secs rtsp * 1000) grpc).

(** What a started process advertises. It starts for every valid
    configuration, whatever the network and the object store answer. The service
    info holds the RTMP and the RTSP port exactly when that server is up, and
    sessions wait between one second and a day for their publisher. But the
    HTTP-FLV port, and the playback path of every stream when playback is
    enabled, are advertised from the configuration alone, also when that server
    could not bind. *)
Theorem start_advertises o c : os_settings o = Some c -> AppConfig_validate c = Ok tt ->
  exists a, start o = Some a
  /\ ap_rtmp a = os_rtmp_binds o /\ ap_rtsp a = os_rtsp_binds o /\ ap_http_flv a = os_http_flv_binds o
  /\ (let i := get_service_info (ap_grpc a) in
      (si_rtmp_port i <> 0 <-> ap_rtmp a = true) /\ (si_rtsp_port i <> 0 <-> ap_rtsp a = true)
      /\ si_http_flv_port i = hf_port (sv_http_flv (ac_services c)))
  /\ (forall d, st_playback_http_flv (descriptor_to_proto (ap_grpc a) d)
       = if hf_enabled (sv_http_flv (ac_services c))
         then Some (hf_port (sv_http_flv (ac_services c)), playback_path (sd_id d)) else None)
  /\ 1000 <= ap_rtmp_ttl a <= 86400000 /\ 1000 <= ap_rtsp_ttl a <= 86400000.
Proof.
  intros Hs Hv. unfold start, load_config. rewrite Hs. cbn. rewrite Hv. cbn. eexists. split; [done|]. cbn.
  apply config_validate_iff in Hv. destruct (cv_ports _ Hv), (cv_rtmp_ttl _ Hv), (cv_rtsp_ttl _ Hv).
  split; [by destruct (os_rtmp_binds o)|]. split; [by destruct (os_rtsp_binds o)|]. split; [done|].
  split; [split; [destruct (os_rtmp_binds o)|split; [destruct (os_rtsp_binds o)|done]]; cbn; naive_solver|].
  split; [|lia]. intros d. unfold descriptor_to_proto, http_flv_path. cbn. by destruct (hf_enabled _).
Qed.

(** ** The main task *)

Inductive Server := RtmpServer | GrpcServer | HttpFlvServer | RtspServer.

#[export] Instance Server_eq_dec : EqDecision Server.
Proof. solve_decision. Defined.

Definition drain_timeout : Z := 10000.

(** A task spawned by [spawn_server]: an error is sent, the task itself returns. *)
Inductive task_state := Running | Finished | Panicked.

#[export] Instance task_state_eq_dec : EqDecision task_state.
Proof. solve_decision. Defined.

(** The handles; gRPC is always started. *)
Record Handles := mkHandles {
  rtmp_handle : option task_state;
  grpc_handle : option task_state;
  http_flv_handle : option task_state;
  rtsp_handle : option task_state;
}.

Definition handle_of (h : Handles) (s : Server) : option task_state :=
  match s with
  | RtmpServer => rtmp_handle h | GrpcServer => grpc_handle h
  | HttpFlvServer => http_flv_handle h | RtspServer => rtsp_handle h
  end.

Definition set_handle (h : Handles) (s : Server) (t : task_state) : Handles :=
  match s with
  | RtmpServer => mkHandles (Some t) (grpc_handle h) (http_flv_handle h) (rtsp_handle h)
  | GrpcServer => mkHandles (rtmp_handle h) (Some t) (http_flv_handle h) (rtsp_handle h)
  | HttpFlvServer => mkHandles (rtmp_handle h) (grpc_handle h) (Some t) (rtsp_handle h)
  | RtspServer => mkHandles (rtmp_handle h) (grpc_handle h) (http_flv_handle h) (Some t)
  end.

(** [drain_handle], once it is known whether the task ended: [None] still waits. *)
Definition drain_handle (handle : option task_state) : option bool :=
  match handle with
  | None => Some true
  | Some Running => None
  | Some Finished => Some true
  | Some Panicked => Some false
  end.

Definition count (b : bool) : nat := if b then 1 else 0.

Definition started_count (h : Handles) : nat :=
  (count (is_some (rtmp_handle h)) + 1 + count (is_some (http_flv_handle h)) + count (is_some (rtsp_handle h)))%nat.

Definition drained_count (h : Handles) (timed_out : bool) : nat :=
  let drained s := if timed_out then false else default false (drain_handle (handle_of h s)) in
  (count (drained RtmpServer) + count (drained GrpcServer) + count (drained HttpFlvServer) + count (drained RtspServer))%nat.

Definition all_ended (h : Handles) : bool :=
  forallb (fun s => is_some (drain_handle (handle_of h s))) [RtmpServer; GrpcServer; HttpFlvServer; RtspServer].

Definition panics (h : Handles) : nat :=
  countb (fun s => bool_decide (handle_of h s = Some Panicked)) [RtmpServer; GrpcServer; HttpFlvServer; RtspServer].
Definition absent (h : Handles) : nat :=
  countb (fun s => bool_decide (handle_of h s = None)) [RtmpServer; GrpcServer; HttpFlvServer; RtspServer].

Section Main.
(** [anyhow::Error]. *)
Context {E : Type}.

Inductive phase :=
| Serving
| Draining (first_error : option E) (since : Z)
| Exited (result : option E) (not_drained : nat).

Record Proc := mkProc {
  pr_handles : Handles;
  pr_chan : option E;                      (* the error channel, of capacity 1 *)
  pr_unreported : list E;                  (* errors that were only logged *)
  pr_cancelled : bool;
  pr_now : Z;
  pr_phase : phase;
}.

Definition launch (a : App) : Proc :=
  let spawn (server : bool) := if server then Some Running else None in
  mkProc (mkHandles (spawn (ap_rtmp a)) (Some Running) (spawn (ap_http_flv a)) (spawn (ap_rtsp a)))
    None [] false 0 Serving.

(** [spawn_server]: the task reports an error best effort, then returns. *)
Definition server_ends (p : Proc) (s : Server) (res : result E unit) : Proc :=
  let h := set_handle (pr_handles p) s Finished in
  match res with
  | Ok _ => mkProc h (pr_chan p) (pr_unreported p) (pr_cancelled p) (pr_now p) (pr_phase p)
  | Err e =>
      match pr_chan p with
      | None => mkProc h (Some e) (pr_unreported p) (pr_cancelled p) (pr_now p) (pr_phase p)
      | Some _ => mkProc h (pr_chan p) (pr_unreported p ++ [e]) (pr_cancelled p) (pr_now p) (pr_phase p)
      end
  end.

Definition with_handles (p : Proc) (h : Handles) : Proc :=
  mkProc h (pr_chan p) (pr_unreported p) (pr_cancelled p) (pr_now p) (pr_phase p).
Definition with_phase (p : Proc) (ph : phase) : Proc :=
  mkProc (pr_handles p) (pr_chan p) (pr_unreported p) (pr_cancelled p) (pr_now p) ph.

(** A poll of the main task: the [select!], which may take either branch when
    both are ready, then the drain under its timeout. *)
Definition main_polls (p : Proc) (error_first : bool) : Proc :=
  match pr_phase p with
  | Serving =>
      let drain first_error chan :=
        mkProc (pr_handles p) chan (pr_unreported p) true (pr_now p) (Draining first_error (pr_now p)) in
      match pr_chan p with
      | Some e => if error_first || negb (pr_cancelled p) then drain (Some e) None else drain None (Some e)
      | None => if pr_cancelled p then drain None None else p
      end
  | Draining first_error since =>
      let h := pr_handles p in
      if all_ended h then with_phase p (Exited first_error (started_count h - drained_count h false))
      else if since + drain_timeout <=? pr_now p
      then with_phase p (Exited first_error (started_count h - drained_count h true))
      else p
  | Exited _ _ => p
  end.

Inductive event :=
| ServerEnds (s : Server) (res : result E unit)
| ServerPanics (s : Server)
| ShutdownSignal
| Passes (d : Z)
| MainPolls (error_first : bool).

(** Nothing happens once [main] has returned; only running tasks can end. *)
Definition step (p : Proc) (e : event) : Proc :=
  match pr_phase p with
  | Exited _ _ => p
  | _ =>
      match e with
      | ServerEnds s res => if decide (handle_of (pr_handles p) s = Some Running) then server_ends p s res else p
      | ServerPanics s => if decide (handle_of (pr_handles p) s = Some Running)
                          then with_handles p (set_handle (pr_handles p) s Panicked) else p
      | ShutdownSignal => mkProc (pr_handles p) (pr_chan p) (pr_unreported p) true (pr_now p) (pr_phase p)
      | Passes d => mkProc (pr_handles p) (pr_chan p) (pr_unreported p) (pr_cancelled p) (pr_now p + Z.max 0 d) (pr_phase p)
      | MainPolls error_first => main_polls p error_first
      end
  end.

Definition run (p : Proc) (evs : list event) : Proc := foldl step p evs.

(** The errors servers returned, in order. *)
Definition fails (p : Proc) (e : event) : list E :=
  match pr_phase p, e with
  | Exited _ _, _ => []
  | _, ServerEnds s (Err x) => if decide (handle_of (pr_handles p) s = Some Running) then [x] else []
  | _, _ => []
  end.

Fixpoint failures (p : Proc) (evs : list event) : list E :=
  match evs with [] => [] | e :: evs => fails p e ++ failures (step p e) evs end.

(** ** Invariants *)

Definition signalled (evs : list event) : Prop := ShutdownSignal ∈ evs.

Definition caused (first_error : option E) (evs : list event) (fs : list E) : Prop :=
  match first_error with Some e => head fs = Some e | None => signalled evs end.

Definition report_ok (p : Proc) (not_drained : nat) : Prop :=
  let h := pr_handles p in
  (all_ended h = true /\ not_drained = (panics h - absent h)%nat)
  \/ (all_ended h = false /\ not_drained = started_count h).

Definition main_inv (p : Proc) (evs : list event) (fs : list E) : Prop :=
  is_Some (grpc_handle (pr_handles p)) /\
  match pr_phase p with
  | Serving => pr_chan p = head fs /\ (pr_cancelled p = true <-> signalled evs)
  | Draining first_error since => pr_cancelled p = true /\ since <= pr_now p /\ caused first_error evs fs
  | Exited first_error not_drained =>
      pr_cancelled p = true /\ caused first_error evs fs /\ report_ok p not_drained
  end.

Lemma handle_of_set h s t s' : handle_of (set_handle h s t) s' = if decide (s = s') then Some t else handle_of h s'.
Proof. by destruct s, s'. Qed.

Lemma set_grpc h s t : is_Some (grpc_handle h) -> is_Some (grpc_handle (set_handle h s t)).
Proof. destruct s; cbn; eauto. Qed.

(** What the final report counts: with a drain in time, the panics beyond the
    servers that were never started; otherwise every server started. *)
Lemma report_drained h : is_Some (grpc_handle h) -> all_ended h = true ->
  (started_count h - drained_count h false = panics h - absent h)%nat.
Proof.
  destruct h as [[[]|] [[]|] [[]|] [[]|]]; intros [? [=]]; try done; vm_compute; done.
Qed.

Lemma caused_app fe evs fs e fs' : caused fe evs fs -> caused fe (evs ++ [e]) (fs ++ fs').
Proof.
  destruct fe; cbn; [|unfold signalled; set_solver]. by destruct fs.
Qed.

Lemma signalled_snoc evs e : signalled (evs ++ [e]) <-> signalled evs \/ e = ShutdownSignal.
Proof. unfold signalled. rewrite elem_of_app, list_elem_of_singleton. naive_solver. Qed.

Lemma main_inv_step p evs fs e : main_inv p evs fs -> main_inv (step p e) (evs ++ [e]) (fs ++ fails p e).
Proof.
  intros [Hg Hp]. unfold step, fails. destruct (pr_phase p) as [|fe since|fe nd] eqn:Ep.
  - destruct Hp as [Hc Hs]. destruct e as [s res|s| |d|b].
    + case_decide as Hr.
      * unfold server_ends. destruct res as [[]|x].
        { unfold main_inv. cbn. rewrite ?Ep, app_nil_r, signalled_snoc. split; [by apply set_grpc|]. naive_solver. }
        destruct (pr_chan p) as [c|] eqn:Ec; unfold main_inv; cbn; rewrite ?Ep, signalled_snoc;
          (split; [by apply set_grpc|]); (split; [|naive_solver]); destruct fs; cbn in *; congruence.
      * unfold main_inv. rewrite Ep, signalled_snoc. split; [done|]. destruct res; rewrite app_nil_r; naive_solver.
    + case_decide; unfold main_inv; cbn; rewrite ?Ep, app_nil_r, signalled_snoc; (split; [try done; by apply set_grpc|]); naive_solver.
    + unfold main_inv; cbn; rewrite ?Ep, app_nil_r, signalled_snoc. naive_solver.
    + unfold main_inv; cbn; rewrite ?Ep, app_nil_r, signalled_snoc. naive_solver.
    + rewrite app_nil_r. unfold main_polls. rewrite Ep. destruct (pr_chan p) as [c|] eqn:Ec.
      * destruct (b || negb (pr_cancelled p)) eqn:Eb; unfold main_inv; cbn; (split; [done|]); (split; [done|]);
          (split; [lia|]); [by rewrite <- Hc|].
        apply orb_false_iff in Eb as [_ Eb%negb_false_iff]. apply signalled_snoc. left. by apply Hs.
      * destruct (pr_cancelled p) eqn:Eb; unfold main_inv; cbn.
        { split; [done|]. split; [done|]. split; [lia|]. apply signalled_snoc. left. by apply Hs. }
        { rewrite Ep, Ec, signalled_snoc, Eb. naive_solver. }
  - destruct Hp as (Hc & Hn & Hf).
    assert (forall fs', caused fe (evs ++ [e]) (fs ++ fs')) as Hf' by (intros; by apply caused_app).
    destruct e as [s res|s| |d|b].
    + case_decide as Hr.
      * unfold server_ends. destruct res as [[]|x]; [|destruct (pr_chan p)]; unfold main_inv; cbn; rewrite ?Ep;
          (split; [by apply set_grpc|done]).
      * unfold main_inv. rewrite Ep. split; [done|]. destruct res; auto.
    + case_decide; unfold main_inv; cbn; rewrite ?Ep; (split; [try done; by apply set_grpc|]); auto.
    + unfold main_inv; cbn; rewrite ?Ep; auto.
    + unfold main_inv; cbn; rewrite ?Ep. split; [done|]. split; [done|]. split; [lia|auto].
    + unfold main_polls. rewrite Ep. destruct (all_ended (pr_handles p)) eqn:Ea.
      * unfold main_inv. cbn. split; [done|]. split; [done|]. split; [auto|]. left. cbn. split; [done|].
        by apply report_drained.
      * case_match; [|unfold main_inv; rewrite Ep; auto].
        unfold main_inv. cbn. split; [done|]. split; [done|]. split; [auto|]. right. cbn. split; [done|]. lia.
  - unfold main_inv. rewrite Ep. destruct Hp as (? & ? & ?).
    split; [done|]. split; [done|]. split; [by apply caused_app|done].
Qed.

Lemma failures_snoc evs e : forall p, failures p (evs ++ [e]) = failures p evs ++ fails (run p evs) e.
Proof. induction evs as [|e' evs IH]; intros p; cbn; [by rewrite app_nil_r|]. by rewrite IH, <- app_assoc. Qed.

Lemma main_inv_run a evs : main_inv (run (launch a) evs) evs (failures (launch a) evs).
Proof.
  induction evs as [|e evs IH] using rev_ind.
  - split; [by eexists|]. cbn. split; [done|]. unfold signalled. set_solver.
  - unfold run in *. rewrite foldl_snoc, failures_snoc. by apply main_inv_step.
Qed.

(** How the process ends. The main task leaves only after an error of a
    server or a shutdown signal, never because its servers are done: it holds a
    sender of the error channel itself. It reports the first error any server
    returned, later ones are only logged. When every server ends in time the
    count of servers that did not drain is that of the panics less the servers
    that were never started, so a panic goes unnoticed next to a disabled server;
    when one is still running after ten seconds all started servers are counted,
    the drained ones too. *)
Theorem main_exit_report a evs : let p := run (launch a) evs in
  match pr_phase p with
  | Exited res not_drained =>
      pr_cancelled p = true
      /\ match res with Some e => head (failures (launch a) evs) = Some e | None => ShutdownSignal ∈ evs end
      /\ ((all_ended (pr_handles p) = true /\ not_drained = (panics (pr_handles p) - absent (pr_handles p))%nat)
          \/ (all_ended (pr_handles p) = false /\ not_drained = started_count (pr_handles p)))
  | Draining _ _ => pr_cancelled p = true /\ (failures (launch a) evs <> [] \/ ShutdownSignal ∈ evs)
  | Serving => forall b, failures (launch a) evs = [] -> ShutdownSignal ∉ evs -> step p (MainPolls b) = p
  end.
Proof.
  cbn zeta. destruct (main_inv_run a evs) as [_ Hp]. set (fs := failures (launch a) evs) in *.
  destruct (pr_phase (run (launch a) evs)) as [|fe since|fe nd] eqn:Ep.
  - intros b -> Hn. destruct Hp as [Hc Hs]. unfold step, main_polls. rewrite Ep, Hc. cbn.
    destruct (pr_cancelled _) eqn:Eb; [|done]. exfalso. apply Hn. by apply Hs.
  - destruct Hp as (Hc & _ & Hf). split; [done|]. destruct fe; [left|by right]. cbn in Hf. by destruct fs.
  - exact Hp.
Qed.

Lemma drain_steps evs : forall p fe since, pr_phase p = Draining fe since ->
  (pr_phase (run p evs) = Draining fe since /\ pr_now p <= pr_now (run p evs))
  \/ exists r nd, pr_phase (run p evs) = Exited r nd.
Proof.
  assert (forall evs p r nd, pr_phase p = Exited r nd -> pr_phase (run p evs) = Exited r nd) as Hex.
  { clear. induction evs as [|e evs IH]; intros p r nd Hp; [done|]. cbn. apply IH. unfold step. by rewrite Hp. }
  induction evs as [|e evs IH]; intros p fe since Hp; [left; cbn; split; [done|lia]|]. cbn [run foldl].
  assert ((pr_phase (step p e) = Draining fe since /\ pr_now p <= pr_now (step p e))
    \/ exists r nd, pr_phase (step p e) = Exited r nd) as [[Hs Hn]|(r & nd & Hs)].
  { unfold step. rewrite Hp. destruct e as [s [[]|x]|s| |d|b]; try case_decide; unfold server_ends; try case_match;
      unfold main_polls; rewrite ?Hp; try (left; cbn; split; [done|lia]).
    repeat case_match; try (left; split; [done|lia]); right; eauto. }
  - destruct (IH _ _ _ Hs) as [[? ?]|?]; [left; split; [done|unfold run in *; lia]|by right].
  - right. exists r, nd. by apply Hex.
Qed.

(** C15: shutdown is bounded. Once a server's error is in the channel or the
    shutdown token is cancelled, the main task returns: the next time it runs it
    starts draining, and the first time it runs ten seconds later it is done,
    whatever servers do and fail to do meanwhile. *)
Theorem shutdown_terminates a evs b1 evs1 d evs2 b2 : let p := run (launch a) evs in
  pr_chan p <> None \/ pr_cancelled p = true -> drain_timeout <= d ->
  exists r nd, pr_phase (run p (MainPolls b1 :: evs1 ++ Passes d :: evs2 ++ [MainPolls b2])) = Exited r nd.
Proof.
  intros p Hc Hd. pose proof (main_inv_run a evs) as [_ Hi]. fold p in Hi. set (p1 := step p (MainPolls b1)).
  assert ((exists fe since, pr_phase p1 = Draining fe since /\ since <= pr_now p1)
    \/ exists r nd, pr_phase p1 = Exited r nd) as Hp1.
  { subst p1. unfold step, main_polls. destruct (pr_phase p) as [|fe since|fe nd] eqn:Ep.
    - left. destruct (pr_chan p); [case_match|destruct (pr_cancelled p)]; cbn; try (eexists _, _; split; [done|lia]).
      by destruct Hc.
    - destruct Hi as (_ & Hn & _). repeat case_match; cbn; eauto.
    - right. eauto. }
  assert (forall evs q r nd, pr_phase q = Exited r nd -> pr_phase (run q evs) = Exited r nd) as Hex.
  { clear. induction evs as [|e evs IH]; intros q r nd Hq; [done|]. cbn. apply IH. unfold step. by rewrite Hq. }
  change (run p (MainPolls b1 :: ?l)) with (run p1 l).
  destruct Hp1 as [(fe & since & Hp1 & Hn1)|(r & nd & Hp1)]; [|exists r, nd; by apply Hex].
  unfold run. rewrite foldl_app. cbn [foldl]. fold (run p1 evs1).
  destruct (drain_steps evs1 p1 fe since Hp1) as [[Hp2 Hn2]|(r & nd & Hp2)].
  2:{ exists r, nd. apply Hex. unfold step. by rewrite Hp2. }
  set (p3 := step (run p1 evs1) (Passes d)).
  assert (pr_phase p3 = Draining fe since /\ since + drain_timeout <= pr_now p3) as [Hp3 Hn3].
  { subst p3. unfold step. rewrite Hp2. cbn. split; [done|lia]. }
  rewrite foldl_app. fold (run p3 evs2).
  destruct (drain_steps evs2 p3 fe since Hp3) as [[Hp4 Hn4]|(r & nd & Hp4)].
  - cbn. unfold step. rewrite Hp4. unfold main_polls. rewrite Hp4.
    destruct (all_ended _); [cbn; eauto|]. destruct (Z.leb_spec (since + drain_timeout) (pr_now (run p3 evs2))); [cbn; eauto|lia].
  - exists r, nd. cbn. unfold step. by rewrite Hp4.
Qed.

End Main.

(** ** Concrete runs *)

(** RTMP could not bind; gRPC panics while the others drain: nothing is reported. *)
Definition demo_app : App := mkApp false false true true 30000 30000 demo_config.

Lemma hidden_panic : pr_phase (run (E := string) (launch demo_app)
  [ShutdownSignal; MainPolls true; ServerPanics GrpcServer; ServerEnds HttpFlvServer (Ok tt);
   ServerEnds RtspServer (Ok tt); MainPolls true]) = Exited None 0.
Proof. reflexivity. Qed.

Lemma shutdown_terminates_witness : exists r nd, pr_phase (run (run (E := string) (launch demo_app)
    [ServerEnds RtspServer (Err "listener"%string)])
  (MainPolls false :: [] ++ Passes 10000 :: [] ++ [MainPolls true])) = Exited r nd.
Proof.
  apply (shutdown_terminates (E := string) demo_app [ServerEnds RtspServer (Err "listener"%string)]); [left; discriminate|reflexivity].
Defined.
